(** * realm-core: the shared-group coordinator ([src/realm/group_shared.cpp])

    A shallow embedding of the version ring buffer, the packed atomic
    counters, the session header and the transaction state machine of
    [SharedGroup], followed by the properties proved about them.

    Conventions of the embedding.
    - A [uintN_t] is a [Z] with the wrap-around written out ([wrap32],
      [wrap64]).
    - The ring's [data[]] array is a [list] of slots addressed with stdpp's
      lookup and insert; an access outside the backing store is undefined
      behaviour in C++ and is the outcome [Undefined] here.
    - Code that throws, asserts or loops runs in the monad [M]: a state
      transformer whose outcome is a value, a thrown exception (with the
      state at the throw), [std::terminate], undefined behaviour, or a loop
      that is still spinning when its fuel is spent.
    - The atomics are executed one operation at a time, in program order;
      memory-ordering arguments have no counterpart in the embedding. *)

From Stdlib Require Import ZArith Lia List Bool String.
From stdpp Require Import base tactics option list.
Import ListNotations.
Local Open Scope Z_scope.

(** ** Fixed-width integers *)

Definition wrap32 (z : Z) : Z := z mod 2 ^ 32.
Definition wrap64 (z : Z) : Z := z mod 2 ^ 64.
Definition is_u32 (z : Z) : Prop := 0 <= z < 2 ^ 32.
Definition is_u64 (z : Z) : Prop := 0 <= z < 2 ^ 64.

(** ** Exceptions and outcomes *)

Inductive exn : Type :=
| BadVersion
| LogicError_wrong_transact_state
| LogicError_mixed_durability
| LogicError_mixed_history_type
| runtime_error (msg : string)
| IncompatibleLockFile (msg : string)
| InvalidDatabase (msg : string)
| FileFormatUpgradeRequired
| external_failure (origin : string).

Inductive outcome (St A : Type) : Type :=
| Ret (a : A) (s : St)
| Throw (e : exn) (s : St)
| Terminate
| Undefined
| Spin.
Arguments Ret {St A} a s.
Arguments Throw {St A} e s.
Arguments Terminate {St A}.
Arguments Undefined {St A}.
Arguments Spin {St A}.

Definition M (St A : Type) : Type := St -> outcome St A.

Definition ret {St A} (a : A) : M St A := fun s => Ret a s.

Definition bind {St A B} (m : M St A) (k : A -> M St B) : M St B :=
  fun s =>
    match m s with
    | Ret a s' => k a s'
    | Throw e s' => Throw e s'
    | Terminate => Terminate
    | Undefined => Undefined
    | Spin => Spin
    end.

Notation "x <- m ;; k" := (bind m (fun x => k))
  (at level 100, m at next level, right associativity).
Notation "m ;;; k" := (bind m (fun _ => k))
  (at level 100, right associativity).

Definition get_state {St} : M St St := fun s => Ret s s.
Definition modify {St} (f : St -> St) : M St unit := fun s => Ret tt (f s).
Definition throw {St A} (e : exn) : M St A := fun s => Throw e s.
Definition terminate {St A} : M St A := fun _ => Terminate.
Definition undefined {St A} : M St A := fun _ => Undefined.
Definition spin {St A} : M St A := fun _ => Spin.

(** [try { m } catch (...) { h; throw; }] *)
Definition catch_rethrow {St A} (m : M St A) (h : M St unit) : M St A :=
  fun s =>
    match m s with
    | Throw e s' =>
        match h s' with
        | Ret _ s'' => Throw e s''
        | Throw e' s'' => Throw e' s''
        | Terminate => Terminate
        | Undefined => Undefined
        | Spin => Spin
        end
    | o => o
    end.

(** Scope exit: [h] runs whether [m] returns or throws. *)
Definition finally {St A} (m : M St A) (h : M St unit) : M St A :=
  fun s =>
    match m s with
    | Ret a s' =>
        match h s' with
        | Ret _ s'' => Ret a s''
        | Throw e s'' => Throw e s''
        | Terminate => Terminate
        | Undefined => Undefined
        | Spin => Spin
        end
    | Throw e s' =>
        match h s' with
        | Ret _ s'' => Throw e s''
        | Throw e' s'' => Throw e' s''
        | Terminate => Terminate
        | Undefined => Undefined
        | Spin => Spin
        end
    | o => o
    end.

(** A function declared [noexcept]: an exception that would leave it calls
    [std::terminate]. *)
Definition noexcept {St A} (m : M St A) : M St A :=
  fun s => match m s with Throw _ _ => Terminate | o => o end.

(** Run a computation on a component of the state. *)
Definition zoom {St St' A} (proj : St -> St') (upd : St' -> St -> St)
  (m : M St' A) : M St A :=
  fun s =>
    match m (proj s) with
    | Ret a s' => Ret a (upd s' s)
    | Throw e s' => Throw e (upd s' s)
    | Terminate => Terminate
    | Undefined => Undefined
    | Spin => Spin
    end.

(** [REALM_ASSERT(cond)]: the macro is not part of this file; it ends the
    process when assertions are compiled in and does nothing otherwise. *)
Definition REALM_ASSERT {St} (assertions : bool) (cond : bool) : M St unit :=
  if assertions && negb cond then terminate else ret tt.

(** ** Atomic counter primitives (lines 158-191)

    [std::atomic<uint32_t>]: [fetch_add] and [fetch_sub] return the prior
    value and store the sum or difference modulo [2^32]. *)

Definition fetch_add (counter k : Z) : Z * Z := (counter, wrap32 (counter + k)).
Definition fetch_sub (counter k : Z) : Z * Z := (counter, wrap32 (counter - k)).

Definition atomic_double_inc_if_even (counter : Z) : bool * Z :=
  let '(oldval, counter) := fetch_add counter 2 in
  if negb (Z.land oldval 1 =? 0) then
    (* oooops! was odd, adjust *)
    let '(_, counter) := fetch_sub counter 2 in
    (false, counter)
  else (true, counter).

Definition atomic_double_dec (counter : Z) : Z := snd (fetch_sub counter 2).

Definition atomic_one_if_zero (counter : Z) : bool * Z :=
  let '(old_val, counter) := fetch_add counter 1 in
  if negb (old_val =? 0) then
    let '(_, counter) := fetch_sub counter 1 in
    (false, counter)
  else (true, counter).

Definition atomic_dec (counter : Z) : Z := snd (fetch_sub counter 1).

(** ** The ring buffer (lines 194-376) *)

Module ReadCount.

Record t : Type := mk {
  version : Z;      (* uint64_t *)
  filesize : Z;     (* uint64_t *)
  current_top : Z;  (* uint64_t *)
  count : Z;        (* std::atomic<uint32_t> *)
  next : Z          (* uint32_t *)
}.

Definition set_version (v : Z) (r : t) : t :=
  mk v (filesize r) (current_top r) (count r) (next r).
Definition set_filesize (v : Z) (r : t) : t :=
  mk (version r) v (current_top r) (count r) (next r).
Definition set_current_top (v : Z) (r : t) : t :=
  mk (version r) (filesize r) v (count r) (next r).
Definition set_count (v : Z) (r : t) : t :=
  mk (version r) (filesize r) (current_top r) v (next r).
Definition set_next (v : Z) (r : t) : t :=
  mk (version r) (filesize r) (current_top r) (count r) v.

(** A slot of freshly allocated, zero-filled file space. *)
Definition zero : t := mk 0 0 0 0 0.

End ReadCount.

Module Ringbuffer.

Record t : Type := mk {
  entries : Z;                (* uint32_t *)
  put_pos : Z;                (* std::atomic<uint32_t> *)
  old_pos : Z;                (* std::atomic<uint32_t> *)
  data : list ReadCount.t     (* ReadCount data[]; extended at run time *)
}.

Definition set_entries (v : Z) (rb : t) : t :=
  mk v (put_pos rb) (old_pos rb) (data rb).
Definition set_put_pos (v : Z) (rb : t) : t :=
  mk (entries rb) v (old_pos rb) (data rb).
Definition set_old_pos (v : Z) (rb : t) : t :=
  mk (entries rb) (put_pos rb) v (data rb).
Definition set_data (d : list ReadCount.t) (rb : t) : t :=
  mk (entries rb) (put_pos rb) (old_pos rb) d.

Definition init_readers_size : Z := 32.

(** The slot stored at index [idx], if the backing store has one. *)
Definition slot (d : list ReadCount.t) (idx : Z) : option ReadCount.t :=
  if idx <? 0 then None else d !! Z.to_nat idx.

(** [data[idx]] read. *)
Definition get (idx : Z) : M t ReadCount.t :=
  fun rb =>
    match slot (data rb) idx with
    | Some r => Ret r rb
    | None => Undefined
    end.

(** [data[idx].field = ...] written through [f]. *)
Definition update (idx : Z) (f : ReadCount.t -> ReadCount.t) : M t unit :=
  fun rb =>
    match slot (data rb) idx with
    | Some r => Ret tt (set_data (<[Z.to_nat idx := f r]> (data rb)) rb)
    | None => Undefined
    end.

(** The body of the two initialisation loops: slot [i] becomes a free slot
    chained to [i + 1]. *)
Definition init_slot (i : Z) (_ : ReadCount.t) : ReadCount.t :=
  ReadCount.mk 1 0 0 1 (wrap32 (i + 1)).

(** [for (i = from; i < from + n; i++) { data[i] = free slot }] *)
Fixpoint init_loop (n : nat) (i : Z) : M t unit :=
  match n with
  | O => ret tt
  | S n' => update i (init_slot i) ;;; init_loop n' (i + 1)
  end.

(** [Ringbuffer()], run on the zero-filled image of the header. *)
Definition Ringbuffer : M t unit :=
  modify (set_entries init_readers_size) ;;;
  init_loop (Z.to_nat init_readers_size) 0 ;;;
  modify (set_old_pos 0) ;;;
  update 0 (ReadCount.set_count 0) ;;;
  update (init_readers_size - 1) (ReadCount.set_next 0) ;;;
  modify (set_put_pos 0).

Definition zero_image : t :=
  mk 0 0 0 (replicate (Z.to_nat init_readers_size) ReadCount.zero).

Definition expand_to (new_entries : Z) : M t unit :=
  rb <- get_state ;;
  init_loop (Z.to_nat (new_entries - entries rb)) (entries rb) ;;;
  update (new_entries - 1) (ReadCount.set_next (old_pos rb)) ;;;
  update (put_pos rb) (ReadCount.set_next (entries rb)) ;;;
  modify (set_entries (wrap32 new_entries)).

(** [sizeof(ReadCount) * (num_entries - init_readers_size)] *)
Definition sizeof_ReadCount : Z := 32.
Definition compute_required_space (num_entries : Z) : Z :=
  sizeof_ReadCount * (num_entries - init_readers_size).

Definition get_num_entries : M t Z := rb <- get_state ;; ret (entries rb).

Definition last : M t Z := rb <- get_state ;; ret (put_pos rb).

Definition get_last : M t ReadCount.t := idx <- last ;; get idx.

(** Returns the index of the re-initialised slot (the C++ returns a
    reference to it). *)
Definition reinit_last : M t Z :=
  idx <- last ;;
  update idx (ReadCount.set_count 0) ;;;
  ret idx.

Definition get_oldest : M t ReadCount.t := rb <- get_state ;; get (old_pos rb).

Definition is_full : M t bool :=
  idx <- last ;;
  r <- get idx ;;
  rb <- get_state ;;
  ret (ReadCount.next r =? old_pos rb).

Definition next : M t Z :=
  idx <- last ;;
  r <- get idx ;;
  ret (ReadCount.next r).

(** Returns the index of the slot (the C++ returns a reference to it). *)
Definition get_next (assertions : bool) : M t Z :=
  full <- is_full ;;
  REALM_ASSERT assertions (negb full) ;;;
  next.

Definition use_next (assertions : bool) : M t unit :=
  idx <- get_next assertions ;;
  r <- get idx ;;
  update idx (ReadCount.set_count (atomic_dec (ReadCount.count r))) ;;;
  n <- next ;;
  modify (set_put_pos n).

Fixpoint cleanup_loop (fuel : nat) : M t unit :=
  match fuel with
  | O => spin
  | S fuel' =>
      rb <- get_state ;;
      if negb (old_pos rb =? put_pos rb) then
        r <- get (old_pos rb) ;;
        let '(ok, c) := atomic_one_if_zero (ReadCount.count r) in
        update (old_pos rb) (ReadCount.set_count c) ;;;
        if negb ok then ret tt (* break *)
        else
          r' <- get (old_pos rb) ;;
          modify (set_old_pos (ReadCount.next r')) ;;;
          cleanup_loop fuel'
      else ret tt
  end.

(** Every successful iteration turns one zero count into a one, so the loop
    runs at most once per slot and once more to stop ([cleanup_terminates]
    below). *)
Definition cleanup : M t unit :=
  rb <- get_state ;;
  cleanup_loop (S (length (data rb))).

(** Following [next] from slot [i]: the slots visited in [n] steps, and the
    slot reached after them. *)
Fixpoint walk (d : list ReadCount.t) (n : nat) (i : Z) : list Z :=
  match n with
  | O => []
  | S n' =>
      i :: match slot d i with
           | Some r => walk d n' (ReadCount.next r)
           | None => []
           end
  end.

Fixpoint follow (d : list ReadCount.t) (n : nat) (i : Z) : option Z :=
  match n with
  | O => Some i
  | S n' =>
      match slot d i with
      | Some r => follow d n' (ReadCount.next r)
      | None => None
      end
  end.

(** The spec's classification of a slot by its packed counter: live when
    the free bit is clear, free when the counter is exactly one. *)
Definition is_live (r : ReadCount.t) : bool := Z.land (ReadCount.count r) 1 =? 0.
Definition is_free (r : ReadCount.t) : bool := ReadCount.count r =? 1.

Definition live_count (rb : t) : Z :=
  Z.of_nat (length (filter (fun r => is_live r = true)
                      (take (Z.to_nat (entries rb)) (data rb)))).
Definition free_count (rb : t) : Z :=
  Z.of_nat (length (filter (fun r => is_free r = true)
                      (take (Z.to_nat (entries rb)) (data rb)))).

(** [path d s l t]: starting at slot [s] and following [next], the slots
    visited are exactly [l], and the [next] of the last one is [t]. *)
Fixpoint path (d : list ReadCount.t) (s : Z) (l : list Z) (t : Z) : Prop :=
  match l with
  | [] => s = t
  | i :: l' =>
      s = i /\ exists r, slot d i = Some r /\ path d (ReadCount.next r) l' t
  end.

(** The ring invariant, with the ring's layout made explicit: [older] are
    the live slots from [old_pos] up to (not including) [put_pos], oldest
    first, and [free] the free slots after [put_pos] up to (not including)
    [old_pos]. *)
Record ring_at (rb : t) (older free : list Z) : Prop := {
  ring_cycle :
    path (data rb) (old_pos rb) (older ++ put_pos rb :: free) (old_pos rb);
  ring_slots : older ++ put_pos rb :: free ≡ₚ seqZ 0 (entries rb);
  ring_live : forall i r,
    i ∈ older ++ [put_pos rb] -> slot (data rb) i = Some r ->
    is_live r = true /\ is_u32 (ReadCount.count r);
  ring_free : forall i r,
    i ∈ free -> slot (data rb) i = Some r -> ReadCount.count r = 1;
  ring_entries : is_u32 (entries rb)
}.

Definition wf (rb : t) : Prop := exists older free, ring_at rb older free.

End Ringbuffer.

(** ** The session header (lines 404-585) *)

Definition g_shared_info_version : Z := 8.

(** [SharedGroupOptions::Durability] and [Replication::HistoryType] are
    declared in headers that are not part of this file; their codes follow
    the declaration order. *)
Inductive Durability : Type := Full | MemOnly | Async.

Definition durability_code (d : Durability) : Z :=
  match d with Full => 0 | MemOnly => 1 | Async => 2 end.

Definition hist_None : Z := 0.
Definition hist_OutOfRealm : Z := 1.
Definition hist_InRealm : Z := 2.
Definition hist_Sync : Z := 3.

Module SharedInfo.

(** The mutexes are recorded by whether they are held; the condition
    variables carry no state of their own in a sequential run. *)
Record t : Type := mk {
  init_complete : Z;             (* uint8_t,  offset 0 *)
  size_of_mutex : Z;             (* uint8_t,  offset 1 *)
  size_of_condvar : Z;           (* uint8_t,  offset 2 *)
  commit_in_critical_phase : Z;  (* uint8_t,  offset 3 *)
  file_format_version : Z;       (* uint8_t,  offset 4 *)
  history_type : Z;              (* int8_t,   offset 5 *)
  shared_info_version : Z;       (* uint16_t, offset 6 *)
  durability : Z;                (* uint16_t, offset 8 *)
  free_write_slots : Z;          (* uint16_t, offset 10 *)
  num_participants : Z;          (* uint32_t, offset 12 *)
  latest_version_number : Z;     (* uint64_t, offset 16 *)
  session_initiator_pid : Z;     (* uint64_t, offset 24 *)
  number_of_versions : Z;        (* uint64_t, offset 32 *)
  daemon_started : Z;            (* uint8_t,  offset 41 *)
  daemon_ready : Z;              (* uint8_t,  offset 42 *)
  shared_writemutex : bool;
  shared_balancemutex : bool;
  shared_controlmutex : bool;
  readers : Ringbuffer.t         (* must be the last field *)
}.

Definition set_init_complete (v : Z) (i : t) : t :=
  mk v (size_of_mutex i) (size_of_condvar i) (commit_in_critical_phase i)
    (file_format_version i) (history_type i) (shared_info_version i)
    (durability i) (free_write_slots i) (num_participants i)
    (latest_version_number i) (session_initiator_pid i) (number_of_versions
    i) (daemon_started i) (daemon_ready i) (shared_writemutex i)
    (shared_balancemutex i) (shared_controlmutex i) (readers i).
Definition set_commit_in_critical_phase (v : Z) (i : t) : t :=
  mk (init_complete i) (size_of_mutex i) (size_of_condvar i) v
    (file_format_version i) (history_type i) (shared_info_version i)
    (durability i) (free_write_slots i) (num_participants i)
    (latest_version_number i) (session_initiator_pid i) (number_of_versions
    i) (daemon_started i) (daemon_ready i) (shared_writemutex i)
    (shared_balancemutex i) (shared_controlmutex i) (readers i).
Definition set_file_format_version (v : Z) (i : t) : t :=
  mk (init_complete i) (size_of_mutex i) (size_of_condvar i)
    (commit_in_critical_phase i) v (history_type i) (shared_info_version i)
    (durability i) (free_write_slots i) (num_participants i)
    (latest_version_number i) (session_initiator_pid i) (number_of_versions
    i) (daemon_started i) (daemon_ready i) (shared_writemutex i)
    (shared_balancemutex i) (shared_controlmutex i) (readers i).
Definition set_free_write_slots (v : Z) (i : t) : t :=
  mk (init_complete i) (size_of_mutex i) (size_of_condvar i)
    (commit_in_critical_phase i) (file_format_version i) (history_type i)
    (shared_info_version i) (durability i) v (num_participants i)
    (latest_version_number i) (session_initiator_pid i) (number_of_versions
    i) (daemon_started i) (daemon_ready i) (shared_writemutex i)
    (shared_balancemutex i) (shared_controlmutex i) (readers i).
Definition set_num_participants (v : Z) (i : t) : t :=
  mk (init_complete i) (size_of_mutex i) (size_of_condvar i)
    (commit_in_critical_phase i) (file_format_version i) (history_type i)
    (shared_info_version i) (durability i) (free_write_slots i) v
    (latest_version_number i) (session_initiator_pid i) (number_of_versions
    i) (daemon_started i) (daemon_ready i) (shared_writemutex i)
    (shared_balancemutex i) (shared_controlmutex i) (readers i).
Definition set_latest_version_number (v : Z) (i : t) : t :=
  mk (init_complete i) (size_of_mutex i) (size_of_condvar i)
    (commit_in_critical_phase i) (file_format_version i) (history_type i)
    (shared_info_version i) (durability i) (free_write_slots i)
    (num_participants i) v (session_initiator_pid i) (number_of_versions i)
    (daemon_started i) (daemon_ready i) (shared_writemutex i)
    (shared_balancemutex i) (shared_controlmutex i) (readers i).
Definition set_session_initiator_pid (v : Z) (i : t) : t :=
  mk (init_complete i) (size_of_mutex i) (size_of_condvar i)
    (commit_in_critical_phase i) (file_format_version i) (history_type i)
    (shared_info_version i) (durability i) (free_write_slots i)
    (num_participants i) (latest_version_number i) v (number_of_versions i)
    (daemon_started i) (daemon_ready i) (shared_writemutex i)
    (shared_balancemutex i) (shared_controlmutex i) (readers i).
Definition set_number_of_versions (v : Z) (i : t) : t :=
  mk (init_complete i) (size_of_mutex i) (size_of_condvar i)
    (commit_in_critical_phase i) (file_format_version i) (history_type i)
    (shared_info_version i) (durability i) (free_write_slots i)
    (num_participants i) (latest_version_number i) (session_initiator_pid i)
    v (daemon_started i) (daemon_ready i) (shared_writemutex i)
    (shared_balancemutex i) (shared_controlmutex i) (readers i).
Definition set_daemon_started (v : Z) (i : t) : t :=
  mk (init_complete i) (size_of_mutex i) (size_of_condvar i)
    (commit_in_critical_phase i) (file_format_version i) (history_type i)
    (shared_info_version i) (durability i) (free_write_slots i)
    (num_participants i) (latest_version_number i) (session_initiator_pid i)
    (number_of_versions i) v (daemon_ready i) (shared_writemutex i)
    (shared_balancemutex i) (shared_controlmutex i) (readers i).
Definition set_daemon_ready (v : Z) (i : t) : t :=
  mk (init_complete i) (size_of_mutex i) (size_of_condvar i)
    (commit_in_critical_phase i) (file_format_version i) (history_type i)
    (shared_info_version i) (durability i) (free_write_slots i)
    (num_participants i) (latest_version_number i) (session_initiator_pid i)
    (number_of_versions i) (daemon_started i) v (shared_writemutex i)
    (shared_balancemutex i) (shared_controlmutex i) (readers i).
Definition set_shared_writemutex (v : bool) (i : t) : t :=
  mk (init_complete i) (size_of_mutex i) (size_of_condvar i)
    (commit_in_critical_phase i) (file_format_version i) (history_type i)
    (shared_info_version i) (durability i) (free_write_slots i)
    (num_participants i) (latest_version_number i) (session_initiator_pid i)
    (number_of_versions i) (daemon_started i) (daemon_ready i) v
    (shared_balancemutex i) (shared_controlmutex i) (readers i).
Definition set_shared_balancemutex (v : bool) (i : t) : t :=
  mk (init_complete i) (size_of_mutex i) (size_of_condvar i)
    (commit_in_critical_phase i) (file_format_version i) (history_type i)
    (shared_info_version i) (durability i) (free_write_slots i)
    (num_participants i) (latest_version_number i) (session_initiator_pid i)
    (number_of_versions i) (daemon_started i) (daemon_ready i)
    (shared_writemutex i) v (shared_controlmutex i) (readers i).
Definition set_shared_controlmutex (v : bool) (i : t) : t :=
  mk (init_complete i) (size_of_mutex i) (size_of_condvar i)
    (commit_in_critical_phase i) (file_format_version i) (history_type i)
    (shared_info_version i) (durability i) (free_write_slots i)
    (num_participants i) (latest_version_number i) (session_initiator_pid i)
    (number_of_versions i) (daemon_started i) (daemon_ready i)
    (shared_writemutex i) (shared_balancemutex i) v (readers i).
Definition set_readers (v : Ringbuffer.t) (i : t) : t :=
  mk (init_complete i) (size_of_mutex i) (size_of_condvar i)
    (commit_in_critical_phase i) (file_format_version i) (history_type i)
    (shared_info_version i) (durability i) (free_write_slots i)
    (num_participants i) (latest_version_number i) (session_initiator_pid i)
    (number_of_versions i) (daemon_started i) (daemon_ready i)
    (shared_writemutex i) (shared_balancemutex i) (shared_controlmutex i) v.

(** The ring as [Ringbuffer()] leaves it. *)
Definition fresh_ring : Ringbuffer.t :=
  match Ringbuffer.Ringbuffer Ringbuffer.zero_image with
  | Ret _ rb => rb
  | _ => Ringbuffer.zero_image
  end.

(** [SharedInfo(dura, hist_type)], constructed in a zero-filled buffer.  The
    two sizes are stored in [uint8_t] members. *)
Definition SharedInfo (sizeof_mutex sizeof_condvar : Z)
  (dura : Z) (hist_type : Z) : t :=
  mk 0 (sizeof_mutex mod 2 ^ 8) (sizeof_condvar mod 2 ^ 8) 0 0 hist_type
     g_shared_info_version
     dura 0 0 0 0 0 0 0 false false false fresh_ring.

Definition on_readers {A} (m : M Ringbuffer.t A) : M t A :=
  zoom readers set_readers m.

Definition init_versioning (top_ref file_size initial_version : Z) : M t unit :=
  (* Create our first versioning entry: *)
  r <- on_readers Ringbuffer.reinit_last ;;
  on_readers (Ringbuffer.update r (ReadCount.set_filesize file_size)) ;;;
  on_readers (Ringbuffer.update r (ReadCount.set_version initial_version)) ;;;
  on_readers (Ringbuffer.update r (ReadCount.set_current_top top_ref)).

Definition get_current_version_unchecked : M t Z :=
  r <- on_readers Ringbuffer.get_last ;;
  ret (ReadCount.version r).

End SharedInfo.

(** ** External collaborators

    The allocator, the group serializer, the replication and history hooks
    and the platform are outside this file.  What the coordinator consumes
    of them is collected here: each entry says what the collaborator
    answers, [false] or [None] standing for a call that throws. *)

Record Replication : Type := {
  get_history_type : Z;
  initiate_session : Z -> bool;
  initiate_transact : Z -> bool;
  prepare_commit : Z -> option Z
}.

Inductive attach_result : Type :=
| attached (top_ref : Z)
| attach_retry            (* SlabAlloc::Retry *)
| attach_failed.

Record Collaborators : Type := {
  assertions : bool;                    (* REALM_ASSERT compiled in *)
  async_daemon : bool;                  (* REALM_ASYNC_DAEMON defined *)
  sizeof_SharedInfo : Z;
  sizeof_mutex : Z;
  sizeof_condvar : Z;
  getpid : Z;
  replication : option Replication;     (* m_group.get_replication() *)
  history : option (Z -> bool);         (* get_history(), set_oldest_bound_version *)
  attach_shared : Z -> Z -> bool -> bool;   (* gf::attach_shared *)
  write_group : Z -> Z -> option Z;     (* GroupWriter::write_group after set_versions *)
  writer_commit : Z -> bool;            (* GroupWriter::commit *)
  writer_file_size : Z -> Z;            (* GroupWriter::get_file_size *)
  controlmutex_valid : bool;            (* InterprocessMutex::is_valid *)
  attach_file : bool -> attach_result;  (* SlabAlloc::attach_file, by session_initiator *)
  get_baseline : Z;                     (* SlabAlloc::get_baseline *)
  stored_version : Z;                   (* gf::get_version_and_history_type *)
  stored_history_type : Z;
  stored_file_format_version : Z;       (* gf::get_file_format_version after attach *)
  target_file_format_version : Z -> Z -> Z;
  committed_file_format_version : Z;    (* gf::get_committed_file_format_version *)
  upgrade_file_format_ok : bool;        (* gf::upgrade_file_format *)
  upgrade_callback : option bool;       (* m_upgrade_callback, and whether it returns *)
  group_write_ok : bool;                (* Group::write to the compaction file *)
  disable_sync_to_disk : bool
}.

Record SharedGroupOptions : Type := {
  opt_durability : Z;                   (* a Durability code *)
  encryption_key : bool;                (* whether a key is given *)
  allow_file_format_upgrade : bool
}.

(** ** The coordinator (lines 704-1910) *)

Module SharedGroup.

Inductive TransactStage : Type :=
| transact_Ready
| transact_Reading
| transact_Writing.

Definition stage_eqb (a b : TransactStage) : bool :=
  match a, b with
  | transact_Ready, transact_Ready => true
  | transact_Reading, transact_Reading => true
  | transact_Writing, transact_Writing => true
  | _, _ => false
  end.

Record ReadLockInfo : Type := mkReadLockInfo {
  m_version : Z;     (* uint_fast64_t *)
  m_reader_idx : Z;  (* uint_fast32_t *)
  m_top_ref : Z;     (* ref_type *)
  m_file_size : Z    (* size_t *)
}.

Definition set_m_version (v : Z) (l : ReadLockInfo) : ReadLockInfo :=
  mkReadLockInfo v (m_reader_idx l) (m_top_ref l) (m_file_size l).
Definition set_m_reader_idx (v : Z) (l : ReadLockInfo) : ReadLockInfo :=
  mkReadLockInfo (m_version l) v (m_top_ref l) (m_file_size l).
Definition set_m_top_ref (v : Z) (l : ReadLockInfo) : ReadLockInfo :=
  mkReadLockInfo (m_version l) (m_reader_idx l) v (m_file_size l).
Definition set_m_file_size (v : Z) (l : ReadLockInfo) : ReadLockInfo :=
  mkReadLockInfo (m_version l) (m_reader_idx l) (m_top_ref l) v.

Definition max_version : Z := 2 ^ 64 - 1.

Record VersionID : Type := mkVersionID {
  version : Z;   (* uint_fast64_t *)
  index : Z      (* uint_fast32_t *)
}.

(** [VersionID()]: the latest available snapshot. *)
Definition VersionID_latest : VersionID := mkVersionID max_version 0.

(** The members of a [SharedGroup] object that the modelled methods use.
    The memory mappings and the file handle are recorded by whether they
    are attached, the group accessor by whether it is attached and the file
    format it reports. *)
Record t : Type := mk {
  m_transact_stage : TransactStage;
  m_read_lock : ReadLockInfo;
  m_local_max_entry : Z;
  m_wait_for_change_enabled : bool;
  m_file_map_attached : bool;
  m_group_attached : bool;
  m_alloc_attached : bool;
  m_file_format_version : Z;
  m_file_locked : bool;
  m_key : bool;
  m_db_path : string
}.

Definition set_m_transact_stage (v : TransactStage) (g : t) : t :=
  mk v (m_read_lock g) (m_local_max_entry g) (m_wait_for_change_enabled g)
    (m_file_map_attached g) (m_group_attached g) (m_alloc_attached g)
    (m_file_format_version g) (m_file_locked g) (m_key g) (m_db_path g).
Definition set_m_read_lock (v : ReadLockInfo) (g : t) : t :=
  mk (m_transact_stage g) v (m_local_max_entry g) (m_wait_for_change_enabled
    g) (m_file_map_attached g) (m_group_attached g) (m_alloc_attached g)
    (m_file_format_version g) (m_file_locked g) (m_key g) (m_db_path g).
Definition set_m_local_max_entry (v : Z) (g : t) : t :=
  mk (m_transact_stage g) (m_read_lock g) v (m_wait_for_change_enabled g)
    (m_file_map_attached g) (m_group_attached g) (m_alloc_attached g)
    (m_file_format_version g) (m_file_locked g) (m_key g) (m_db_path g).
Definition set_m_wait_for_change_enabled (v : bool) (g : t) : t :=
  mk (m_transact_stage g) (m_read_lock g) (m_local_max_entry g) v
    (m_file_map_attached g) (m_group_attached g) (m_alloc_attached g)
    (m_file_format_version g) (m_file_locked g) (m_key g) (m_db_path g).
Definition set_m_file_map_attached (v : bool) (g : t) : t :=
  mk (m_transact_stage g) (m_read_lock g) (m_local_max_entry g)
    (m_wait_for_change_enabled g) v (m_group_attached g) (m_alloc_attached
    g) (m_file_format_version g) (m_file_locked g) (m_key g) (m_db_path g).
Definition set_m_group_attached (v : bool) (g : t) : t :=
  mk (m_transact_stage g) (m_read_lock g) (m_local_max_entry g)
    (m_wait_for_change_enabled g) (m_file_map_attached g) v
    (m_alloc_attached g) (m_file_format_version g) (m_file_locked g) (m_key
    g) (m_db_path g).
Definition set_m_alloc_attached (v : bool) (g : t) : t :=
  mk (m_transact_stage g) (m_read_lock g) (m_local_max_entry g)
    (m_wait_for_change_enabled g) (m_file_map_attached g) (m_group_attached
    g) v (m_file_format_version g) (m_file_locked g) (m_key g) (m_db_path
    g).
Definition set_m_file_format_version (v : Z) (g : t) : t :=
  mk (m_transact_stage g) (m_read_lock g) (m_local_max_entry g)
    (m_wait_for_change_enabled g) (m_file_map_attached g) (m_group_attached
    g) (m_alloc_attached g) v (m_file_locked g) (m_key g) (m_db_path g).
Definition set_m_file_locked (v : bool) (g : t) : t :=
  mk (m_transact_stage g) (m_read_lock g) (m_local_max_entry g)
    (m_wait_for_change_enabled g) (m_file_map_attached g) (m_group_attached
    g) (m_alloc_attached g) (m_file_format_version g) v (m_key g) (m_db_path
    g).
Definition set_m_key (v : bool) (g : t) : t :=
  mk (m_transact_stage g) (m_read_lock g) (m_local_max_entry g)
    (m_wait_for_change_enabled g) (m_file_map_attached g) (m_group_attached
    g) (m_alloc_attached g) (m_file_format_version g) (m_file_locked g) v
    (m_db_path g).
Definition set_m_db_path (v : string) (g : t) : t :=
  mk (m_transact_stage g) (m_read_lock g) (m_local_max_entry g)
    (m_wait_for_change_enabled g) (m_file_map_attached g) (m_group_attached
    g) (m_alloc_attached g) (m_file_format_version g) (m_file_locked g)
    (m_key g) v.


(** What the methods do to files other than the lock file. *)
Inductive fs_event : Type :=
| fs_try_remove (path : string)
| fs_create (path : string)
| fs_write_group (path : string) (version_number : Z)
| fs_sync (path : string)
| fs_move (src dst : string)
| fs_remove (path : string)
| fs_spawn_daemon (path : string).

(** One participant together with the session it takes part in: its own
    object, the lock file (its size and, mapped, its contents), the number
    of other participants that hold the shared file lock, and the log of
    file operations. *)
Record World : Type := mkWorld {
  sg : t;
  lockfile_size : Z;
  info : SharedInfo.t;
  other_lockers : Z;
  fs_log : list fs_event
}.

Definition set_sg (v : t) (w : World) : World :=
  mkWorld v (lockfile_size w) (info w) (other_lockers w) (fs_log w).
Definition set_lockfile_size (v : Z) (w : World) : World :=
  mkWorld (sg w) v (info w) (other_lockers w) (fs_log w).
Definition set_info (v : SharedInfo.t) (w : World) : World :=
  mkWorld (sg w) (lockfile_size w) v (other_lockers w) (fs_log w).
Definition set_fs_log (v : list fs_event) (w : World) : World :=
  mkWorld (sg w) (lockfile_size w) (info w) (other_lockers w) v.

Definition on_sg (f : t -> t) : M World unit :=
  modify (fun w => set_sg (f (sg w)) w).
Definition on_info {A} (m : M SharedInfo.t A) : M World A := zoom info set_info m.
Definition on_readers {A} (m : M Ringbuffer.t A) : M World A :=
  on_info (SharedInfo.on_readers m).
Definition log (e : fs_event) : M World unit :=
  modify (fun w => set_fs_log (fs_log w ++ [e]) w).
Definition must (ok : bool) (origin : string) : M World unit :=
  if ok then ret tt else throw (external_failure origin).

(** [InterprocessMutex::lock] and [unlock]; a lock that is held blocks the
    caller, which in a sequential run never ends. *)
Definition lock (held : SharedInfo.t -> bool)
  (set_held : bool -> SharedInfo.t -> SharedInfo.t) : M World unit :=
  w <- get_state ;;
  if held (info w) then spin else on_info (modify (set_held true)).
Definition unlock (set_held : bool -> SharedInfo.t -> SharedInfo.t) : M World unit :=
  on_info (modify (set_held false)).

(** [std::lock_guard<InterprocessMutex> lock(m_controlmutex);] around [m]. *)
Definition with_controlmutex {A} (m : M World A) : M World A :=
  lock SharedInfo.shared_controlmutex SharedInfo.set_shared_controlmutex ;;;
  finally m (unlock SharedInfo.set_shared_controlmutex).

Definition is_attached (w : World) : bool := m_file_map_attached (sg w).

Section Methods.

Variable env : Collaborators.
(** The bound on the iterations of each retry loop. *)
Variable fuel : nat.

(** The test hook [SimulatedFailure::trigger] and a failing [remap] are left
    out: the mapping always grows. *)
Definition grow_reader_mapping (index : Z) : M World bool :=
  w <- get_state ;;
  if index >=? m_local_max_entry (sg w) then
    (* handle mapping expansion if required *)
    n <- on_readers Ringbuffer.get_num_entries ;;
    on_sg (set_m_local_max_entry n) ;;;
    ret true
  else ret false.

Definition release_read_lock (read_lock : ReadLockInfo) : M World unit :=
  noexcept (
    grow_reader_mapping (m_reader_idx read_lock) ;;;
    r <- on_readers (Ringbuffer.get (m_reader_idx read_lock)) ;;
    on_readers (Ringbuffer.update (m_reader_idx read_lock)
                  (ReadCount.set_count (atomic_double_dec (ReadCount.count r))))).

(** [grab_read_lock] writes through its reference parameter [read_lock];
    the state it runs on pairs that object with the world. *)
Definition on_world {A} (m : M World A) : M (ReadLockInfo * World) A :=
  zoom snd (fun w s => (fst s, w)) m.
Definition on_lock (f : ReadLockInfo -> ReadLockInfo) : M (ReadLockInfo * World) unit :=
  modify (fun s => (f (fst s), snd s)).

Definition bind_lock (r : ReadCount.t) : M (ReadLockInfo * World) unit :=
  on_lock (set_m_version (ReadCount.version r)) ;;;
  on_lock (set_m_top_ref (ReadCount.current_top r)) ;;;
  on_lock (set_m_file_size (ReadCount.filesize r)).

Fixpoint grab_latest (n : nat) : M (ReadLockInfo * World) unit :=
  match n with
  | O => spin
  | S n' =>
      idx <- on_world (on_readers Ringbuffer.last) ;;
      on_lock (set_m_reader_idx idx) ;;;
      remapped <- on_world (grow_reader_mapping idx) ;;
      if remapped then
        (* remapping takes time, so retry with a fresh entry *)
        grab_latest n'
      else
        r <- on_world (on_readers (Ringbuffer.get idx)) ;;
        let '(ok, c) := atomic_double_inc_if_even (ReadCount.count r) in
        on_world (on_readers (Ringbuffer.update idx (ReadCount.set_count c))) ;;;
        if negb ok then grab_latest n'
        else bind_lock r
  end.

(** [while (!atomic_double_inc_if_even(r.count)) { if (&get_oldest() != &r)
    throw BadVersion(); }] *)
Fixpoint pin_or_fail (n : nat) (idx : Z) : M World unit :=
  match n with
  | O => spin
  | S n' =>
      r <- on_readers (Ringbuffer.get idx) ;;
      let '(ok, c) := atomic_double_inc_if_even (ReadCount.count r) in
      on_readers (Ringbuffer.update idx (ReadCount.set_count c)) ;;;
      if ok then ret tt
      else
        rb <- on_readers get_state ;;
        if negb (Ringbuffer.old_pos rb =? idx) then throw BadVersion
        else pin_or_fail n' idx
  end.

Fixpoint grab_specific (n : nat) (version_id : VersionID)
  : M (ReadLockInfo * World) unit :=
  match n with
  | O => spin
  | S n' =>
      on_lock (set_m_reader_idx (index version_id)) ;;;
      remapped <- on_world (grow_reader_mapping (index version_id)) ;;
      if remapped then
        (* remapping takes time, so retry with a fresh entry *)
        grab_specific n' version_id
      else
        on_world (pin_or_fail fuel (index version_id)) ;;;
        r <- on_world (on_readers (Ringbuffer.get (index version_id))) ;;
        if negb (ReadCount.version r =? version version_id) then
          on_world (on_readers
            (Ringbuffer.update (index version_id)
               (ReadCount.set_count (atomic_double_dec (ReadCount.count r))))) ;;;
          throw BadVersion
        else bind_lock r
  end.

Definition grab_read_lock (version_id : VersionID) : M (ReadLockInfo * World) unit :=
  if version version_id =? max_version then grab_latest fuel
  else grab_specific fuel version_id.

(** [grab_read_lock(m_read_lock, version_id)] *)
Definition grab_own_read_lock (version_id : VersionID) : M World unit :=
  zoom (fun w => (m_read_lock (sg w), w))
       (fun s _ => set_sg (set_m_read_lock (fst s) (sg (snd s))) (snd s))
       (grab_read_lock version_id).

(** [grab_read_lock(read_lock, version_id)] on a local [read_lock], which is
    returned. *)
Definition grab_local_read_lock (read_lock : ReadLockInfo) (version_id : VersionID)
  : M World ReadLockInfo :=
  fun w =>
    match grab_read_lock version_id (read_lock, w) with
    | Ret _ s => Ret (fst s) (snd s)
    | Throw e s => Throw e (snd s)
    | Terminate => Terminate
    | Undefined => Undefined
    | Spin => Spin
    end.

Definition do_begin_read (version_id : VersionID) (writable : bool) : M World unit :=
  grab_own_read_lock version_id ;;;
  w <- get_state ;;
  let l := m_read_lock (sg w) in
  (* ReadLockUnlockGuard g(this, m_read_lock); *)
  if attach_shared env (m_top_ref l) (m_file_size l) writable then
    on_sg (set_m_group_attached true)
  else
    release_read_lock l ;;;
    throw (external_failure "attach_shared").

Definition do_end_read : M World unit :=
  noexcept (
    w <- get_state ;;
    REALM_ASSERT (assertions env)
      (negb (m_version (m_read_lock (sg w)) =? max_version)) ;;;
    release_read_lock (m_read_lock (sg w)) ;;;
    on_sg (set_m_group_attached false)).

Definition begin_read (version_id : VersionID) : M World unit :=
  w <- get_state ;;
  if negb (stage_eqb (m_transact_stage (sg w)) transact_Ready) then
    throw LogicError_wrong_transact_state
  else
    do_begin_read version_id false ;;;
    on_sg (set_m_transact_stage transact_Reading).

Definition end_read : M World unit :=
  noexcept (
    w <- get_state ;;
    if stage_eqb (m_transact_stage (sg w)) transact_Ready then
      ret tt (* Idempotency *)
    else if negb (stage_eqb (m_transact_stage (sg w)) transact_Reading) then
      throw LogicError_wrong_transact_state
    else
      do_end_read ;;;
      on_sg (set_m_transact_stage transact_Ready)).

Definition do_begin_write : M World unit :=
  (* Get write lock *)
  lock SharedInfo.shared_writemutex SharedInfo.set_shared_writemutex ;;;
  w <- get_state ;;
  if negb (SharedInfo.commit_in_critical_phase (info w) =? 0) then
    unlock SharedInfo.set_shared_writemutex ;;;
    throw (runtime_error "Crash of other process detected, session restart required")
  else if async_daemon env
          && (SharedInfo.durability (info w) =? durability_code Async) then
    lock SharedInfo.shared_balancemutex SharedInfo.set_shared_balancemutex ;;;
    (* if we are out of write slots, wait for the sync daemon to catch up *)
    (if SharedInfo.free_write_slots (info w) <=? 0 then spin else ret tt) ;;;
    on_info (modify (SharedInfo.set_free_write_slots
                       (SharedInfo.free_write_slots (info w) - 1))) ;;;
    unlock SharedInfo.set_shared_balancemutex
  else ret tt.

Definition do_end_write : M World unit :=
  noexcept (unlock SharedInfo.set_shared_writemutex).

Definition begin_write : M World unit :=
  w <- get_state ;;
  if negb (stage_eqb (m_transact_stage (sg w)) transact_Ready) then
    throw LogicError_wrong_transact_state
  else
    do_begin_write ;;;
    catch_rethrow
      (do_begin_read VersionID_latest true ;;;
       match replication env with
       | Some repl =>
           w' <- get_state ;;
           must (initiate_transact repl (m_version (m_read_lock (sg w'))))
                "initiate_transact"
       | None => ret tt
       end)
      do_end_write ;;;
    on_sg (set_m_transact_stage transact_Writing).

(** [m_file.prealloc(0, new_info_size)] and the remap that follows: the lock
    file grows to [new_info_size] bytes, which is room for [entries] ring
    slots; the new space reads as zero. *)
Definition prealloc_and_remap (new_info_size entries : Z) : M World unit :=
  modify (fun w => set_lockfile_size (Z.max (lockfile_size w) new_info_size) w) ;;;
  on_readers (modify (fun rb =>
    Ringbuffer.set_data
      (Ringbuffer.data rb ++
       replicate (Z.to_nat entries - length (Ringbuffer.data rb)) ReadCount.zero)
      rb)).

Definition low_level_commit (new_version : Z) : M World unit :=
  (* the cleanup process may access the entire ring buffer, so make sure it
     is mapped. *)
  n <- on_readers Ringbuffer.get_num_entries ;;
  grow_reader_mapping n ;;;
  on_readers Ringbuffer.cleanup ;;;
  rc <- on_readers Ringbuffer.get_oldest ;;
  let oldest_version := ReadCount.version rc in
  match history env with
  | Some set_oldest_bound_version =>
      must (set_oldest_bound_version oldest_version) "set_oldest_bound_version"
  | None => ret tt
  end ;;;
  (* Do the actual commit *)
  w <- get_state ;;
  REALM_ASSERT (assertions env) (m_group_attached (sg w)) ;;;
  REALM_ASSERT (assertions env) (oldest_version <=? new_version) ;;;
  new_top_ref <- match write_group env new_version oldest_version with
                 | Some top => ret top
                 | None => throw (external_failure "write_group")
                 end ;;
  (if SharedInfo.durability (info w) =? durability_code Full then
     must (writer_commit env new_top_ref) "GroupWriter::commit"
   else ret tt) ;;;
  let new_file_size := writer_file_size env new_top_ref in
  on_info (modify (SharedInfo.set_commit_in_critical_phase 1)) ;;;
  full <- on_readers Ringbuffer.is_full ;;
  (if full then
     (* buffer expansion *)
     entries <- on_readers Ringbuffer.get_num_entries ;;
     let entries := entries + 32 in
     let new_info_size :=
       sizeof_SharedInfo env + Ringbuffer.compute_required_space entries in
     prealloc_and_remap new_info_size entries ;;;
     on_sg (set_m_local_max_entry entries) ;;;
     on_readers (Ringbuffer.expand_to entries)
   else ret tt) ;;;
  r <- on_readers (Ringbuffer.get_next (assertions env)) ;;
  on_readers (Ringbuffer.update r (ReadCount.set_current_top new_top_ref)) ;;;
  on_readers (Ringbuffer.update r (ReadCount.set_filesize new_file_size)) ;;;
  on_readers (Ringbuffer.update r (ReadCount.set_version new_version)) ;;;
  on_readers (Ringbuffer.use_next (assertions env)) ;;;
  (* At this point, the ringbuffer has been succesfully updated *)
  on_info (modify (SharedInfo.set_commit_in_critical_phase 0)) ;;;
  with_controlmutex (
    on_info (modify (SharedInfo.set_number_of_versions
                       (wrap64 (new_version - oldest_version + 1)))) ;;;
    on_info (modify (SharedInfo.set_latest_version_number new_version))).

Definition do_commit : M World Z :=
  w <- get_state ;;
  REALM_ASSERT (assertions env)
    (stage_eqb (m_transact_stage (sg w)) transact_Writing) ;;;
  current_version <- on_info SharedInfo.get_current_version_unchecked ;;
  match replication env with
  | Some repl =>
      new_version <- match prepare_commit repl current_version with
                     | Some v => ret v
                     | None => throw (external_failure "prepare_commit")
                     end ;;
      catch_rethrow (low_level_commit new_version)
                    (ret tt (* repl->abort_transact() *)) ;;;
      (* repl->finalize_commit() *)
      ret new_version
  | None =>
      let new_version := wrap64 (current_version + 1) in
      low_level_commit new_version ;;;
      ret new_version
  end.

Definition commit : M World Z :=
  w <- get_state ;;
  if negb (stage_eqb (m_transact_stage (sg w)) transact_Writing) then
    throw LogicError_wrong_transact_state
  else
    REALM_ASSERT (assertions env) (m_group_attached (sg w)) ;;;
    new_version <- do_commit ;;
    do_end_write ;;;
    do_end_read ;;;
    on_sg (set_m_transact_stage transact_Ready) ;;;
    ret new_version.

Definition rollback : M World unit :=
  noexcept (
    w <- get_state ;;
    if stage_eqb (m_transact_stage (sg w)) transact_Ready then
      ret tt (* Idempotency *)
    else if negb (stage_eqb (m_transact_stage (sg w)) transact_Writing) then
      throw LogicError_wrong_transact_state
    else
      do_end_write ;;;
      do_end_read ;;;
      (* repl->abort_transact() *)
      on_sg (set_m_transact_stage transact_Ready)).

Definition commit_and_continue_as_read : M World Z :=
  w <- get_state ;;
  if negb (stage_eqb (m_transact_stage (sg w)) transact_Writing) then
    throw LogicError_wrong_transact_state
  else
    version <- do_commit ;;
    (* advance read lock but dont update accessors *)
    w' <- get_state ;;
    release_read_lock (m_read_lock (sg w')) ;;;
    grab_own_read_lock VersionID_latest ;;;
    do_end_write ;;;
    (* gf::reset_free_space_tracking and gf::remap_and_update_refs act on
       the group accessor, which is not part of the world *)
    on_sg (set_m_transact_stage transact_Reading) ;;;
    ret version.

Definition pin_version : M World VersionID :=
  w <- get_state ;;
  REALM_ASSERT (assertions env)
    (negb (stage_eqb (m_transact_stage (sg w)) transact_Ready)) ;;;
  (* Get current version *)
  let version_id :=
    mkVersionID (m_version (m_read_lock (sg w))) (m_reader_idx (m_read_lock (sg w))) in
  grab_local_read_lock (mkReadLockInfo max_version 0 0 0) version_id ;;;
  ret version_id.

Definition unpin_version (token : VersionID) : M World unit :=
  release_read_lock (mkReadLockInfo max_version (index token) 0 0).

(** [do { index = last(); } while (grow_reader_mapping(index));] *)
Fixpoint last_mapped (n : nat) : M World Z :=
  match n with
  | O => spin
  | S n' =>
      index <- on_readers Ringbuffer.last ;;
      remapped <- grow_reader_mapping index ;;
      if remapped then last_mapped n' else ret index
  end.

Fixpoint latest_snapshot_loop (n : nat) : M World Z :=
  match n with
  | O => spin
  | S n' =>
      index <- last_mapped fuel ;;
      r <- on_readers (Ringbuffer.get index) ;;
      let '(ok, c) := atomic_double_inc_if_even (ReadCount.count r) in
      on_readers (Ringbuffer.update index (ReadCount.set_count c)) ;;;
      if negb ok then latest_snapshot_loop n'
      else
        (* release the entry again: *)
        r' <- on_readers (Ringbuffer.get index) ;;
        on_readers (Ringbuffer.update index
          (ReadCount.set_count (atomic_double_dec (ReadCount.count r')))) ;;;
        ret (ReadCount.version r)
  end.

Definition get_version_of_latest_snapshot : M World Z := latest_snapshot_loop fuel.

Definition has_changed : M World bool :=
  v <- get_version_of_latest_snapshot ;;
  w <- get_state ;;
  ret (negb (m_version (m_read_lock (sg w)) =? v)).

Definition get_number_of_versions : M World Z :=
  with_controlmutex (w <- get_state ;; ret (SharedInfo.number_of_versions (info w))).

Definition close : M World unit :=
  noexcept (
    w <- get_state ;;
    if negb (is_attached w) then ret tt
    else
      match m_transact_stage (sg w) with
      | transact_Ready => ret tt
      | transact_Reading => end_read
      | transact_Writing => rollback
      end ;;;
      on_sg (set_m_group_attached false) ;;;
      on_sg (set_m_transact_stage transact_Ready) ;;;
      with_controlmutex (
        on_sg (set_m_alloc_attached false) ;;;
        w' <- get_state ;;
        let n := wrap32 (SharedInfo.num_participants (info w') - 1) in
        on_info (modify (SharedInfo.set_num_participants n)) ;;;
        if n =? 0 then
          (* If the db file is just backing for a transient data structure,
             we can delete it when done. *)
          if SharedInfo.durability (info w') =? durability_code MemOnly then
            log (fs_remove (m_db_path (sg w')))
          else ret tt
        else ret tt) ;;;
      on_sg (set_m_file_map_attached false) ;;;
      on_sg (set_m_file_locked false)).

(** *** Opening and compaction (lines 704-1178, 1391-1455) *)

(** Scope exit in [do_open] before the session is joined: the allocator is
    detached, the mappings are removed and the lock file is closed, which
    gives up the file lock. *)
Definition leave_lockfile : M World unit :=
  on_sg (set_m_alloc_attached false) ;;;
  on_sg (set_m_file_map_attached false) ;;;
  on_sg (set_m_file_locked false).

Inductive attempt : Type :=
| attempt_retry                              (* continue *)
| attempt_opened (target_file_format : Z).   (* break *)

(** The guards of one iteration of the open loop: they are released only
    when the iteration ends in [break]. *)
Definition guarded (m : M World attempt) : M World attempt :=
  fun w =>
    match m w with
    | Ret attempt_retry w' => (leave_lockfile ;;; ret attempt_retry) w'
    | Throw e w' => (leave_lockfile ;;; throw e) w'
    | o => o
    end.

Definition good_history_type (history_type stored top_ref : Z) : bool :=
  if (history_type =? hist_None) || (history_type =? hist_OutOfRealm) then
    stored =? hist_None
  else if history_type =? hist_InRealm then
    (stored =? hist_InRealm) || (stored =? hist_None)
  else if history_type =? hist_Sync then
    (stored =? hist_Sync) || ((stored =? hist_None) && (top_ref =? 0))
  else false.

(** The part of an iteration that runs under the control mutex. *)
Definition join_session (no_create_file : bool) (options : SharedGroupOptions)
  (history_type : Z) : M World attempt :=
  with_controlmutex (
    n <- on_readers Ringbuffer.get_num_entries ;;
    on_sg (set_m_local_max_entry n) ;;;
    w <- get_state ;;
    let begin_new_session := SharedInfo.num_participants (info w) =? 0 in
    match attach_file env begin_new_session with
    | attach_failed => throw (external_failure "attach_file")
    | attach_retry => ret attempt_retry
    | attached top_ref =>
        on_sg (set_m_alloc_attached true) ;;;
        let current_file_format_version := stored_file_format_version env in
        on_sg (set_m_file_format_version current_file_format_version) ;;;
        let target :=
          target_file_format_version env current_file_format_version history_type in
        (if begin_new_session then
           let version := stored_version env in
           (if negb (good_history_type history_type (stored_history_type env) top_ref)
            then throw (InvalidDatabase "Bad or incompatible history type")
            else ret tt) ;;;
           match replication env with
           | Some repl => must (initiate_session repl version) "initiate_session"
           | None => ret tt
           end ;;;
           (if encryption_key options then
              on_info (modify (SharedInfo.set_session_initiator_pid (getpid env)))
            else ret tt) ;;;
           on_info (modify (SharedInfo.set_file_format_version (target mod 2 ^ 8))) ;;;
           (* Initially there is a single version in the file *)
           on_info (modify (SharedInfo.set_number_of_versions 1)) ;;;
           on_info (modify (SharedInfo.set_latest_version_number version)) ;;;
           on_info (SharedInfo.init_versioning top_ref (get_baseline env) version)
         else
           (* Not the session initiator *)
           if negb (SharedInfo.durability (info w) =? opt_durability options) then
             throw LogicError_mixed_durability
           else if negb (SharedInfo.history_type (info w) =? history_type) then
             throw LogicError_mixed_history_type
           else if encryption_key options
                   && negb (SharedInfo.session_initiator_pid (info w) =? getpid env) then
             throw (runtime_error "Encrypted interprocess sharing is currently unsupported.")
           else if negb (SharedInfo.file_format_version (info w) =? target) then
             throw (IncompatibleLockFile "File format version deosn't match")
           else ret tt) ;;;
        (* In async mode, we need to make sure the daemon is running and
           ready; waiting for it is waiting for another process. *)
        (if async_daemon env && (opt_durability options =? durability_code Async)
            && (SharedInfo.daemon_ready (info w) =? 0) then
           (if SharedInfo.daemon_started (info w) =? 0 then
              log (fs_spawn_daemon (m_db_path (sg w))) ;;;
              on_info (modify (SharedInfo.set_daemon_started 1))
            else ret tt) ;;;
           spin
         else ret tt) ;;;
        (* Set initial version so we can track if other instances change
           the db *)
        v <- get_version_of_latest_snapshot ;;
        w' <- get_state ;;
        on_sg (set_m_read_lock (set_m_version v (m_read_lock (sg w')))) ;;;
        (* make our presence noted: *)
        on_info (modify (SharedInfo.set_num_participants
                           (wrap32 (SharedInfo.num_participants (info w') + 1)))) ;;;
        on_sg (set_m_wait_for_change_enabled true) ;;;
        ret (attempt_opened target)
    end).

(** One iteration of the [for (;;)] loop of [do_open]. *)
Definition do_open_attempt (no_create_file : bool) (options : SharedGroupOptions)
  (history_type : Z) : M World attempt :=
  (* m_file.open(m_lockfile_path, ...); File::CloseGuard fcg(m_file); *)
  w <- get_state ;;
  (if other_lockers w =? 0 (* m_file.try_lock_exclusive() *) then
     (* We're alone in the world, and it is Ok to initialize the file. *)
     modify (set_lockfile_size 0) ;;;
     modify (set_info (SharedInfo.SharedInfo (sizeof_mutex env) (sizeof_condvar env)
                         (opt_durability options) history_type)) ;;;
     modify (set_lockfile_size (sizeof_SharedInfo env)) ;;;
     on_info (modify (SharedInfo.set_init_complete 1))
   else ret tt) ;;;
  (* We hold the shared lock from here until we close the file! *)
  on_sg (set_m_file_locked true) ;;;
  guarded (
    w <- get_state ;;
    let file_size := lockfile_size w in
    if (file_size <? sizeof_SharedInfo env) && (file_size =? 0) then
      ret attempt_retry
    else
      let info_size :=
        if file_size <? sizeof_SharedInfo env then file_size
        else sizeof_SharedInfo env in
      on_sg (set_m_file_map_attached true) ;;;
      if SharedInfo.init_complete (info w) =? 0 then ret attempt_retry
      else
        REALM_ASSERT (assertions env) (SharedInfo.init_complete (info w) =? 1) ;;;
        if info_size <? sizeof_SharedInfo env then
          throw (IncompatibleLockFile "Info size doesn't match")
        else if negb (SharedInfo.shared_info_version (info w) =? g_shared_info_version) then
          throw (IncompatibleLockFile "Shared info version doesn't match")
        else if negb (SharedInfo.size_of_mutex (info w) =? sizeof_mutex env) then
          throw (IncompatibleLockFile "Mutex size doesn't match")
        else if negb (SharedInfo.size_of_condvar (info w) =? sizeof_condvar env) then
          throw (IncompatibleLockFile "Condtion var size doesn't match")
        else if negb (controlmutex_valid env) then
          throw (IncompatibleLockFile "Control mutex is invalid.")
        else join_session no_create_file options history_type).

Fixpoint do_open_loop (n : nat) (no_create_file : bool)
  (options : SharedGroupOptions) (history_type : Z) : M World Z :=
  match n with
  | O => spin
  | S n' =>
      a <- do_open_attempt no_create_file options history_type ;;
      match a with
      | attempt_retry => do_open_loop n' no_create_file options history_type
      | attempt_opened target => ret target
      end
  end.

(** [WriteTransaction] is declared outside this file: its constructor calls
    [begin_write] and its destructor [rollback], which returns at once after
    a [commit]. *)
Definition upgrade_file_format (allow_file_format_upgrade : bool)
  (target_file_format_version : Z) : M World unit :=
  w <- get_state ;;
  let current_file_format_version := m_file_format_version (sg w) in
  REALM_ASSERT (assertions env)
    (current_file_format_version <=? target_file_format_version) ;;;
  if current_file_format_version <? target_file_format_version then
    begin_write ;;;
    finally
      (let current_file_format_version_2 := committed_file_format_version env in
       REALM_ASSERT (assertions env)
         ((current_file_format_version_2 =? current_file_format_version)
          || (current_file_format_version_2 =? target_file_format_version)) ;;;
       if current_file_format_version_2 <? target_file_format_version then
         if negb allow_file_format_upgrade then throw FileFormatUpgradeRequired
         else
           must (upgrade_file_format_ok env) "upgrade_file_format" ;;;
           on_sg (set_m_file_format_version target_file_format_version) ;;;
           match upgrade_callback env with
           | Some false => rollback ;;; throw (external_failure "upgrade_callback")
           | _ => ret tt
           end ;;;
           commit ;;;
           ret tt
       else on_sg (set_m_file_format_version target_file_format_version))
      rollback
  else ret tt.

(** [do_open], for a participant that is not the commit daemon. *)
Definition do_open (path : string) (no_create_file : bool)
  (options : SharedGroupOptions) : M World unit :=
  w <- get_state ;;
  REALM_ASSERT (assertions env) (negb (is_attached w)) ;;;
  (if negb (async_daemon env) && (opt_durability options =? durability_code Async) then
     throw (runtime_error "Async mode not yet supported on Windows, iOS and watchOS")
   else ret tt) ;;;
  on_sg (set_m_db_path path) ;;;
  on_sg (set_m_key (encryption_key options)) ;;;
  let history_type :=
    match replication env with
    | Some repl => get_history_type repl
    | None => hist_None
    end in
  target_file_format_version <-
    do_open_loop fuel no_create_file options history_type ;;
  on_sg (set_m_transact_stage transact_Ready) ;;;
  catch_rethrow
    (w' <- get_state ;;
     if m_file_format_version (sg w') =? 0 then
       on_sg (set_m_file_format_version target_file_format_version)
     else
       upgrade_file_format (allow_file_format_upgrade options)
         target_file_format_version)
    close.

Definition compact : M World bool :=
  w <- get_state ;;
  (* Verify that the database file is attached *)
  if negb (is_attached w) then
    throw (runtime_error
             (m_db_path (sg w) ++ ": compact must be done on an open/attached SharedGroup"))
  (* Verify that preconditions for compacting is met: *)
  else if negb (stage_eqb (m_transact_stage (sg w)) transact_Ready) then
    throw (runtime_error
             (m_db_path (sg w) ++ ": compact is not supported whithin a transaction"))
  else
    let tmp_path := (m_db_path (sg w) ++ ".tmp_compaction_space")%string in
    dura <- with_controlmutex (
      w1 <- get_state ;;
      if SharedInfo.num_participants (info w1) >? 1 then ret None
      else
        log (fs_try_remove tmp_path) ;;;
        begin_read VersionID_latest ;;;
        (* Compact by writing a new file holding only live data, then
           renaming the new file so it becomes the database file *)
        log (fs_create tmp_path) ;;;
        must (group_write_ok env) "Group::write" ;;;
        log (fs_write_group tmp_path (SharedInfo.latest_version_number (info w1))) ;;;
        (if negb (disable_sync_to_disk env) then log (fs_sync tmp_path) else ret tt) ;;;
        log (fs_move tmp_path (m_db_path (sg w))) ;;;
        rc <- on_readers Ringbuffer.get_last ;;
        REALM_ASSERT (assertions env)
          (ReadCount.version rc =? SharedInfo.latest_version_number (info w1)) ;;;
        end_read ;;;
        on_sg (set_m_alloc_attached false) ;;;
        ret (Some (SharedInfo.durability (info w1)))) ;;
    match dura with
    | None => ret false
    | Some dura =>
        close ;;;
        do_open (m_db_path (sg w)) true
          {| opt_durability := dura;
             encryption_key := m_key (sg w);
             allow_file_format_upgrade := false |} ;;;
        ret true
    end.

(** *** Waiting for changes, the current version, the commit daemon
    (lines 1259-1389, 1458-1461) *)

(** [m_new_commit_available.wait(m_controlmutex, 0)] waits for another
    participant: in a sequential run it never ends. *)
Definition wait_for_change : M World bool :=
  with_controlmutex (
    w <- get_state ;;
    if (m_version (m_read_lock (sg w)) =? SharedInfo.latest_version_number (info w))
       && m_wait_for_change_enabled (sg w)
    then spin
    else ret (negb (m_version (m_read_lock (sg w))
                    =? SharedInfo.latest_version_number (info w)))).

Definition wait_for_change_release : M World unit :=
  with_controlmutex (on_sg (set_m_wait_for_change_enabled false)).

Definition enable_wait_for_change : M World unit :=
  with_controlmutex (on_sg (set_m_wait_for_change_enabled true)).

Definition get_version_of_current_transaction : M World VersionID :=
  w <- get_state ;;
  ret (mkVersionID (m_version (m_read_lock (sg w)))
                   (m_reader_idx (m_read_lock (sg w)))).

Definition max_write_slots : Z := 100.
Definition relaxed_sync_threshold : Z := 50.

(** [std::lock_guard<InterprocessMutex> lock2(m_writemutex);] around [m]. *)
Definition with_writemutex {A} (m : M World A) : M World A :=
  lock SharedInfo.shared_writemutex SharedInfo.set_shared_writemutex ;;;
  finally m (unlock SharedInfo.set_shared_writemutex).

(** The body of the daemon's [while (true)] loop.  [is_removed i] is what
    [m_file.is_removed()] answers in round [i]; the loop ends with [return]
    when the guarded block answers [None]. *)
Fixpoint async_commit_loop (is_removed : nat -> bool) (n : nat) (i : nat)
  (shutdown : bool) : M World unit :=
  match n with
  | O => spin
  | S n' =>
      let shutdown := if is_removed i then true else shutdown in
      w <- get_state ;;
      let next_read_lock := m_read_lock (sg w) in
      round <- with_writemutex (with_controlmutex (
        (* detect if we're the last "client", and if so, shutdown *)
        let old_version := m_version next_read_lock in
        next_read_lock <- grab_local_read_lock next_read_lock VersionID_latest ;;
        let is_same := m_version next_read_lock =? old_version in
        w1 <- get_state ;;
        if is_same && (shutdown || (SharedInfo.num_participants (info w1) =? 1)) then
          release_read_lock next_read_lock ;;;
          w2 <- get_state ;;
          release_read_lock (m_read_lock (sg w2)) ;;;
          on_info (modify (SharedInfo.set_daemon_started 0)) ;;;
          on_info (modify (SharedInfo.set_daemon_ready 0)) ;;;
          ret None
        else ret (Some (is_same, next_read_lock)))) ;;
      match round with
      | None => ret tt
      | Some (is_same, next_read_lock) =>
          (if negb is_same then
             must (writer_commit env (m_top_ref next_read_lock)) "GroupWriter::commit"
           else ret tt) ;;;
          (* Now we can release the version that was previously commited
             to disk and just keep the lock on the latest version. *)
          w3 <- get_state ;;
          release_read_lock (m_read_lock (sg w3)) ;;;
          on_sg (set_m_read_lock next_read_lock) ;;;
          lock SharedInfo.shared_balancemutex SharedInfo.set_shared_balancemutex ;;;
          (* the timed wait on [m_work_to_do] returns when its 10 msec are over *)
          on_info (modify (SharedInfo.set_free_write_slots max_write_slots)) ;;;
          unlock SharedInfo.set_shared_balancemutex ;;;
          async_commit_loop is_removed n' (S i) shutdown
      end
  end.

(** [do_async_commits], compiled when [REALM_ASYNC_DAEMON] is defined. *)
Definition do_async_commits (is_removed : nat -> bool) : M World unit :=
  (* We always want to keep a read lock on the last version that was
     commited to disk *)
  grab_own_read_lock VersionID_latest ;;;
  with_controlmutex (
    on_info (modify (SharedInfo.set_free_write_slots max_write_slots)) ;;;
    on_info (modify (SharedInfo.set_daemon_ready 1))) ;;;
  on_sg (set_m_group_attached false) ;;;
  async_commit_loop is_removed fuel 0 false.

End Methods.

End SharedGroup.

(** * Vocabulary of the properties

    Predicates and views over the model that the statements below use, and
    the concrete sessions on which they are run. *)

Section Vocabulary.
Import SharedGroup.

(** The ring of a session, and the world with another ring. *)

Definition ring (w : World) : Ringbuffer.t := SharedInfo.readers (info w).

Definition set_ring (rb : Ringbuffer.t) (w : World) : World :=
  set_info (SharedInfo.set_readers rb (info w)) w.

Definition ring_at_world (w : World) (older free : list Z) : Prop :=
  Ringbuffer.ring_at (ring w) older free.

Definition set_slot (idx : Z) (r : ReadCount.t) (w : World) : World :=
  set_ring (Ringbuffer.set_data (<[Z.to_nat idx := r]> (Ringbuffer.data (ring w)))
              (ring w)) w.

(** Growing the mapping changes nothing but [m_local_max_entry]. *)
Definition same_but_mapping (w w' : World) : Prop :=
  info w' = info w /\ lockfile_size w' = lockfile_size w /\
  other_lockers w' = other_lockers w /\ fs_log w' = fs_log w /\
  set_m_local_max_entry (m_local_max_entry (sg w')) (sg w) = sg w'.

(** A slot with one more reader, and the lock a reader takes on it. *)
Definition pinned (r : ReadCount.t) : ReadCount.t :=
  ReadCount.set_count (wrap32 (ReadCount.count r + 2)) r.

Definition lock_on (idx : Z) (r : ReadCount.t) : ReadLockInfo :=
  mkReadLockInfo (ReadCount.version r) idx (ReadCount.current_top r)
    (ReadCount.filesize r).

(** What the end of a write transaction leaves of the ring and of the
    counters: the payload of every slot and the three counters are kept;
    only counts may differ. *)
Definition same_payload (w w' : World) : Prop :=
  Ringbuffer.put_pos (ring w') = Ringbuffer.put_pos (ring w) /\
  Ringbuffer.old_pos (ring w') = Ringbuffer.old_pos (ring w) /\
  (forall i r, Ringbuffer.slot (Ringbuffer.data (ring w)) i = Some r ->
     exists r', Ringbuffer.slot (Ringbuffer.data (ring w')) i = Some r' /\
                ReadCount.version r' = ReadCount.version r /\
                ReadCount.current_top r' = ReadCount.current_top r /\
                ReadCount.filesize r' = ReadCount.filesize r) /\
  SharedInfo.latest_version_number (info w') =
    SharedInfo.latest_version_number (info w) /\
  SharedInfo.number_of_versions (info w') =
    SharedInfo.number_of_versions (info w) /\
  SharedInfo.commit_in_critical_phase (info w') =
    SharedInfo.commit_in_critical_phase (info w).

(** The error of the write gate (line 1683). *)
Definition crash_detected : exn :=
  runtime_error "Crash of other process detected, session restart required".

(** The frozen prefix of the session header: its first eight bytes. *)
Definition frozen_prefix : Z := 8.

(** What giving up an iteration of the open loop leaves: the file lock is
    dropped and nothing is mapped or attached. *)
Definition left_lockfile (w : World) : World :=
  set_sg (set_m_file_locked false
            (set_m_file_map_attached false
               (set_m_alloc_attached false (sg w)))) w.

(** The number of slots of a backing store that no reader holds and that
    are not marked free, and a slot read with a default. *)

Definition zeros (d : list ReadCount.t) : nat :=
  length (filter (fun r => ReadCount.count r = 0) d).

Definition slot_or_zero (d : list ReadCount.t) (i : Z) : ReadCount.t :=
  default ReadCount.zero (Ringbuffer.slot d i).

(** [keeps P m]: whenever [m] returns or throws, [P] still holds. *)
Definition keeps {St A} (P : St -> Prop) (m : M St A) : Prop :=
  forall s, P s ->
    match m s with
    | Ret _ s' => P s'
    | Throw _ s' => P s'
    | _ => True
    end.

(** A session left in the critical phase by a writer that is gone: the flag
    is set, the write mutex can be taken, the lock file is held by others
    (so that no open reinitializes it), and the participant looked at is in
    stage [s]. *)
Definition gated (s : TransactStage) (w : World) : Prop :=
  SharedInfo.commit_in_critical_phase (info w) <> 0 /\
  SharedInfo.shared_writemutex (info w) = false /\
  other_lockers w <> 0 /\
  m_transact_stage (sg w) = s.

(** The same, on the state of [grab_read_lock]. *)
Definition gated_pair (s : TransactStage) (p : ReadLockInfo * World) : Prop :=
  gated s (snd p).

(** The gate as a participant outside a write transaction sees it. *)
Definition gate (w : World) : Prop :=
  SharedInfo.commit_in_critical_phase (info w) <> 0 /\
  SharedInfo.shared_writemutex (info w) = false /\
  other_lockers w <> 0 /\
  m_transact_stage (sg w) <> transact_Writing.

(** The calls a participant can make. *)
Inductive api_call : Type :=
| call_begin_read (version_id : VersionID)
| call_end_read
| call_begin_write
| call_commit
| call_rollback
| call_commit_and_continue_as_read
| call_pin_version
| call_unpin_version (token : VersionID)
| call_has_changed
| call_get_number_of_versions
| call_close
| call_open (path : string) (no_create_file : bool) (options : SharedGroupOptions)
| call_compact.

(** What a pin on the latest snapshot leaves: the participant's lock names
    the slot at [put_pos] and that slot's count is two higher. *)
Definition bound_to_latest (w w' : World) (r : ReadCount.t) : Prop :=
  Ringbuffer.slot (Ringbuffer.data (ring w)) (Ringbuffer.put_pos (ring w)) = Some r /\
  Ringbuffer.slot (Ringbuffer.data (ring w')) (Ringbuffer.put_pos (ring w)) =
    Some (ReadCount.set_count (wrap32 (ReadCount.count r + 2)) r) /\
  (forall i, i <> Ringbuffer.put_pos (ring w) ->
     Ringbuffer.slot (Ringbuffer.data (ring w')) i =
     Ringbuffer.slot (Ringbuffer.data (ring w)) i) /\
  m_read_lock (sg w') = lock_on (Ringbuffer.put_pos (ring w)) r /\
  m_group_attached (sg w') = true.

(** The participant's own state up to [m_local_max_entry]. *)
Definition same_participant (w w' : World) : Prop :=
  set_m_local_max_entry (m_local_max_entry (sg w')) (sg w) = sg w'.

(** What a refused join leaves of the world it found. *)
Definition join_refused (path : string) (key : bool) (w w' : World) : Prop :=
  info w' = info w /\
  lockfile_size w' = lockfile_size w /\
  fs_log w' = fs_log w /\
  is_attached w' = false /\
  m_file_locked (sg w') = false /\
  m_alloc_attached (sg w') = false /\
  m_transact_stage (sg w') = m_transact_stage (sg w) /\
  m_db_path (sg w') = path /\ m_key (sg w') = key.

(** The first versioning entry, written over the slot at [put_pos]. *)
Definition first_entry (top_ref file_size version : Z) (r : ReadCount.t) : ReadCount.t :=
  ReadCount.set_current_top top_ref
    (ReadCount.set_version version
       (ReadCount.set_filesize file_size (ReadCount.set_count 0 r))).

(** Two states of a slot that hold the same snapshot for the same number of
    readers. *)
Definition same_snapshot (r r' : ReadCount.t) : Prop :=
  ReadCount.version r' = ReadCount.version r /\
  ReadCount.current_top r' = ReadCount.current_top r /\
  ReadCount.filesize r' = ReadCount.filesize r /\
  ReadCount.count r' = ReadCount.count r.

End Vocabulary.

Section Sessions.
Import SharedGroup.

Variable env : Collaborators.
Variable fuel : nat.

(** A call, its result dropped. *)
Definition run (c : api_call) : M World unit :=
  match c with
  | call_begin_read v => begin_read env fuel v
  | call_end_read => end_read env
  | call_begin_write => begin_write env fuel
  | call_commit => commit env ;;; ret tt
  | call_rollback => rollback env
  | call_commit_and_continue_as_read => commit_and_continue_as_read env fuel ;;; ret tt
  | call_pin_version => pin_version env fuel ;;; ret tt
  | call_unpin_version token => unpin_version token
  | call_has_changed => has_changed fuel ;;; ret tt
  | call_get_number_of_versions => get_number_of_versions ;;; ret tt
  | call_close => close env
  | call_open path no_create_file options => do_open env fuel path no_create_file options
  | call_compact => compact env fuel ;;; ret tt
  end.

(** [later w w']: the session can get from [w] to [w'] by calls that return
    or throw, made by the participant looked at, or by another one that
    [later_switch] brings into view.  While the write mutex is free the
    participant brought into view is not in a write transaction. *)
Inductive later (w : World) : World -> Prop :=
| later_now : later w w
| later_return c w1 w2 :
    later w w1 -> run c w1 = Ret tt w2 -> later w w2
| later_throw c e w1 w2 :
    later w w1 -> run c w1 = Throw e w2 -> later w w2
| later_switch g w1 :
    later w w1 -> m_transact_stage g <> transact_Writing ->
    later w (set_sg g w1).

(** A lock file that passes the layout checks of [do_open]. *)
Definition compatible_lockfile (w : World) : Prop :=
  sizeof_SharedInfo env <= lockfile_size w /\
  SharedInfo.init_complete (info w) = 1 /\
  SharedInfo.shared_info_version (info w) = g_shared_info_version /\
  SharedInfo.size_of_mutex (info w) = sizeof_mutex env /\
  SharedInfo.size_of_condvar (info w) = sizeof_condvar env /\
  controlmutex_valid env = true.

(** The header the initiator writes, before it joins its own session. *)
Definition initial_info (options : SharedGroupOptions) (hist : Z) : SharedInfo.t :=
  SharedInfo.set_init_complete 1
    (SharedInfo.SharedInfo (sizeof_mutex env) (sizeof_condvar env)
       (opt_durability options) hist).

End Sessions.

(** ** Concrete rings and sessions *)

(** A ring of four slots: version 5 unpinned, version 6 pinned by one
    reader, version 7 the latest, and one free slot. *)
Definition ring4 : Ringbuffer.t :=
  Ringbuffer.mk 4 2 0
    [ ReadCount.mk 5 500 50 0 1;
      ReadCount.mk 6 600 60 2 2;
      ReadCount.mk 7 700 70 0 3;
      ReadCount.mk 1 0 0 1 0 ].

(** A full ring of two slots whose backing store has room for three more. *)
Definition ring2_full : Ringbuffer.t :=
  Ringbuffer.mk 2 1 0
    [ ReadCount.mk 3 300 30 2 1;
      ReadCount.mk 4 400 40 0 0;
      ReadCount.zero; ReadCount.zero; ReadCount.zero ].

(** Collaborators that always succeed: no replication plugin, no history,
    a group writer that puts version [v] at top ref [4096 * v]. *)
Definition env0 : Collaborators :=
  {| assertions := true;
     async_daemon := false;
     sizeof_SharedInfo := 1400;
     sizeof_mutex := 40;
     sizeof_condvar := 48;
     getpid := 4242;
     replication := None;
     history := None;
     attach_shared := fun _ _ _ => true;
     write_group := fun new_version _ => Some (4096 * new_version);
     writer_commit := fun _ => true;
     writer_file_size := fun top => top + 4096;
     controlmutex_valid := true;
     attach_file := fun _ => attached 0;
     get_baseline := 0;
     stored_version := 1;
     stored_history_type := 0;
     stored_file_format_version := 0;
     target_file_format_version := fun _ _ => 5;
     committed_file_format_version := 5;
     upgrade_file_format_ok := true;
     upgrade_callback := None;
     group_write_ok := true;
     disable_sync_to_disk := false |}.

(** The header of a running session of two participants over [ring4]. *)
Definition info4 : SharedInfo.t :=
  SharedInfo.mk 1 40 48 0 5 0 8 0 0 2 7 0 3 0 0 false false false ring4.

(** A participant of that session in Ready, and the two together. *)
Definition sg_ready : SharedGroup.t :=
  SharedGroup.mk SharedGroup.transact_Ready
    (SharedGroup.mkReadLockInfo SharedGroup.max_version 0 0 0)
    4 true true false true 5 true false "db.realm".

Definition world_ready : SharedGroup.World :=
  SharedGroup.mkWorld sg_ready 1400 info4 1 [].

(** The same session while this participant is in a write transaction bound
    to version 7: it holds the write mutex and a pin on slot 2. *)
Definition ring4_writing : Ringbuffer.t :=
  Ringbuffer.mk 4 2 0
    [ ReadCount.mk 5 500 50 0 1;
      ReadCount.mk 6 600 60 2 2;
      ReadCount.mk 7 700 70 2 3;
      ReadCount.mk 1 0 0 1 0 ].

(** The transaction of [world_writing] ends in [world_committed]. *)
Definition world_writing : SharedGroup.World :=
  SharedGroup.mkWorld
    (SharedGroup.mk SharedGroup.transact_Writing
       (SharedGroup.mkReadLockInfo 7 2 70 700)
       4 true true true true 5 true false "db.realm")
    1400
    (SharedInfo.mk 1 40 48 0 5 0 8 0 0 2 7 0 3 0 0 true false false ring4_writing)
    1 [].

Definition world_committed : SharedGroup.World :=
  Eval vm_compute in
    match SharedGroup.commit env0 world_writing with
    | Ret _ w' => w'
    | _ => world_writing
    end.

(** The session after a writer died inside the critical phase. *)
Definition world_crashed : SharedGroup.World :=
  SharedGroup.set_info (SharedInfo.set_commit_in_critical_phase 1 info4) world_ready.

(** A participant that is not attached yet, facing a lock file that others
    hold: empty, or four bytes long with [init_complete = 1]. *)
Definition sg_closed : SharedGroup.t :=
  SharedGroup.mk SharedGroup.transact_Ready
    (SharedGroup.mkReadLockInfo SharedGroup.max_version 0 0 0)
    0 false false false false 0 false false "db.realm".

Definition world_empty_lockfile : SharedGroup.World :=
  SharedGroup.mkWorld sg_closed 0
    (SharedInfo.mk 0 0 0 0 0 0 0 0 0 0 0 0 0 0 0 false false false
       (Ringbuffer.mk 0 0 0 []))
    1 [].

Definition world_short_lockfile : SharedGroup.World :=
  SharedGroup.mkWorld sg_closed 4
    (SharedInfo.mk 1 40 48 0 0 0 0 0 0 0 0 0 0 0 0 false false false
       (Ringbuffer.mk 0 0 0 []))
    1 [].

Definition options0 : SharedGroupOptions :=
  {| opt_durability := 0; encryption_key := false; allow_file_format_upgrade := true |}.

(** Collaborators with a replication plugin whose [initiate_transact]
    throws. *)
Definition failing_repl : Replication :=
  {| get_history_type := 0;
     initiate_session := fun _ => true;
     initiate_transact := fun _ => false;
     prepare_commit := fun v => Some (v + 1) |}.

Definition env_failing_repl : Collaborators :=
  {| assertions := true;
     async_daemon := false;
     sizeof_SharedInfo := 1400;
     sizeof_mutex := 40;
     sizeof_condvar := 48;
     getpid := 4242;
     replication := Some failing_repl;
     history := None;
     attach_shared := fun _ _ _ => true;
     write_group := fun new_version _ => Some (4096 * new_version);
     writer_commit := fun _ => true;
     writer_file_size := fun top => top + 4096;
     controlmutex_valid := true;
     attach_file := fun _ => attached 0;
     get_baseline := 0;
     stored_version := 1;
     stored_history_type := 0;
     stored_file_format_version := 0;
     target_file_format_version := fun _ _ => 5;
     committed_file_format_version := 5;
     upgrade_file_format_ok := true;
     upgrade_callback := None;
     group_write_ok := true;
     disable_sync_to_disk := false |}.

(** A participant that is not attached yet, facing the lock file of the
    running session over [ring4]. *)
Definition world_joinable : SharedGroup.World :=
  SharedGroup.mkWorld sg_closed 1400 info4 1 [].

Definition options_memonly : SharedGroupOptions :=
  {| opt_durability := 1; encryption_key := false; allow_file_format_upgrade := true |}.

(** The same participant, facing a stale lock file that nobody holds: its
    header says that a commit was in its critical phase. *)
Definition world_unlocked : SharedGroup.World :=
  SharedGroup.mkWorld sg_closed 1400
    (SharedInfo.set_commit_in_critical_phase 1 info4) 0 [].

(** [commit_and_continue_as_read] in [world_writing] ends here. *)
Definition world_continued : SharedGroup.World :=
  Eval vm_compute in
    match SharedGroup.commit_and_continue_as_read env0 2 world_writing with
    | Ret _ w' => w'
    | _ => world_writing
    end.

(** The lock file was removed before the daemon's first round. *)
Definition lockfile_removed : nat -> bool := fun _ => true.

(** The session over [ring4] when this participant is the only one left. *)
Definition world_alone : SharedGroup.World :=
  SharedGroup.set_info (SharedInfo.set_num_participants 1 info4) world_ready.

(** Collaborators whose database file holds an in-Realm history. *)
Definition env_inrealm : Collaborators :=
  {| assertions := true;
     async_daemon := false;
     sizeof_SharedInfo := 1400;
     sizeof_mutex := 40;
     sizeof_condvar := 48;
     getpid := 4242;
     replication := None;
     history := None;
     attach_shared := fun _ _ _ => true;
     write_group := fun new_version _ => Some (4096 * new_version);
     writer_commit := fun _ => true;
     writer_file_size := fun top => top + 4096;
     controlmutex_valid := true;
     attach_file := fun _ => attached 8192;
     get_baseline := 16384;
     stored_version := 9;
     stored_history_type := 2;
     stored_file_format_version := 5;
     target_file_format_version := fun _ _ => 5;
     committed_file_format_version := 5;
     upgrade_file_format_ok := true;
     upgrade_callback := None;
     group_write_ok := true;
     disable_sync_to_disk := false |}.
Example Ringbuffer_init_runs :
  match Ringbuffer.Ringbuffer Ringbuffer.zero_image with
  | Ret _ rb => Ringbuffer.walk (Ringbuffer.data rb) 3 31 = [31; 0; 1]
  | _ => False
  end.
Proof. vm_compute. reflexivity. Qed.

(** * Properties *)

(** ** Fixed-width arithmetic *)

Lemma wrap32_small z : is_u32 z -> wrap32 z = z.
Proof. unfold wrap32, is_u32. intros. apply Z.mod_small. lia. Qed.

Lemma wrap32_range z : is_u32 (wrap32 z).
Proof. unfold wrap32, is_u32. apply Z.mod_pos_bound. lia. Qed.

Lemma wrap32_add_sub z k : is_u32 z -> wrap32 (wrap32 (z + k) - k) = z.
Proof.
  unfold wrap32, is_u32. intros Hz.
  rewrite Zminus_mod_idemp_l.
  replace (z + k - k) with z by lia.
  apply Z.mod_small. lia.
Qed.

Lemma wrap32_sub_add z k : is_u32 z -> wrap32 (wrap32 (z - k) + k) = z.
Proof.
  unfold wrap32, is_u32. intros Hz.
  rewrite Zplus_mod_idemp_l.
  replace (z - k + k) with z by lia.
  apply Z.mod_small. lia.
Qed.

Lemma land_1_mod z : Z.land z 1 = z mod 2.
Proof. change 1 with (Z.ones 1). rewrite Z.land_ones by lia. reflexivity. Qed.

Lemma land_1_even z : (Z.land z 1 =? 0) = Z.even z.
Proof.
  rewrite land_1_mod, Zmod_even.
  destruct (Z.even z); reflexivity.
Qed.

(** ** Atomic counters *)

Lemma double_inc_odd c :
  is_u32 c -> Z.even c = false -> atomic_double_inc_if_even c = (false, c).
Proof.
  intros Hc Hodd. unfold atomic_double_inc_if_even, fetch_add, fetch_sub.
  rewrite land_1_even, Hodd. simpl. by rewrite wrap32_add_sub.
Qed.

Lemma double_inc_even c :
  Z.even c = true -> atomic_double_inc_if_even c = (true, wrap32 (c + 2)).
Proof.
  intros Heven. unfold atomic_double_inc_if_even, fetch_add.
  by rewrite land_1_even, Heven.
Qed.

Lemma double_inc_dec c :
  is_u32 c -> atomic_double_dec (wrap32 (c + 2)) = c.
Proof. intros. unfold atomic_double_dec, fetch_sub. simpl. by apply wrap32_add_sub. Qed.

Lemma one_if_zero_nonzero c :
  is_u32 c -> c <> 0 -> atomic_one_if_zero c = (false, c).
Proof.
  intros Hc Hnz. unfold atomic_one_if_zero, fetch_add, fetch_sub.
  destruct (Z.eqb_spec c 0); [done|]. simpl. by rewrite wrap32_add_sub.
Qed.

Lemma one_if_zero_zero : atomic_one_if_zero 0 = (true, 1).
Proof. reflexivity. Qed.

(** C7. For every 32-bit counter value [c]: [atomic_double_inc_if_even]
    first adds 2; when the prior value was odd it subtracts the 2 again and
    returns [false] with the counter back at [c]; otherwise it returns
    [true] with the counter at [c + 2] (in 32-bit arithmetic, and literally
    [c + 2] whenever that fits).  [atomic_one_if_zero] first adds 1; when the
    prior value was non-zero it subtracts the 1 again and returns [false]
    with the counter back at [c]; otherwise it returns [true] and the counter
    went from 0 to 1. *)
Theorem atomic_counter_round_trip (c : Z) (Hc : is_u32 c) :
  (atomic_double_inc_if_even c =
     if Z.odd c then (false, snd (fetch_sub (snd (fetch_add c 2)) 2))
     else (true, snd (fetch_add c 2))) /\
  (Z.odd c = true -> atomic_double_inc_if_even c = (false, c)) /\
  (Z.odd c = false ->
     atomic_double_inc_if_even c = (true, wrap32 (c + 2)) /\
     (c + 2 < 2 ^ 32 -> atomic_double_inc_if_even c = (true, c + 2))) /\
  (atomic_one_if_zero c =
     if negb (c =? 0) then (false, snd (fetch_sub (snd (fetch_add c 1)) 1))
     else (true, snd (fetch_add c 1))) /\
  (c <> 0 -> atomic_one_if_zero c = (false, c)) /\
  (c = 0 -> atomic_one_if_zero c = (true, c + 1)).
Proof.
  assert (Heo : Z.even c = negb (Z.odd c)) by (by rewrite Z.negb_odd).
  split_and!.
  - unfold atomic_double_inc_if_even, fetch_add, fetch_sub.
    rewrite land_1_even, Heo. by destruct (Z.odd c).
  - intros Ho. apply double_inc_odd; [done|]. by rewrite Heo, Ho.
  - intros Ho. rewrite double_inc_even by (by rewrite Heo, Ho).
    split; [done|]. intros Hfit. rewrite wrap32_small; [done|].
    unfold is_u32 in *. lia.
  - unfold atomic_one_if_zero, fetch_add, fetch_sub. by destruct (c =? 0).
  - intros Hnz. by apply one_if_zero_nonzero.
  - intros ->. reflexivity.
Qed.

Lemma atomic_counter_round_trip_witness :
  atomic_double_inc_if_even 7 = (false, 7) /\
  atomic_double_inc_if_even 6 = (true, 8) /\
  atomic_one_if_zero 4 = (false, 4) /\
  atomic_one_if_zero 0 = (true, 1).
Proof.
  assert (H7 : is_u32 7) by (unfold is_u32; lia).
  assert (H6 : is_u32 6) by (unfold is_u32; lia).
  assert (H4 : is_u32 4) by (unfold is_u32; lia).
  assert (H0 : is_u32 0) by (unfold is_u32; lia).
  destruct (atomic_counter_round_trip 7 H7) as (_ & Hodd & _).
  destruct (atomic_counter_round_trip 6 H6) as (_ & _ & Heven & _).
  destruct (atomic_counter_round_trip 4 H4) as (_ & _ & _ & _ & Hnz & _).
  destruct (atomic_counter_round_trip 0 H0) as (_ & _ & _ & _ & _ & Hz).
  split_and!.
  - apply Hodd. reflexivity.
  - apply Heven; [reflexivity | lia].
  - apply Hnz. lia.
  - apply Hz. reflexivity.
Defined.

(** ** The ring buffer: slots, paths and the ring invariant *)

Section RingFacts.
Import Ringbuffer.

Lemma slot_Some d i r :
  slot d i = Some r -> 0 <= i /\ d !! Z.to_nat i = Some r.
Proof. unfold slot. destruct (Z.ltb_spec i 0); [done|]. auto. Qed.

Lemma slot_lt d i r : slot d i = Some r -> 0 <= i < Z.of_nat (length d).
Proof.
  intros H. apply slot_Some in H as [H0 H]. apply lookup_lt_Some in H. lia.
Qed.

Lemma slot_is_Some d i : 0 <= i < Z.of_nat (length d) -> is_Some (slot d i).
Proof.
  intros H. unfold slot. destruct (Z.ltb_spec i 0); [lia|].
  apply lookup_lt_is_Some. lia.
Qed.

Lemma slot_insert_eq d i r x :
  slot d i = Some r -> slot (<[Z.to_nat i := x]> d) i = Some x.
Proof.
  intros H. pose proof (slot_lt _ _ _ H). unfold slot.
  destruct (Z.ltb_spec i 0); [lia|]. apply list_lookup_insert_eq. lia.
Qed.

Lemma slot_insert_ne d i j x :
  0 <= i -> j <> i -> slot (<[Z.to_nat i := x]> d) j = slot d j.
Proof.
  intros Hi Hne. unfold slot. destruct (Z.ltb_spec j 0); [done|].
  apply list_lookup_insert_ne. lia.
Qed.

Lemma get_ok rb i r : slot (data rb) i = Some r -> get i rb = Ret r rb.
Proof. intros H. unfold get. by rewrite H. Qed.

Lemma update_ok rb i f r :
  slot (data rb) i = Some r ->
  update i f rb = Ret tt (set_data (<[Z.to_nat i := f r]> (data rb)) rb).
Proof. intros H. unfold update. by rewrite H. Qed.

Lemma set_count_same r : ReadCount.set_count (ReadCount.count r) r = r.
Proof. by destruct r. Qed.

Lemma set_data_same rb : set_data (data rb) rb = rb.
Proof. by destruct rb. Qed.

(** *** Paths *)

Lemma path_app d s l1 l2 t :
  path d s (l1 ++ l2) t <-> exists m, path d s l1 m /\ path d m l2 t.
Proof.
  revert s. induction l1 as [|i l1 IH]; intros s; simpl.
  - split; [intros H; by exists s | intros (m & -> & H); done].
  - split.
    + intros (-> & r & Hr & Hp). apply IH in Hp as (m & H1 & H2).
      exists m. eauto 10.
    + intros (m & (-> & r & Hr & H1) & H2). split; [done|].
      exists r. split; [done|]. apply IH. eauto.
Qed.

Lemma path_hd d s l t : path d s l t -> hd t l = s.
Proof. destruct l; simpl; [done|]. by intros [-> _]. Qed.

Lemma path_ext d d' s l t :
  (forall i r, i ∈ l -> slot d i = Some r ->
     exists r', slot d' i = Some r' /\ ReadCount.next r' = ReadCount.next r) ->
  path d s l t -> path d' s l t.
Proof.
  revert s. induction l as [|i l IH]; intros s Hext; simpl; [done|].
  intros (-> & r & Hr & Hp).
  destruct (Hext i r) as (r' & Hr' & Hn); [left | done |].
  split; [done|]. exists r'. split; [done|]. rewrite Hn.
  apply IH; [|done]. intros j rj Hj. apply Hext. by right.
Qed.

Lemma path_slots d s l t i :
  path d s l t -> i ∈ l -> is_Some (slot d i).
Proof.
  revert s. induction l as [|j l IH]; intros s; simpl.
  - intros _ Hi. by apply elem_of_nil in Hi.
  - intros (-> & r & Hr & Hp) Hi. apply elem_of_cons in Hi as [->|Hi]; eauto.
Qed.

Lemma path_follow d s l t : path d s l t -> follow d (length l) s = Some t.
Proof.
  revert s. induction l as [|i l IH]; intros s; simpl.
  - by intros ->.
  - intros (-> & r & Hr & Hp). rewrite Hr. by apply IH.
Qed.

Lemma path_walk d s l t : path d s l t -> walk d (length l) s = l.
Proof.
  revert s. induction l as [|i l IH]; intros s; simpl; [done|].
  intros (-> & r & Hr & Hp). rewrite Hr. f_equal. by apply IH.
Qed.

(** A cycle can be entered at any of its slots. *)
Lemma path_rotate d s l1 l2 :
  path d s (l1 ++ l2) s -> path d (hd s l2) (l2 ++ l1) (hd s l2).
Proof.
  intros H. apply path_app in H as (m & H1 & H2).
  pose proof (path_hd _ _ _ _ H2) as Hm.
  destruct l2 as [|j l2].
  - simpl in *. by subst m.
  - simpl in Hm. subst m. simpl hd. apply path_app. eauto.
Qed.

(** A run of consecutive slots, each linked to its successor, the last one
    to [t]. *)
Lemma path_seqZ d e n t :
  (forall j, e <= j < e + Z.of_nat n ->
     exists r, slot d j = Some r /\
       ReadCount.next r = if decide (j = e + Z.of_nat n - 1) then t else j + 1) ->
  (0 < n)%nat ->
  path d e (seqZ e (Z.of_nat n)) t.
Proof.
  revert e. induction n as [|n IH]; intros e Hs Hn; [lia|].
  rewrite seqZ_cons by lia. simpl. split; [done|].
  destruct (Hs e) as (r & Hr & Hnext); [lia|].
  exists r. split; [done|].
  replace (Z.pred (Z.of_nat (S n))) with (Z.of_nat n) by lia.
  rewrite Hnext. destruct n as [|n].
  - rewrite decide_True by lia. done.
  - rewrite decide_False by lia.
    replace (Z.succ e) with (e + 1) by lia.
    apply IH; [|lia]. intros j Hj.
    destruct (Hs j) as (rj & Hrj & Hnj); [lia|].
    exists rj. split; [done|]. rewrite Hnj.
    repeat case_decide; (done || lia).
Qed.

(** *** Consequences of the ring invariant *)

Lemma ring_NoDup rb older free :
  ring_at rb older free -> NoDup (older ++ put_pos rb :: free).
Proof. intros H. rewrite (ring_slots _ _ _ H). apply NoDup_seqZ. Qed.

Lemma ring_range rb older free i :
  ring_at rb older free -> i ∈ older ++ put_pos rb :: free ->
  0 <= i < entries rb.
Proof.
  intros H Hi. rewrite (ring_slots _ _ _ H) in Hi.
  apply elem_of_seqZ in Hi. lia.
Qed.

Lemma ring_length rb older free :
  ring_at rb older free ->
  Z.of_nat (length older + 1 + length free) = entries rb.
Proof.
  intros H. pose proof (ring_entries _ _ _ H) as [He _].
  pose proof (Permutation_length (ring_slots _ _ _ H)) as Hl.
  rewrite length_app, length_seqZ in Hl. simpl in Hl. lia.
Qed.

Lemma ring_old_pos rb older free :
  ring_at rb older free -> old_pos rb = hd (put_pos rb) older.
Proof.
  intros H. pose proof (path_hd _ _ _ _ (ring_cycle _ _ _ H)) as Hh.
  destruct older; simpl in *; congruence.
Qed.

Lemma ring_slot rb older free i :
  ring_at rb older free -> i ∈ older ++ put_pos rb :: free ->
  is_Some (slot (data rb) i).
Proof. intros H. apply path_slots with (1 := ring_cycle _ _ _ H). Qed.

End RingFacts.

(** ** Cleanup *)

Section CleanupFacts.
Import Ringbuffer.

(** One iteration of the loop of [cleanup], spelled out. *)
Lemma cleanup_loop_unfold fuel rb :
  cleanup_loop (S fuel) rb =
    if old_pos rb =? put_pos rb then Ret tt rb
    else match slot (data rb) (old_pos rb) with
         | None => Undefined
         | Some r =>
             if ReadCount.count r =? 0 then
               cleanup_loop fuel
                 (set_old_pos (ReadCount.next r)
                    (set_data (<[Z.to_nat (old_pos rb) :=
                                   ReadCount.set_count (wrap32 (0 + 1)) r]>
                                 (data rb)) rb))
             else
               Ret tt
                 (set_data (<[Z.to_nat (old_pos rb) :=
                                ReadCount.set_count
                                  (wrap32 (wrap32 (ReadCount.count r + 1) - 1)) r]>
                              (data rb)) rb)
         end.
Proof.
  simpl. unfold bind at 1. unfold get_state at 1.
  destruct (old_pos rb =? put_pos rb); simpl; [done|].
  unfold bind at 1. unfold get at 1.
  destruct (slot (data rb) (old_pos rb)) as [r|] eqn:Hr; [|done].
  unfold atomic_one_if_zero, fetch_add, fetch_sub.
  destruct (Z.eqb_spec (ReadCount.count r) 0) as [Hz|Hz]; simpl.
  - unfold bind at 1. erewrite update_ok by done.
    unfold bind at 1. unfold get at 1. simpl.
    erewrite slot_insert_eq by done.
    unfold bind at 1. unfold modify at 1. simpl. by rewrite Hz.
  - unfold bind at 1. erewrite update_ok by done. done.
Qed.

End CleanupFacts.

Section CleanupFacts2.
Import Ringbuffer.

Lemma in_take {A} (x : A) n l : x ∈ take n l -> x ∈ l.
Proof. intros H. rewrite <- (take_drop n l). apply elem_of_app. by left. Qed.

Lemma in_live_ring (i p : Z) older free :
  i ∈ older ++ [p] -> i ∈ older ++ p :: free.
Proof.
  rewrite !elem_of_app, list_elem_of_singleton, elem_of_cons. tauto.
Qed.

Lemma in_free_ring (i p : Z) older free : i ∈ free -> i ∈ older ++ p :: free.
Proof. rewrite elem_of_app, elem_of_cons. tauto. Qed.

Lemma in_drop {A} (x : A) n l : x ∈ drop n l -> x ∈ l.
Proof. intros H. rewrite <- (take_drop n l). apply elem_of_app. by right. Qed.

(** Freeing the oldest live slot keeps the ring invariant: the slot moves
    from the front of the live run to the end of the free run. *)
Lemma ring_at_free_oldest rb a older free r :
  ring_at rb (a :: older) free ->
  slot (data rb) a = Some r ->
  ring_at
    (set_old_pos (ReadCount.next r)
       (set_data (<[Z.to_nat a := ReadCount.set_count 1 r]> (data rb)) rb))
    older (free ++ [a]).
Proof.
  intros H Hr.
  pose proof (ring_NoDup _ _ _ H) as Hnd. simpl in Hnd.
  apply NoDup_cons in Hnd as [Ha Hnd].
  pose proof (slot_Some _ _ _ Hr) as [Ha0 _].
  pose proof (ring_cycle _ _ _ H) as Hc. simpl in Hc.
  destruct Hc as (Hold & r0 & Hr0 & Hp). rewrite Hold in *.
  assert (r0 = r) as -> by congruence.
  split; simpl.
  - replace (older ++ put_pos rb :: free ++ [a])
      with ((older ++ put_pos rb :: free) ++ [a]) by (by rewrite <- app_assoc).
    apply path_app. exists a. split.
    + eapply path_ext; [|exact Hp]. intros i ri Hi Hri.
      exists ri. split; [|done]. rewrite slot_insert_ne; [done|done|].
      intros ->. done.
    + simpl. split; [done|]. eexists. split; [by eapply slot_insert_eq|done].
  - rewrite <- (ring_slots _ _ _ H). simpl.
    etrans; [|symmetry; apply Permutation_cons_append].
    by rewrite <- app_assoc.
  - intros i ri Hi Hri. rewrite slot_insert_ne in Hri; [|done|].
    + apply (ring_live _ _ _ H i ri); [|done]. simpl. by right.
    + intros ->. apply Ha. by apply in_live_ring.
  - intros i ri Hi Hri. apply elem_of_app in Hi as [Hi|Hi].
    + rewrite slot_insert_ne in Hri; [|done|].
      * by apply (ring_free _ _ _ H i ri).
      * intros ->. apply Ha. by apply in_free_ring.
    + apply list_elem_of_singleton in Hi as ->.
      erewrite slot_insert_eq in Hri by done. by inversion Hri.
  - apply (ring_entries _ _ _ H).
Qed.

Lemma cleanup_loop_spec older : forall fuel rb free,
  ring_at rb older free -> (length older < fuel)%nat ->
  exists rb' k,
    cleanup_loop fuel rb = Ret tt rb' /\
    (k <= length older)%nat /\
    ring_at rb' (drop k older) (free ++ take k older) /\
    entries rb' = entries rb /\ put_pos rb' = put_pos rb /\
    length (data rb') = length (data rb) /\
    (forall i, i ∈ take k older ->
       exists r, slot (data rb) i = Some r /\ ReadCount.count r = 0 /\
                 slot (data rb') i = Some (ReadCount.set_count 1 r)) /\
    (forall i, i ∉ take k older -> slot (data rb') i = slot (data rb) i) /\
    (forall i r, head (drop k older) = Some i ->
       slot (data rb) i = Some r -> ReadCount.count r <> 0).
Proof.
  induction older as [|a older IH]; intros fuel rb free H Hfuel.
  - destruct fuel as [|fuel]; [simpl in Hfuel; lia|].
    exists rb, 0%nat. rewrite cleanup_loop_unfold.
    rewrite (ring_old_pos _ _ _ H). simpl. rewrite Z.eqb_refl.
    rewrite app_nil_r. split_and!; try done.
    intros i Hi. by apply elem_of_nil in Hi.
  - destruct fuel as [|fuel]; [simpl in Hfuel; lia|].
    pose proof (ring_NoDup _ _ _ H) as Hnd. simpl in Hnd.
    apply NoDup_cons in Hnd as [Ha Hnd].
    pose proof (ring_cycle _ _ _ H) as Hc. simpl in Hc.
    destruct Hc as (Hold & r & Hr & Hp).
    pose proof (slot_Some _ _ _ Hr) as [Ha0 _].
    destruct (ring_live _ _ _ H a r) as [_ Hu32]; [by left|done|].
    rewrite cleanup_loop_unfold, Hold.
    destruct (Z.eqb_spec a (put_pos rb)) as [Heq|Hne].
    { exfalso. apply Ha. rewrite Heq. apply in_live_ring, elem_of_app.
      right. by left. }
    rewrite Hr. destruct (Z.eqb_spec (ReadCount.count r) 0) as [Hz|Hz].
    + pose proof (ring_at_free_oldest _ _ _ _ _ H Hr) as H1.
      change (wrap32 (0 + 1)) with 1.
      set (rb1 := set_old_pos _ _) in *.
      destruct (IH fuel rb1 (free ++ [a]) H1) as
        (rb' & k & Hrun & Hk & Hinv & He & Hpp & Hlen & Hfreed & Hsame & Hstop);
        [simpl in Hfuel; lia|].
      exists rb', (S k). simpl.
      rewrite <- app_assoc in Hinv. simpl in Hinv.
      split_and!; try done.
      * lia.
      * rewrite Hlen. simpl. by rewrite length_insert.
      * intros i Hi. apply elem_of_cons in Hi as [->|Hi].
        -- exists r. split_and!; try done. rewrite Hsame.
           ++ simpl. by eapply slot_insert_eq.
           ++ intros Hin. apply Ha. apply elem_of_app. left.
              by eapply in_take.
        -- destruct (Hfreed i Hi) as (ri & Hri & Hci & Hri').
           exists ri. split_and!; try done.
           simpl in Hri. rewrite slot_insert_ne in Hri; [done|done|].
           intros ->. apply Ha. apply elem_of_app. left.
           by eapply in_take.
      * intros i Hi. apply not_elem_of_cons in Hi as [Hia Hi].
        rewrite Hsame by done. simpl. by apply slot_insert_ne.
      * intros i ri Hhd Hri. apply (Hstop i ri Hhd).
        simpl. rewrite slot_insert_ne; [done|done|].
        intros ->. apply Ha. apply elem_of_app. left.
        apply head_Some_elem_of in Hhd. by eapply in_drop.
    + exists rb, 0%nat. rewrite wrap32_add_sub by done.
      rewrite set_count_same, list_insert_id, set_data_same
        by (by apply slot_Some in Hr as [_ ?]).
      simpl. rewrite app_nil_r. split_and!; try done.
      * lia.
      * intros i Hi. by apply elem_of_nil in Hi.
      * intros i ri [= <-] Hri. congruence.
Qed.

End CleanupFacts2.

Section CleanupTheorems.
Import Ringbuffer.

(** *** Termination of [cleanup] on any ring, well-formed or not *)

Lemma zeros_insert d i r c :
  d !! i = Some r -> ReadCount.count r = 0 -> c <> 0 ->
  S (zeros (<[i := ReadCount.set_count c r]> d)) = zeros d.
Proof.
  unfold zeros. revert i. induction d as [|x d IH]; intros i Hi Hz Hc; [done|].
  destruct i as [|i]; simpl in *.
  - inversion Hi; subst x. rewrite !filter_cons.
    rewrite (decide_True _ _ Hz). rewrite decide_False by (by destruct r).
    done.
  - rewrite !filter_cons. specialize (IH i Hi Hz Hc).
    destruct (decide (ReadCount.count x = 0)); simpl; by rewrite <- IH.
Qed.

Lemma zeros_le d : (zeros d <= length d)%nat.
Proof. apply length_filter. Qed.

Lemma cleanup_loop_terminates fuel : forall rb,
  (zeros (data rb) < fuel)%nat ->
  (exists rb', cleanup_loop fuel rb = Ret tt rb') \/
  cleanup_loop fuel rb = Undefined.
Proof.
  induction fuel as [|fuel IH]; intros rb Hz; [lia|].
  rewrite cleanup_loop_unfold.
  destruct (old_pos rb =? put_pos rb); [eauto|].
  destruct (slot (data rb) (old_pos rb)) as [r|] eqn:Hr; [|by right].
  destruct (Z.eqb_spec (ReadCount.count r) 0) as [Hc|Hc]; [|eauto].
  apply IH. simpl. apply slot_Some in Hr as [_ Hr].
  pose proof (zeros_insert _ _ _ (wrap32 (0 + 1)) Hr Hc) as Hd.
  change (wrap32 (0 + 1)) with 1 in *. lia.
Qed.

Lemma cleanup_terminates rb :
  (exists rb', cleanup rb = Ret tt rb') \/ cleanup rb = Undefined.
Proof.
  unfold cleanup. unfold bind, get_state.
  apply cleanup_loop_terminates. pose proof (zeros_le (data rb)). lia.
Qed.

(** *** Counting live and free slots *)

Lemma filter_all {A} (P : A -> Prop) `{!forall x, Decision (P x)} (l : list A) :
  (forall x, x ∈ l -> P x) -> filter P l = l.
Proof.
  induction l as [|x l IH]; intros Hall; [done|].
  rewrite filter_cons, decide_True by (apply Hall; left).
  f_equal. apply IH. intros y Hy. apply Hall. by right.
Qed.

Lemma filter_none {A} (P : A -> Prop) `{!forall x, Decision (P x)} (l : list A) :
  (forall x, x ∈ l -> ~ P x) -> filter P l = [].
Proof.
  induction l as [|x l IH]; intros Hall; [done|].
  rewrite filter_cons, decide_False by (apply Hall; left).
  apply IH. intros y Hy. apply Hall. by right.
Qed.

Lemma take_as_slots d n :
  (n <= length d)%nat -> take n d = slot_or_zero d <$> seqZ 0 (Z.of_nat n).
Proof.
  induction n as [|n IH]; intros Hn; [done|].
  destruct (lookup_lt_is_Some_2 d n) as [x Hx]; [lia|].
  rewrite (take_S_r _ _ _ Hx), seqZ_S, fmap_app, IH by lia.
  f_equal. simpl. unfold slot_or_zero, slot.
  destruct (Z.ltb_spec (0 + Z.of_nat n) 0); [lia|].
  replace (Z.to_nat (0 + Z.of_nat n)) with n by lia. by rewrite Hx.
Qed.

Lemma ring_backed rb older free :
  ring_at rb older free -> entries rb <= Z.of_nat (length (data rb)).
Proof.
  intros H. pose proof (ring_length _ _ _ H) as Hl.
  destruct (ring_slot _ _ _ (entries rb - 1) H) as [r Hr].
  - rewrite (ring_slots _ _ _ H). apply elem_of_seqZ. lia.
  - apply slot_lt in Hr. lia.
Qed.

Lemma is_live_not_free r : is_live r = true -> is_free r = false.
Proof.
  unfold is_live, is_free. rewrite land_1_mod.
  intros H%Z.eqb_eq. apply Z.eqb_neq. intros Hc. by rewrite Hc in H.
Qed.

Lemma count_one_free r :
  ReadCount.count r = 1 -> is_free r = true /\ is_live r = false.
Proof. unfold is_live, is_free. by intros ->. Qed.

(** Under the ring invariant the live slots are exactly [older] and the
    slot at [put_pos], and the free slots exactly [free]. *)
Lemma ring_counts rb older free :
  ring_at rb older free ->
  live_count rb = Z.of_nat (length older + 1) /\
  free_count rb = Z.of_nat (length free).
Proof.
  intros H. pose proof (ring_backed _ _ _ H) as Hb.
  pose proof (ring_entries _ _ _ H) as [He _].
  assert (Hlive : forall x, x ∈ slot_or_zero (data rb) <$> (older ++ [put_pos rb]) ->
                            is_live x = true).
  { intros x (i & -> & Hi)%list_elem_of_fmap.
    destruct (ring_slot _ _ _ i H) as [r Hr]; [by apply in_live_ring|].
    unfold slot_or_zero. rewrite Hr. simpl.
    by destruct (ring_live _ _ _ H i r Hi Hr). }
  assert (Hfree : forall x, x ∈ slot_or_zero (data rb) <$> free ->
                            ReadCount.count x = 1).
  { intros x (i & -> & Hi)%list_elem_of_fmap.
    destruct (ring_slot _ _ _ i H) as [r Hr]; [by apply in_free_ring|].
    unfold slot_or_zero. rewrite Hr. simpl.
    by apply (ring_free _ _ _ H i r). }
  assert (Hperm : seqZ 0 (entries rb) ≡ₚ (older ++ [put_pos rb]) ++ free).
  { rewrite <- (ring_slots _ _ _ H). by rewrite <- app_assoc. }
  unfold live_count, free_count.
  rewrite take_as_slots by lia. rewrite Z2Nat.id by lia.
  split; f_equal.
  - rewrite (Permutation_length
               (filter_Permutation _ _ _ (fmap_Permutation _ _ _ Hperm))).
    rewrite fmap_app, filter_app, length_app.
    rewrite filter_all by done.
    rewrite filter_none.
    + rewrite length_fmap, length_app. simpl. lia.
    + intros x Hx. apply Hfree, count_one_free in Hx as [_ Hx]. congruence.
  - rewrite (Permutation_length
               (filter_Permutation _ _ _ (fmap_Permutation _ _ _ Hperm))).
    rewrite fmap_app, filter_app, length_app.
    rewrite filter_none.
    + rewrite filter_all; [by rewrite length_fmap|].
      intros x Hx. by apply Hfree, count_one_free in Hx as [Hx _].
    + intros x Hx. apply Hlive, is_live_not_free in Hx. congruence.
Qed.

End CleanupTheorems.

Section CleanupClaim.
Import Ringbuffer.

(** C5. On a ring that satisfies the ring invariant, [cleanup] returns; it
    starts at [old_pos] and walks [k] slots along [next], each of which had
    count 0 and is marked free (count 1) as [old_pos] moves on; it stops at
    [put_pos] or at the first slot whose count is not 0; no other slot and
    no other field changes.  Hence [old_pos] never passes [put_pos] (the ring
    invariant holds again, the freed slots moved from the front of the live
    run to the end of the free run), the slot at [put_pos] is still live,
    and the numbers of live and of free slots still add up to [entries]. *)
Theorem cleanup_trims_history (rb : t) (older free : list Z) :
  ring_at rb older free ->
  exists rb' k,
    cleanup rb = Ret tt rb' /\
    (k <= length older)%nat /\
    follow (data rb) k (old_pos rb) = Some (old_pos rb') /\
    (forall i, i ∈ take k older ->
       exists r, slot (data rb) i = Some r /\ ReadCount.count r = 0 /\
                 slot (data rb') i = Some (ReadCount.set_count 1 r)) /\
    (old_pos rb' = put_pos rb \/
     exists r, slot (data rb) (old_pos rb') = Some r /\ ReadCount.count r <> 0) /\
    (forall i, i ∉ take k older -> slot (data rb') i = slot (data rb) i) /\
    entries rb' = entries rb /\ put_pos rb' = put_pos rb /\
    ring_at rb' (drop k older) (free ++ take k older) /\
    (exists r, slot (data rb') (put_pos rb') = Some r /\ is_live r = true) /\
    live_count rb + free_count rb = entries rb /\
    live_count rb' + free_count rb' = entries rb' /\
    1 <= live_count rb'.
Proof.
  intros H.
  pose proof (ring_backed _ _ _ H) as Hb.
  pose proof (ring_length _ _ _ H) as Hl.
  destruct (cleanup_loop_spec older (S (length (data rb))) rb free H) as
    (rb' & k & Hrun & Hk & Hinv & He & Hpp & Hlen & Hfreed & Hsame & Hstop);
    [lia|].
  exists rb', k.
  pose proof (ring_old_pos _ _ _ Hinv) as Hold'.
  destruct (ring_counts _ _ _ H) as [Hlc Hfc].
  destruct (ring_counts _ _ _ Hinv) as [Hlc' Hfc'].
  pose proof (ring_length _ _ _ Hinv) as Hl'.
  split_and!; try done.
  - pose proof (ring_cycle _ _ _ H) as Hc.
    rewrite <- (take_drop k older), <- app_assoc in Hc.
    apply path_app in Hc as (m & H1 & H2).
    apply path_follow in H1. rewrite length_take_le in H1 by done.
    rewrite H1. f_equal. apply path_hd in H2.
    rewrite Hold', Hpp, <- H2. by destruct (drop k older).
  - destruct (drop k older) as [|i rest] eqn:Hd; simpl in Hold'.
    + left. congruence.
    + right. destruct (ring_slot _ _ _ i H) as [r Hr].
      * apply elem_of_app. left. apply (in_drop _ k). rewrite Hd. by left.
      * exists r. rewrite Hold'. split; [done|]. by apply (Hstop i r).
  - destruct (ring_slot _ _ _ (put_pos rb') Hinv) as [r Hr].
    + apply elem_of_app. right. by left.
    + exists r. split; [done|].
      apply (ring_live _ _ _ Hinv (put_pos rb') r); [|done].
      apply elem_of_app. right. by left.
  - lia.
  - lia.
  - lia.
Qed.

End CleanupClaim.

Ltac elem_cases H :=
  repeat (apply elem_of_cons in H as [H|H]); try (by apply elem_of_nil in H).

Ltac concrete_ring :=
  split;
  [ simpl; repeat (split; [reflexivity|]; eexists; split; [reflexivity|]);
    reflexivity
  | vm_compute; reflexivity || solve_Permutation
  | let i := fresh "i" in let r := fresh "r" in
    let Hi := fresh "Hi" in let Hr := fresh "Hr" in
    intros i r Hi Hr; simpl in Hi; elem_cases Hi; subst i;
    vm_compute in Hr; inversion Hr; subst r;
    (split; [reflexivity | unfold is_u32; simpl; lia])
  | let i := fresh "i" in let r := fresh "r" in
    let Hi := fresh "Hi" in let Hr := fresh "Hr" in
    intros i r Hi Hr; simpl in Hi; elem_cases Hi; subst i;
    vm_compute in Hr; inversion Hr; subst r; reflexivity
  | unfold is_u32; simpl; lia ].

Lemma ring4_inv : Ringbuffer.ring_at ring4 [0; 1] [3].
Proof. concrete_ring. Qed.

Lemma cleanup_trims_history_witness :
  exists rb' k,
    Ringbuffer.cleanup ring4 = Ret tt rb' /\
    (k <= 2)%nat /\
    Ringbuffer.follow (Ringbuffer.data ring4) k 0 = Some (Ringbuffer.old_pos rb') /\
    Ringbuffer.old_pos rb' = 1 /\
    Ringbuffer.live_count rb' + Ringbuffer.free_count rb' = 4.
Proof.
  destruct (cleanup_trims_history ring4 [0; 1] [3] ring4_inv) as
    (rb' & k & Hrun & Hk & Hf & _ & _ & _ & He & _ & _ & _ & _ & Hsum & _).
  exists rb', k. vm_compute in Hrun. inversion Hrun; subst rb'.
  split_and!; try done.
Defined.

(** ** Ring closure and expansion *)

Section ExpandFacts.
Import Ringbuffer.

(** P6: from [put_pos] the free run leads to [old_pos]. *)
Lemma ring_put_to_old rb older free :
  ring_at rb older free ->
  path (data rb) (put_pos rb) (put_pos rb :: free) (old_pos rb).
Proof.
  intros H. pose proof (ring_cycle _ _ _ H) as Hc.
  apply path_app in Hc as (m & H1 & H2).
  pose proof (path_hd _ _ _ _ H2) as Hm. simpl in Hm. by subst m.
Qed.

Lemma ring_closure rb older free :
  ring_at rb older free ->
  follow (data rb) (S (length free)) (put_pos rb) = Some (old_pos rb) /\
  Z.of_nat (S (length free)) <= entries rb.
Proof.
  intros H. split.
  - apply (path_follow _ _ (put_pos rb :: free)). by eapply ring_put_to_old.
  - pose proof (ring_length _ _ _ H). lia.
Qed.

(** The ring is one closed cycle over all its slots. *)
Lemma ring_closed_cycle rb older free :
  ring_at rb older free ->
  walk (data rb) (Z.to_nat (entries rb)) (put_pos rb) ≡ₚ seqZ 0 (entries rb) /\
  follow (data rb) (Z.to_nat (entries rb)) (put_pos rb) = Some (put_pos rb).
Proof.
  intros H. pose proof (ring_length _ _ _ H) as Hl.
  assert (Hc : path (data rb) (put_pos rb) (put_pos rb :: free ++ older)
                 (put_pos rb))
    by exact (path_rotate _ _ older (put_pos rb :: free) (ring_cycle _ _ _ H)).
  assert (Hn : Z.to_nat (entries rb) = length (put_pos rb :: free ++ older)).
  { simpl. rewrite length_app. lia. }
  rewrite Hn. split.
  - rewrite (path_walk _ _ _ _ Hc), <- (ring_slots _ _ _ H).
    change (put_pos rb :: free ++ older) with ((put_pos rb :: free) ++ older).
    apply Permutation_app_comm.
  - by apply path_follow.
Qed.

Lemma is_full_spec rb older free :
  ring_at rb older free ->
  is_full rb = Ret (match free with [] => true | _ => false end) rb.
Proof.
  intros H. pose proof (ring_put_to_old _ _ _ H) as Hp. simpl in Hp.
  destruct Hp as (_ & r & Hr & Hp). apply path_hd in Hp.
  unfold is_full, last, bind, get_state, ret. rewrite (get_ok _ _ _ Hr).
  f_equal. destruct free as [|f free]; simpl in Hp.
  - by apply Z.eqb_eq.
  - apply Z.eqb_neq. rewrite <- Hp. intros Hf.
    pose proof (ring_NoDup _ _ _ H) as Hnd.
    rewrite (ring_old_pos _ _ _ H) in Hf.
    apply NoDup_app in Hnd as (_ & Hdisj & Hnd).
    apply NoDup_cons in Hnd as [Hput _].
    destruct older as [|a older]; simpl in Hf.
    + apply Hput. rewrite <- Hf, Hp. by left.
    + apply (Hdisj a); [by left|]. right. rewrite <- Hf, Hp. by left.
Qed.

Lemma init_loop_spec n : forall i rb,
  0 <= i -> i + Z.of_nat n <= Z.of_nat (length (data rb)) ->
  exists d',
    init_loop n i rb = Ret tt (set_data d' rb) /\
    length d' = length (data rb) /\
    (forall j, i <= j < i + Z.of_nat n ->
       slot d' j = Some (ReadCount.mk 1 0 0 1 (wrap32 (j + 1)))) /\
    (forall j, ~ (i <= j < i + Z.of_nat n) -> slot d' j = slot (data rb) j).
Proof.
  induction n as [|n IH]; intros i rb Hi Hlen.
  - exists (data rb). simpl. unfold ret. rewrite set_data_same.
    split_and!; try done. intros j Hj. lia.
  - destruct (slot_is_Some (data rb) i) as [r Hr]; [lia|].
    simpl. unfold bind at 1. rewrite (update_ok _ _ _ _ Hr).
    set (rb1 := set_data _ rb).
    destruct (IH (i + 1) rb1) as (d' & Hrun & Hl & Hnew & Hold); [lia| |].
    { subst rb1. simpl. rewrite length_insert. lia. }
    exists d'. rewrite Hrun. subst rb1. simpl in *.
    rewrite length_insert in Hl.
    split_and!; try done.
    + intros j Hj. destruct (decide (j = i)) as [->|Hne].
      * rewrite Hold by lia. by erewrite slot_insert_eq.
      * apply Hnew. lia.
    + intros j Hj. rewrite Hold by lia. apply slot_insert_ne; lia.
Qed.

End ExpandFacts.

Section ExpandClaim.
Import Ringbuffer.

Lemma expand_to_spec rb older new_entries :
  ring_at rb older [] ->
  entries rb < new_entries < 2 ^ 32 ->
  new_entries <= Z.of_nat (length (data rb)) ->
  exists rb' rp,
    expand_to new_entries rb = Ret tt rb' /\
    entries rb' = new_entries /\
    put_pos rb' = put_pos rb /\ old_pos rb' = old_pos rb /\
    length (data rb') = length (data rb) /\
    slot (data rb) (put_pos rb) = Some rp /\
    ReadCount.next rp = old_pos rb /\
    slot (data rb') (put_pos rb) = Some (ReadCount.set_next (entries rb) rp) /\
    (forall i, entries rb <= i < new_entries ->
       slot (data rb') i =
         Some (ReadCount.mk 1 0 0 1
                 (if decide (i = new_entries - 1) then old_pos rb else i + 1))) /\
    (forall i, ~ (entries rb <= i < new_entries) -> i <> put_pos rb ->
       slot (data rb') i = slot (data rb) i) /\
    ring_at rb' older (seqZ (entries rb) (new_entries - entries rb)).
Proof.
  intros H Hlt Hlen.
  pose proof (ring_entries _ _ _ H) as [He0 _].
  pose proof (ring_NoDup _ _ _ H) as Hnd.
  assert (Hput : 0 <= put_pos rb < entries rb).
  { apply (ring_range _ _ _ _ H). apply elem_of_app. right. by left. }
  pose proof (ring_put_to_old _ _ _ H) as Hp. simpl in Hp.
  destruct Hp as (_ & rp & Hrp & Hnext).
  destruct (init_loop_spec (Z.to_nat (new_entries - entries rb)) (entries rb) rb)
    as (d1 & Hrun1 & Hl1 & Hnew1 & Hold1); [lia|lia|].
  rewrite Z2Nat.id in Hnew1, Hold1 by lia.
  assert (Hlast : slot d1 (new_entries - 1) =
                  Some (ReadCount.mk 1 0 0 1 (wrap32 (new_entries - 1 + 1))))
    by (apply Hnew1; lia).
  set (d2 := <[Z.to_nat (new_entries - 1) :=
                 ReadCount.set_next (old_pos rb)
                   (ReadCount.mk 1 0 0 1 (wrap32 (new_entries - 1 + 1)))]> d1).
  assert (Hput2 : slot d2 (put_pos rb) = Some rp).
  { unfold d2. rewrite slot_insert_ne by lia. rewrite Hold1 by lia. done. }
  set (d3 := <[Z.to_nat (put_pos rb) := ReadCount.set_next (entries rb) rp]> d2).
  exists (set_entries new_entries
            (set_data d3 (set_data d2 (set_data d1 rb)))), rp.
  assert (Hw : wrap32 new_entries = new_entries)
    by (apply wrap32_small; unfold is_u32; lia).
  assert (Hnew3 : forall i, entries rb <= i < new_entries ->
       slot d3 i =
         Some (ReadCount.mk 1 0 0 1
                 (if decide (i = new_entries - 1) then old_pos rb else i + 1))).
  { intros i Hi. unfold d3, d2. rewrite slot_insert_ne by lia.
    destruct (decide (i = new_entries - 1)) as [Hd|Hd].
    - subst i. by erewrite slot_insert_eq.
    - rewrite slot_insert_ne by lia. rewrite Hnew1 by lia.
      rewrite wrap32_small by (unfold is_u32; lia). done. }
  assert (Hold3 : forall i, ~ (entries rb <= i < new_entries) ->
       i <> put_pos rb -> slot d3 i = slot (data rb) i).
  { intros i Hi Hne. unfold d3, d2. rewrite !slot_insert_ne by lia.
    apply Hold1. lia. }
  assert (Hput3 : slot d3 (put_pos rb) =
                  Some (ReadCount.set_next (entries rb) rp)).
  { unfold d3. by erewrite slot_insert_eq. }
  split_and!; try done.
  - unfold expand_to. unfold bind at 1. unfold get_state at 1.
    unfold bind at 1. rewrite Hrun1.
    unfold bind at 1. erewrite update_ok by exact Hlast.
    unfold bind at 1. erewrite update_ok by exact Hput2.
    unfold modify. by rewrite Hw.
  - simpl. unfold d3, d2. by rewrite !length_insert.
  - assert (Holder : forall i, i ∈ older -> slot d3 i = slot (data rb) i).
    { intros i Hi. apply Hold3.
      - assert (0 <= i < entries rb); [|lia].
        apply (ring_range _ _ _ _ H). apply elem_of_app. by left.
      - intros ->. apply NoDup_app in Hnd as (_ & Hdisj & _).
        apply (Hdisj _ Hi). by left. }
    split; simpl.
    + pose proof (ring_cycle _ _ _ H) as Hc.
      apply path_app in Hc as (m & Hc1 & Hc2).
      pose proof (path_hd _ _ _ _ Hc2) as Hm. simpl in Hm. subst m.
      apply path_app. exists (put_pos rb). split.
      * eapply path_ext; [|exact Hc1]. intros i r Hi Hr.
        exists r. split; [|done]. by rewrite Holder.
      * simpl. split; [done|]. eexists. split; [exact Hput3|]. simpl.
        rewrite <- (Z2Nat.id (new_entries - entries rb)) by lia.
        apply path_seqZ; [|lia]. intros j Hj. rewrite Z2Nat.id in Hj by lia.
        eexists. split; [apply Hnew3; lia|]. simpl.
        rewrite Z2Nat.id by lia. repeat case_decide; (done || lia).
    + replace new_entries with (entries rb + (new_entries - entries rb)) at 2
        by lia.
      rewrite seqZ_app by lia. rewrite <- (ring_slots _ _ _ H).
      by rewrite <- app_assoc.
    + intros i r Hi Hr. destruct (decide (i = put_pos rb)) as [->|Hne].
      * rewrite Hput3 in Hr. inversion Hr; subst r. simpl.
        apply (ring_live _ _ _ H (put_pos rb) rp Hi Hrp).
      * apply elem_of_app in Hi as [Hi|Hi].
        -- rewrite Holder in Hr by done.
           apply (ring_live _ _ _ H i r); [|done]. apply elem_of_app. by left.
        -- apply list_elem_of_singleton in Hi. done.
    + intros i r Hi Hr. apply elem_of_seqZ in Hi.
      rewrite Hnew3 in Hr by lia. by inversion Hr.
    + unfold is_u32. lia.
Qed.

End ExpandClaim.

Section ExpandTheorem.
Import Ringbuffer.

(** C6. Let the ring satisfy the ring invariant and be full, and let the
    backing store cover [new_entries > entries] slots.  Then
    [expand_to new_entries] returns; its loop initialises every new slot
    [i] in [entries, new_entries) with count 1 and [next = i + 1]; the last
    new slot is then linked to [old_pos] and the slot at [put_pos], whose
    successor was [old_pos], is linked to the first new slot; no other slot
    changes.  Afterwards the ring invariant holds with the new slots as the
    free run, [old_pos] is reached from [put_pos] in at most [entries]
    steps, and following [next] from [put_pos] visits every slot exactly
    once and returns to [put_pos]. *)
Theorem expand_to_keeps_ring_closed rb older free new_entries :
  ring_at rb older free ->
  is_full rb = Ret true rb ->
  entries rb < new_entries < 2 ^ 32 ->
  new_entries <= Z.of_nat (length (data rb)) ->
  exists rb0 rb' rp,
    init_loop (Z.to_nat (new_entries - entries rb)) (entries rb) rb
      = Ret tt rb0 /\
    (forall i, entries rb <= i < new_entries ->
       exists r, slot (data rb0) i = Some r /\
                 ReadCount.count r = 1 /\ ReadCount.next r = i + 1) /\
    expand_to new_entries rb = Ret tt rb' /\
    entries rb' = new_entries /\
    put_pos rb' = put_pos rb /\ old_pos rb' = old_pos rb /\
    (forall i, entries rb <= i < new_entries ->
       exists r, slot (data rb') i = Some r /\
                 ReadCount.count r = 1 /\
                 ReadCount.next r =
                   if decide (i = new_entries - 1) then old_pos rb else i + 1) /\
    slot (data rb) (put_pos rb) = Some rp /\
    ReadCount.next rp = old_pos rb /\
    slot (data rb') (put_pos rb) = Some (ReadCount.set_next (entries rb) rp) /\
    (forall i, 0 <= i < entries rb -> i <> put_pos rb ->
       slot (data rb') i = slot (data rb) i) /\
    ring_at rb' older (seqZ (entries rb) (new_entries - entries rb)) /\
    (exists k, Z.of_nat k <= entries rb' /\
               follow (data rb') k (put_pos rb') = Some (old_pos rb')) /\
    walk (data rb') (Z.to_nat (entries rb')) (put_pos rb')
      ≡ₚ seqZ 0 (entries rb') /\
    follow (data rb') (Z.to_nat (entries rb')) (put_pos rb')
      = Some (put_pos rb').
Proof.
  intros H Hfull Hlt Hlen.
  rewrite (is_full_spec _ _ _ H) in Hfull.
  destruct free as [|f free]; [|by inversion Hfull].
  pose proof (ring_entries _ _ _ H) as [He0 _].
  destruct (init_loop_spec (Z.to_nat (new_entries - entries rb)) (entries rb) rb)
    as (d1 & Hrun1 & _ & Hnew1 & _); [lia|lia|].
  destruct (expand_to_spec rb older new_entries H Hlt Hlen) as
    (rb' & rp & Hrun & He & Hpp & Hop & _ & Hrp & Hnext & Hput & Hnew & Hold
       & Hinv).
  exists (set_data d1 rb), rb', rp.
  destruct (ring_closure _ _ _ Hinv) as [Hcl Hk].
  destruct (ring_closed_cycle _ _ _ Hinv) as [Hperm Hback].
  split_and!; try done.
  - intros i Hi. eexists. split; [apply Hnew1; lia|]. simpl.
    split; [done|]. apply wrap32_small. unfold is_u32. lia.
  - intros i Hi. eexists. split; [by apply Hnew|]. done.
  - intros i Hi Hne. apply Hold; [lia|done].
  - eexists. split; [exact Hk|exact Hcl].
Qed.

End ExpandTheorem.

Lemma ring2_full_inv : Ringbuffer.ring_at ring2_full [0] [].
Proof. concrete_ring. Qed.

Lemma expand_to_keeps_ring_closed_witness :
  exists rb',
    Ringbuffer.expand_to 5 ring2_full = Ret tt rb' /\
    Ringbuffer.walk (Ringbuffer.data rb') 5 1 = [1; 2; 3; 4; 0] /\
    Ringbuffer.follow (Ringbuffer.data rb') 5 1 = Some 1.
Proof.
  destruct (expand_to_keeps_ring_closed ring2_full [0] [] 5 ring2_full_inv)
    as (rb0 & rb' & rp & _ & _ & Hrun & _ & _ & _ & _ & _ & _ & _ & _ & _ & _
          & _ & Hback).
  - reflexivity.
  - simpl. lia.
  - simpl. lia.
  - exists rb'. vm_compute in Hrun. inversion Hrun; subst rb'.
    split_and!; reflexivity.
Defined.

(** ** The transaction state machine, the write gate and compaction *)

Section StateMachine.
Import SharedGroup.

Variable env : Collaborators.
Variable fuel : nat.

Lemma controlmutex_lock_unlock i :
  SharedInfo.shared_controlmutex i = false ->
  SharedInfo.set_shared_controlmutex false
    (SharedInfo.set_shared_controlmutex true i) = i.
Proof. destruct i. simpl. by intros ->. Qed.

Lemma writemutex_lock_unlock i :
  SharedInfo.shared_writemutex i = false ->
  SharedInfo.set_shared_writemutex false
    (SharedInfo.set_shared_writemutex true i) = i.
Proof. destruct i. simpl. by intros ->. Qed.

Lemma set_info_same w : set_info (info w) w = w.
Proof. by destruct w. Qed.

Lemma set_info_twice i j w : set_info i (set_info j w) = set_info i w.
Proof. done. Qed.

(** C10. On an attached [SharedGroup] in the Ready state whose control
    mutex can be taken, [compact] returns [false] when more than one
    participant is registered, and the world it leaves is the world it
    found: nothing was added to the log of file operations (no temporary
    file, no rename), the stage is still Ready and the session header is
    unchanged. *)
Theorem compact_refused_when_shared (w : World) :
  is_attached w = true ->
  m_transact_stage (sg w) = transact_Ready ->
  SharedInfo.shared_controlmutex (info w) = false ->
  SharedInfo.num_participants (info w) > 1 ->
  compact env fuel w = Ret false w /\
  (forall w', compact env fuel w = Ret false w' ->
     fs_log w' = fs_log w /\
     m_transact_stage (sg w') = transact_Ready /\
     info w' = info w).
Proof.
  intros Hatt Hstage Hfree Hn.
  assert (Hrun : compact env fuel w = Ret false w).
  { unfold compact, bind at 1, get_state at 1.
    rewrite Hatt, Hstage. simpl.
    unfold bind at 1, with_controlmutex, bind at 1, lock, bind at 1,
      get_state at 1.
    rewrite Hfree. unfold on_info, zoom, modify, finally, bind, get_state.
    simpl. destruct (Z.gtb_spec (SharedInfo.num_participants (info w)) 1);
      [|lia].
    unfold ret, unlock, on_info, zoom, modify. simpl.
    rewrite controlmutex_lock_unlock by done.
    by rewrite set_info_twice, set_info_same. }
  split; [done|]. intros w' Hw'. rewrite Hrun in Hw'.
  inversion Hw'; subst w'. done.
Qed.

Lemma begin_read_wrong_state w v :
  m_transact_stage (sg w) <> transact_Ready ->
  begin_read env fuel v w = Throw LogicError_wrong_transact_state w.
Proof.
  intros H. unfold begin_read, bind, get_state.
  by destruct (m_transact_stage (sg w)).
Qed.

Lemma begin_write_wrong_state w :
  m_transact_stage (sg w) <> transact_Ready ->
  begin_write env fuel w = Throw LogicError_wrong_transact_state w.
Proof.
  intros H. unfold begin_write, bind at 1, get_state at 1.
  by destruct (m_transact_stage (sg w)).
Qed.

Lemma commit_wrong_state w :
  m_transact_stage (sg w) <> transact_Writing ->
  commit env w = Throw LogicError_wrong_transact_state w.
Proof.
  intros H. unfold commit, bind at 1, get_state at 1.
  by destruct (m_transact_stage (sg w)).
Qed.

Lemma commit_and_continue_wrong_state w :
  m_transact_stage (sg w) <> transact_Writing ->
  commit_and_continue_as_read env fuel w = Throw LogicError_wrong_transact_state w.
Proof.
  intros H. unfold commit_and_continue_as_read, bind at 1, get_state at 1.
  by destruct (m_transact_stage (sg w)).
Qed.

Lemma end_read_ready w :
  m_transact_stage (sg w) = transact_Ready -> end_read env w = Ret tt w.
Proof.
  intros H. unfold end_read, noexcept, bind, get_state. by rewrite H.
Qed.

Lemma rollback_ready w :
  m_transact_stage (sg w) = transact_Ready -> rollback env w = Ret tt w.
Proof.
  intros H. unfold rollback, noexcept, bind, get_state. by rewrite H.
Qed.

Lemma end_read_writing w :
  m_transact_stage (sg w) = transact_Writing -> end_read env w = Terminate.
Proof.
  intros H. unfold end_read, noexcept, bind, get_state. by rewrite H.
Qed.

Lemma rollback_reading w :
  m_transact_stage (sg w) = transact_Reading -> rollback env w = Terminate.
Proof.
  intros H. unfold rollback, noexcept, bind, get_state. by rewrite H.
Qed.

(** C8, as coded.  The stages are Ready, Reading and Writing.  [begin_read]
    and [begin_write] outside Ready, and [commit] outside Writing, throw
    [LogicError::wrong_transact_state] and change nothing; [end_read] and
    [rollback] return at once from Ready.  But [end_read] in Writing and
    [rollback] in Reading execute their [throw] inside a function declared
    [noexcept]: the exception cannot leave it and the process is
    terminated. *)
Theorem transact_stage_errors_as_coded (w : World) (v : VersionID) :
  (m_transact_stage (sg w) <> transact_Ready ->
     begin_read env fuel v w = Throw LogicError_wrong_transact_state w /\
     begin_write env fuel w = Throw LogicError_wrong_transact_state w) /\
  (m_transact_stage (sg w) <> transact_Writing ->
     commit env w = Throw LogicError_wrong_transact_state w) /\
  (m_transact_stage (sg w) = transact_Ready ->
     end_read env w = Ret tt w /\ rollback env w = Ret tt w) /\
  (m_transact_stage (sg w) = transact_Writing -> end_read env w = Terminate) /\
  (m_transact_stage (sg w) = transact_Reading -> rollback env w = Terminate).
Proof.
  split_and!.
  - intros H. split.
    + by apply begin_read_wrong_state.
    + by apply begin_write_wrong_state.
  - apply commit_wrong_state.
  - intros H. split.
    + by apply end_read_ready.
    + by apply rollback_ready.
  - apply end_read_writing.
  - apply rollback_reading.
Qed.

(** The write gate: one call. *)
Lemma begin_write_crash_gate w :
  m_transact_stage (sg w) = transact_Ready ->
  SharedInfo.shared_writemutex (info w) = false ->
  SharedInfo.commit_in_critical_phase (info w) <> 0 ->
  begin_write env fuel w = Throw crash_detected w.
Proof.
  intros Hstage Hfree Hflag.
  unfold begin_write, bind at 1, get_state at 1. rewrite Hstage. simpl.
  unfold bind at 1, do_begin_write, bind at 1, lock, bind at 1, get_state at 1.
  rewrite Hfree. unfold on_info, zoom, modify, bind, get_state. simpl.
  destruct (Z.eqb_spec (SharedInfo.commit_in_critical_phase (info w)) 0);
    [done|].
  simpl. unfold unlock, on_info, zoom, modify, throw. simpl.
  rewrite writemutex_lock_unlock by done.
  by rewrite set_info_twice, set_info_same.
Qed.

End StateMachine.

(** ** The read-lock manager *)

Section ReadLocks.
Import SharedGroup.

Variable env : Collaborators.

Lemma set_readers_same i : SharedInfo.set_readers (SharedInfo.readers i) i = i.
Proof. by destruct i. Qed.

Lemma set_ring_same w : set_ring (ring w) w = w.
Proof. unfold set_ring, ring. by rewrite set_readers_same, set_info_same. Qed.

Lemma ring_set_ring rb w : ring (set_ring rb w) = rb.
Proof. done. Qed.

Lemma set_ring_twice rb rb' w : set_ring rb (set_ring rb' w) = set_ring rb w.
Proof. done. Qed.

Lemma sg_set_ring rb w : sg (set_ring rb w) = sg w.
Proof. done. Qed.

Lemma ring_set_sg g w : ring (set_sg g w) = ring w.
Proof. done. Qed.

Lemma on_readers_run {A} (m : M Ringbuffer.t A) w :
  on_readers m w =
    match m (ring w) with
    | Ret a rb => Ret a (set_ring rb w)
    | Throw e rb => Throw e (set_ring rb w)
    | Terminate => Terminate
    | Undefined => Undefined
    | Spin => Spin
    end.
Proof.
  unfold on_readers, on_info, SharedInfo.on_readers, zoom, ring, set_ring.
  by destruct (m (SharedInfo.readers (info w))).
Qed.

Lemma on_readers_last w :
  on_readers Ringbuffer.last w = Ret (Ringbuffer.put_pos (ring w)) w.
Proof. rewrite on_readers_run. simpl. by rewrite set_ring_same. Qed.

Lemma on_readers_num_entries w :
  on_readers Ringbuffer.get_num_entries w = Ret (Ringbuffer.entries (ring w)) w.
Proof. rewrite on_readers_run. simpl. by rewrite set_ring_same. Qed.

Lemma on_readers_state w :
  on_readers get_state w = Ret (ring w) w.
Proof. rewrite on_readers_run. simpl. by rewrite set_ring_same. Qed.

Lemma on_readers_get w idx r :
  Ringbuffer.slot (Ringbuffer.data (ring w)) idx = Some r ->
  on_readers (Ringbuffer.get idx) w = Ret r w.
Proof.
  intros H. rewrite on_readers_run, (get_ok _ _ _ H). by rewrite set_ring_same.
Qed.

Lemma on_readers_update w idx f r :
  Ringbuffer.slot (Ringbuffer.data (ring w)) idx = Some r ->
  on_readers (Ringbuffer.update idx f) w = Ret tt (set_slot idx (f r) w).
Proof. intros H. by rewrite on_readers_run, (update_ok _ _ _ _ H). Qed.

Lemma slot_set_slot_eq w idx r r' :
  Ringbuffer.slot (Ringbuffer.data (ring w)) idx = Some r ->
  Ringbuffer.slot (Ringbuffer.data (ring (set_slot idx r' w))) idx = Some r'.
Proof. intros H. simpl. by eapply slot_insert_eq. Qed.

Lemma set_slot_twice w idx r r' :
  set_slot idx r (set_slot idx r' w) = set_slot idx r w.
Proof.
  unfold set_slot. rewrite set_ring_twice, ring_set_ring. simpl.
  by rewrite list_insert_insert_eq.
Qed.

Lemma set_slot_same w idx r :
  Ringbuffer.slot (Ringbuffer.data (ring w)) idx = Some r ->
  set_slot idx r w = w.
Proof.
  intros H. apply slot_Some in H as [_ H]. unfold set_slot.
  by rewrite list_insert_id, set_data_same, set_ring_same.
Qed.

Lemma grow_reader_mapping_no w idx :
  idx < m_local_max_entry (sg w) -> grow_reader_mapping idx w = Ret false w.
Proof.
  intros H. unfold grow_reader_mapping, bind, get_state.
  by destruct (Z.geb_spec idx (m_local_max_entry (sg w))); [lia|].
Qed.

Lemma grow_reader_mapping_yes w idx :
  m_local_max_entry (sg w) <= idx ->
  grow_reader_mapping idx w =
    Ret true (set_sg (set_m_local_max_entry (Ringbuffer.entries (ring w)) (sg w)) w).
Proof.
  intros H. unfold grow_reader_mapping, bind at 1, get_state at 1.
  destruct (Z.geb_spec idx (m_local_max_entry (sg w))); [|lia].
  unfold bind at 1. rewrite on_readers_num_entries. done.
Qed.

Lemma same_but_mapping_refl w : same_but_mapping w w.
Proof. unfold same_but_mapping. split_and!; try done. by destruct (sg w). Qed.

Lemma grow_reader_mapping_spec w idx :
  exists b w',
    grow_reader_mapping idx w = Ret b w' /\ same_but_mapping w w' /\
    (b = false -> w' = w /\ idx < m_local_max_entry (sg w)) /\
    (b = true -> m_local_max_entry (sg w') = Ringbuffer.entries (ring w)).
Proof.
  destruct (Z.lt_ge_cases idx (m_local_max_entry (sg w))) as [Hlt|Hge].
  - exists false, w. rewrite grow_reader_mapping_no by done.
    split_and!; try done. apply same_but_mapping_refl.
  - eexists true, _. rewrite grow_reader_mapping_yes by done.
    split_and!; try done.
Qed.

Lemma on_world_run {A} (m : M World A) l w :
  on_world m (l, w) =
    match m w with
    | Ret a w' => Ret a (l, w')
    | Throw e w' => Throw e (l, w')
    | Terminate => Terminate
    | Undefined => Undefined
    | Spin => Spin
    end.
Proof. unfold on_world, zoom. simpl. by destruct (m w). Qed.

Lemma unpin_pinned r : is_u32 (ReadCount.count r) ->
  ReadCount.set_count (atomic_double_dec (ReadCount.count (pinned r))) (pinned r) = r.
Proof.
  intros H. unfold pinned. simpl. rewrite double_inc_dec by done. by destruct r.
Qed.

Lemma release_read_lock_spec l w r :
  Ringbuffer.slot (Ringbuffer.data (ring w)) (m_reader_idx l) = Some r ->
  exists wg,
    same_but_mapping w wg /\
    release_read_lock l w =
      Ret tt (set_slot (m_reader_idx l)
                (ReadCount.set_count (atomic_double_dec (ReadCount.count r)) r) wg).
Proof.
  intros Hr.
  destruct (grow_reader_mapping_spec w (m_reader_idx l)) as (b & wg & Hg & Hsame & _).
  exists wg. split; [done|].
  assert (Hring : ring wg = ring w) by (unfold ring; by destruct Hsame as [-> _]).
  unfold release_read_lock, noexcept, bind at 1. rewrite Hg.
  unfold bind at 1. rewrite (on_readers_get wg _ r) by (by rewrite Hring).
  by rewrite (on_readers_update wg _ _ r) by (by rewrite Hring).
Qed.

(** One iteration of the LATEST loop that finds its slot mapped and live. *)
Lemma grab_latest_pins n l w r :
  Ringbuffer.put_pos (ring w) < m_local_max_entry (sg w) ->
  Ringbuffer.slot (Ringbuffer.data (ring w)) (Ringbuffer.put_pos (ring w)) = Some r ->
  Ringbuffer.is_live r = true ->
  grab_latest (S n) (l, w) =
    Ret tt (lock_on (Ringbuffer.put_pos (ring w)) r,
            set_slot (Ringbuffer.put_pos (ring w)) (pinned r) w).
Proof.
  intros Hmapped Hr Hlive. unfold Ringbuffer.is_live in Hlive.
  rewrite land_1_even in Hlive.
  simpl. unfold bind at 1. rewrite on_world_run, on_readers_last.
  unfold bind at 1, on_lock at 1, modify at 1. simpl.
  unfold bind at 1. rewrite on_world_run, grow_reader_mapping_no by done.
  unfold bind at 1. rewrite on_world_run, (on_readers_get _ _ _ Hr).
  rewrite (double_inc_even _ Hlive).
  unfold bind at 1. rewrite on_world_run, (on_readers_update _ _ _ _ Hr).
  simpl. unfold bind_lock, bind, on_lock, modify. simpl. done.
Qed.

Lemma grab_latest_spec n l w older free :
  ring_at_world w older free ->
  exists wg r,
    same_but_mapping w wg /\
    Ringbuffer.slot (Ringbuffer.data (ring w)) (Ringbuffer.put_pos (ring w)) = Some r /\
    is_u32 (ReadCount.count r) /\
    grab_latest (S (S n)) (l, w) =
      Ret tt (lock_on (Ringbuffer.put_pos (ring w)) r,
              set_slot (Ringbuffer.put_pos (ring w)) (pinned r) wg).
Proof.
  unfold ring_at_world. intros H.
  assert (Hin : Ringbuffer.put_pos (ring w) ∈ older ++ [Ringbuffer.put_pos (ring w)])
    by (apply elem_of_app; right; by left).
  destruct (ring_slot _ _ _ _ H (in_live_ring _ _ _ free Hin)) as [r Hr].
  destruct (Ringbuffer.ring_live _ _ _ H _ r Hin Hr) as [Hlive Hu32].
  pose proof (ring_range _ _ _ _ H (in_live_ring _ _ _ free Hin)) as Hrange.
  destruct (Z.lt_ge_cases (Ringbuffer.put_pos (ring w)) (m_local_max_entry (sg w)))
    as [Hlt|Hge].
  - exists w, r. split_and!; try done; [apply same_but_mapping_refl|].
    by apply grab_latest_pins.
  - eexists _, r. split_and!; try done; cycle 1.
    + change (grab_latest (S (S n))) with
        (fun s : ReadLockInfo * World =>
           (idx <- on_world (on_readers Ringbuffer.last) ;;
            on_lock (set_m_reader_idx idx) ;;;
            remapped <- on_world (grow_reader_mapping idx) ;;
            if remapped then grab_latest (S n)
            else
              r <- on_world (on_readers (Ringbuffer.get idx)) ;;
              let '(ok, c) := atomic_double_inc_if_even (ReadCount.count r) in
              on_world (on_readers (Ringbuffer.update idx (ReadCount.set_count c))) ;;;
              if negb ok then grab_latest (S n) else bind_lock r) s).
      cbv beta. unfold bind at 1. rewrite on_world_run, on_readers_last.
      unfold bind at 1, on_lock at 1, modify at 1. simpl fst. simpl snd.
      unfold bind at 1. rewrite on_world_run, grow_reader_mapping_yes by done.
      rewrite (grab_latest_pins n _ _ r); [done| |done|done].
      rewrite ring_set_sg. simpl. lia.
    + unfold same_but_mapping. simpl. by split_and!.
Qed.

End ReadLocks.

Section ReadLockClaims.
Import SharedGroup.

Variable env : Collaborators.

Lemma same_but_mapping_trans w1 w2 w3 :
  same_but_mapping w1 w2 -> same_but_mapping w2 w3 -> same_but_mapping w1 w3.
Proof.
  unfold same_but_mapping.
  intros (Hi & Hl & Ho & Hf & Hs) (Hi' & Hl' & Ho' & Hf' & Hs').
  split_and!; try congruence.
  rewrite <- Hs', <- Hs. by destruct (sg w1).
Qed.

Lemma same_but_mapping_ring w w' : same_but_mapping w w' -> ring w' = ring w.
Proof. intros (Hi & _). unfold ring. by rewrite Hi. Qed.

(** Undoing the only change made to the ring gives back the session header. *)
Lemma set_slot_restores w wg wg' idx r r' :
  Ringbuffer.slot (Ringbuffer.data (ring w)) idx = Some r ->
  same_but_mapping w wg ->
  same_but_mapping (set_slot idx r' wg) wg' ->
  same_but_mapping w (set_slot idx r wg').
Proof.
  intros Hr Hg Hg'.
  pose proof (same_but_mapping_ring _ _ Hg) as Hring.
  pose proof (same_but_mapping_ring _ _ Hg') as Hring'.
  destruct Hg as (Hi & Hl & Ho & Hf & Hs).
  destruct Hg' as (Hi' & Hl' & Ho' & Hf' & Hs').
  assert (Hdata : <[Z.to_nat idx := r]> (Ringbuffer.data (ring wg')) =
                  Ringbuffer.data (ring w)).
  { rewrite Hring'. unfold set_slot. rewrite ring_set_ring, Hring. simpl.
    rewrite list_insert_insert_eq.
    apply list_insert_id. by apply slot_Some in Hr as [_ ?]. }
  assert (Hrb : Ringbuffer.set_data (Ringbuffer.data (ring w)) (ring wg') = ring w).
  { rewrite Hring'. unfold set_slot. rewrite ring_set_ring, Hring.
    by destruct (ring w). }
  simpl in Hl', Ho', Hf', Hs'.
  unfold same_but_mapping, set_slot. rewrite Hdata, Hrb. simpl.
  split_and!; try congruence.
  - rewrite Hi'. simpl. rewrite Hi. unfold ring. by destruct (info w).
  - rewrite <- Hs'. simpl. rewrite <- Hs. by destruct (sg w).
Qed.


Lemma pin_or_fail_free n idx w r :
  Ringbuffer.slot (Ringbuffer.data (ring w)) idx = Some r ->
  Ringbuffer.is_live r = false -> is_u32 (ReadCount.count r) ->
  Ringbuffer.old_pos (ring w) <> idx ->
  pin_or_fail (S n) idx w = Throw BadVersion w.
Proof.
  intros Hr Hlive Hu32 Hold. unfold Ringbuffer.is_live in Hlive.
  rewrite land_1_even in Hlive.
  simpl. unfold bind at 1. rewrite (on_readers_get _ _ _ Hr).
  rewrite (double_inc_odd _ Hu32 Hlive).
  unfold bind at 1. rewrite (on_readers_update _ _ _ _ Hr).
  rewrite set_count_same, (set_slot_same _ _ _ Hr). simpl.
  unfold bind at 1. rewrite on_readers_state.
  by destruct (Z.eqb_spec (Ringbuffer.old_pos (ring w)) idx).
Qed.

Lemma pin_or_fail_live n idx w r :
  Ringbuffer.slot (Ringbuffer.data (ring w)) idx = Some r ->
  Ringbuffer.is_live r = true ->
  pin_or_fail (S n) idx w = Ret tt (set_slot idx (pinned r) w).
Proof.
  intros Hr Hlive. unfold Ringbuffer.is_live in Hlive.
  rewrite land_1_even in Hlive.
  simpl. unfold bind at 1. rewrite (on_readers_get _ _ _ Hr).
  rewrite (double_inc_even _ Hlive).
  unfold bind at 1. by rewrite (on_readers_update _ _ _ _ Hr).
Qed.

Lemma grab_specific_unfold fuel n version_id :
  grab_specific fuel (S n) version_id =
    (on_lock (set_m_reader_idx (index version_id)) ;;;
     remapped <- on_world (grow_reader_mapping (index version_id)) ;;
     if remapped then grab_specific fuel n version_id
     else
       on_world (pin_or_fail fuel (index version_id)) ;;;
       r <- on_world (on_readers (Ringbuffer.get (index version_id))) ;;
       if negb (ReadCount.version r =? version version_id) then
         on_world (on_readers
           (Ringbuffer.update (index version_id)
              (ReadCount.set_count (atomic_double_dec (ReadCount.count r))))) ;;;
         throw BadVersion
       else bind_lock r).
Proof. reflexivity. Qed.

(** The specific-version path on a slot that is already mapped. *)
Lemma grab_specific_mapped_bad fuel n l w version_id r :
  index version_id < m_local_max_entry (sg w) ->
  Ringbuffer.slot (Ringbuffer.data (ring w)) (index version_id) = Some r ->
  is_u32 (ReadCount.count r) ->
  (Ringbuffer.is_live r = false /\
   Ringbuffer.old_pos (ring w) <> index version_id) \/
  (Ringbuffer.is_live r = true /\ ReadCount.version r <> version version_id) ->
  grab_specific (S fuel) (S n) version_id (l, w) =
    Throw BadVersion (set_m_reader_idx (index version_id) l, w).
Proof.
  intros Hmapped Hr Hu32 Hcase.
  rewrite grab_specific_unfold.
  unfold bind at 1, on_lock at 1, modify at 1. simpl fst. simpl snd.
  unfold bind at 1. rewrite on_world_run, grow_reader_mapping_no by done.
  unfold bind at 1. rewrite on_world_run.
  destruct Hcase as [[Hfree Hold]|[Hlive Hver]].
  - by rewrite (pin_or_fail_free _ _ _ r).
  - rewrite (pin_or_fail_live _ _ _ r) by done.
    assert (Hr' : Ringbuffer.slot
                    (Ringbuffer.data (ring (set_slot (index version_id) (pinned r) w)))
                    (index version_id) = Some (pinned r))
      by (by eapply slot_set_slot_eq).
    unfold bind at 1. rewrite on_world_run, (on_readers_get _ _ _ Hr').
    change (ReadCount.version (pinned r)) with (ReadCount.version r).
    destruct (Z.eqb_spec (ReadCount.version r) (version version_id)); [done|].
    change (negb false) with true. cbv iota.
    unfold bind at 1. rewrite on_world_run, (on_readers_update _ _ _ _ Hr').
    rewrite unpin_pinned by done.
    by rewrite set_slot_twice, (set_slot_same _ _ _ Hr).
Qed.

(** C3. Let the token name a slot of the ring, not LATEST.  If the pin on
    that slot fails (its free bit is set) and the slot is not the ring's
    oldest, or if the pin succeeds and the slot's version is not the
    requested one, [grab_read_lock] throws [BadVersion].  In both cases the
    world at the throw has the session header of the world before the call:
    every slot, its count included, is as it was, so no pin is left behind
    (in the second case the pin taken is given back before the throw).
    Only the caller's [m_reader_idx] and [m_local_max_entry] may differ. *)
Theorem grab_read_lock_bad_version (fuel : nat) (l : ReadLockInfo) (w : World)
    (version_id : VersionID) (r : ReadCount.t) :
  version version_id <> max_version ->
  (2 <= fuel)%nat ->
  Ringbuffer.slot (Ringbuffer.data (ring w)) (index version_id) = Some r ->
  index version_id < m_local_max_entry (sg w) \/
    index version_id < Ringbuffer.entries (ring w) ->
  is_u32 (ReadCount.count r) ->
  (Ringbuffer.is_live r = false /\
   Ringbuffer.old_pos (ring w) <> index version_id) \/
  (Ringbuffer.is_live r = true /\ ReadCount.version r <> version version_id) ->
  exists w',
    grab_read_lock fuel version_id (l, w) =
      Throw BadVersion (set_m_reader_idx (index version_id) l, w') /\
    info w' = info w /\
    (forall i, Ringbuffer.slot (Ringbuffer.data (ring w')) i =
               Ringbuffer.slot (Ringbuffer.data (ring w)) i) /\
    lockfile_size w' = lockfile_size w /\
    other_lockers w' = other_lockers w /\
    fs_log w' = fs_log w /\
    set_m_local_max_entry (m_local_max_entry (sg w')) (sg w) = sg w'.
Proof.
  intros Hspecific Hfuel Hr Hidx Hu32 Hcase.
  destruct fuel as [|[|n]]; [lia|lia|].
  unfold grab_read_lock.
  destruct (Z.eqb_spec (version version_id) max_version) as [|_]; [done|].
  destruct (Z.lt_ge_cases (index version_id) (m_local_max_entry (sg w)))
    as [Hlt|Hge].
  - exists w. rewrite (grab_specific_mapped_bad _ _ _ _ _ r) by done.
    split_and!; try done. by destruct (sg w).
  - destruct Hidx as [Hidx|Hidx]; [lia|].
    set (wg := set_sg (set_m_local_max_entry (Ringbuffer.entries (ring w)) (sg w)) w).
    exists wg.
    rewrite grab_specific_unfold.
    unfold bind at 1, on_lock at 1, modify at 1. simpl fst. simpl snd.
    unfold bind at 1. rewrite on_world_run, grow_reader_mapping_yes by done.
    fold wg. by rewrite (grab_specific_mapped_bad _ _ _ _ _ r).
Qed.

End ReadLockClaims.

(** ** Publishing a snapshot *)

Section PublishFacts.
Import Ringbuffer.

Lemma slot_app_l d ext i r : slot d i = Some r -> slot (d ++ ext) i = Some r.
Proof.
  intros H. apply slot_Some in H as [Hi H]. unfold slot.
  destruct (Z.ltb_spec i 0); [lia|]. by apply lookup_app_l_Some.
Qed.

(** Changing slots in a way that keeps every [next] and [count] of the ring
    keeps the ring invariant. *)
Lemma ring_at_ext rb rb' older free :
  ring_at rb older free ->
  entries rb' = entries rb -> put_pos rb' = put_pos rb ->
  old_pos rb' = old_pos rb ->
  (forall i r, i ∈ older ++ put_pos rb :: free -> slot (data rb) i = Some r ->
     exists r', slot (data rb') i = Some r' /\
                ReadCount.next r' = ReadCount.next r /\
                ReadCount.count r' = ReadCount.count r) ->
  ring_at rb' older free.
Proof.
  intros H He Hp Ho Hslots. split; rewrite ?He, ?Hp, ?Ho.
  - eapply path_ext; [|apply (ring_cycle _ _ _ H)].
    intros i r Hi Hr. destruct (Hslots i r Hi Hr) as (r' & Hr' & Hn & _). eauto.
  - apply (ring_slots _ _ _ H).
  - intros i r' Hi Hr'.
    destruct (ring_slot _ _ _ i H (in_live_ring _ _ _ free Hi)) as [r Hr].
    destruct (Hslots i r (in_live_ring _ _ _ free Hi) Hr) as (r'' & Hr'' & _ & Hc).
    assert (r'' = r') as -> by congruence.
    unfold is_live. rewrite Hc. apply (ring_live _ _ _ H i r Hi Hr).
  - intros i r' Hi Hr'.
    destruct (ring_slot _ _ _ i H (in_free_ring _ _ older _ Hi)) as [r Hr].
    destruct (Hslots i r (in_free_ring _ _ older _ Hi) Hr) as (r'' & Hr'' & _ & Hc).
    assert (r'' = r') as -> by congruence.
    rewrite Hc. apply (ring_free _ _ _ H i r Hi Hr).
  - apply (ring_entries _ _ _ H).
Qed.

Lemma ring_at_extend rb older free ext :
  ring_at rb older free -> ring_at (set_data (data rb ++ ext) rb) older free.
Proof.
  intros H. apply (ring_at_ext rb); try done.
  intros i r _ Hr. exists r. split_and!; try done. simpl. by apply slot_app_l.
Qed.

Lemma ring_at_payload rb older free i r r' :
  ring_at rb older free ->
  slot (data rb) i = Some r ->
  ReadCount.next r' = ReadCount.next r ->
  ReadCount.count r' = ReadCount.count r ->
  ring_at (set_data (<[Z.to_nat i := r']> (data rb)) rb) older free.
Proof.
  intros H Hr Hn Hc. apply (ring_at_ext rb); try done.
  intros j rj _ Hrj. simpl. destruct (decide (j = i)) as [->|Hne].
  - exists r'. assert (rj = r) as -> by congruence.
    split_and!; try done. by eapply slot_insert_eq.
  - exists rj. split_and!; try done. rewrite slot_insert_ne; [done| |done].
    by apply slot_Some in Hr as [? _].
Qed.

Lemma ring_first_free rb older f free :
  ring_at rb older (f :: free) ->
  exists rp rf,
    slot (data rb) (put_pos rb) = Some rp /\ ReadCount.next rp = f /\
    slot (data rb) f = Some rf /\ ReadCount.count rf = 1 /\
    f <> put_pos rb /\ f <> old_pos rb /\ f ∉ older.
Proof.
  intros H. pose proof (ring_put_to_old _ _ _ H) as Hp. simpl in Hp.
  destruct Hp as (_ & rp & Hrp & Hf & rf & Hrf & _).
  pose proof (ring_NoDup _ _ _ H) as Hnd.
  apply NoDup_app in Hnd as (_ & Hdisj & Hnd).
  apply NoDup_cons in Hnd as [Hput _].
  assert (Hfo : f ∉ older).
  { intros Hin. apply (Hdisj f Hin). right. by left. }
  exists rp, rf. split_and!; try done.
  - apply (ring_free _ _ _ H f rf); [by left|done].
  - intros ->. apply Hput. by left.
  - rewrite (ring_old_pos _ _ _ H). destruct older as [|a older]; simpl.
    + intros ->. apply Hput. by left.
    + intros ->. apply Hfo. by left.
Qed.

Lemma next_spec rb rp :
  slot (data rb) (put_pos rb) = Some rp -> next rb = Ret (ReadCount.next rp) rb.
Proof.
  intros Hrp. unfold next, last, bind, get_state, ret.
  by rewrite (get_ok _ _ _ Hrp).
Qed.

Lemma get_next_spec a rb older f free :
  ring_at rb older (f :: free) -> get_next a rb = Ret f rb.
Proof.
  intros H. destruct (ring_first_free _ _ _ _ H) as (rp & rf & Hrp & Hf & _).
  unfold get_next, bind at 1. rewrite (is_full_spec _ _ _ H).
  unfold bind at 1, REALM_ASSERT. rewrite andb_false_r. unfold ret at 1.
  by rewrite (next_spec _ _ Hrp), Hf.
Qed.

(** [use_next]: the first free slot becomes the newest live one. *)
Lemma use_next_spec a rb older f free :
  ring_at rb older (f :: free) ->
  exists rf,
    slot (data rb) f = Some rf /\
    use_next a rb =
      Ret tt (set_put_pos f
                (set_data (<[Z.to_nat f := ReadCount.set_count 0 rf]> (data rb)) rb)) /\
    ring_at (set_put_pos f
               (set_data (<[Z.to_nat f := ReadCount.set_count 0 rf]> (data rb)) rb))
            (older ++ [put_pos rb]) free.
Proof.
  intros H.
  destruct (ring_first_free _ _ _ _ H) as
    (rp & rf & Hrp & Hf & Hrf & Hc & Hfp & Hfo & Hfolder).
  pose proof (slot_Some _ _ _ Hrf) as [Hf0 _].
  exists rf. split; [done|].
  set (d' := <[Z.to_nat f := ReadCount.set_count 0 rf]> (data rb)).
  assert (Hrp' : slot d' (put_pos rb) = Some rp)
    by (unfold d'; rewrite slot_insert_ne; [done|done|congruence]).
  split.
  - unfold use_next, bind at 1. rewrite (get_next_spec _ _ _ _ _ H).
    unfold bind at 1. rewrite (get_ok _ _ _ Hrf).
    unfold bind at 1. rewrite (update_ok _ _ _ _ Hrf).
    unfold atomic_dec, fetch_sub. rewrite Hc. change (snd (1, wrap32 (1 - 1))) with 0.
    fold d'. unfold bind at 1.
    rewrite (next_spec (set_data d' rb) rp) by done.
    unfold modify. by rewrite Hf.
  - pose proof (ring_NoDup _ _ _ H) as Hnd.
    split; simpl.
    + pose proof (ring_cycle _ _ _ H) as Hcy.
      replace (older ++ put_pos rb :: f :: free)
        with ((older ++ [put_pos rb]) ++ f :: free) in Hcy
        by (by rewrite <- app_assoc).
      replace ((older ++ [put_pos rb]) ++ f :: free)
        with (((older ++ [put_pos rb]) ++ [f]) ++ free) in Hcy
        by (by rewrite <- !app_assoc).
      rewrite <- app_assoc. simpl.
      replace (older ++ put_pos rb :: f :: free)
        with ((older ++ [put_pos rb]) ++ f :: free)
        by (by rewrite <- app_assoc).
      eapply path_ext; [|].
      2: { replace ((older ++ [put_pos rb]) ++ f :: free)
             with (((older ++ [put_pos rb]) ++ [f]) ++ free)
             by (by rewrite <- !app_assoc). exact Hcy. }
      intros i r Hi Hr. destruct (decide (i = f)) as [->|Hne].
      * exists (ReadCount.set_count 0 rf).
        assert (r = rf) as -> by congruence.
        split; [by eapply slot_insert_eq|done].
      * exists r. split; [|done]. unfold d'. by rewrite slot_insert_ne.
    + rewrite <- (ring_slots _ _ _ H). by rewrite <- app_assoc.
    + intros i r Hi Hr. destruct (decide (i = f)) as [->|Hne].
      * unfold d' in Hr. erewrite slot_insert_eq in Hr by done.
        inversion Hr; subst r. split; [done|]. unfold is_u32. simpl. lia.
      * unfold d' in Hr. rewrite slot_insert_ne in Hr by done.
        apply elem_of_app in Hi as [Hi|Hi].
        -- by apply (ring_live _ _ _ H i r).
        -- apply list_elem_of_singleton in Hi. done.
    + intros i r Hi Hr.
      assert (i <> f).
      { intros ->. apply NoDup_app in Hnd as (_ & _ & Hnd).
        apply NoDup_cons in Hnd as [_ Hnd]. apply NoDup_cons in Hnd as [Hnf _].
        done. }
      unfold d' in Hr. rewrite slot_insert_ne in Hr by done.
      apply (ring_free _ _ _ H i r); [by right|done].
    + apply (ring_entries _ _ _ H).
Qed.

End PublishFacts.

(** ** The commit pipeline *)

Section MonadInversion.

Context {St : Type}.

Lemma bind_Ret {A B} (m : M St A) (k : A -> M St B) s b s' :
  bind m k s = Ret b s' -> exists a s1, m s = Ret a s1 /\ k a s1 = Ret b s'.
Proof. unfold bind. destruct (m s) as [a s1| | | |]; try done. eauto. Qed.

Lemma finally_Ret {A} (m : M St A) (h : M St unit) s a s' :
  finally m h s = Ret a s' -> exists s1, m s = Ret a s1 /\ h s1 = Ret tt s'.
Proof.
  unfold finally. destruct (m s) as [a1 s1|e s1| | |]; try done.
  - destruct (h s1) as [[] s2| | | |] eqn:Hh; try done.
    intros [= -> ->]. eauto.
  - by destruct (h s1).
Qed.

Lemma catch_rethrow_Ret {A} (m : M St A) (h : M St unit) s a s' :
  catch_rethrow m h s = Ret a s' -> m s = Ret a s'.
Proof.
  unfold catch_rethrow. destruct (m s) as [a1 s1|e s1| | |]; try done.
  by destruct (h s1).
Qed.

Lemma noexcept_Ret {A} (m : M St A) s a s' :
  noexcept m s = Ret a s' -> m s = Ret a s'.
Proof. unfold noexcept. by destruct (m s). Qed.

Lemma REALM_ASSERT_Ret assertions cond (s s' : St) u :
  REALM_ASSERT assertions cond s = Ret u s' ->
  s' = s /\ (assertions = true -> cond = true).
Proof.
  unfold REALM_ASSERT. destruct assertions, cond; simpl; try done.
  all: by intros [= _ ->].
Qed.

End MonadInversion.

Section CommitFacts.
Import SharedGroup.

Variable env : Collaborators.

Lemma must_Ret ok origin (w w' : World) u :
  must ok origin w = Ret u w' -> w' = w /\ ok = true.
Proof. unfold must. destruct ok; [|done]. by intros [= _ ->]. Qed.

Lemma cleanup_spec rb older free :
  Ringbuffer.ring_at rb older free ->
  exists rb' k rc,
    Ringbuffer.cleanup rb = Ret tt rb' /\
    (k <= length older)%nat /\
    Ringbuffer.ring_at rb' (drop k older) (free ++ take k older) /\
    Ringbuffer.entries rb' = Ringbuffer.entries rb /\
    Ringbuffer.put_pos rb' = Ringbuffer.put_pos rb /\
    Ringbuffer.slot (Ringbuffer.data rb') (Ringbuffer.old_pos rb') = Some rc /\
    Ringbuffer.old_pos rb' ∈ drop k older ++ [Ringbuffer.put_pos rb].
Proof.
  intros H.
  pose proof (ring_backed _ _ _ H) as Hb.
  pose proof (ring_length _ _ _ H) as Hl.
  destruct (cleanup_loop_spec older (S (length (Ringbuffer.data rb))) rb free H) as
    (rb' & k & Hrun & Hk & Hinv & He & Hpp & _); [lia|].
  assert (Hin : Ringbuffer.old_pos rb' ∈ drop k older ++ [Ringbuffer.put_pos rb]).
  { rewrite (ring_old_pos _ _ _ Hinv), Hpp.
    destruct (drop k older); simpl; [by left|by left]. }
  destruct (ring_slot _ _ _ (Ringbuffer.old_pos rb') Hinv) as [rc Hrc].
  { rewrite Hpp. by apply in_live_ring. }
  exists rb', k, rc. by split_and!.
Qed.

End CommitFacts.

Section LowLevelCommit.
Import SharedGroup.

Variable env : Collaborators.

Lemma on_info_modify_run f w :
  on_info (modify f) w = Ret tt (set_info (f (info w)) w).
Proof. done. Qed.

Lemma on_sg_run f w : on_sg f w = Ret tt (set_sg (f (sg w)) w).
Proof. done. Qed.

Lemma on_readers_Ret {A} (m : M Ringbuffer.t A) w a w' :
  on_readers m w = Ret a w' ->
  exists rb, m (ring w) = Ret a rb /\ w' = set_ring rb w.
Proof.
  rewrite on_readers_run. destruct (m (ring w)) as [a1 rb| | | |]; try done.
  intros [= -> <-]. eauto.
Qed.

Lemma with_controlmutex_Ret {A} (m : M World A) w a w' :
  with_controlmutex m w = Ret a w' ->
  SharedInfo.shared_controlmutex (info w) = false /\
  exists w1,
    m (set_info (SharedInfo.set_shared_controlmutex true (info w)) w) = Ret a w1 /\
    w' = set_info (SharedInfo.set_shared_controlmutex false (info w1)) w1.
Proof.
  unfold with_controlmutex. intros (u & s1 & Hlock & Hrest)%bind_Ret.
  unfold lock, bind, get_state in Hlock.
  destruct (SharedInfo.shared_controlmutex (info w)) eqn:Hheld; [done|].
  rewrite on_info_modify_run in Hlock. inversion Hlock; subst s1.
  split; [done|].
  apply finally_Ret in Hrest as (w1 & Hm & Hunlock).
  exists w1. split; [done|]. unfold unlock in Hunlock.
  rewrite on_info_modify_run in Hunlock. by inversion Hunlock.
Qed.

(** The expansion of a full ring inside [low_level_commit]. *)
Lemma expansion_spec w older :
  Ringbuffer.ring_at (ring w) older [] ->
  Ringbuffer.entries (ring w) + 32 < 2 ^ 32 ->
  let e := Ringbuffer.entries (ring w) in
  exists w',
    (prealloc_and_remap
       (sizeof_SharedInfo env + Ringbuffer.compute_required_space (e + 32)) (e + 32) ;;;
     on_sg (set_m_local_max_entry (e + 32)) ;;;
     on_readers (Ringbuffer.expand_to (e + 32))) w = Ret tt w' /\
    Ringbuffer.ring_at (ring w') older (e :: seqZ (e + 1) 31) /\
    Ringbuffer.old_pos (ring w') = Ringbuffer.old_pos (ring w) /\
    Ringbuffer.put_pos (ring w') = Ringbuffer.put_pos (ring w) /\
    SharedInfo.set_readers (ring w) (info w') = info w /\
    (forall i r, 0 <= i < e ->
       Ringbuffer.slot (Ringbuffer.data (ring w)) i = Some r ->
       exists r', Ringbuffer.slot (Ringbuffer.data (ring w')) i = Some r' /\
                  ReadCount.version r' = ReadCount.version r).
Proof.
  intros H Hbound e.
  pose proof (Ringbuffer.ring_entries _ _ _ H) as [He0 _]. fold e in He0.
  set (ext := replicate (Z.to_nat (e + 32) - length (Ringbuffer.data (ring w)))
                ReadCount.zero).
  set (rbx := Ringbuffer.set_data (Ringbuffer.data (ring w) ++ ext) (ring w)).
  assert (Hx : Ringbuffer.ring_at rbx older []) by (by apply ring_at_extend).
  destruct (expand_to_spec rbx older (e + 32) Hx) as
    (rb' & rp & Hrun & He & Hpp & Hop & _ & Hrp & _ & Hput & Hnew & Hold & Hinv).
  { simpl. fold e. lia. }
  { simpl. rewrite length_app. unfold ext. rewrite length_replicate. lia. }
  simpl in Hinv. fold e in Hinv.
  replace (e + 32 - e) with 32 in Hinv by lia.
  rewrite seqZ_cons in Hinv by lia.
  replace (Z.succ e) with (e + 1) in Hinv by lia.
  change (Z.pred 32) with 31 in Hinv.
  eexists. split; [|split_and!].
  - unfold bind at 1, prealloc_and_remap, bind at 1, modify at 1.
    rewrite on_readers_run. unfold modify at 1.
    unfold bind at 1. rewrite on_sg_run.
    rewrite on_readers_run.
    change (Ringbuffer.expand_to (e + 32) (ring _))
      with (Ringbuffer.expand_to (e + 32) rbx).
    rewrite Hrun. done.
  - done.
  - done.
  - done.
  - simpl. unfold ring. by destruct (info w).
  - intros i r Hi Hr. simpl ring in *.
    destruct (decide (i = Ringbuffer.put_pos (ring w))) as [->|Hne].
    + simpl in Hput, Hrp. rewrite (slot_app_l _ ext _ r Hr) in Hrp.
      inversion Hrp; subst rp. eexists. split; [exact Hput|done].
    + exists r. split; [|done]. rewrite Hold; [|simpl; fold e; lia|done].
      simpl. by apply slot_app_l.
Qed.

Lemma low_level_commit_Ret w w' nv older free :
  Ringbuffer.ring_at (ring w) older free ->
  Ringbuffer.entries (ring w) + 32 < 2 ^ 32 ->
  low_level_commit env nv w = Ret tt w' ->
  exists k top r_new r_old free',
    (k <= length older)%nat /\
    write_group env nv (ReadCount.version r_old) = Some top /\
    Ringbuffer.slot (Ringbuffer.data (ring w')) (Ringbuffer.put_pos (ring w')) =
      Some r_new /\
    ReadCount.current_top r_new = top /\
    ReadCount.filesize r_new = writer_file_size env top /\
    ReadCount.version r_new = nv /\
    Ringbuffer.slot (Ringbuffer.data (ring w')) (Ringbuffer.old_pos (ring w')) =
      Some r_old /\
    Ringbuffer.ring_at (ring w')
      (drop k older ++ [Ringbuffer.put_pos (ring w)]) free' /\
    SharedInfo.latest_version_number (info w') = nv /\
    SharedInfo.number_of_versions (info w') =
      wrap64 (nv - ReadCount.version r_old + 1) /\
    SharedInfo.commit_in_critical_phase (info w') = 0 /\
    (assertions env = true -> ReadCount.version r_old <= nv).
Proof.
  intros H Hbound Hrun. unfold low_level_commit in Hrun.
  (* the mapping is grown to cover the ring *)
  apply bind_Ret in Hrun as (n & s & Hstep & Hrun).
  rewrite on_readers_num_entries in Hstep. inversion Hstep; subst n s.
  clear Hstep.
  apply bind_Ret in Hrun as (b & wg & Hstep & Hrun).
  destruct (grow_reader_mapping_spec w (Ringbuffer.entries (ring w)))
    as (b' & wg' & Hg & Hsame & _).
  rewrite Hg in Hstep. inversion Hstep; subst b' wg'. clear Hstep Hg.
  pose proof (same_but_mapping_ring _ _ Hsame) as Hring.
  (* trim *)
  apply bind_Ret in Hrun as (u & w1 & Hstep & Hrun).
  apply on_readers_Ret in Hstep as (rb1 & Hc & ->).
  rewrite Hring in Hc.
  destruct (cleanup_spec _ _ _ H) as
    (rb1' & k & rc & Hc' & Hk & Hinv1 & He1 & Hpp1 & Hrc & Hold1).
  rewrite Hc' in Hc. inversion Hc; subst rb1'. clear Hc Hc'.
  apply bind_Ret in Hrun as (rc' & s & Hstep & Hrun).
  apply on_readers_Ret in Hstep as (rb & Hstep & ->).
  rewrite ring_set_ring in Hstep.
  unfold Ringbuffer.get_oldest, bind, get_state in Hstep.
  rewrite (get_ok _ _ _ Hrc) in Hstep. inversion Hstep; subst rc' rb.
  clear Hstep. rewrite set_ring_twice in Hrun.
  set (w1 := set_ring rb1 wg) in *.
  apply bind_Ret in Hrun as (u' & s & Hstep & Hrun).
  assert (s = w1) as ->.
  { destruct (history env) as [f|].
    - by apply must_Ret in Hstep as [-> _].
    - by inversion Hstep. }
  clear Hstep.
  (* the serializer *)
  apply bind_Ret in Hrun as (wc & s & Hstep & Hrun).
  inversion Hstep; subst wc s. clear Hstep.
  apply bind_Ret in Hrun as (u1 & s & Hstep & Hrun).
  apply REALM_ASSERT_Ret in Hstep as [-> _].
  apply bind_Ret in Hrun as (u2 & s & Hstep & Hrun).
  apply REALM_ASSERT_Ret in Hstep as [-> Hle].
  apply bind_Ret in Hrun as (top & s & Hstep & Hrun).
  destruct (write_group env nv (ReadCount.version rc)) as [top'|] eqn:Hwg;
    [|done].
  inversion Hstep; subst top' s. clear Hstep.
  apply bind_Ret in Hrun as (u3 & s & Hstep & Hrun).
  assert (s = w1) as ->.
  { destruct (SharedInfo.durability (info w1) =? durability_code Full).
    - by apply must_Ret in Hstep as [-> _].
    - by inversion Hstep. }
  clear Hstep.
  (* the critical phase *)
  apply bind_Ret in Hrun as (u4 & w2 & Hstep & Hrun).
  rewrite on_info_modify_run in Hstep. inversion Hstep; subst w2. clear Hstep.
  set (w2 := set_info _ w1) in *.
  assert (Hring2 : ring w2 = rb1) by done.
  apply bind_Ret in Hrun as (full & s & Hstep & Hrun).
  apply on_readers_Ret in Hstep as (rb & Hstep & ->).
  rewrite Hring2, (is_full_spec _ _ _ Hinv1) in Hstep.
  inversion Hstep; subst full rb. clear Hstep.
  rewrite <- Hring2, set_ring_same in Hrun.
  apply bind_Ret in Hrun as (u5 & w4 & Hblock & Hrun).
  assert (Hgrown : exists f free2 r_old,
    Ringbuffer.ring_at (ring w4) (drop k older) (f :: free2) /\
    Ringbuffer.old_pos (ring w4) = Ringbuffer.old_pos rb1 /\
    Ringbuffer.put_pos (ring w4) = Ringbuffer.put_pos rb1 /\
    Ringbuffer.slot (Ringbuffer.data (ring w4)) (Ringbuffer.old_pos rb1) =
      Some r_old /\
    ReadCount.version r_old = ReadCount.version rc).
  { destruct (free ++ take k older) as [|f free2] eqn:Hfree.
    - apply bind_Ret in Hblock as (e & s & Hstep & Hblock).
      rewrite on_readers_num_entries in Hstep. inversion Hstep; subst e s.
      clear Hstep. cbv zeta in Hblock.
      assert (Hinv2 : Ringbuffer.ring_at (ring w2) (drop k older) [])
        by (by rewrite Hring2).
      destruct (expansion_spec w2 (drop k older) Hinv2) as
        (w4' & Hx & Hinv4 & Hop4 & Hpp4 & _ & Hver).
      { rewrite Hring2, He1. done. }
      cbv zeta in Hx. rewrite Hx in Hblock. inversion Hblock; subst w4'.
      destruct (Hver (Ringbuffer.old_pos rb1) rc) as (r_old & Hr_old & Hv).
      { apply (ring_range _ _ _ _ Hinv2). rewrite Hring2, Hpp1.
        by apply in_live_ring. }
      { by rewrite Hring2. }
      rewrite Hring2 in Hop4, Hpp4. eauto 10.
    - inversion Hblock; subst w4. rewrite Hring2. eauto 10. }
  destruct Hgrown as (f & free2 & r_old & Hinv4 & Hop4 & Hpp4 & Hr_old & Hv).
  clear Hblock.
  (* publish *)
  destruct (ring_first_free _ _ _ _ Hinv4) as
    (rp & rf & Hrp & Hf & Hrf & Hcf & Hfp & Hfo & Hfolder).
  pose proof (slot_Some _ _ _ Hrf) as [Hf0 _].
  apply bind_Ret in Hrun as (f' & s & Hstep & Hrun).
  apply on_readers_Ret in Hstep as (rb & Hstep & ->).
  rewrite (get_next_spec _ _ _ _ _ Hinv4) in Hstep.
  inversion Hstep; subst f' rb. clear Hstep. rewrite set_ring_same in Hrun.
  apply bind_Ret in Hrun as (u6 & w5 & Hstep & Hrun).
  rewrite (on_readers_update _ _ _ _ Hrf) in Hstep.
  inversion Hstep; subst w5. clear Hstep.
  pose proof (ring_at_payload _ _ _ f rf (ReadCount.set_current_top top rf)
                Hinv4 Hrf eq_refl eq_refl) as Hinv5.
  pose proof (slot_set_slot_eq w4 f rf (ReadCount.set_current_top top rf) Hrf)
    as Hrf5.
  set (w5 := set_slot f _ w4) in *.
  apply bind_Ret in Hrun as (u7 & w6 & Hstep & Hrun).
  rewrite (on_readers_update _ _ _ _ Hrf5) in Hstep.
  inversion Hstep; subst w6. clear Hstep.
  pose proof (ring_at_payload _ _ _ f _
                (ReadCount.set_filesize (writer_file_size env top)
                   (ReadCount.set_current_top top rf))
                Hinv5 Hrf5 eq_refl eq_refl) as Hinv6.
  pose proof (slot_set_slot_eq w5 f _
                (ReadCount.set_filesize (writer_file_size env top)
                   (ReadCount.set_current_top top rf)) Hrf5) as Hrf6.
  set (w6 := set_slot f _ w5) in *.
  apply bind_Ret in Hrun as (u8 & w7 & Hstep & Hrun).
  rewrite (on_readers_update _ _ _ _ Hrf6) in Hstep.
  inversion Hstep; subst w7. clear Hstep.
  set (rf7 := ReadCount.set_version nv
                (ReadCount.set_filesize (writer_file_size env top)
                   (ReadCount.set_current_top top rf))) in *.
  pose proof (ring_at_payload _ _ _ f _ rf7 Hinv6 Hrf6 eq_refl eq_refl) as Hinv7.
  pose proof (slot_set_slot_eq w6 f _ rf7 Hrf6) as Hrf7.
  set (w7 := set_slot f rf7 w6) in *.
  apply bind_Ret in Hrun as (u9 & w8 & Hstep & Hrun).
  apply on_readers_Ret in Hstep as (rb8 & Hstep & ->).
  assert (Hinv7' : Ringbuffer.ring_at (ring w7) (drop k older) (f :: free2))
    by exact Hinv7.
  destruct (use_next_spec (assertions env) (ring w7) _ _ _ Hinv7') as
    (rf' & Hrf' & Huse & Hinv8).
  rewrite Huse in Hstep. inversion Hstep; subst rb8. clear Hstep Huse.
  assert (rf' = rf7) as -> by congruence.
  (* leave the critical phase and update the counters *)
  apply bind_Ret in Hrun as (u10 & w9 & Hstep & Hrun).
  rewrite on_info_modify_run in Hstep. inversion Hstep; subst w9. clear Hstep.
  apply with_controlmutex_Ret in Hrun as (_ & w10 & Hrun & ->).
  apply bind_Ret in Hrun as (u11 & w11 & Hstep & Hrun).
  rewrite on_info_modify_run in Hstep. inversion Hstep; subst w11. clear Hstep.
  rewrite on_info_modify_run in Hrun. inversion Hrun; subst w10. clear Hrun.
  exists k, top, (ReadCount.set_count 0 rf7), r_old, free2.
  simpl in Hinv8. rewrite Hpp4, Hpp1 in Hinv8.
  split_and!; try done.
  - by rewrite Hv.
  - simpl. eapply slot_insert_eq. exact Hrf7.
  - simpl. rewrite Hop4. rewrite Hop4 in Hfo.
    rewrite !slot_insert_ne by done. exact Hr_old.
  - simpl. by rewrite Hv.
  - intros Ha. rewrite Hv. specialize (Hle Ha). lia.
Qed.

End LowLevelCommit.

Section CommitClaim.
Import SharedGroup.

Variable env : Collaborators.

Lemma get_current_version_Ret w v w' :
  on_info SharedInfo.get_current_version_unchecked w = Ret v w' ->
  w' = w /\
  exists prev,
    Ringbuffer.slot (Ringbuffer.data (ring w)) (Ringbuffer.put_pos (ring w)) =
      Some prev /\
    v = ReadCount.version prev.
Proof.
  unfold on_info, zoom, SharedInfo.get_current_version_unchecked.
  unfold bind at 1. unfold SharedInfo.on_readers, zoom.
  unfold Ringbuffer.get_last, Ringbuffer.last, bind, get_state, Ringbuffer.get.
  fold (ring w). unfold ret.
  destruct (Ringbuffer.slot (Ringbuffer.data (ring w)) (Ringbuffer.put_pos (ring w)))
    as [prev|] eqn:Hprev; [|done].
  intros [= <- <-]. split.
  - unfold ring. rewrite set_readers_same. by rewrite set_info_same.
  - eauto.
Qed.

Lemma do_commit_Ret w nv w' :
  do_commit env w = Ret nv w' ->
  exists prev,
    Ringbuffer.slot (Ringbuffer.data (ring w)) (Ringbuffer.put_pos (ring w)) =
      Some prev /\
    (replication env = None -> nv = wrap64 (ReadCount.version prev + 1)) /\
    (forall repl, replication env = Some repl ->
       prepare_commit repl (ReadCount.version prev) = Some nv) /\
    low_level_commit env nv w = Ret tt w'.
Proof.
  unfold do_commit. intros (wc & s & Hstep & Hrun)%bind_Ret.
  inversion Hstep; subst wc s. clear Hstep.
  apply bind_Ret in Hrun as (u & s & Hstep & Hrun).
  apply REALM_ASSERT_Ret in Hstep as [-> _].
  apply bind_Ret in Hrun as (cur & s & Hstep & Hrun).
  apply get_current_version_Ret in Hstep as (-> & prev & Hprev & ->).
  exists prev. split; [done|].
  destruct (replication env) as [repl|].
  - apply bind_Ret in Hrun as (nv' & s & Hstep & Hrun).
    destruct (prepare_commit repl (ReadCount.version prev)) as [v|] eqn:Hprep;
      [|done].
    inversion Hstep; subst nv' s. clear Hstep.
    apply bind_Ret in Hrun as (u' & s & Hstep & Hrun).
    apply catch_rethrow_Ret in Hstep. inversion Hrun; subst v s.
    destruct u'. split_and!; try done. by intros repl' [= <-].
  - apply bind_Ret in Hrun as (u' & s & Hstep & Hrun).
    inversion Hrun; subst nv s. destruct u'. by split_and!.
Qed.

Lemma same_payload_refl w : same_payload w w.
Proof. unfold same_payload. split_and!; try done. eauto 10. Qed.

Lemma same_payload_trans w1 w2 w3 :
  same_payload w1 w2 -> same_payload w2 w3 -> same_payload w1 w3.
Proof.
  intros (Hp & Ho & Hs & Hl & Hn & Hc) (Hp' & Ho' & Hs' & Hl' & Hn' & Hc').
  unfold same_payload. split_and!; try congruence.
  intros i r Hr. destruct (Hs i r Hr) as (r1 & Hr1 & Hv & Ht & Hf).
  destruct (Hs' i r1 Hr1) as (r2 & Hr2 & Hv' & Ht' & Hf').
  exists r2. split_and!; congruence.
Qed.

Lemma release_read_lock_Ret l w w' :
  release_read_lock l w = Ret tt w' -> same_payload w w'.
Proof.
  unfold release_read_lock. intros Hrun%noexcept_Ret.
  apply bind_Ret in Hrun as (b & wg & Hstep & Hrun).
  destruct (grow_reader_mapping_spec w (m_reader_idx l))
    as (b' & wg' & Hg & Hsame & _).
  rewrite Hg in Hstep. inversion Hstep; subst b' wg'. clear Hstep Hg.
  pose proof (same_but_mapping_ring _ _ Hsame) as Hring.
  destruct Hsame as (Hi & _).
  apply bind_Ret in Hrun as (r & s & Hstep & Hrun).
  apply on_readers_Ret in Hstep as (rb & Hstep & ->).
  unfold Ringbuffer.get in Hstep.
  destruct (Ringbuffer.slot (Ringbuffer.data (ring wg)) (m_reader_idx l))
    as [r0|] eqn:Hr0; [|done].
  inversion Hstep; subst r0 rb. clear Hstep. rewrite set_ring_same in Hrun.
  rewrite (on_readers_update _ _ _ _ Hr0) in Hrun. inversion Hrun; subst w'.
  pose proof (slot_Some _ _ _ Hr0) as [Hidx _].
  unfold same_payload. simpl. rewrite Hring, Hi. split_and!; try done.
  intros i ri Hri. destruct (decide (i = m_reader_idx l)) as [->|Hne].
  - rewrite Hring in Hr0. assert (ri = r) as -> by congruence.
    eexists. split; [by eapply slot_insert_eq|done].
  - exists ri. split; [|done]. by rewrite slot_insert_ne.
Qed.

Lemma do_end_read_Ret w w' :
  do_end_read env w = Ret tt w' -> same_payload w w'.
Proof.
  unfold do_end_read. intros Hrun%noexcept_Ret.
  apply bind_Ret in Hrun as (wc & s & Hstep & Hrun).
  inversion Hstep; subst wc s. clear Hstep.
  apply bind_Ret in Hrun as (u & s & Hstep & Hrun).
  apply REALM_ASSERT_Ret in Hstep as [-> _].
  apply bind_Ret in Hrun as ([] & s & Hstep & Hrun).
  apply release_read_lock_Ret in Hstep.
  rewrite on_sg_run in Hrun. inversion Hrun; subst w'.
  eapply same_payload_trans; [exact Hstep|]. exact (same_payload_refl s).
Qed.

(** C1. On a session whose ring satisfies the ring invariant (and has room
    to grow by 32 slots within 32 bits), every [commit] that returns leaves
    the following.  The slot at [put_pos] holds the top ref and the file
    size the group writer produced and the new version number.  Without a
    replication plugin the new version is the version of the previously
    latest slot plus one (in 64-bit arithmetic, and literally whenever that
    fits; this is [latest_version_number + 1] when the two agreed before);
    with a plugin it is what [prepare_commit] answered.
    [latest_version_number] is the new version; [number_of_versions] is the
    new version minus [oldest] plus one, where [oldest] is the version held
    by the slot at [old_pos], the oldest live slot left by [cleanup] (again
    in 64-bit arithmetic, and literally whenever that fits);
    [commit_in_critical_phase] is 0; the transaction is back in Ready. *)
Theorem commit_publishes_snapshot (w w' : World) (new_version : Z)
    (older free : list Z) :
  ring_at_world w older free ->
  Ringbuffer.entries (ring w) + 32 < 2 ^ 32 ->
  commit env w = Ret new_version w' ->
  exists prev r_new r_old top,
    Ringbuffer.slot (Ringbuffer.data (ring w)) (Ringbuffer.put_pos (ring w)) =
      Some prev /\
    Ringbuffer.slot (Ringbuffer.data (ring w')) (Ringbuffer.put_pos (ring w')) =
      Some r_new /\
    write_group env new_version (ReadCount.version r_old) = Some top /\
    ReadCount.current_top r_new = top /\
    ReadCount.filesize r_new = writer_file_size env top /\
    ReadCount.version r_new = new_version /\
    (replication env = None ->
       new_version = wrap64 (ReadCount.version prev + 1) /\
       (0 <= ReadCount.version prev + 1 < 2 ^ 64 ->
          new_version = ReadCount.version prev + 1) /\
       (SharedInfo.latest_version_number (info w) = ReadCount.version prev ->
        0 <= SharedInfo.latest_version_number (info w) + 1 < 2 ^ 64 ->
          new_version = SharedInfo.latest_version_number (info w) + 1)) /\
    (forall repl, replication env = Some repl ->
       prepare_commit repl (ReadCount.version prev) = Some new_version) /\
    SharedInfo.latest_version_number (info w') = new_version /\
    Ringbuffer.slot (Ringbuffer.data (ring w')) (Ringbuffer.old_pos (ring w')) =
      Some r_old /\
    SharedInfo.number_of_versions (info w') =
      wrap64 (new_version - ReadCount.version r_old + 1) /\
    (0 <= new_version - ReadCount.version r_old + 1 < 2 ^ 64 ->
       SharedInfo.number_of_versions (info w') =
         new_version - ReadCount.version r_old + 1) /\
    SharedInfo.commit_in_critical_phase (info w') = 0 /\
    m_transact_stage (sg w') = transact_Ready.
Proof.
  intros H Hbound Hrun. unfold commit in Hrun.
  apply bind_Ret in Hrun as (wc & s & Hstep & Hrun).
  inversion Hstep; subst wc s. clear Hstep.
  destruct (negb (stage_eqb (m_transact_stage (sg w)) transact_Writing));
    [done|].
  apply bind_Ret in Hrun as (u & s & Hstep & Hrun).
  apply REALM_ASSERT_Ret in Hstep as [-> _].
  apply bind_Ret in Hrun as (nv & w1 & Hstep & Hrun).
  apply do_commit_Ret in Hstep as (prev & Hprev & Hplain & Hrepl & Hllc).
  destruct (low_level_commit_Ret env w w1 nv older free H Hbound Hllc) as
    (k & top & r_new & r_old & free' & Hk & Hwg & Hnew & Htop & Hfs & Hver
       & Hold & Hinv & Hlatest & Hnov & Hflag & Hle).
  apply bind_Ret in Hrun as (u1 & w2 & Hstep & Hrun).
  apply noexcept_Ret in Hstep. unfold unlock in Hstep.
  rewrite on_info_modify_run in Hstep. inversion Hstep; subst w2. clear Hstep.
  set (w2 := set_info _ w1) in *.
  assert (Hring2 : ring w2 = ring w1) by done.
  assert (Hl2 : SharedInfo.latest_version_number (info w2) =
                SharedInfo.latest_version_number (info w1)) by done.
  assert (Hn2 : SharedInfo.number_of_versions (info w2) =
                SharedInfo.number_of_versions (info w1)) by done.
  assert (Hc2 : SharedInfo.commit_in_critical_phase (info w2) =
                SharedInfo.commit_in_critical_phase (info w1)) by done.
  clearbody w2.
  apply bind_Ret in Hrun as ([] & w3 & Hstep & Hrun).
  apply do_end_read_Ret in Hstep as (Hp3 & Ho3 & Hs3 & Hl3 & Hn3 & Hc3).
  rewrite Hring2 in Hp3, Ho3, Hs3. rewrite Hl2 in Hl3. rewrite Hn2 in Hn3.
  rewrite Hc2 in Hc3.
  apply bind_Ret in Hrun as (u2 & w4 & Hstep & Hrun).
  rewrite on_sg_run in Hstep. inversion Hstep; subst w4. clear Hstep.
  injection Hrun as Hnv Hw'. subst nv w'.
  destruct (Hs3 _ _ Hnew) as (r_new' & Hnew' & Hv' & Ht' & Hf').
  destruct (Hs3 _ _ Hold) as (r_old' & Hold' & Hvo' & _).
  exists prev, r_new', r_old', top.
  change (ring (set_sg _ w3)) with (ring w3).
  change (info (set_sg _ w3)) with (info w3).
  rewrite Hp3, Ho3, Hvo', Hl3, Hn3, Hc3.
  split_and!; try congruence.
  - intros Hnone. pose proof (Hplain Hnone) as Hpl.
    split; [exact Hpl|]. split.
    + intros Hfit. rewrite Hpl. unfold wrap64. apply Z.mod_small. lia.
    + intros Hi4 Hfit. rewrite Hpl, Hi4. unfold wrap64.
      apply Z.mod_small. lia.
  - done.
  - intros Hfit. rewrite Hnov. unfold wrap64. apply Z.mod_small. lia.
  - done.
Qed.

End CommitClaim.

(** ** The open protocol *)

Section OpenClaim.
Import SharedGroup.

Variable env : Collaborators.
Variable fuel : nat.

Lemma lockfile_size_set_sg g w : lockfile_size (set_sg g w) = lockfile_size w.
Proof. done. Qed.

Lemma info_set_sg g w : info (set_sg g w) = info w.
Proof. done. Qed.

Lemma do_open_attempt_empty no_create options hist w :
  other_lockers w <> 0 ->
  0 < sizeof_SharedInfo env ->
  lockfile_size w = 0 ->
  do_open_attempt env fuel no_create options hist w =
    Ret attempt_retry
      (left_lockfile (set_sg (set_m_file_locked true (sg w)) w)).
Proof.
  intros Hothers Hsize Hempty.
  unfold do_open_attempt, bind at 1, get_state at 1.
  destruct (Z.eqb_spec (other_lockers w) 0); [done|].
  unfold bind at 1, ret at 1, bind at 1. rewrite on_sg_run.
  unfold guarded, bind at 1, get_state at 1. rewrite !lockfile_size_set_sg.
  rewrite Hempty.
  destruct (Z.ltb_spec 0 (sizeof_SharedInfo env)); [|lia].
  done.
Qed.

Lemma do_open_attempt_incomplete no_create options hist w :
  other_lockers w <> 0 ->
  lockfile_size w <> 0 ->
  SharedInfo.init_complete (info w) = 0 ->
  do_open_attempt env fuel no_create options hist w =
    Ret attempt_retry
      (left_lockfile (set_sg (set_m_file_locked true (sg w)) w)).
Proof.
  intros Hothers Hsize Hinit.
  unfold do_open_attempt, bind at 1, get_state at 1.
  destruct (Z.eqb_spec (other_lockers w) 0); [done|].
  unfold bind at 1, ret at 1, bind at 1. rewrite on_sg_run.
  unfold guarded, bind at 1, get_state at 1. rewrite !lockfile_size_set_sg.
  destruct (Z.eqb_spec (lockfile_size w) 0); [done|].
  rewrite andb_false_r. unfold bind at 1. rewrite on_sg_run.
  rewrite !info_set_sg, Hinit. simpl. by destruct (sg w).
Qed.

Lemma do_open_attempt_short no_create options hist w :
  other_lockers w <> 0 ->
  0 < lockfile_size w < sizeof_SharedInfo env ->
  SharedInfo.init_complete (info w) = 1 ->
  do_open_attempt env fuel no_create options hist w =
    Throw (IncompatibleLockFile "Info size doesn't match")
      (left_lockfile (set_sg (set_m_file_locked true (sg w)) w)).
Proof.
  intros Hothers Hsize Hinit.
  unfold do_open_attempt, bind at 1, get_state at 1.
  destruct (Z.eqb_spec (other_lockers w) 0); [done|].
  unfold bind at 1, ret at 1, bind at 1. rewrite on_sg_run.
  unfold guarded, bind at 1, get_state at 1. rewrite !lockfile_size_set_sg.
  destruct (Z.eqb_spec (lockfile_size w) 0); [lia|].
  rewrite andb_false_r. unfold bind at 1. rewrite on_sg_run.
  rewrite !info_set_sg, Hinit. simpl Z.eqb. cbv iota.
  unfold bind at 1, REALM_ASSERT. rewrite andb_false_r. unfold ret at 1.
  destruct (Z.ltb_spec (lockfile_size w) (sizeof_SharedInfo env)); [|lia].
  destruct (Z.ltb_spec (lockfile_size w) (sizeof_SharedInfo env)); [|lia].
  simpl. by destruct (sg w).
Qed.

(** C9, amended.  Let a participant find the lock file as others left it
    (it did not get the exclusive lock).  If the file is empty, or its
    [init_complete] is 0, the iteration raises nothing: it gives up the
    shared file lock and ends in [continue], so that the loop starts over
    at the exclusive-lock step.  A file that is not empty, is shorter than
    the session header and has [init_complete = 1] is not retried: the
    iteration throws [IncompatibleLockFile]. *)
Theorem open_retries_incomplete_lockfile no_create options hist (w : World) (n : nat) :
  other_lockers w <> 0 ->
  0 < sizeof_SharedInfo env ->
  0 <= lockfile_size w ->
  let w' := left_lockfile (set_sg (set_m_file_locked true (sg w)) w) in
  (lockfile_size w = 0 \/ SharedInfo.init_complete (info w) = 0 ->
     do_open_attempt env fuel no_create options hist w = Ret attempt_retry w' /\
     m_file_locked (sg w') = false /\
     info w' = info w /\ lockfile_size w' = lockfile_size w /\
     do_open_loop env fuel (S n) no_create options hist w =
       do_open_loop env fuel n no_create options hist w') /\
  (0 < lockfile_size w < sizeof_SharedInfo env ->
   SharedInfo.init_complete (info w) = 1 ->
     do_open_attempt env fuel no_create options hist w =
       Throw (IncompatibleLockFile "Info size doesn't match") w' /\
     do_open_loop env fuel (S n) no_create options hist w =
       Throw (IncompatibleLockFile "Info size doesn't match") w').
Proof.
  intros Hothers Hsize Hnonneg w'. split.
  - intros Hcase.
    assert (Hrun : do_open_attempt env fuel no_create options hist w =
                   Ret attempt_retry w').
    { destruct (decide (lockfile_size w = 0)) as [Hz|Hnz].
      - by apply do_open_attempt_empty.
      - destruct Hcase as [Hz|Hinit]; [done|].
        by apply do_open_attempt_incomplete. }
    split_and!; try done.
    simpl. unfold bind. by rewrite Hrun.
  - intros Hshort Hinit.
    pose proof (do_open_attempt_short no_create options hist w Hothers Hshort Hinit)
      as Hrun.
    split; [done|]. simpl. unfold bind. by rewrite Hrun.
Qed.

End OpenClaim.

(** ** The critical-phase gate *)

Section Keeps.

Context {St : Type} (P : St -> Prop).

Lemma keeps_ret {A} (a : A) : keeps P (ret a).
Proof. by intros s Hs. Qed.

Lemma keeps_throw {A} e : keeps P (throw e : M St A).
Proof. by intros s Hs. Qed.

Lemma keeps_spin {A} : keeps P (spin : M St A).
Proof. by intros s Hs. Qed.

Lemma keeps_get_state : keeps P get_state.
Proof. by intros s Hs. Qed.

Lemma keeps_modify f : (forall s, P s -> P (f s)) -> keeps P (modify f).
Proof. intros Hf s Hs. by apply Hf. Qed.

Lemma keeps_bind {A B} (m : M St A) (k : A -> M St B) :
  keeps P m -> (forall a, keeps P (k a)) -> keeps P (bind m k).
Proof.
  intros Hm Hk s Hs. unfold bind. specialize (Hm s Hs).
  destruct (m s) as [a s'| | | |]; try done. by apply Hk.
Qed.

Lemma keeps_noexcept {A} (m : M St A) : keeps P m -> keeps P (noexcept m).
Proof.
  intros Hm s Hs. unfold noexcept. specialize (Hm s Hs). by destruct (m s).
Qed.

Lemma keeps_finally {A} (m : M St A) h :
  keeps P m -> keeps P h -> keeps P (finally m h).
Proof.
  intros Hm Hh s Hs. unfold finally. specialize (Hm s Hs).
  destruct (m s) as [a s'|e s'| | |]; try done.
  - specialize (Hh s' Hm). by destruct (h s').
  - specialize (Hh s' Hm). by destruct (h s').
Qed.

Lemma keeps_catch_rethrow {A} (m : M St A) h :
  keeps P m -> keeps P h -> keeps P (catch_rethrow m h).
Proof.
  intros Hm Hh s Hs. unfold catch_rethrow. specialize (Hm s Hs).
  destruct (m s) as [a s'|e s'| | |]; try done.
  specialize (Hh s' Hm). by destruct (h s').
Qed.

Lemma keeps_REALM_ASSERT a c : keeps P (REALM_ASSERT a c).
Proof. intros s Hs. unfold REALM_ASSERT. by destruct (a && negb c). Qed.

End Keeps.

Section Gate.
Import SharedGroup.

Variable env : Collaborators.
Variable fuel : nat.

Lemma keeps_on_readers s {A} (m : M Ringbuffer.t A) : keeps (gated s) (on_readers m).
Proof.
  intros w Hw. rewrite on_readers_run. by destruct (m (ring w)).
Qed.

Lemma keeps_on_sg s f :
  (forall g, m_transact_stage (f g) = m_transact_stage g) ->
  keeps (gated s) (on_sg f).
Proof.
  intros Hf w (Hflag & Hmutex & Hothers & Hstage). rewrite on_sg_run.
  unfold gated. simpl. by rewrite Hf.
Qed.

Lemma keeps_log s e : keeps (gated s) (log e).
Proof. by intros w Hw. Qed.

Lemma keeps_must s ok origin : keeps (gated s) (must ok origin).
Proof. intros w Hw. unfold must. by destruct ok. Qed.

Lemma keeps_grow_reader_mapping s idx : keeps (gated s) (grow_reader_mapping idx).
Proof.
  unfold grow_reader_mapping. apply keeps_bind; [apply keeps_get_state|].
  intros w. destruct (idx >=? m_local_max_entry (sg w)); [|apply keeps_ret].
  apply keeps_bind; [apply keeps_on_readers|]. intros n.
  apply keeps_bind; [by apply keeps_on_sg|]. intros _. apply keeps_ret.
Qed.

Lemma keeps_release_read_lock s l : keeps (gated s) (release_read_lock l).
Proof.
  unfold release_read_lock. apply keeps_noexcept.
  apply keeps_bind; [apply keeps_grow_reader_mapping|]. intros _.
  apply keeps_bind; [apply keeps_on_readers|]. intros r.
  apply keeps_on_readers.
Qed.

Lemma keeps_on_world s {A} (m : M World A) :
  keeps (gated s) m -> keeps (gated_pair s) (on_world m).
Proof.
  intros Hm [l w] Hw. rewrite on_world_run. specialize (Hm w Hw).
  by destruct (m w).
Qed.

Lemma keeps_on_lock s f : keeps (gated_pair s) (on_lock f).
Proof. by intros [l w] Hw. Qed.

Lemma keeps_bind_lock s r : keeps (gated_pair s) (bind_lock r).
Proof.
  unfold bind_lock. repeat (apply keeps_bind; [apply keeps_on_lock|]; intros _).
  apply keeps_on_lock.
Qed.

Lemma keeps_grab_latest s n : keeps (gated_pair s) (grab_latest n).
Proof.
  induction n as [|n IH]; simpl; [apply keeps_spin|].
  apply keeps_bind; [apply keeps_on_world, keeps_on_readers|]. intros idx.
  apply keeps_bind; [apply keeps_on_lock|]. intros _.
  apply keeps_bind; [apply keeps_on_world, keeps_grow_reader_mapping|].
  intros [|]; [done|].
  apply keeps_bind; [apply keeps_on_world, keeps_on_readers|]. intros r.
  destruct (atomic_double_inc_if_even (ReadCount.count r)) as [ok c].
  apply keeps_bind; [apply keeps_on_world, keeps_on_readers|]. intros _.
  destruct ok; simpl; [apply keeps_bind_lock|done].
Qed.

Lemma keeps_pin_or_fail s n idx : keeps (gated s) (pin_or_fail n idx).
Proof.
  induction n as [|n IH]; simpl; [apply keeps_spin|].
  apply keeps_bind; [apply keeps_on_readers|]. intros r.
  destruct (atomic_double_inc_if_even (ReadCount.count r)) as [ok c].
  apply keeps_bind; [apply keeps_on_readers|]. intros _.
  destruct ok; [apply keeps_ret|].
  apply keeps_bind; [apply keeps_on_readers|]. intros rb.
  destruct (negb (Ringbuffer.old_pos rb =? idx)); [apply keeps_throw|done].
Qed.

Lemma keeps_grab_specific s n v : keeps (gated_pair s) (grab_specific fuel n v).
Proof.
  induction n as [|n IH]; [apply keeps_spin|].
  rewrite grab_specific_unfold.
  apply keeps_bind; [apply keeps_on_lock|]. intros _.
  apply keeps_bind; [apply keeps_on_world, keeps_grow_reader_mapping|].
  intros [|]; [done|].
  apply keeps_bind; [apply keeps_on_world, keeps_pin_or_fail|]. intros _.
  apply keeps_bind; [apply keeps_on_world, keeps_on_readers|]. intros r.
  destruct (negb (ReadCount.version r =? version v)); [|apply keeps_bind_lock].
  apply keeps_bind; [apply keeps_on_world, keeps_on_readers|]. intros _.
  apply keeps_throw.
Qed.

Lemma keeps_grab_read_lock s v : keeps (gated_pair s) (grab_read_lock fuel v).
Proof.
  unfold grab_read_lock. destruct (version v =? max_version).
  - apply keeps_grab_latest.
  - apply keeps_grab_specific.
Qed.

Lemma keeps_grab_own_read_lock s v : keeps (gated s) (grab_own_read_lock fuel v).
Proof.
  intros w Hw. unfold grab_own_read_lock, zoom.
  pose proof (keeps_grab_read_lock s v (m_read_lock (sg w), w) Hw) as Hk.
  destruct (grab_read_lock fuel v (m_read_lock (sg w), w)) as [a [l w']|e [l w']| | |];
    try done.
Qed.

Lemma keeps_grab_local_read_lock s l v :
  keeps (gated s) (grab_local_read_lock fuel l v).
Proof.
  intros w Hw. unfold grab_local_read_lock.
  pose proof (keeps_grab_read_lock s v (l, w) Hw) as Hk.
  destruct (grab_read_lock fuel v (l, w)) as [a [l' w']|e [l' w']| | |];
    try done.
Qed.

Lemma keeps_do_begin_read s v writable :
  keeps (gated s) (do_begin_read env fuel v writable).
Proof.
  unfold do_begin_read.
  apply keeps_bind; [apply keeps_grab_own_read_lock|]. intros _.
  apply keeps_bind; [apply keeps_get_state|]. intros w.
  destruct (attach_shared env _ _ writable); [by apply keeps_on_sg|].
  apply keeps_bind; [apply keeps_release_read_lock|]. intros _.
  apply keeps_throw.
Qed.

Lemma keeps_do_end_read s : keeps (gated s) (do_end_read env).
Proof.
  unfold do_end_read. apply keeps_noexcept.
  apply keeps_bind; [apply keeps_get_state|]. intros w.
  apply keeps_bind; [apply keeps_REALM_ASSERT|]. intros _.
  apply keeps_bind; [apply keeps_release_read_lock|]. intros _.
  by apply keeps_on_sg.
Qed.

Lemma keeps_with_controlmutex s {A} (m : M World A) :
  keeps (gated s) m -> keeps (gated s) (with_controlmutex m).
Proof.
  intros Hm. unfold with_controlmutex.
  apply keeps_bind.
  - unfold lock. apply keeps_bind; [apply keeps_get_state|]. intros w.
    destruct (SharedInfo.shared_controlmutex (info w)); [apply keeps_spin|].
    by intros w' Hw'.
  - intros _. apply keeps_finally; [done|]. by intros w' Hw'.
Qed.

Lemma keeps_last_mapped s n : keeps (gated s) (last_mapped n).
Proof.
  induction n as [|n IH]; simpl; [apply keeps_spin|].
  apply keeps_bind; [apply keeps_on_readers|]. intros idx.
  apply keeps_bind; [apply keeps_grow_reader_mapping|].
  intros [|]; [done|apply keeps_ret].
Qed.

Lemma keeps_latest_snapshot s n : keeps (gated s) (latest_snapshot_loop fuel n).
Proof.
  induction n as [|n IH]; simpl; [apply keeps_spin|].
  apply keeps_bind; [apply keeps_last_mapped|]. intros idx.
  apply keeps_bind; [apply keeps_on_readers|]. intros r.
  destruct (atomic_double_inc_if_even (ReadCount.count r)) as [ok c].
  apply keeps_bind; [apply keeps_on_readers|]. intros _.
  destruct ok; simpl; [|done].
  apply keeps_bind; [apply keeps_on_readers|]. intros r'.
  apply keeps_bind; [apply keeps_on_readers|]. intros _. apply keeps_ret.
Qed.

End Gate.

Section GateClaim.
Import SharedGroup.

Variable env : Collaborators.
Variable fuel : nat.

Lemma keeps_gate_of_gated {A} (m : M World A) :
  (forall s, keeps (gated s) m) -> keeps gate m.
Proof.
  intros Hm w (Hflag & Hfree & Hothers & Hstage).
  assert (Hg : gated (m_transact_stage (sg w)) w) by done.
  specialize (Hm _ w Hg).
  destruct (m w) as [a w'|e w'| | |]; try done.
  - destruct Hm as (? & ? & ? & Hs). unfold gate. by rewrite Hs.
  - destruct Hm as (? & ? & ? & Hs). unfold gate. by rewrite Hs.
Qed.

Lemma keeps_gate_stage s :
  s <> transact_Writing -> keeps gate (on_sg (set_m_transact_stage s)).
Proof. intros Hs w (Hflag & Hfree & Hothers & Hstage). by rewrite on_sg_run. Qed.

Lemma keeps_gate_on_sg f :
  (forall g, m_transact_stage (f g) = m_transact_stage g) ->
  keeps gate (on_sg f).
Proof. intros Hf. apply keeps_gate_of_gated. intros s. by apply keeps_on_sg. Qed.

Lemma keeps_gate_controlmutex {A} (m : M World A) :
  keeps gate m -> keeps gate (with_controlmutex m).
Proof.
  intros Hm. unfold with_controlmutex.
  apply keeps_bind.
  - unfold lock. apply keeps_bind; [apply keeps_get_state|]. intros w.
    destruct (SharedInfo.shared_controlmutex (info w)); [apply keeps_spin|].
    by intros w' Hw'.
  - intros _. apply keeps_finally; [done|]. by intros w' Hw'.
Qed.

Lemma keeps_gate_begin_read v : keeps gate (begin_read env fuel v).
Proof.
  unfold begin_read. apply keeps_bind; [apply keeps_get_state|]. intros w.
  destruct (negb _); [apply keeps_throw|].
  apply keeps_bind; [|intros _; by apply keeps_gate_stage].
  apply keeps_gate_of_gated. intros s. apply keeps_do_begin_read.
Qed.

Lemma keeps_gate_end_read : keeps gate (end_read env).
Proof.
  unfold end_read. apply keeps_noexcept.
  apply keeps_bind; [apply keeps_get_state|]. intros w.
  destruct (stage_eqb _ _); [apply keeps_ret|].
  destruct (negb _); [apply keeps_throw|].
  apply keeps_bind; [|intros _; by apply keeps_gate_stage].
  apply keeps_gate_of_gated. intros s. apply keeps_do_end_read.
Qed.

Lemma keeps_gate_begin_write : keeps gate (begin_write env fuel).
Proof.
  intros w (Hflag & Hfree & Hothers & Hstage).
  destruct (m_transact_stage (sg w)) eqn:Hs; [| |done].
  - rewrite begin_write_crash_gate by done. unfold gate. by rewrite Hs.
  - rewrite begin_write_wrong_state; [|by rewrite Hs]. unfold gate. by rewrite Hs.
Qed.

Lemma keeps_gate_commit : keeps gate (commit env).
Proof.
  intros w (Hflag & Hfree & Hothers & Hstage). by rewrite commit_wrong_state.
Qed.

Lemma keeps_gate_commit_and_continue :
  keeps gate (commit_and_continue_as_read env fuel).
Proof.
  intros w (Hflag & Hfree & Hothers & Hstage). by rewrite commit_and_continue_wrong_state.
Qed.

Lemma keeps_gate_rollback : keeps gate (rollback env).
Proof.
  intros w (Hflag & Hfree & Hothers & Hstage).
  destruct (m_transact_stage (sg w)) eqn:Hs; [| |done].
  - rewrite rollback_ready by done. unfold gate. by rewrite Hs.
  - by rewrite rollback_reading.
Qed.

Lemma keeps_gate_pin_version : keeps gate (pin_version env fuel).
Proof.
  unfold pin_version. apply keeps_bind; [apply keeps_get_state|]. intros w.
  apply keeps_bind; [apply keeps_REALM_ASSERT|]. intros _.
  apply keeps_bind; [|intros _; apply keeps_ret].
  apply keeps_gate_of_gated. intros s. apply keeps_grab_local_read_lock.
Qed.

Lemma keeps_gate_unpin_version v : keeps gate (unpin_version v).
Proof.
  unfold unpin_version. apply keeps_gate_of_gated. intros s.
  apply keeps_release_read_lock.
Qed.

Lemma keeps_gate_has_changed : keeps gate (has_changed fuel).
Proof.
  unfold has_changed, get_version_of_latest_snapshot.
  apply keeps_bind.
  - apply keeps_gate_of_gated. intros s. apply keeps_latest_snapshot.
  - intros v. apply keeps_bind; [apply keeps_get_state|]. intros w.
    apply keeps_ret.
Qed.

Lemma keeps_gate_get_number_of_versions : keeps gate get_number_of_versions.
Proof.
  unfold get_number_of_versions. apply keeps_gate_controlmutex.
  apply keeps_bind; [apply keeps_get_state|]. intros w. apply keeps_ret.
Qed.

Lemma keeps_gate_close : keeps gate (close env).
Proof.
  unfold close. apply keeps_noexcept.
  apply keeps_bind; [apply keeps_get_state|]. intros w.
  destruct (negb (is_attached w)); [apply keeps_ret|].
  apply keeps_bind.
  { destruct (m_transact_stage (sg w)).
    - apply keeps_ret.
    - apply keeps_gate_end_read.
    - apply keeps_gate_rollback. }
  intros _. apply keeps_bind; [by apply keeps_gate_on_sg|]. intros _.
  apply keeps_bind; [by apply keeps_gate_stage|]. intros _.
  apply keeps_bind.
  { apply keeps_gate_controlmutex.
    apply keeps_bind; [by apply keeps_gate_on_sg|]. intros _.
    apply keeps_bind; [apply keeps_get_state|]. intros w'.
    apply keeps_bind; [by intros w2 Hw2|]. intros _.
    destruct (_ =? 0); [|apply keeps_ret].
    destruct (_ =? _); [|apply keeps_ret].
    by intros w2 Hw2. }
  intros _. apply keeps_bind; [by apply keeps_gate_on_sg|]. intros _.
  by apply keeps_gate_on_sg.
Qed.

(** Opening and compaction while others hold the lock file. *)

Lemma keeps_on_info s {A} (m : M SharedInfo.t A) :
  keeps (fun i => SharedInfo.commit_in_critical_phase i <> 0 /\
                  SharedInfo.shared_writemutex i = false) m ->
  keeps (gated s) (on_info m).
Proof.
  intros Hm w (Hflag & Hfree & Hothers & Hstage).
  unfold on_info, zoom. specialize (Hm (info w) (conj Hflag Hfree)).
  destruct (m (info w)) as [a i|e i| | |]; try done.
  - destruct Hm. by split_and!.
  - destruct Hm. by split_and!.
Qed.

Lemma keeps_info_on_readers {A} (m : M Ringbuffer.t A) :
  keeps (fun i => SharedInfo.commit_in_critical_phase i <> 0 /\
                  SharedInfo.shared_writemutex i = false)
        (SharedInfo.on_readers m).
Proof.
  intros i Hi. unfold SharedInfo.on_readers, zoom.
  by destruct (m (SharedInfo.readers i)).
Qed.

Lemma keeps_on_info_modify s f :
  (forall i, SharedInfo.commit_in_critical_phase (f i) =
               SharedInfo.commit_in_critical_phase i /\
             SharedInfo.shared_writemutex (f i) = SharedInfo.shared_writemutex i) ->
  keeps (gated s) (on_info (modify f)).
Proof.
  intros Hf. apply keeps_on_info. intros i [Hflag Hfree].
  destruct (Hf i) as [Hc Hm]. unfold modify. by rewrite Hc, Hm.
Qed.

Lemma keeps_leave_lockfile s : keeps (gated s) leave_lockfile.
Proof.
  unfold leave_lockfile.
  apply keeps_bind; [by apply keeps_on_sg|]. intros _.
  apply keeps_bind; [by apply keeps_on_sg|]. intros _.
  by apply keeps_on_sg.
Qed.

Lemma keeps_guarded s m : keeps (gated s) m -> keeps (gated s) (guarded m).
Proof.
  intros Hm w Hw. unfold guarded. specialize (Hm w Hw).
  destruct (m w) as [[|target] w'|e w'| | |].
  - apply (keeps_bind (gated s) leave_lockfile (fun _ => ret attempt_retry));
      [apply keeps_leave_lockfile|intros; apply keeps_ret|done].
  - exact Hm.
  - apply (keeps_bind (gated s) leave_lockfile (fun _ => throw e));
      [apply keeps_leave_lockfile|intros; apply keeps_throw|done].
  - done.
  - done.
  - done.
Qed.

Lemma keeps_join_session s no_create options hist :
  keeps (gated s) (join_session env fuel no_create options hist).
Proof.
  unfold join_session. apply keeps_with_controlmutex.
  apply keeps_bind; [apply keeps_on_readers|]. intros n.
  apply keeps_bind; [by apply keeps_on_sg|]. intros _.
  apply keeps_bind; [apply keeps_get_state|]. intros w.
  destruct (attach_file env _); [|apply keeps_ret|apply keeps_throw].
  apply keeps_bind; [by apply keeps_on_sg|]. intros _.
  apply keeps_bind; [by apply keeps_on_sg|]. intros _.
  apply keeps_bind.
  { destruct (SharedInfo.num_participants (info w) =? 0).
    - apply keeps_bind; [destruct (negb _); [apply keeps_throw|apply keeps_ret]|].
      intros _. apply keeps_bind.
      { destruct (replication env); [apply keeps_must|apply keeps_ret]. }
      intros _. apply keeps_bind.
      { destruct (encryption_key options); [|apply keeps_ret].
        by apply keeps_on_info_modify. }
      intros _. apply keeps_bind; [by apply keeps_on_info_modify|]. intros _.
      apply keeps_bind; [by apply keeps_on_info_modify|]. intros _.
      apply keeps_bind; [by apply keeps_on_info_modify|]. intros _.
      apply keeps_on_info. unfold SharedInfo.init_versioning.
      apply keeps_bind; [apply keeps_info_on_readers|]. intros r.
      apply keeps_bind; [apply keeps_info_on_readers|]. intros _.
      apply keeps_bind; [apply keeps_info_on_readers|]. intros _.
      apply keeps_info_on_readers.
    - destruct (negb _); [apply keeps_throw|].
      destruct (negb _); [apply keeps_throw|].
      destruct (_ && _); [apply keeps_throw|].
      destruct (negb _); [apply keeps_throw|apply keeps_ret]. }
  intros _. apply keeps_bind.
  { destruct (_ && _); [|apply keeps_ret].
    apply keeps_bind; [|intros; apply keeps_spin].
    destruct (_ =? 0); [|apply keeps_ret].
    apply keeps_bind; [apply keeps_log|]. intros _.
    by apply keeps_on_info_modify. }
  intros _. apply keeps_bind; [apply keeps_latest_snapshot|]. intros v.
  apply keeps_bind; [apply keeps_get_state|]. intros w'.
  apply keeps_bind; [by apply keeps_on_sg|]. intros _.
  apply keeps_bind; [by apply keeps_on_info_modify|]. intros _.
  apply keeps_bind; [by apply keeps_on_sg|]. intros _.
  apply keeps_ret.
Qed.

Lemma keeps_do_open_attempt s no_create options hist :
  keeps (gated s) (do_open_attempt env fuel no_create options hist).
Proof.
  intros w Hw. unfold do_open_attempt, bind at 1, get_state at 1.
  destruct (Z.eqb_spec (other_lockers w) 0) as [Hz|_].
  { destruct Hw as (_ & _ & Hothers & _). done. }
  revert w Hw. change (keeps (gated s)
    (ret tt ;;; on_sg (set_m_file_locked true) ;;;
     guarded (
       w <- get_state ;;
       let file_size := lockfile_size w in
       if (file_size <? sizeof_SharedInfo env) && (file_size =? 0) then
         ret attempt_retry
       else
         let info_size :=
           if file_size <? sizeof_SharedInfo env then file_size
           else sizeof_SharedInfo env in
         on_sg (set_m_file_map_attached true) ;;;
         if SharedInfo.init_complete (info w) =? 0 then ret attempt_retry
         else
           REALM_ASSERT (assertions env) (SharedInfo.init_complete (info w) =? 1) ;;;
           if info_size <? sizeof_SharedInfo env then
             throw (IncompatibleLockFile "Info size doesn't match")
           else if negb (SharedInfo.shared_info_version (info w) =? g_shared_info_version) then
             throw (IncompatibleLockFile "Shared info version doesn't match")
           else if negb (SharedInfo.size_of_mutex (info w) =? sizeof_mutex env) then
             throw (IncompatibleLockFile "Mutex size doesn't match")
           else if negb (SharedInfo.size_of_condvar (info w) =? sizeof_condvar env) then
             throw (IncompatibleLockFile "Condtion var size doesn't match")
           else if negb (controlmutex_valid env) then
             throw (IncompatibleLockFile "Control mutex is invalid.")
           else join_session env fuel no_create options hist))).
  apply keeps_bind; [apply keeps_ret|]. intros _.
  apply keeps_bind; [by apply keeps_on_sg|]. intros _.
  apply keeps_guarded.
  apply keeps_bind; [apply keeps_get_state|]. intros w.
  cbv zeta. destruct (_ && _); [apply keeps_ret|].
  apply keeps_bind; [by apply keeps_on_sg|]. intros _.
  destruct (_ =? 0); [apply keeps_ret|].
  apply keeps_bind; [apply keeps_REALM_ASSERT|]. intros _.
  destruct (_ <? _); [apply keeps_throw|].
  destruct (negb _); [apply keeps_throw|].
  destruct (negb _); [apply keeps_throw|].
  destruct (negb _); [apply keeps_throw|].
  destruct (negb _); [apply keeps_throw|].
  apply keeps_join_session.
Qed.

Lemma keeps_do_open_loop s n no_create options hist :
  keeps (gated s) (do_open_loop env fuel n no_create options hist).
Proof.
  induction n as [|n IH]; simpl; [apply keeps_spin|].
  apply keeps_bind; [apply keeps_do_open_attempt|].
  intros [|target]; [exact IH|apply keeps_ret].
Qed.

Lemma keeps_gate_must ok origin : keeps gate (must ok origin).
Proof. unfold must. destruct ok; [apply keeps_ret|apply keeps_throw]. Qed.

Lemma keeps_gate_upgrade_file_format allow target :
  keeps gate (upgrade_file_format env fuel allow target).
Proof.
  unfold upgrade_file_format.
  apply keeps_bind; [apply keeps_get_state|]. intros w.
  apply keeps_bind; [apply keeps_REALM_ASSERT|]. intros _.
  destruct (_ <? _); [|apply keeps_ret].
  apply keeps_bind; [apply keeps_gate_begin_write|]. intros _.
  apply keeps_finally; [|apply keeps_gate_rollback].
  cbv zeta. apply keeps_bind; [apply keeps_REALM_ASSERT|]. intros _.
  destruct (_ <? _); [|by apply keeps_gate_on_sg].
  destruct (negb allow); [apply keeps_throw|].
  apply keeps_bind; [apply keeps_gate_must|]. intros _.
  apply keeps_bind; [by apply keeps_gate_on_sg|]. intros _.
  apply keeps_bind.
  { destruct (upgrade_callback env) as [[|]|]; try apply keeps_ret.
    apply keeps_bind; [apply keeps_gate_rollback|]. intros _. apply keeps_throw. }
  intros _. apply keeps_bind; [apply keeps_gate_commit|]. intros _.
  apply keeps_ret.
Qed.

Lemma keeps_gate_do_open path no_create options :
  keeps gate (do_open env fuel path no_create options).
Proof.
  unfold do_open.
  apply keeps_bind; [apply keeps_get_state|]. intros w.
  apply keeps_bind; [apply keeps_REALM_ASSERT|]. intros _.
  apply keeps_bind; [destruct (_ && _); [apply keeps_throw|apply keeps_ret]|].
  intros _. apply keeps_bind; [by apply keeps_gate_on_sg|]. intros _.
  apply keeps_bind; [by apply keeps_gate_on_sg|]. intros _.
  cbv zeta. apply keeps_bind.
  { apply keeps_gate_of_gated. intros s. apply keeps_do_open_loop. }
  intros target. apply keeps_bind; [by apply keeps_gate_stage|]. intros _.
  apply keeps_catch_rethrow; [|apply keeps_gate_close].
  apply keeps_bind; [apply keeps_get_state|]. intros w'.
  destruct (_ =? 0); [by apply keeps_gate_on_sg|].
  apply keeps_gate_upgrade_file_format.
Qed.

Lemma keeps_gate_log e : keeps gate (log e).
Proof. apply keeps_gate_of_gated. intros s. apply keeps_log. Qed.

Lemma keeps_gate_compact : keeps gate (compact env fuel).
Proof.
  unfold compact.
  apply keeps_bind; [apply keeps_get_state|]. intros w.
  destruct (negb (is_attached w)); [apply keeps_throw|].
  destruct (negb _); [apply keeps_throw|].
  cbv zeta. apply keeps_bind.
  { apply keeps_gate_controlmutex.
    apply keeps_bind; [apply keeps_get_state|]. intros w1.
    destruct (_ >? 1); [apply keeps_ret|].
    apply keeps_bind; [apply keeps_gate_log|]. intros _.
    apply keeps_bind; [apply keeps_gate_begin_read|]. intros _.
    apply keeps_bind; [apply keeps_gate_log|]. intros _.
    apply keeps_bind; [apply keeps_gate_must|]. intros _.
    apply keeps_bind; [apply keeps_gate_log|]. intros _.
    apply keeps_bind;
      [destruct (negb _); [apply keeps_gate_log|apply keeps_ret]|]. intros _.
    apply keeps_bind; [apply keeps_gate_log|]. intros _.
    apply keeps_bind.
    { apply keeps_gate_of_gated. intros s. apply keeps_on_readers. }
    intros rc. apply keeps_bind; [apply keeps_REALM_ASSERT|]. intros _.
    apply keeps_bind; [apply keeps_gate_end_read|]. intros _.
    apply keeps_bind; [by apply keeps_gate_on_sg|]. intros _.
    apply keeps_ret. }
  intros [dura|]; [|apply keeps_ret].
  apply keeps_bind; [apply keeps_gate_close|]. intros _.
  apply keeps_bind; [apply keeps_gate_do_open|]. intros _.
  apply keeps_ret.
Qed.

Lemma keeps_gate_run c : keeps gate (run env fuel c).
Proof.
  destruct c; simpl.
  - apply keeps_gate_begin_read.
  - apply keeps_gate_end_read.
  - apply keeps_gate_begin_write.
  - apply keeps_bind; [apply keeps_gate_commit|intros; apply keeps_ret].
  - apply keeps_gate_rollback.
  - apply keeps_bind; [apply keeps_gate_commit_and_continue|intros; apply keeps_ret].
  - apply keeps_bind; [apply keeps_gate_pin_version|intros; apply keeps_ret].
  - apply keeps_gate_unpin_version.
  - apply keeps_bind; [apply keeps_gate_has_changed|intros; apply keeps_ret].
  - apply keeps_bind; [apply keeps_gate_get_number_of_versions|intros; apply keeps_ret].
  - apply keeps_gate_close.
  - apply keeps_gate_do_open.
  - apply keeps_bind; [apply keeps_gate_compact|intros; apply keeps_ret].
Qed.

Lemma gate_later w w' : gate w -> later env fuel w w' -> gate w'.
Proof.
  intros Hg Hl. induction Hl as [|c w1 w2 Hl IH Hrun|c e w1 w2 Hl IH Hrun|g w1 Hl IH Hs].
  - done.
  - pose proof (keeps_gate_run c w1 IH) as Hk. by rewrite Hrun in Hk.
  - pose proof (keeps_gate_run c w1 IH) as Hk. by rewrite Hrun in Hk.
  - destruct IH as (Hflag & Hfree & Hothers & _). done.
Qed.

(** C4.  Let the participant be in Ready, the write mutex free and
    [commit_in_critical_phase] set (1, or any non-zero byte).  Then
    [begin_write] throws the runtime error "Crash of other process
    detected, session restart required", and the world it leaves is the
    world it found: the write mutex it took is free again and nothing else
    changed.  No call clears the flag outside a write transaction, and the
    only code that resets it is the initialization of the lock file by an
    open that finds the file held by nobody else.  So as long as somebody
    else holds the lock file, after any sequence of calls (opening and
    compaction included), by any participant, the flag is still set and
    [begin_write] from Ready throws the same error again. *)
Theorem begin_write_crash_gate_persists (w : World) :
  m_transact_stage (sg w) = transact_Ready ->
  SharedInfo.shared_writemutex (info w) = false ->
  SharedInfo.commit_in_critical_phase (info w) <> 0 ->
  begin_write env fuel w = Throw crash_detected w /\
  (other_lockers w <> 0 ->
   forall w', later env fuel w w' ->
     SharedInfo.commit_in_critical_phase (info w') <> 0 /\
     (m_transact_stage (sg w') = transact_Ready ->
        begin_write env fuel w' = Throw crash_detected w')).
Proof.
  intros Hstage Hfree Hflag. split.
  - by apply begin_write_crash_gate.
  - intros Hothers w' Hl.
    assert (Hg : gate w) by (unfold gate; by rewrite Hstage).
    destruct (gate_later w w' Hg Hl) as (Hflag' & Hfree' & _ & _).
    split; [done|]. intros Hready. by apply begin_write_crash_gate.
Qed.

End GateClaim.

(** ** Concrete sessions *)

Lemma ring4_writing_inv : Ringbuffer.ring_at ring4_writing [0; 1] [3].
Proof. concrete_ring. Qed.

Section Witnesses.
Import SharedGroup.

Lemma commit_publishes_snapshot_witness :
  commit env0 world_writing = Ret 8 world_committed /\
  Ringbuffer.slot (Ringbuffer.data (ring world_committed))
    (Ringbuffer.put_pos (ring world_committed)) =
    Some (ReadCount.mk 8 36864 32768 0 0) /\
  SharedInfo.latest_version_number (info world_committed) = 8 /\
  SharedInfo.number_of_versions (info world_committed) = 3 /\
  SharedInfo.commit_in_critical_phase (info world_committed) = 0.
Proof.
  assert (Hrun : commit env0 world_writing = Ret 8 world_committed)
    by (vm_compute; reflexivity).
  assert (Hroom : Ringbuffer.entries (ring world_writing) + 32 < 2 ^ 32)
    by (simpl; lia).
  destruct (commit_publishes_snapshot env0 world_writing world_committed 8
              [0; 1] [3] ring4_writing_inv Hroom Hrun)
    as (prev & r_new & r_old & top & _ & Hnew & _ & _ & _ & _ & _ & _ & Hlatest
          & Hold & _ & Hnov & Hflag & _).
  vm_compute in Hnew, Hold. inversion Hold; subst r_old.
  inversion Hnew; subst r_new.
  split_and!; [exact Hrun|reflexivity|exact Hlatest| |exact Hflag].
  apply Hnov. simpl. lia.
Defined.


Lemma grab_read_lock_bad_version_witness :
  (exists w',
     grab_read_lock 2 (mkVersionID 5 3) (m_read_lock sg_ready, world_ready) =
       Throw BadVersion (set_m_reader_idx 3 (m_read_lock sg_ready), w') /\
     info w' = info world_ready) /\
  (exists w',
     grab_read_lock 2 (mkVersionID 9 1) (m_read_lock sg_ready, world_ready) =
       Throw BadVersion (set_m_reader_idx 1 (m_read_lock sg_ready), w') /\
     info w' = info world_ready).
Proof.
  split.
  - destruct (grab_read_lock_bad_version 2 (m_read_lock sg_ready) world_ready
                (mkVersionID 5 3) (ReadCount.mk 1 0 0 1 0))
      as (w' & Hrun & Hinfo & _).
    + vm_compute. discriminate.
    + lia.
    + reflexivity.
    + left. simpl. lia.
    + unfold is_u32. simpl. lia.
    + left. split; [reflexivity|]. simpl. lia.
    + by exists w'.
  - destruct (grab_read_lock_bad_version 2 (m_read_lock sg_ready) world_ready
                (mkVersionID 9 1) (ReadCount.mk 6 600 60 2 2))
      as (w' & Hrun & Hinfo & _).
    + vm_compute. discriminate.
    + lia.
    + reflexivity.
    + left. simpl. lia.
    + unfold is_u32. simpl. lia.
    + right. split; [reflexivity|]. simpl. lia.
    + by exists w'.
Defined.

Lemma begin_write_crash_gate_persists_witness :
  begin_write env0 2 world_crashed = Throw crash_detected world_crashed /\
  (forall w', later env0 2 world_crashed w' ->
     SharedInfo.commit_in_critical_phase (info w') <> 0 /\
     (m_transact_stage (sg w') = transact_Ready ->
        begin_write env0 2 w' = Throw crash_detected w')).
Proof.
  destruct (begin_write_crash_gate_persists env0 2 world_crashed) as [Hnow Hlater].
  - reflexivity.
  - reflexivity.
  - simpl. lia.
  - split; [exact Hnow|]. apply Hlater. simpl. lia.
Defined.

Lemma open_retries_incomplete_lockfile_witness :
  do_open_attempt env0 2 false options0 0 world_empty_lockfile =
    Ret attempt_retry world_empty_lockfile /\
  do_open_loop env0 2 3 false options0 0 world_empty_lockfile =
    do_open_loop env0 2 2 false options0 0 world_empty_lockfile.
Proof.
  destruct (open_retries_incomplete_lockfile env0 2 false options0 0
              world_empty_lockfile 2%nat) as [Hretry _].
  - simpl. lia.
  - simpl. lia.
  - simpl. lia.
  - destruct Hretry as (Hrun & _ & _ & _ & Hloop).
    + left. reflexivity.
    + split; [exact Hrun|exact Hloop].
Defined.

Lemma short_lockfile_not_retried :
  lockfile_size world_short_lockfile < frozen_prefix /\
  do_open_attempt env0 2 false options0 0 world_short_lockfile =
    Throw (IncompatibleLockFile "Info size doesn't match") world_short_lockfile.
Proof. split; [reflexivity|]. vm_compute. reflexivity. Qed.


Lemma compact_refused_when_shared_witness :
  compact env0 2 world_ready = Ret false world_ready.
Proof.
  apply (compact_refused_when_shared env0 2 world_ready).
  - reflexivity.
  - reflexivity.
  - reflexivity.
  - simpl. lia.
Defined.

End Witnesses.

(** ** Beyond the round trip: the start of a write transaction *)

Section WriteStart.
Import SharedGroup.

Variable env : Collaborators.

Lemma ring_set_info_writemutex b w :
  ring (set_info (SharedInfo.set_shared_writemutex b (info w)) w) = ring w.
Proof. done. Qed.

Lemma grab_own_latest fuel w older free :
  ring_at_world w older free ->
  exists wg r,
    same_but_mapping w wg /\
    Ringbuffer.slot (Ringbuffer.data (ring w)) (Ringbuffer.put_pos (ring w)) = Some r /\
    is_u32 (ReadCount.count r) /\
    grab_own_read_lock (S (S fuel)) VersionID_latest w =
      Ret tt (set_sg (set_m_read_lock (lock_on (Ringbuffer.put_pos (ring w)) r)
                        (sg wg))
                (set_slot (Ringbuffer.put_pos (ring w)) (pinned r) wg)).
Proof.
  intros H.
  destruct (grab_latest_spec fuel (m_read_lock (sg w)) w older free H)
    as (wg & r & Hsame & Hr & Hu32 & Hgrab).
  exists wg, r. split_and!; try done.
  unfold grab_own_read_lock, zoom, grab_read_lock.
  change (version VersionID_latest =? max_version) with true. cbv iota.
  by rewrite Hgrab.
Qed.

Lemma do_begin_write_free w :
  SharedInfo.shared_writemutex (info w) = false ->
  SharedInfo.commit_in_critical_phase (info w) = 0 ->
  async_daemon env = false ->
  do_begin_write env w =
    Ret tt (set_info (SharedInfo.set_shared_writemutex true (info w)) w).
Proof.
  intros Hfree Hflag Hasync.
  unfold do_begin_write, bind at 1, lock, bind at 1, get_state at 1.
  rewrite Hfree, on_info_modify_run.
  unfold bind at 1, get_state at 1.
  change (SharedInfo.commit_in_critical_phase
            (info (set_info (SharedInfo.set_shared_writemutex true (info w)) w)))
    with (SharedInfo.commit_in_critical_phase (info w)).
  rewrite Hflag, Hasync. done.
Qed.

(** The same on a session that does not go through the commit daemon: the
    build has none, or the session's durability is not Async. *)
Lemma do_begin_write_sync w :
  SharedInfo.shared_writemutex (info w) = false ->
  SharedInfo.commit_in_critical_phase (info w) = 0 ->
  async_daemon env && (SharedInfo.durability (info w) =? durability_code Async) = false ->
  do_begin_write env w =
    Ret tt (set_info (SharedInfo.set_shared_writemutex true (info w)) w).
Proof.
  intros Hfree Hflag Hasync.
  unfold do_begin_write, bind at 1, lock, bind at 1, get_state at 1.
  rewrite Hfree, on_info_modify_run.
  unfold bind at 1, get_state at 1.
  change (SharedInfo.commit_in_critical_phase
            (info (set_info (SharedInfo.set_shared_writemutex true (info w)) w)))
    with (SharedInfo.commit_in_critical_phase (info w)).
  change (SharedInfo.durability
            (info (set_info (SharedInfo.set_shared_writemutex true (info w)) w)))
    with (SharedInfo.durability (info w)).
  rewrite Hflag, Hasync. done.
Qed.

Lemma do_begin_read_latest fuel w older free writable :
  ring_at_world w older free ->
  (forall top size, attach_shared env top size writable = true) ->
  exists wg r,
    same_but_mapping w wg /\
    Ringbuffer.slot (Ringbuffer.data (ring w)) (Ringbuffer.put_pos (ring w)) = Some r /\
    is_u32 (ReadCount.count r) /\
    do_begin_read env (S (S fuel)) VersionID_latest writable w =
      Ret tt (set_sg (set_m_group_attached true
                        (set_m_read_lock (lock_on (Ringbuffer.put_pos (ring w)) r)
                           (sg wg)))
                (set_slot (Ringbuffer.put_pos (ring w)) (pinned r) wg)).
Proof.
  intros H Hattach.
  destruct (grab_own_latest fuel w older free H) as (wg & r & Hsame & Hr & Hu32 & Hgrab).
  exists wg, r. split_and!; try done.
  unfold do_begin_read, bind at 1. rewrite Hgrab.
  unfold bind at 1, get_state at 1. by rewrite Hattach, on_sg_run.
Qed.

Lemma do_begin_read_bound fuel w older free writable :
  ring_at_world w older free ->
  (forall top size, attach_shared env top size writable = true) ->
  exists r w2,
    do_begin_read env (S (S fuel)) VersionID_latest writable w = Ret tt w2 /\
    bound_to_latest w w2 r /\
    m_transact_stage (sg w2) = m_transact_stage (sg w) /\
    SharedInfo.set_readers (ring w) (info w2) = info w.
Proof.
  intros H Hattach.
  destruct (do_begin_read_latest fuel w older free writable H Hattach)
    as (wg & r & Hsame & Hr & Hu32 & Hrun).
  pose proof (same_but_mapping_ring _ _ Hsame) as Hring.
  destruct Hsame as (Hinfo & _ & _ & _ & Hsg).
  eexists r, _. split; [exact Hrun|].
  assert (Hrg : Ringbuffer.slot (Ringbuffer.data (ring wg))
                  (Ringbuffer.put_pos (ring w)) = Some r) by (by rewrite Hring).
  pose proof (slot_Some _ _ _ Hr) as [Hpos _].
  split_and!.
  - split_and!; try done.
    + simpl. exact (slot_insert_eq _ _ r _ Hrg).
    + intros i Hi. simpl.
      destruct (decide (0 <= i)) as [Hi0|Hi0].
      * rewrite slot_insert_ne by done. by rewrite Hring.
      * unfold Ringbuffer.slot.
        destruct (Z.ltb_spec i 0); [done|lia].
  - simpl. by rewrite <- Hsg.
  - simpl. rewrite Hinfo. unfold ring. by destruct (info w).
Qed.

Lemma bound_to_latest_locked w w2 r :
  bound_to_latest (set_info (SharedInfo.set_shared_writemutex true (info w)) w) w2 r ->
  forall b,
    bound_to_latest w (set_info (SharedInfo.set_shared_writemutex b (info w2)) w2) r.
Proof. intros (? & ? & ? & ? & ?) b. by split_and!. Qed.

(** X1.  A write transaction starts.  On a session that does not go through
    the commit daemon (its durability is not Async, or the build has no
    daemon) and whose ring satisfies the ring invariant, from Ready, with
    the write mutex available, [commit_in_critical_phase] clear and
    collaborators that do not fail, [begin_write] returns: the stage is Writing, the write mutex is held,
    the participant's lock names the slot at [put_pos] with that slot's
    version, top ref and file size, the slot's count is two higher and no
    other slot changed. *)
Theorem begin_write_binds_latest (fuel : nat) (w : World) (older free : list Z) :
  m_transact_stage (sg w) = transact_Ready ->
  SharedInfo.shared_writemutex (info w) = false ->
  SharedInfo.commit_in_critical_phase (info w) = 0 ->
  async_daemon env && (SharedInfo.durability (info w) =? durability_code Async) = false ->
  ring_at_world w older free ->
  (forall top size, attach_shared env top size true = true) ->
  (forall repl v, replication env = Some repl -> initiate_transact repl v = true) ->
  (2 <= fuel)%nat ->
  exists r w',
    begin_write env fuel w = Ret tt w' /\
    m_transact_stage (sg w') = transact_Writing /\
    SharedInfo.shared_writemutex (info w') = true /\
    SharedInfo.commit_in_critical_phase (info w') = 0 /\
    bound_to_latest w w' r.
Proof.
  intros Hstage Hfree Hflag Hasync H Hattach Hrepl Hfuel.
  destruct fuel as [|[|n]]; [lia|lia|].
  set (w1 := set_info (SharedInfo.set_shared_writemutex true (info w)) w).
  assert (H1 : ring_at_world w1 older free) by exact H.
  destruct (do_begin_read_bound n w1 older free true H1 Hattach)
    as (r & w2 & Hread & Hbound & Hstage2 & Hinfo2).
  exists r, (set_sg (set_m_transact_stage transact_Writing (sg w2)) w2).
  pose proof (f_equal SharedInfo.commit_in_critical_phase Hinfo2) as Hc.
  pose proof (f_equal SharedInfo.shared_writemutex Hinfo2) as Hm.
  simpl in Hc, Hm.
  split_and!.
  - unfold begin_write, bind at 1, get_state at 1. rewrite Hstage.
    change (negb (stage_eqb transact_Ready transact_Ready)) with false.
    cbv iota. unfold bind at 1. rewrite do_begin_write_sync by done. fold w1.
    unfold bind at 1, catch_rethrow, bind at 1. rewrite Hread.
    destruct (replication env) as [repl|] eqn:Hr.
    + unfold bind at 1, get_state at 1. rewrite (Hrepl repl _ eq_refl).
      simpl. by rewrite on_sg_run.
    + unfold ret at 1. by rewrite on_sg_run.
  - done.
  - exact Hm.
  - rewrite info_set_sg, Hc. exact Hflag.
  - destruct (bound_to_latest_locked w w2 r Hbound
                (SharedInfo.shared_writemutex (info w2)))
      as (? & ? & ? & ? & ?).
    by split_and!.
Qed.

(** X2.  The same start with a replication plugin whose
    [initiate_transact] throws: [begin_write] releases the write mutex and
    rethrows, and the stage stays Ready, but the pin taken by
    [do_begin_read] is still in place: the count of the slot at [put_pos]
    is two higher than before the call.  A following [end_read] is the
    idempotent return from Ready and does not give the pin back. *)
Theorem begin_write_failed_transact_keeps_pin (fuel : nat) (w : World)
    (older free : list Z) (repl : Replication) :
  m_transact_stage (sg w) = transact_Ready ->
  SharedInfo.shared_writemutex (info w) = false ->
  SharedInfo.commit_in_critical_phase (info w) = 0 ->
  async_daemon env = false ->
  ring_at_world w older free ->
  (forall top size, attach_shared env top size true = true) ->
  replication env = Some repl ->
  (forall v, initiate_transact repl v = false) ->
  (2 <= fuel)%nat ->
  exists r w',
    begin_write env fuel w = Throw (external_failure "initiate_transact") w' /\
    m_transact_stage (sg w') = transact_Ready /\
    SharedInfo.shared_writemutex (info w') = false /\
    bound_to_latest w w' r /\
    end_read env w' = Ret tt w'.
Proof.
  intros Hstage Hfree Hflag Hasync H Hattach Hrepl Hfail Hfuel.
  destruct fuel as [|[|n]]; [lia|lia|].
  set (w1 := set_info (SharedInfo.set_shared_writemutex true (info w)) w).
  assert (H1 : ring_at_world w1 older free) by exact H.
  destruct (do_begin_read_bound n w1 older free true H1 Hattach)
    as (r & w2 & Hread & Hbound & Hstage2 & Hinfo2).
  exists r, (set_info (SharedInfo.set_shared_writemutex false (info w2)) w2).
  assert (Hready : m_transact_stage
            (sg (set_info (SharedInfo.set_shared_writemutex false (info w2)) w2)) =
          transact_Ready) by (simpl; by rewrite Hstage2).
  split_and!.
  - unfold begin_write, bind at 1, get_state at 1. rewrite Hstage.
    change (negb (stage_eqb transact_Ready transact_Ready)) with false.
    cbv iota. unfold bind at 1. rewrite do_begin_write_free by done. fold w1.
    unfold bind at 1, catch_rethrow, bind at 1. rewrite Hread, Hrepl.
    unfold bind at 1, get_state at 1. rewrite Hfail. done.
  - exact Hready.
  - simpl. by destruct (info w2).
  - by apply bound_to_latest_locked.
  - by apply end_read_ready.
Qed.

End WriteStart.

(** ** A commit that returns *)

Section CommitReturns.
Import SharedGroup.

Variable env : Collaborators.

(** [cleanup] with the slot it stops at: that slot is one of the live slots
    of the ring before the call, with the payload it had. *)
Lemma cleanup_spec_oldest rb older free :
  Ringbuffer.ring_at rb older free ->
  exists rb' k rc,
    Ringbuffer.cleanup rb = Ret tt rb' /\
    Ringbuffer.ring_at rb' (drop k older) (free ++ take k older) /\
    Ringbuffer.entries rb' = Ringbuffer.entries rb /\
    Ringbuffer.put_pos rb' = Ringbuffer.put_pos rb /\
    Ringbuffer.slot (Ringbuffer.data rb') (Ringbuffer.old_pos rb') = Some rc /\
    Ringbuffer.slot (Ringbuffer.data rb) (Ringbuffer.old_pos rb') = Some rc /\
    Ringbuffer.old_pos rb' ∈ older ++ [Ringbuffer.put_pos rb].
Proof.
  intros H.
  pose proof (ring_backed _ _ _ H) as Hb.
  pose proof (ring_length _ _ _ H) as Hl.
  destruct (cleanup_loop_spec older (S (length (Ringbuffer.data rb))) rb free H) as
    (rb' & k & Hrun & Hk & Hinv & He & Hpp & _ & _ & Hsame & _); [lia|].
  assert (Hin : Ringbuffer.old_pos rb' ∈ drop k older ++ [Ringbuffer.put_pos rb]).
  { rewrite (ring_old_pos _ _ _ Hinv), Hpp.
    destruct (drop k older); simpl; [by left|by left]. }
  destruct (ring_slot _ _ _ (Ringbuffer.old_pos rb') Hinv) as [rc Hrc].
  { rewrite Hpp. by apply in_live_ring. }
  assert (Hnot : Ringbuffer.old_pos rb' ∉ take k older).
  { intros Htake. pose proof (ring_NoDup _ _ _ H) as Hnd.
    rewrite <- (take_drop k older) in Hnd.
    rewrite <- app_assoc in Hnd. apply NoDup_app in Hnd as (_ & Hdisj & _).
    apply (Hdisj _ Htake). apply elem_of_app in Hin as [Hin|Hin].
    - apply elem_of_app. by left.
    - apply elem_of_app. right. apply list_elem_of_singleton in Hin. rewrite Hin.
      by left. }
  exists rb', k, rc. split_and!; try done.
  - by rewrite <- (Hsame _ Hnot).
  - apply elem_of_app in Hin as [Hin|Hin].
    + apply elem_of_app. left. by apply in_drop in Hin.
    + apply elem_of_app. by right.
Qed.

Lemma REALM_ASSERT_holds {St} a (s : St) : REALM_ASSERT a true s = Ret tt s.
Proof. unfold REALM_ASSERT. by rewrite andb_false_r. Qed.

Lemma REALM_ASSERT_off {St} c (s : St) : REALM_ASSERT false c s = Ret tt s.
Proof. done. Qed.

Lemma expansion_participant w e size w' :
  (prealloc_and_remap size e ;;;
   on_sg (set_m_local_max_entry e) ;;;
   on_readers (Ringbuffer.expand_to e)) w = Ret tt w' ->
  same_participant w w'.
Proof.
  intros Hrun.
  apply bind_Ret in Hrun as (u & w1 & Hstep & Hrun).
  unfold prealloc_and_remap in Hstep.
  apply bind_Ret in Hstep as (u' & w0 & Hstep0 & Hstep).
  inversion Hstep0; subst w0 u'. clear Hstep0.
  apply on_readers_Ret in Hstep as (rb & _ & ->).
  apply bind_Ret in Hrun as (u2 & w2 & Hstep & Hrun).
  rewrite on_sg_run in Hstep. inversion Hstep; subst w2 u2. clear Hstep.
  apply on_readers_Ret in Hrun as (rb' & _ & ->).
  unfold same_participant. simpl. by destruct (sg w).
Qed.

End CommitReturns.

Section CommitReturns2.
Import SharedGroup.

Variable env : Collaborators.

Hypothesis history_ok : forall f v, history env = Some f -> f v = true.
Hypothesis write_group_ok : forall nv ov, is_Some (write_group env nv ov).
Hypothesis writer_commit_ok : forall top, writer_commit env top = true.

Lemma history_step v (s : World) :
  match history env with
  | Some set_oldest_bound_version =>
      must (set_oldest_bound_version v) "set_oldest_bound_version"
  | None => ret tt
  end s = Ret tt s.
Proof.
  pose proof (fun f => history_ok f v) as Hok.
  destruct (history env) as [f|]; [|done].
  by rewrite (Hok f eq_refl).
Qed.

Lemma writer_commit_step (c : bool) top (s : World) :
  (if c then must (writer_commit env top) "GroupWriter::commit" else ret tt) s =
    Ret tt s.
Proof. destruct c; [|done]. by rewrite writer_commit_ok. Qed.

Lemma with_controlmutex_returns {A} (m : M World A) w a w1 :
  SharedInfo.shared_controlmutex (info w) = false ->
  m (set_info (SharedInfo.set_shared_controlmutex true (info w)) w) = Ret a w1 ->
  with_controlmutex m w =
    Ret a (set_info (SharedInfo.set_shared_controlmutex false (info w1)) w1).
Proof.
  intros Hfree Hm.
  unfold with_controlmutex, bind at 1, lock, bind at 1, get_state at 1.
  rewrite Hfree, on_info_modify_run. unfold finally. by rewrite Hm.
Qed.

Lemma same_participant_trans w1 w2 w3 :
  same_participant w1 w2 -> same_participant w2 w3 -> same_participant w1 w3.
Proof.
  unfold same_participant. intros H12 H23. rewrite <- H23, <- H12.
  by destruct (sg w1).
Qed.

Lemma low_level_commit_returns w nv older free :
  ring_at_world w older free ->
  Ringbuffer.entries (ring w) + 32 < 2 ^ 32 ->
  m_group_attached (sg w) = true ->
  SharedInfo.shared_controlmutex (info w) = false ->
  (assertions env = true ->
   forall i r, i ∈ older ++ [Ringbuffer.put_pos (ring w)] ->
     Ringbuffer.slot (Ringbuffer.data (ring w)) i = Some r ->
     ReadCount.version r <= nv) ->
  exists w',
    low_level_commit env nv w = Ret tt w' /\
    same_participant w w' /\
    Ringbuffer.entries (ring w) <= Ringbuffer.entries (ring w') /\
    SharedInfo.shared_writemutex (info w') = SharedInfo.shared_writemutex (info w).
Proof.
  intros H Hbound Hatt Hctl Hmono. unfold low_level_commit.
  unfold bind at 1. rewrite on_readers_num_entries.
  destruct (grow_reader_mapping_spec w (Ringbuffer.entries (ring w)))
    as (b & wg & Hg & Hsame & _).
  unfold bind at 1. rewrite Hg.
  pose proof (same_but_mapping_ring _ _ Hsame) as Hring.
  destruct (cleanup_spec_oldest _ _ _ H) as
    (rb1 & k & rc & Hc & Hinv1 & He1 & Hpp1 & Hrc & Hrc0 & Hold1).
  unfold bind at 1. rewrite on_readers_run, Hring, Hc.
  set (w1 := set_ring rb1 wg).
  unfold bind at 1. rewrite on_readers_run.
  change (ring w1) with rb1.
  unfold Ringbuffer.get_oldest at 1, bind at 1, get_state at 1.
  rewrite (get_ok _ _ _ Hrc).
  change (set_ring rb1 w1) with w1.
  unfold bind at 1. rewrite history_step.
  unfold bind at 1, get_state at 1.
  assert (Hatt1 : m_group_attached (sg w1) = true).
  { destruct Hsame as (_ & _ & _ & _ & Hsg). simpl. rewrite <- Hsg. exact Hatt. }
  rewrite Hatt1. unfold bind at 1. rewrite REALM_ASSERT_holds.
  assert (Hle : REALM_ASSERT (assertions env) (ReadCount.version rc <=? nv) w1 =
                Ret tt w1).
  { destruct (assertions env) eqn:Ha; [|done].
    specialize (Hmono eq_refl _ _ Hold1 Hrc0).
    destruct (Z.leb_spec (ReadCount.version rc) nv); [|lia].
    apply REALM_ASSERT_holds. }
  unfold bind at 1. rewrite Hle.
  destruct (write_group_ok nv (ReadCount.version rc)) as [top Htop].
  unfold bind at 1. rewrite Htop. unfold ret at 1.
  unfold bind at 1. rewrite writer_commit_step.
  unfold bind at 1. rewrite on_info_modify_run.
  set (w2 := set_info _ w1).
  assert (Hring2 : ring w2 = rb1) by done.
  unfold bind at 1. rewrite on_readers_run, Hring2, (is_full_spec _ _ _ Hinv1).
  change (set_ring rb1 w2) with w2.
  assert (Hinfo2 : SharedInfo.shared_controlmutex (info w2) = false /\
                   SharedInfo.shared_writemutex (info w2) =
                     SharedInfo.shared_writemutex (info w)).
  { destruct Hsame as (Hi & _). simpl. by rewrite Hi. }
  assert (Hpart2 : same_participant w w2).
  { destruct Hsame as (_ & _ & _ & _ & Hsg). exact Hsg. }
  assert (Hblock : exists w4 f free2,
    (if match free ++ take k older with [] => true | _ :: _ => false end
     then
       entries <- on_readers Ringbuffer.get_num_entries ;;
       prealloc_and_remap
         (sizeof_SharedInfo env + Ringbuffer.compute_required_space (entries + 32))
         (entries + 32) ;;;
       on_sg (set_m_local_max_entry (entries + 32)) ;;;
       on_readers (Ringbuffer.expand_to (entries + 32))
     else ret tt) w2 = Ret tt w4 /\
    Ringbuffer.ring_at (ring w4) (drop k older) (f :: free2) /\
    same_participant w2 w4 /\
    SharedInfo.set_readers (ring w2) (info w4) = info w2 /\
    Ringbuffer.entries rb1 <= Ringbuffer.entries (ring w4)).
  { destruct (free ++ take k older) as [|f free2] eqn:Hfree.
    - assert (Hinv2 : Ringbuffer.ring_at (ring w2) (drop k older) [])
        by (by rewrite Hring2).
      destruct (expansion_spec env w2 (drop k older) Hinv2) as
        (w4 & Hx & Hinv4 & _ & _ & Hhdr & _).
      { change (Ringbuffer.entries rb1 + 32 < 2 ^ 32). by rewrite He1. }
      cbv zeta in Hx.
      exists w4, (Ringbuffer.entries (ring w2)),
        (seqZ (Ringbuffer.entries (ring w2) + 1) 31).
      unfold bind at 1. rewrite on_readers_num_entries.
      split_and!; try done.
      + by eapply expansion_participant.
      + pose proof (ring_length _ _ _ Hinv4) as Hl4.
        pose proof (ring_length _ _ _ Hinv2) as Hl2.
        rewrite Hring2 in Hl2. simpl in Hl2, Hl4. lia.
    - exists w2, f, free2. split_and!; try done;
        try (unfold same_participant; by destruct (sg w2));
        try (unfold ring; by destruct (info w2)); try (simpl; lia). }
  destruct Hblock as (w4 & f & free2 & Hblock & Hinv4 & Hpart4 & Hhdr4 & He4).
  unfold bind at 1. rewrite Hblock.
  (* publish *)
  destruct (ring_first_free _ _ _ _ Hinv4) as
    (rp & rf & Hrp & Hf & Hrf & Hcf & Hfp & Hfo & Hfolder).
  unfold bind at 1.
  rewrite on_readers_run, (get_next_spec _ _ _ _ _ Hinv4), set_ring_same.
  unfold bind at 1. rewrite (on_readers_update _ _ _ _ Hrf).
  pose proof (ring_at_payload _ _ _ f rf (ReadCount.set_current_top top rf)
                Hinv4 Hrf eq_refl eq_refl) as Hinv5.
  pose proof (slot_set_slot_eq w4 f rf (ReadCount.set_current_top top rf) Hrf)
    as Hrf5.
  set (w5 := set_slot f _ w4) in *.
  unfold bind at 1. rewrite (on_readers_update _ _ _ _ Hrf5).
  pose proof (ring_at_payload _ _ _ f _
                (ReadCount.set_filesize (writer_file_size env top)
                   (ReadCount.set_current_top top rf))
                Hinv5 Hrf5 eq_refl eq_refl) as Hinv6.
  pose proof (slot_set_slot_eq w5 f _
                (ReadCount.set_filesize (writer_file_size env top)
                   (ReadCount.set_current_top top rf)) Hrf5) as Hrf6.
  set (w6 := set_slot f _ w5) in *.
  unfold bind at 1. rewrite (on_readers_update _ _ _ _ Hrf6).
  set (rf7 := ReadCount.set_version nv
                (ReadCount.set_filesize (writer_file_size env top)
                   (ReadCount.set_current_top top rf))) in *.
  pose proof (ring_at_payload _ _ _ f _ rf7 Hinv6 Hrf6 eq_refl eq_refl) as Hinv7.
  set (w7 := set_slot f rf7 w6) in *.
  assert (Hinv7' : Ringbuffer.ring_at (ring w7) (drop k older) (f :: free2))
    by exact Hinv7.
  destruct (use_next_spec (assertions env) (ring w7) _ _ _ Hinv7') as
    (rf' & Hrf' & Huse & Hinv8).
  unfold bind at 1. rewrite on_readers_run, Huse.
  unfold bind at 1. rewrite on_info_modify_run.
  pose proof (f_equal SharedInfo.shared_controlmutex Hhdr4) as Hc4.
  pose proof (f_equal SharedInfo.shared_writemutex Hhdr4) as Hm4.
  simpl in Hc4, Hm4.
  eexists. split.
  { apply with_controlmutex_returns.
    - simpl. rewrite Hc4. apply Hinfo2.
    - reflexivity. }
  split_and!.
  - eapply same_participant_trans; [exact Hpart2|]. exact Hpart4.
  - simpl. rewrite <- He1. exact He4.
  - simpl. rewrite Hm4. apply Hinfo2.
Qed.

Lemma ring_slot_range rb older free i :
  Ringbuffer.ring_at rb older free ->
  0 <= i < Ringbuffer.entries rb ->
  is_Some (Ringbuffer.slot (Ringbuffer.data rb) i).
Proof.
  intros H Hi. apply (ring_slot _ _ _ _ H).
  rewrite (Ringbuffer.ring_slots _ _ _ H). apply elem_of_seqZ. lia.
Qed.

Lemma get_current_version_run w prev :
  Ringbuffer.slot (Ringbuffer.data (ring w)) (Ringbuffer.put_pos (ring w)) = Some prev ->
  on_info SharedInfo.get_current_version_unchecked w = Ret (ReadCount.version prev) w.
Proof.
  intros Hprev.
  unfold on_info, zoom, SharedInfo.get_current_version_unchecked.
  unfold bind at 1. unfold SharedInfo.on_readers, zoom.
  unfold Ringbuffer.get_last, Ringbuffer.last, bind, get_state, Ringbuffer.get.
  fold (ring w). unfold ret. cbv beta iota. rewrite Hprev.
  fold (set_ring (ring w) w). by rewrite set_ring_same.
Qed.

(** X3.  A commit returns.  Let the participant be in a write transaction
    bound to a live slot of a ring that satisfies the ring invariant, with
    the control mutex available, no replication plugin, collaborators that
    do not fail, and version numbers that do not overflow and are largest
    at [put_pos].  Then [commit] returns the version of the slot at
    [put_pos] plus one. *)
Theorem commit_returns (w : World) (older free : list Z) (prev : ReadCount.t) :
  m_transact_stage (sg w) = transact_Writing ->
  m_group_attached (sg w) = true ->
  ring_at_world w older free ->
  Ringbuffer.entries (ring w) + 32 < 2 ^ 32 ->
  SharedInfo.shared_controlmutex (info w) = false ->
  replication env = None ->
  Ringbuffer.slot (Ringbuffer.data (ring w)) (Ringbuffer.put_pos (ring w)) = Some prev ->
  0 <= ReadCount.version prev + 1 < 2 ^ 64 ->
  (forall i r, i ∈ older ++ [Ringbuffer.put_pos (ring w)] ->
     Ringbuffer.slot (Ringbuffer.data (ring w)) i = Some r ->
     ReadCount.version r <= ReadCount.version prev) ->
  m_reader_idx (m_read_lock (sg w)) ∈ older ++ [Ringbuffer.put_pos (ring w)] ->
  m_version (m_read_lock (sg w)) <> max_version ->
  exists w',
    commit env w = Ret (ReadCount.version prev + 1) w' /\
    m_transact_stage (sg w') = transact_Ready /\
    SharedInfo.shared_writemutex (info w') = false.
Proof.
  intros Hstage Hatt H Hbound Hctl Hplain Hprev Hfit Hver Hlock Hmv.
  assert (Hnv : wrap64 (ReadCount.version prev + 1) = ReadCount.version prev + 1)
    by (unfold wrap64; apply Z.mod_small; lia).
  destruct (low_level_commit_returns w (ReadCount.version prev + 1) older free
              H Hbound Hatt Hctl) as (w1 & Hllc & Hpart & He & Hwm).
  { intros _ i r Hi Hr. specialize (Hver i r Hi Hr). lia. }
  destruct (low_level_commit_Ret env w w1 _ older free H Hbound Hllc) as
    (k & top & r_new & r_old & free' & _ & _ & _ & _ & _ & _ & _ & Hinv1 & _).
  set (w2 := set_info (SharedInfo.set_shared_writemutex false (info w1)) w1).
  assert (Hlock1 : m_read_lock (sg w2) = m_read_lock (sg w)).
  { simpl. rewrite <- Hpart. by destruct (sg w). }
  destruct (ring_slot_range _ _ _ (m_reader_idx (m_read_lock (sg w))) Hinv1)
    as [rl Hrl].
  { pose proof (ring_range _ _ _ _ H (in_live_ring _ _ _ free Hlock)). lia. }
  destruct (release_read_lock_spec (m_read_lock (sg w2)) w2 rl) as (wg & Hsame & Hrel).
  { rewrite Hlock1. exact Hrl. }
  eexists. split_and!.
  - unfold commit, bind at 1, get_state at 1. rewrite Hstage.
    change (negb (stage_eqb transact_Writing transact_Writing)) with false.
    cbv iota. unfold bind at 1. rewrite Hatt, REALM_ASSERT_holds.
    unfold bind at 1, do_commit, bind at 1, get_state at 1. rewrite Hstage.
    unfold bind at 1. change (stage_eqb transact_Writing transact_Writing) with true.
    rewrite REALM_ASSERT_holds.
    unfold bind at 1. rewrite (get_current_version_run _ _ Hprev), Hplain.
    cbv zeta. rewrite Hnv. unfold bind at 1. rewrite Hllc. unfold ret at 1.
    unfold bind at 1, do_end_write, noexcept, unlock. rewrite on_info_modify_run.
    fold w2.
    unfold bind at 1, do_end_read, noexcept, bind at 1, get_state at 1.
    unfold bind at 1.
    destruct (Z.eqb_spec (m_version (m_read_lock (sg w2))) max_version) as [Heq|_].
    { rewrite Hlock1 in Heq. done. }
    change (negb false) with true. rewrite REALM_ASSERT_holds.
    unfold bind at 1. rewrite Hrel. rewrite on_sg_run.
    unfold bind at 1. rewrite on_sg_run. reflexivity.
  - reflexivity.
  - simpl. destruct Hsame as (Hi & _). rewrite Hi. simpl. by destruct (info w1).
Qed.

End CommitReturns2.

Section MoreWitnesses.
Import SharedGroup.

Lemma begin_write_binds_latest_witness :
  exists w',
    begin_write env0 2 world_ready = Ret tt w' /\
    m_transact_stage (sg w') = transact_Writing /\
    SharedInfo.shared_writemutex (info w') = true /\
    Ringbuffer.slot (Ringbuffer.data (ring w')) 2 = Some (ReadCount.mk 7 700 70 2 3) /\
    m_read_lock (sg w') = mkReadLockInfo 7 2 70 700.
Proof.
  destruct (begin_write_binds_latest env0 2 world_ready [0; 1] [3])
    as (r & w' & Hrun & Hstage & Hmutex & _ & Hr & Hpin & _ & Hlock & _).
  - reflexivity.
  - reflexivity.
  - reflexivity.
  - reflexivity.
  - exact ring4_inv.
  - reflexivity.
  - intros repl v Hrepl. discriminate Hrepl.
  - lia.
  - vm_compute in Hr. inversion Hr; subst r.
    exists w'. split_and!; try done.
Defined.

Lemma begin_write_failed_transact_keeps_pin_witness :
  exists w',
    begin_write env_failing_repl 2 world_ready =
      Throw (external_failure "initiate_transact") w' /\
    m_transact_stage (sg w') = transact_Ready /\
    SharedInfo.shared_writemutex (info w') = false /\
    Ringbuffer.slot (Ringbuffer.data (ring world_ready)) 2 =
      Some (ReadCount.mk 7 700 70 0 3) /\
    Ringbuffer.slot (Ringbuffer.data (ring w')) 2 = Some (ReadCount.mk 7 700 70 2 3) /\
    end_read env_failing_repl w' = Ret tt w'.
Proof.
  destruct (begin_write_failed_transact_keeps_pin env_failing_repl 2 world_ready
              [0; 1] [3] failing_repl)
    as (r & w' & Hrun & Hstage & Hmutex & (Hr & Hpin & _) & Hend).
  - reflexivity.
  - reflexivity.
  - reflexivity.
  - reflexivity.
  - exact ring4_inv.
  - reflexivity.
  - reflexivity.
  - reflexivity.
  - lia.
  - vm_compute in Hr. inversion Hr; subst r.
    exists w'. split_and!; try done.
Defined.

Lemma commit_returns_witness :
  exists w',
    commit env0 world_writing = Ret 8 w' /\
    m_transact_stage (sg w') = transact_Ready /\
    SharedInfo.shared_writemutex (info w') = false.
Proof.
  apply (commit_returns env0) with (older := [0; 1]) (free := [3])
                                   (prev := ReadCount.mk 7 700 70 2 3).
  - intros f v Hf. discriminate Hf.
  - intros nv ov. by eexists.
  - reflexivity.
  - reflexivity.
  - reflexivity.
  - exact ring4_writing_inv.
  - simpl. lia.
  - reflexivity.
  - reflexivity.
  - reflexivity.
  - simpl. lia.
  - intros i r Hi Hr. simpl in Hi. elem_cases Hi; subst i;
      vm_compute in Hr; inversion Hr; subst r; simpl; lia.
  - simpl. do 2 right. by left.
  - simpl. vm_compute. discriminate.
Defined.

End MoreWitnesses.

(** ** The first ring and the end of a session *)

(** X4.  The constructor, run on the zero-filled image of the header,
    returns a ring of 32 slots that satisfies the ring invariant: slot 0 is
    the only live slot, at [put_pos] and [old_pos], and slots 1 to 31 are
    free and chained back to slot 0. *)
Theorem Ringbuffer_constructor_ring :
  exists rb,
    Ringbuffer.Ringbuffer Ringbuffer.zero_image = Ret tt rb /\
    Ringbuffer.ring_at rb [] (seqZ 1 31) /\
    Ringbuffer.entries rb = 32 /\
    Ringbuffer.put_pos rb = 0 /\
    Ringbuffer.old_pos rb = 0 /\
    rb = SharedInfo.fresh_ring.
Proof.
  eexists. split; [vm_compute; reflexivity|].
  split; [|by split_and!].
  concrete_ring.
Qed.

Section SessionEnd.
Import SharedGroup.

Variable env : Collaborators.

(** X5.  Leaving a session.  On an attached participant in Ready, with the
    control mutex available, [close] returns: the participant is detached
    and in Ready, [num_participants] is one lower (in 32-bit arithmetic),
    the database file is removed exactly when this was the last participant
    of a MemOnly session, and a second [close] returns at once and changes
    nothing. *)
Theorem close_leaves_session (w : World) :
  is_attached w = true ->
  m_transact_stage (sg w) = transact_Ready ->
  SharedInfo.shared_controlmutex (info w) = false ->
  exists w',
    close env w = Ret tt w' /\
    is_attached w' = false /\
    m_transact_stage (sg w') = transact_Ready /\
    SharedInfo.num_participants (info w') =
      wrap32 (SharedInfo.num_participants (info w) - 1) /\
    fs_log w' =
      (if (wrap32 (SharedInfo.num_participants (info w) - 1) =? 0)
          && (SharedInfo.durability (info w) =? durability_code MemOnly)
       then fs_log w ++ [fs_remove (m_db_path (sg w))]
       else fs_log w) /\
    SharedInfo.readers (info w') = SharedInfo.readers (info w) /\
    close env w' = Ret tt w'.
Proof.
  intros Hatt Hstage Hctl.
  assert (Hidem : forall w', is_attached w' = false -> close env w' = Ret tt w').
  { intros w' Hw'. unfold close, noexcept, bind, get_state. by rewrite Hw'. }
  unfold close, noexcept, bind at 1, get_state at 1. rewrite Hatt, Hstage.
  change (negb true) with false. cbv iota.
  unfold bind at 1, ret at 1. unfold bind at 1. rewrite on_sg_run.
  unfold bind at 1. rewrite on_sg_run.
  unfold bind at 1, with_controlmutex, bind at 1, lock, bind at 1, get_state at 1.
  change (SharedInfo.shared_controlmutex (info (set_sg _ (set_sg _ w))))
    with (SharedInfo.shared_controlmutex (info w)).
  rewrite Hctl, on_info_modify_run.
  unfold finally, bind at 1. rewrite on_sg_run.
  unfold bind at 1, get_state at 1. unfold bind at 1.
  rewrite on_info_modify_run.
  cbn [info set_info set_sg SharedInfo.num_participants SharedInfo.durability
       SharedInfo.set_shared_controlmutex SharedInfo.set_num_participants].
  destruct (wrap32 (SharedInfo.num_participants (info w) - 1) =? 0);
    [destruct (SharedInfo.durability (info w) =? durability_code MemOnly)|];
    simpl; (eexists; split; [reflexivity|]; split_and!; try done;
            by apply Hidem).
Qed.

End SessionEnd.

Lemma close_leaves_session_witness :
  exists w',
    SharedGroup.close env0 world_ready = Ret tt w' /\
    SharedGroup.is_attached w' = false /\
    SharedInfo.num_participants (SharedGroup.info w') = 1 /\
    SharedGroup.fs_log w' = [] /\
    SharedGroup.close env0 w' = Ret tt w'.
Proof.
  destruct (close_leaves_session env0 world_ready)
    as (w' & Hrun & Hatt & _ & Hn & Hlog & _ & Hagain).
  - reflexivity.
  - reflexivity.
  - reflexivity.
  - exists w'. split_and!; try done.
Defined.

(** ** A read transaction, there and back *)

Section ReadTransaction.
Import SharedGroup.

Variable env : Collaborators.

(** Putting the old slot back restores the session header, whatever else
    happened to the participant. *)
Lemma info_restored w wg idx r r' :
  Ringbuffer.slot (Ringbuffer.data (ring w)) idx = Some r ->
  info wg = info (set_slot idx r' w) ->
  info (set_slot idx r wg) = info w.
Proof.
  intros Hr Hinfo. apply slot_Some in Hr as [_ Hr].
  unfold set_slot, set_ring, ring in *. simpl in *. rewrite Hinfo. simpl.
  rewrite list_insert_insert_eq, list_insert_id by done.
  destruct (info w) as [? ? ? ? ? ? ? ? ? ? ? ? ? ? ? ? ? ? rb]. simpl.
  by destruct rb.
Qed.

(** X6.  A read transaction on the latest snapshot, and its end.  From
    Ready, [begin_read] returns in Reading, bound to the slot at
    [put_pos], whose count is two higher; the [end_read] that follows
    returns in Ready with the group detached, and the session header, ring
    included, is the one before the transaction. *)
Theorem begin_read_end_read_round_trip (fuel : nat) (w : World)
    (older free : list Z) :
  m_transact_stage (sg w) = transact_Ready ->
  ring_at_world w older free ->
  (forall top size, attach_shared env top size false = true) ->
  (forall r,
     Ringbuffer.slot (Ringbuffer.data (ring w)) (Ringbuffer.put_pos (ring w)) = Some r ->
     ReadCount.version r <> max_version) ->
  (2 <= fuel)%nat ->
  exists r w1 w2,
    begin_read env fuel VersionID_latest w = Ret tt w1 /\
    m_transact_stage (sg w1) = transact_Reading /\
    bound_to_latest w w1 r /\
    end_read env w1 = Ret tt w2 /\
    m_transact_stage (sg w2) = transact_Ready /\
    m_group_attached (sg w2) = false /\
    info w2 = info w /\
    lockfile_size w2 = lockfile_size w /\
    fs_log w2 = fs_log w.
Proof.
  intros Hstage H Hattach Hver Hfuel.
  destruct fuel as [|[|n]]; [lia|lia|].
  destruct (do_begin_read_latest env n w older free false H Hattach)
    as (wg & r & Hsame & Hr & Hu32 & Hread).
  destruct (do_begin_read_bound env n w older free false H Hattach)
    as (r' & w1' & Hread' & Hbound & Hstage1 & _).
  rewrite Hread in Hread'. inversion Hread'; subst w1'. clear Hread'.
  assert (r' = r) as -> by (destruct Hbound as (Hr' & _); congruence).
  set (idx := Ringbuffer.put_pos (ring w)) in *.
  set (w1 := set_sg _ (set_slot idx (pinned r) wg)) in *.
  set (w1r := set_sg (set_m_transact_stage transact_Reading (sg w1)) w1).
  pose proof (same_but_mapping_ring _ _ Hsame) as Hring.
  assert (Hr1 : Ringbuffer.slot (Ringbuffer.data (ring w1r))
                  (m_reader_idx (m_read_lock (sg w1r))) = Some (pinned r)).
  { simpl. rewrite Hring. by eapply slot_insert_eq. }
  destruct (release_read_lock_spec (m_read_lock (sg w1r)) w1r (pinned r) Hr1)
    as (wg' & Hsame' & Hrel).
  rewrite unpin_pinned in Hrel by done.
  change (m_reader_idx (m_read_lock (sg w1r))) with idx in Hrel.
  exists r, w1r. eexists. split_and!.
  - unfold begin_read, bind at 1, get_state at 1. rewrite Hstage.
    change (negb (stage_eqb transact_Ready transact_Ready)) with false.
    cbv iota. unfold bind at 1. rewrite Hread. by rewrite on_sg_run.
  - reflexivity.
  - destruct Hbound as (? & ? & ? & ? & ?). by split_and!.
  - unfold end_read, noexcept, bind at 1, get_state at 1.
    change (stage_eqb (m_transact_stage (sg w1r)) transact_Ready) with false.
    change (negb (stage_eqb (m_transact_stage (sg w1r)) transact_Reading))
      with false.
    cbv iota. unfold bind at 1, do_end_read, noexcept, bind at 1, get_state at 1.
    unfold bind at 1.
    change (m_version (m_read_lock (sg w1r))) with (ReadCount.version r).
    destruct (Z.eqb_spec (ReadCount.version r) max_version) as [Heq|_].
    { by apply Hver in Hr. }
    change (negb false) with true. rewrite REALM_ASSERT_holds.
    unfold bind at 1. rewrite Hrel. rewrite on_sg_run, on_sg_run. reflexivity.
  - reflexivity.
  - reflexivity.
  - change (info (set_slot idx r wg') = info w).
    apply (info_restored w wg' idx r (pinned r) Hr).
    destruct Hsame' as (Hi' & _). rewrite Hi'.
    destruct Hsame as (Hi & _). unfold w1r, w1, set_slot, set_ring, ring.
    simpl. by rewrite Hi.
  - destruct Hsame' as (_ & Hl' & _). destruct Hsame as (_ & Hl & _).
    simpl. rewrite Hl'. simpl. exact Hl.
  - destruct Hsame' as (_ & _ & _ & Hf' & _). destruct Hsame as (_ & _ & _ & Hf & _).
    simpl. rewrite Hf'. simpl. exact Hf.
Qed.

End ReadTransaction.

Lemma begin_read_end_read_round_trip_witness :
  exists w1 w2,
    SharedGroup.begin_read env0 2 SharedGroup.VersionID_latest world_ready = Ret tt w1 /\
    SharedGroup.m_transact_stage (SharedGroup.sg w1) = SharedGroup.transact_Reading /\
    SharedGroup.end_read env0 w1 = Ret tt w2 /\
    SharedGroup.info w2 = info4.
Proof.
  destruct (begin_read_end_read_round_trip env0 2 world_ready [0; 1] [3])
    as (r & w1 & w2 & Hbegin & Hstage & _ & Hend & _ & _ & Hinfo & _).
  - reflexivity.
  - exact ring4_inv.
  - reflexivity.
  - intros r Hr. vm_compute in Hr. inversion Hr; subst r. vm_compute. discriminate.
  - lia.
  - exists w1, w2. split_and!; try done.
Defined.

(** ** Waiting for a change *)

Section WaitForChange.
Import SharedGroup.

Lemma controlmutex_round w :
  SharedInfo.shared_controlmutex (info w) = false ->
  set_info (SharedInfo.set_shared_controlmutex false
              (SharedInfo.set_shared_controlmutex true (info w))) w = w.
Proof.
  intros Hfree. rewrite controlmutex_lock_unlock by done. apply set_info_same.
Qed.

Lemma wait_for_change_run w :
  SharedInfo.shared_controlmutex (info w) = false ->
  wait_for_change w =
    if (m_version (m_read_lock (sg w)) =? SharedInfo.latest_version_number (info w))
       && m_wait_for_change_enabled (sg w)
    then Spin
    else Ret (negb (m_version (m_read_lock (sg w))
                    =? SharedInfo.latest_version_number (info w))) w.
Proof.
  intros Hfree.
  unfold wait_for_change, with_controlmutex, bind at 1, lock, bind at 1,
    get_state at 1.
  rewrite Hfree, on_info_modify_run. unfold finally, bind, get_state.
  cbn [sg info set_info SharedInfo.latest_version_number
       SharedInfo.set_shared_controlmutex].
  destruct (_ && _); [done|].
  unfold ret, unlock. rewrite on_info_modify_run.
  cbn [info set_info]. rewrite set_info_twice. by rewrite controlmutex_round.
Qed.

(** X7.  [wait_for_change] does not wait when the session has moved on: if
    the participant's version is not [latest_version_number] it returns
    [true] at once.  After [wait_for_change_release] it never waits: it
    returns at once whether the version differs.  After
    [enable_wait_for_change], on an unchanged session, it waits for
    another participant (alone, it never returns).  None of the three
    changes the session header. *)
Theorem wait_for_change_release_unblocks (w : World) :
  SharedInfo.shared_controlmutex (info w) = false ->
  let changed :=
    negb (m_version (m_read_lock (sg w)) =? SharedInfo.latest_version_number (info w)) in
  let released := set_sg (set_m_wait_for_change_enabled false (sg w)) w in
  let enabled := set_sg (set_m_wait_for_change_enabled true (sg w)) w in
  (changed = true -> wait_for_change w = Ret true w) /\
  wait_for_change_release w = Ret tt released /\
  wait_for_change released = Ret changed released /\
  enable_wait_for_change w = Ret tt enabled /\
  (changed = false -> wait_for_change enabled = Spin) /\
  info released = info w /\ info enabled = info w.
Proof.
  intros Hfree changed released enabled.
  assert (Hguard : forall b,
    with_controlmutex (on_sg (set_m_wait_for_change_enabled b)) w =
      Ret tt (set_sg (set_m_wait_for_change_enabled b (sg w)) w)).
  { intros b. rewrite (with_controlmutex_returns _ w tt
      (set_sg (set_m_wait_for_change_enabled b (sg w))
         (set_info (SharedInfo.set_shared_controlmutex true (info w)) w)))
      by done.
    f_equal. cbn [info sg set_sg set_info].
    rewrite controlmutex_lock_unlock by done. by destruct w. }
  subst changed released enabled. cbv zeta.
  split_and!.
  - intros Hc. rewrite wait_for_change_run by done.
    apply negb_true_iff in Hc. by rewrite Hc.
  - apply Hguard.
  - rewrite wait_for_change_run by done. cbn [sg set_sg m_wait_for_change_enabled
      set_m_wait_for_change_enabled m_read_lock info].
    by rewrite andb_false_r.
  - apply Hguard.
  - intros Hc. rewrite wait_for_change_run by done.
    cbn [sg set_sg m_wait_for_change_enabled set_m_wait_for_change_enabled
         m_read_lock info].
    apply negb_false_iff in Hc. by rewrite Hc.
  - done.
  - done.
Qed.

End WaitForChange.

(** ** Trimming twice, and trimming with no reader *)

Section CleanupAgain.
Import Ringbuffer.

(** X8.  [cleanup] is idempotent: run on the ring a first [cleanup] left,
    it returns that ring unchanged.  And when no slot before [put_pos] is
    held by a reader (every count there is 0), one [cleanup] frees them
    all: [old_pos] ends at [put_pos] and only the current snapshot is
    live. *)
Theorem cleanup_idempotent (rb : t) (older free : list Z) :
  ring_at rb older free ->
  exists rb',
    cleanup rb = Ret tt rb' /\
    cleanup rb' = Ret tt rb' /\
    ((forall i r, i ∈ older -> slot (data rb) i = Some r -> ReadCount.count r = 0) ->
     old_pos rb' = put_pos rb /\ ring_at rb' [] (free ++ older) /\
     live_count rb' = 1).
Proof.
  intros H.
  pose proof (ring_backed _ _ _ H) as Hb.
  pose proof (ring_length _ _ _ H) as Hl.
  destruct (cleanup_loop_spec older (S (length (data rb))) rb free H) as
    (rb' & k & Hrun & Hk & Hinv & He & Hpp & Hlen & Hfreed & Hsame & Hstop);
    [lia|].
  exists rb'. split; [exact Hrun|]. split.
  - unfold cleanup, bind, get_state. rewrite cleanup_loop_unfold.
    destruct (Z.eqb_spec (old_pos rb') (put_pos rb')) as [|Hne]; [done|].
    pose proof (ring_old_pos _ _ _ Hinv) as Hold.
    destruct (drop k older) as [|i rest] eqn:Hdrop; [done|].
    simpl in Hold.
    destruct (ring_slot _ _ _ i Hinv) as [r Hr]; [by left|].
    destruct (ring_live _ _ _ Hinv i r) as [_ Hu32]; [by left|done|].
    assert (Hnot : i ∉ take k older).
    { intros Htake. pose proof (ring_NoDup _ _ _ H) as Hnd.
      rewrite <- (take_drop k older), Hdrop in Hnd.
      rewrite <- app_assoc in Hnd. apply NoDup_app in Hnd as (_ & Hdisj & _).
      apply (Hdisj _ Htake). by left. }
    assert (Hc : ReadCount.count r <> 0).
    { apply (Hstop i r); [done|]. by rewrite <- (Hsame _ Hnot). }
    rewrite Hold, Hr. destruct (Z.eqb_spec (ReadCount.count r) 0); [done|].
    rewrite wrap32_add_sub by done. rewrite set_count_same.
    apply slot_Some in Hr as [_ Hr]. rewrite list_insert_id by done.
    by rewrite set_data_same.
  - intros Hzero.
    assert (Hall : drop k older = []).
    { destruct (drop k older) as [|i rest] eqn:Hdrop; [done|].
      assert (Hi : i ∈ older) by (apply (in_drop _ k); rewrite Hdrop; by left).
      destruct (ring_slot _ _ _ i H) as [r Hr].
      { apply elem_of_app. by left. }
      exfalso. apply (Hstop i r); [done|done|]. by apply (Hzero i r). }
    assert (Htake : take k older = older).
    { rewrite <- (take_drop k older) at 2. by rewrite Hall, app_nil_r. }
    rewrite Hall, Htake in Hinv.
    split_and!.
    + rewrite (ring_old_pos _ _ _ Hinv). simpl. exact Hpp.
    + exact Hinv.
    + destruct (ring_counts _ _ _ Hinv) as [Hlc _]. rewrite Hlc. done.
Qed.

End CleanupAgain.

(** ** A token that names no slot *)

Section TokenOutOfRange.
Import SharedGroup.

Lemma grab_specific_beyond f v : forall n l w,
  m_local_max_entry (sg w) <= index v ->
  Ringbuffer.entries (ring w) <= index v ->
  grab_specific f n v (l, w) = Spin.
Proof.
  induction n as [|n IH]; intros l w Hlocal Hentries; [done|].
  rewrite grab_specific_unfold.
  unfold bind at 1, on_lock at 1, modify at 1. cbn [fst snd].
  unfold bind at 1. rewrite on_world_run, grow_reader_mapping_yes by done.
  apply IH.
  - cbn [sg set_sg m_local_max_entry set_m_local_max_entry]. exact Hentries.
  - rewrite ring_set_sg. exact Hentries.
Qed.

(** X9.  A token with a specific version whose index is not below the
    ring's number of entries (nor below what the participant has mapped):
    [grab_read_lock] does not throw [BadVersion] for it.  Every round finds
    the index outside the mapping, remaps and starts over, so the call
    never returns, whatever the bound on its rounds.  Releasing such a
    token reads a slot outside the backing store. *)
Theorem grab_read_lock_index_beyond_ring (fuel : nat) (l : ReadLockInfo)
    (w : World) (version_id : VersionID) :
  version version_id <> max_version ->
  m_local_max_entry (sg w) <= index version_id ->
  Ringbuffer.entries (ring w) <= index version_id ->
  grab_read_lock fuel version_id (l, w) = Spin /\
  (Z.of_nat (length (Ringbuffer.data (ring w))) <= index version_id ->
   unpin_version version_id w = Undefined).
Proof.
  intros Hspecific Hlocal Hentries. split.
  - unfold grab_read_lock.
    destruct (Z.eqb_spec (version version_id) max_version) as [|_]; [done|].
    by apply grab_specific_beyond.
  - intros Hdata. unfold unpin_version, release_read_lock, noexcept.
    cbn [m_reader_idx]. unfold bind at 1.
    rewrite grow_reader_mapping_yes by done.
    unfold bind at 1. rewrite on_readers_run, ring_set_sg.
    unfold Ringbuffer.get, Ringbuffer.slot.
    destruct (Z.ltb_spec (index version_id) 0); [done|].
    rewrite lookup_ge_None_2; [done|lia].
Qed.

End TokenOutOfRange.

(** ** The version of the latest snapshot *)

Section LatestSnapshot.
Import SharedGroup.

Lemma last_mapped_run n w :
  Ringbuffer.put_pos (ring w) < Ringbuffer.entries (ring w) ->
  exists w',
    same_but_mapping w w' /\
    last_mapped (S (S n)) w = Ret (Ringbuffer.put_pos (ring w)) w' /\
    Ringbuffer.put_pos (ring w) < m_local_max_entry (sg w').
Proof.
  intros Hpp.
  destruct (Z.lt_ge_cases (Ringbuffer.put_pos (ring w)) (m_local_max_entry (sg w)))
    as [Hlt|Hge].
  - exists w. split; [apply same_but_mapping_refl|]. split; [|done].
    cbn [last_mapped]. unfold bind at 1. rewrite on_readers_last.
    unfold bind at 1. by rewrite grow_reader_mapping_no.
  - eexists. split_and!; cycle 1.
    + cbn [last_mapped]. unfold bind at 1. rewrite on_readers_last.
      unfold bind at 1. rewrite grow_reader_mapping_yes by done.
      unfold bind at 1. rewrite on_readers_last, ring_set_sg.
      unfold bind at 1. rewrite grow_reader_mapping_no; [reflexivity|].
      cbn [sg set_sg m_local_max_entry set_m_local_max_entry]. exact Hpp.
    + cbn [sg set_sg m_local_max_entry set_m_local_max_entry]. exact Hpp.
    + unfold same_but_mapping. cbn. by split_and!.
Qed.

(** X10.  [get_version_of_latest_snapshot] returns the version held by
    the slot at [put_pos]; the pin it takes to read it is given back, so
    the session header is as before (only [m_local_max_entry] may have
    grown).  [has_changed] answers whether that version differs from the
    version the participant is bound to. *)
Theorem latest_snapshot_version (fuel : nat) (w : World) (r : ReadCount.t) :
  (2 <= fuel)%nat ->
  Ringbuffer.slot (Ringbuffer.data (ring w)) (Ringbuffer.put_pos (ring w)) = Some r ->
  Ringbuffer.is_live r = true ->
  is_u32 (ReadCount.count r) ->
  Ringbuffer.put_pos (ring w) < Ringbuffer.entries (ring w) ->
  exists w',
    get_version_of_latest_snapshot fuel w = Ret (ReadCount.version r) w' /\
    has_changed fuel w =
      Ret (negb (m_version (m_read_lock (sg w)) =? ReadCount.version r)) w' /\
    info w' = info w /\
    lockfile_size w' = lockfile_size w /\
    fs_log w' = fs_log w /\
    set_m_local_max_entry (m_local_max_entry (sg w')) (sg w) = sg w'.
Proof.
  intros Hfuel Hr Hlive Hu32 Hpp.
  destruct fuel as [|[|n]]; [lia|lia|].
  destruct (last_mapped_run n w Hpp) as (w' & Hsame & Hlast & _).
  pose proof (same_but_mapping_ring _ _ Hsame) as Hring.
  assert (Hr' : Ringbuffer.slot (Ringbuffer.data (ring w'))
                  (Ringbuffer.put_pos (ring w)) = Some r) by (by rewrite Hring).
  assert (Hrun : get_version_of_latest_snapshot (S (S n)) w =
                 Ret (ReadCount.version r) w').
  { unfold get_version_of_latest_snapshot. cbn [latest_snapshot_loop].
    unfold bind at 1. rewrite Hlast.
    unfold bind at 1. rewrite (on_readers_get _ _ _ Hr').
    unfold Ringbuffer.is_live in Hlive. rewrite land_1_even in Hlive.
    rewrite (double_inc_even _ Hlive).
    unfold bind at 1. rewrite (on_readers_update _ _ _ _ Hr').
    change (negb true) with false. cbv iota.
    pose proof (slot_set_slot_eq w' _ r (pinned r) Hr') as Hp.
    unfold bind at 1. fold (pinned r). rewrite (on_readers_get _ _ _ Hp).
    unfold bind at 1. rewrite (on_readers_update _ _ _ _ Hp).
    rewrite unpin_pinned by done.
    by rewrite set_slot_twice, (set_slot_same _ _ _ Hr'). }
  exists w'. destruct Hsame as (Hi & Hl & _ & Hf & Hs).
  split_and!; try done.
  unfold has_changed, bind at 1. rewrite Hrun.
  unfold bind, get_state, ret. rewrite <- Hs. done.
Qed.

End LatestSnapshot.

(** ** Ending a write transaction without a commit *)

Section Rollback.
Import SharedGroup.

Variable env : Collaborators.

(** [rollback] in Writing, bound to a slot of the ring: the write mutex is
    released and the pin on that slot is given back. *)
Lemma rollback_releases w1 r :
  m_transact_stage (sg w1) = transact_Writing ->
  Ringbuffer.slot (Ringbuffer.data (ring w1)) (m_reader_idx (m_read_lock (sg w1))) =
    Some r ->
  m_version (m_read_lock (sg w1)) <> max_version ->
  exists w2,
    rollback env w1 = Ret tt w2 /\
    m_transact_stage (sg w2) = transact_Ready /\
    m_group_attached (sg w2) = false /\
    info w2 =
      SharedInfo.set_shared_writemutex false
        (info (set_slot (m_reader_idx (m_read_lock (sg w1)))
                 (ReadCount.set_count (atomic_double_dec (ReadCount.count r)) r) w1)) /\
    lockfile_size w2 = lockfile_size w1 /\
    fs_log w2 = fs_log w1 /\
    m_file_format_version (sg w2) = m_file_format_version (sg w1).
Proof.
  intros Hstage Hr Hmv.
  set (wu := set_info (SharedInfo.set_shared_writemutex false (info w1)) w1).
  assert (Hru : Ringbuffer.slot (Ringbuffer.data (ring wu))
                  (m_reader_idx (m_read_lock (sg wu))) = Some r) by exact Hr.
  destruct (release_read_lock_spec (m_read_lock (sg wu)) wu r Hru)
    as (wg & Hsame & Hrel).
  eexists. split.
  { unfold rollback, noexcept, bind at 1, get_state at 1. rewrite Hstage.
    change (stage_eqb transact_Writing transact_Ready) with false.
    change (negb (stage_eqb transact_Writing transact_Writing)) with false.
    cbv iota. unfold bind at 1, do_end_write, noexcept, unlock.
    rewrite on_info_modify_run. fold wu.
    unfold bind at 1, do_end_read, noexcept, bind at 1, get_state at 1.
    unfold bind at 1.
    destruct (Z.eqb_spec (m_version (m_read_lock (sg wu))) max_version) as [Heq|_];
      [done|].
    change (negb false) with true. rewrite REALM_ASSERT_holds.
    unfold bind at 1. rewrite Hrel, on_sg_run, on_sg_run. reflexivity. }
  destruct Hsame as (Hi & Hl & _ & Hf & Hs).
  split; [reflexivity|]. split; [reflexivity|]. split.
  { unfold set_slot, set_ring, ring. cbn. rewrite Hi. cbn.
    by destruct (info w1). }
  split; [exact Hl|]. split; [exact Hf|].
  cbn. rewrite <- Hs. reflexivity.
Qed.

(** Giving back the pin and the write mutex restores the header. *)
Lemma header_restored w w1 idx r :
  Ringbuffer.slot (Ringbuffer.data (ring w)) idx = Some r ->
  is_u32 (ReadCount.count r) ->
  SharedInfo.shared_writemutex (info w) = false ->
  info w1 =
    info (set_slot idx (pinned r)
            (set_info (SharedInfo.set_shared_writemutex true (info w)) w)) ->
  SharedInfo.set_shared_writemutex false
    (info (set_slot idx
             (ReadCount.set_count (atomic_double_dec (ReadCount.count (pinned r)))
                (pinned r)) w1)) = info w.
Proof.
  intros Hr Hu32 Hfree Hinfo. rewrite unpin_pinned by done.
  apply slot_Some in Hr as [_ Hr].
  unfold set_slot, set_ring, ring in *. cbn in *. rewrite Hinfo. cbn.
  rewrite list_insert_insert_eq, list_insert_id by done.
  destruct (info w) as [? ? ? ? ? ? ? ? ? ? ? ? ? ? ? wm ? ? rb]. cbn in *.
  rewrite Hfree. by destruct rb.
Qed.

Lemma begin_write_run n w older free :
  m_transact_stage (sg w) = transact_Ready ->
  SharedInfo.shared_writemutex (info w) = false ->
  SharedInfo.commit_in_critical_phase (info w) = 0 ->
  async_daemon env && (SharedInfo.durability (info w) =? durability_code Async) = false ->
  ring_at_world w older free ->
  (forall top size, attach_shared env top size true = true) ->
  (forall repl v, replication env = Some repl -> initiate_transact repl v = true) ->
  exists wg r,
    Ringbuffer.slot (Ringbuffer.data (ring w)) (Ringbuffer.put_pos (ring w)) = Some r /\
    is_u32 (ReadCount.count r) /\
    info wg = SharedInfo.set_shared_writemutex true (info w) /\
    lockfile_size wg = lockfile_size w /\ fs_log wg = fs_log w /\
    set_m_local_max_entry (m_local_max_entry (sg wg)) (sg w) = sg wg /\
    begin_write env (S (S n)) w =
      Ret tt (set_sg (set_m_transact_stage transact_Writing
                        (set_m_group_attached true
                           (set_m_read_lock (lock_on (Ringbuffer.put_pos (ring w)) r)
                              (sg wg))))
                (set_slot (Ringbuffer.put_pos (ring w)) (pinned r) wg)).
Proof.
  intros Hstage Hfree Hflag Hasync H Hattach Hrepl.
  set (w0 := set_info (SharedInfo.set_shared_writemutex true (info w)) w).
  assert (H0 : ring_at_world w0 older free) by exact H.
  destruct (do_begin_read_latest env n w0 older free true H0 Hattach)
    as (wg & r & Hsame & Hr & Hu32 & Hread).
  destruct Hsame as (Hi & Hl & _ & Hf & Hs).
  exists wg, r. split_and!; try done.
  unfold begin_write, bind at 1, get_state at 1. rewrite Hstage.
  change (negb (stage_eqb transact_Ready transact_Ready)) with false.
  cbv iota. unfold bind at 1. rewrite (do_begin_write_sync env) by done. fold w0.
  unfold bind at 1, catch_rethrow, bind at 1. rewrite Hread.
  destruct (replication env) as [repl|] eqn:Hrp.
  - unfold bind at 1, get_state at 1. rewrite (Hrepl repl _ eq_refl).
    cbn [must]. unfold ret at 1. by rewrite on_sg_run.
  - unfold ret at 1. by rewrite on_sg_run.
Qed.

(** X11.  A write transaction that is rolled back.  On a session that does
    not go through the commit daemon (its durability is not Async, or the
    build has no daemon) and whose ring satisfies the ring invariant, with
    a version at [put_pos] that is not the LATEST marker, from Ready with
    the write mutex available, no commit in its critical phase and
    collaborators that do not fail, [begin_write] returns in Writing, holding the write mutex and a pin on
    the slot at [put_pos]; the [rollback] that follows returns in Ready
    with the group detached, the write mutex free and the pin given back:
    the session header, ring included, the lock file and the file log are
    those before the transaction. *)
Theorem begin_write_rollback_round_trip (fuel : nat) (w : World)
    (older free : list Z) :
  m_transact_stage (sg w) = transact_Ready ->
  SharedInfo.shared_writemutex (info w) = false ->
  SharedInfo.commit_in_critical_phase (info w) = 0 ->
  async_daemon env && (SharedInfo.durability (info w) =? durability_code Async) = false ->
  ring_at_world w older free ->
  (forall top size, attach_shared env top size true = true) ->
  (forall repl v, replication env = Some repl -> initiate_transact repl v = true) ->
  (forall r,
     Ringbuffer.slot (Ringbuffer.data (ring w)) (Ringbuffer.put_pos (ring w)) = Some r ->
     ReadCount.version r <> max_version) ->
  (2 <= fuel)%nat ->
  exists w1 w2,
    begin_write env fuel w = Ret tt w1 /\
    m_transact_stage (sg w1) = transact_Writing /\
    SharedInfo.shared_writemutex (info w1) = true /\
    rollback env w1 = Ret tt w2 /\
    m_transact_stage (sg w2) = transact_Ready /\
    m_group_attached (sg w2) = false /\
    info w2 = info w /\
    lockfile_size w2 = lockfile_size w /\
    fs_log w2 = fs_log w.
Proof.
  intros Hstage Hfree Hflag Hasync H Hattach Hrepl Hver Hfuel.
  destruct fuel as [|[|n]]; [lia|lia|].
  destruct (begin_write_run n w older free Hstage Hfree Hflag Hasync H Hattach Hrepl)
    as (wg & r & Hr & Hu32 & Hi & Hl & Hf & Hs & Hbegin).
  set (idx := Ringbuffer.put_pos (ring w)) in *.
  set (w1 := set_sg _ (set_slot idx (pinned r) wg)) in *.
  assert (Hrg : Ringbuffer.slot (Ringbuffer.data (ring wg)) idx = Some r).
  { unfold ring. rewrite Hi. exact Hr. }
  assert (Hr1 : Ringbuffer.slot (Ringbuffer.data (ring w1))
                  (m_reader_idx (m_read_lock (sg w1))) = Some (pinned r)).
  { cbn. exact (slot_insert_eq _ _ r _ Hrg). }
  destruct (rollback_releases w1 (pinned r)) as
    (w2 & Hrb & Hstage2 & Hatt2 & Hinfo2 & Hl2 & Hf2 & _); [done|exact Hr1| |].
  { cbn. by apply Hver. }
  exists w1, w2. split_and!; try done.
  - cbn. rewrite Hi. by destruct (info w).
  - rewrite Hinfo2.
    change (m_reader_idx (m_read_lock (sg w1))) with idx.
    apply header_restored; try done.
    unfold w1, set_slot, set_ring, ring. cbn. by rewrite Hi.
  - rewrite Hl2. exact Hl.
  - rewrite Hf2. exact Hf.
Qed.

End Rollback.

(** ** Pinning the current version *)

Section PinVersion.
Import SharedGroup.

Variable env : Collaborators.

(** The specific-version path on a mapped, live slot of the right version. *)
Lemma grab_specific_pins f n l w v r :
  index v < m_local_max_entry (sg w) ->
  Ringbuffer.slot (Ringbuffer.data (ring w)) (index v) = Some r ->
  Ringbuffer.is_live r = true ->
  ReadCount.version r = version v ->
  grab_specific (S f) (S n) v (l, w) =
    Ret tt (lock_on (index v) r, set_slot (index v) (pinned r) w).
Proof.
  intros Hmapped Hr Hlive Hv.
  rewrite grab_specific_unfold.
  unfold bind at 1, on_lock at 1, modify at 1. cbn [fst snd].
  unfold bind at 1. rewrite on_world_run, grow_reader_mapping_no by done.
  unfold bind at 1. rewrite on_world_run, (pin_or_fail_live _ _ _ r) by done.
  pose proof (slot_set_slot_eq w _ r (pinned r) Hr) as Hp.
  unfold bind at 1. rewrite on_world_run, (on_readers_get _ _ _ Hp).
  change (ReadCount.version (pinned r)) with (ReadCount.version r).
  rewrite Hv, Z.eqb_refl. change (negb true) with false. cbv iota.
  unfold bind_lock, bind, on_lock, modify. cbn. reflexivity.
Qed.

Lemma grab_specific_spec f n l w v r :
  index v < Ringbuffer.entries (ring w) ->
  Ringbuffer.slot (Ringbuffer.data (ring w)) (index v) = Some r ->
  Ringbuffer.is_live r = true ->
  ReadCount.version r = version v ->
  exists wg,
    same_but_mapping w wg /\
    grab_specific (S f) (S (S n)) v (l, w) =
      Ret tt (lock_on (index v) r, set_slot (index v) (pinned r) wg).
Proof.
  intros Hidx Hr Hlive Hv.
  destruct (Z.lt_ge_cases (index v) (m_local_max_entry (sg w))) as [Hlt|Hge].
  - exists w. split; [apply same_but_mapping_refl|]. by apply grab_specific_pins.
  - eexists. split; cycle 1.
    + rewrite grab_specific_unfold.
      unfold bind at 1, on_lock at 1, modify at 1. cbn [fst snd].
      unfold bind at 1. rewrite on_world_run, grow_reader_mapping_yes by done.
      rewrite (grab_specific_pins f n _ _ v r); [reflexivity| |done|done|done].
      cbn [sg set_sg m_local_max_entry set_m_local_max_entry]. exact Hidx.
    + unfold same_but_mapping. cbn. by split_and!.
Qed.

(** X13.  [pin_version] inside a transaction bound to a live slot returns
    the token of the current transaction (the value of
    [get_version_of_current_transaction]) and raises the count of that slot
    by 2; [unpin_version] with that token gives the pin back, and the
    session header is the one before the pair.  The participant's own lock
    and stage are untouched. *)
Theorem pin_version_unpin_round_trip (fuel : nat) (w : World) (r : ReadCount.t) :
  let l := m_read_lock (sg w) in
  let token := mkVersionID (m_version l) (m_reader_idx l) in
  m_transact_stage (sg w) <> transact_Ready ->
  m_version l <> max_version ->
  Ringbuffer.slot (Ringbuffer.data (ring w)) (m_reader_idx l) = Some r ->
  Ringbuffer.is_live r = true ->
  is_u32 (ReadCount.count r) ->
  ReadCount.version r = m_version l ->
  m_reader_idx l < Ringbuffer.entries (ring w) ->
  (2 <= fuel)%nat ->
  exists w1 w2,
    get_version_of_current_transaction w = Ret token w /\
    pin_version env fuel w = Ret token w1 /\
    Ringbuffer.slot (Ringbuffer.data (ring w1)) (m_reader_idx l) =
      Some (ReadCount.set_count (wrap32 (ReadCount.count r + 2)) r) /\
    m_read_lock (sg w1) = l /\
    unpin_version token w1 = Ret tt w2 /\
    info w2 = info w /\
    m_read_lock (sg w2) = l /\
    m_transact_stage (sg w2) = m_transact_stage (sg w).
Proof.
  intros l token Hstage Hmv Hr Hlive Hu32 Hv Hidx Hfuel.
  destruct fuel as [|[|n]]; [lia|lia|].
  destruct (grab_specific_spec (S n) n (mkReadLockInfo max_version 0 0 0) w token r)
    as (wg & Hg & Hgrab); try done.
  subst token l. cbn [index version] in *.
  set (idx := m_reader_idx (m_read_lock (sg w))) in *.
  set (w1 := set_slot idx (pinned r) wg) in *.
  pose proof (same_but_mapping_ring _ _ Hg) as Hring.
  assert (Hr1 : Ringbuffer.slot (Ringbuffer.data (ring w1)) idx = Some (pinned r)).
  { apply (slot_set_slot_eq wg idx r). by rewrite Hring. }
  destruct (release_read_lock_spec (mkReadLockInfo max_version idx 0 0) w1 (pinned r) Hr1)
    as (wg' & Hg' & Hrel).
  cbn [m_reader_idx] in Hrel. rewrite unpin_pinned in Hrel by done.
  pose proof (set_slot_restores w wg wg' idx r (pinned r) Hr Hg Hg') as Hback.
  exists w1, (set_slot idx r wg').
  destruct Hback as (Hi & _ & _ & _ & Hs).
  destruct Hg as (_ & _ & _ & _ & Hsg).
  split_and!.
  - reflexivity.
  - unfold pin_version, bind at 1, get_state at 1.
    assert (Hne : negb (stage_eqb (m_transact_stage (sg w)) transact_Ready) = true)
      by (by destruct (m_transact_stage (sg w))).
    rewrite Hne. unfold bind at 1. rewrite REALM_ASSERT_holds.
    unfold bind at 1, grab_local_read_lock, grab_read_lock.
    cbn [version].
    destruct (Z.eqb_spec (m_version (m_read_lock (sg w))) max_version) as [|_];
      [done|].
    fold idx. by rewrite Hgrab.
  - exact Hr1.
  - cbn. rewrite <- Hsg. reflexivity.
  - exact Hrel.
  - exact Hi.
  - rewrite <- Hs. reflexivity.
  - rewrite <- Hs. reflexivity.
Qed.

End PinVersion.

(** ** Committing and reading on *)

Section CommitAndContinue.
Import SharedGroup.

Variable env : Collaborators.

Lemma same_payload_count w wg idx r c :
  same_but_mapping w wg ->
  Ringbuffer.slot (Ringbuffer.data (ring w)) idx = Some r ->
  same_payload w (set_slot idx (ReadCount.set_count c r) wg).
Proof.
  intros Hsame Hr.
  pose proof (same_but_mapping_ring _ _ Hsame) as Hring.
  destruct Hsame as (Hi & _).
  pose proof (slot_Some _ _ _ Hr) as [Hidx _].
  unfold same_payload. simpl. rewrite Hring, Hi. split_and!; try done.
  intros i ri Hri. destruct (decide (i = idx)) as [->|Hne].
  - assert (ri = r) as -> by congruence.
    eexists. split; [by eapply slot_insert_eq|done].
  - exists ri. split; [|done]. by rewrite slot_insert_ne.
Qed.

Lemma same_payload_mapping w wg : same_but_mapping w wg -> same_payload w wg.
Proof.
  intros Hsame. pose proof (same_but_mapping_ring _ _ Hsame) as Hring.
  destruct Hsame as (Hi & _).
  unfold same_payload. rewrite Hring, Hi. split_and!; try done. eauto 10.
Qed.

(** Whatever the number of rounds it takes, a [grab_read_lock(LATEST)] that
    returns has bound the lock to the payload of the slot at [put_pos]. *)
Lemma grab_latest_Ret : forall n l w l' w',
  grab_latest n (l, w) = Ret tt (l', w') ->
  same_payload w w' /\
  m_reader_idx l' = Ringbuffer.put_pos (ring w) /\
  forall r,
    Ringbuffer.slot (Ringbuffer.data (ring w)) (Ringbuffer.put_pos (ring w)) = Some r ->
    m_version l' = ReadCount.version r /\
    m_top_ref l' = ReadCount.current_top r /\
    m_file_size l' = ReadCount.filesize r.
Proof.
  induction n as [|n IH]; intros l w l' w' Hrun; [done|].
  cbn [grab_latest] in Hrun.
  unfold bind at 1 in Hrun. rewrite on_world_run, on_readers_last in Hrun.
  unfold bind at 1, on_lock at 1, modify at 1 in Hrun. cbn [fst snd] in Hrun.
  unfold bind at 1 in Hrun. rewrite on_world_run in Hrun.
  destruct (grow_reader_mapping_spec w (Ringbuffer.put_pos (ring w)))
    as (b & wg & Hg & Hsame & _).
  rewrite Hg in Hrun.
  pose proof (same_but_mapping_ring _ _ Hsame) as Hring.
  destruct b.
  - apply IH in Hrun as (Hp & Hidx & Hlock). rewrite Hring in Hidx, Hlock.
    split; [|done].
    eapply same_payload_trans; [by apply same_payload_mapping|exact Hp].
  - unfold bind at 1 in Hrun. rewrite on_world_run, on_readers_run in Hrun.
    unfold Ringbuffer.get in Hrun. rewrite Hring in Hrun.
    destruct (Ringbuffer.slot (Ringbuffer.data (ring w)) (Ringbuffer.put_pos (ring w)))
      as [r0|] eqn:Hr0; [|done].
    rewrite <- Hring, set_ring_same in Hrun.
    destruct (atomic_double_inc_if_even (ReadCount.count r0)) as [ok c].
    assert (Hr0g : Ringbuffer.slot (Ringbuffer.data (ring wg))
                     (Ringbuffer.put_pos (ring w)) = Some r0) by (by rewrite Hring).
    unfold bind at 1 in Hrun.
    rewrite Hring, on_world_run, (on_readers_update _ _ _ _ Hr0g) in Hrun.
    pose proof (same_payload_count w wg _ r0 c Hsame Hr0) as Hpc.
    destruct ok.
    + change (negb true) with false in Hrun. cbv iota in Hrun.
      unfold bind_lock, bind, on_lock, modify in Hrun. cbn in Hrun.
      inversion Hrun; subst l' w'. split; [exact Hpc|]. split; [done|].
      intros r [= <-]. done.
    + change (negb false) with true in Hrun. cbv iota in Hrun.
      apply IH in Hrun as (Hp & Hidx & Hlock).
      assert (Hpp : Ringbuffer.put_pos
                      (ring (set_slot (Ringbuffer.put_pos (ring w))
                               (ReadCount.set_count c r0) wg)) =
                    Ringbuffer.put_pos (ring w)) by (simpl; by rewrite Hring).
      rewrite Hpp in Hidx, Hlock.
      split; [eapply same_payload_trans; [exact Hpc|exact Hp]|].
      split; [exact Hidx|].
      intros r [= <-].
      apply (Hlock (ReadCount.set_count c r0)).
      exact (slot_set_slot_eq wg _ r0 _ Hr0g).
Qed.

Lemma grab_own_read_lock_Ret fuel v w w' :
  grab_own_read_lock fuel v w = Ret tt w' ->
  exists l' w1,
    grab_read_lock fuel v (m_read_lock (sg w), w) = Ret tt (l', w1) /\
    w' = set_sg (set_m_read_lock l' (sg w1)) w1.
Proof.
  unfold grab_own_read_lock, zoom.
  destruct (grab_read_lock fuel v (m_read_lock (sg w), w)) as [[] [l' w1]| | | |];
    try done.
  intros [= <-]. by exists l', w1.
Qed.

(** X14.  [commit_and_continue_as_read] leaves the participant reading its
    own commit.  On a session whose ring satisfies the ring invariant, when
    it returns version [v]: the stage is Reading, the write mutex is
    released, [latest_version_number] is [v], and the participant's lock
    names the slot at [put_pos], which holds version [v], with that slot's
    top ref and file size. *)
Theorem commit_and_continue_reads_own_commit (fuel : nat) (w w' : World) (v : Z)
    (older free : list Z) :
  ring_at_world w older free ->
  Ringbuffer.entries (ring w) + 32 < 2 ^ 32 ->
  commit_and_continue_as_read env fuel w = Ret v w' ->
  m_transact_stage (sg w') = transact_Reading /\
  SharedInfo.shared_writemutex (info w') = false /\
  SharedInfo.latest_version_number (info w') = v /\
  SharedInfo.commit_in_critical_phase (info w') = 0 /\
  m_version (m_read_lock (sg w')) = v /\
  m_reader_idx (m_read_lock (sg w')) = Ringbuffer.put_pos (ring w') /\
  exists r,
    Ringbuffer.slot (Ringbuffer.data (ring w')) (Ringbuffer.put_pos (ring w')) = Some r /\
    ReadCount.version r = v /\
    m_top_ref (m_read_lock (sg w')) = ReadCount.current_top r /\
    m_file_size (m_read_lock (sg w')) = ReadCount.filesize r.
Proof.
  intros H Hbound Hrun. unfold commit_and_continue_as_read in Hrun.
  apply bind_Ret in Hrun as (wc & s & Hstep & Hrun).
  inversion Hstep; subst wc s. clear Hstep.
  destruct (negb (stage_eqb (m_transact_stage (sg w)) transact_Writing));
    [done|].
  apply bind_Ret in Hrun as (nv & w1 & Hstep & Hrun).
  apply do_commit_Ret in Hstep as (prev & Hprev & _ & _ & Hllc).
  destruct (low_level_commit_Ret env w w1 nv older free H Hbound Hllc) as
    (k & top & r_new & r_old & free' & _ & _ & Hnew & _ & _ & Hver
       & _ & _ & Hlatest & _ & Hflag & _).
  apply bind_Ret in Hrun as (wc & s & Hstep & Hrun).
  inversion Hstep; subst wc s. clear Hstep.
  apply bind_Ret in Hrun as ([] & w2 & Hstep2 & Hrun).
  apply release_read_lock_Ret in Hstep2 as Hp2.
  apply bind_Ret in Hrun as ([] & w3 & Hstep3 & Hrun).
  apply grab_own_read_lock_Ret in Hstep3 as (l' & w3' & Hgrab & ->).
  unfold grab_read_lock in Hgrab.
  change (version VersionID_latest =? max_version) with true in Hgrab.
  cbv iota in Hgrab.
  apply grab_latest_Ret in Hgrab as (Hp3 & Hidx & Hlock).
  apply bind_Ret in Hrun as ([] & w4 & Hstep & Hrun).
  apply noexcept_Ret in Hstep. unfold unlock in Hstep.
  rewrite on_info_modify_run in Hstep. inversion Hstep; subst w4. clear Hstep.
  apply bind_Ret in Hrun as ([] & w5 & Hstep & Hrun).
  rewrite on_sg_run in Hstep. inversion Hstep; subst w5. clear Hstep.
  injection Hrun as Hnv Hw'. subst nv w'.
  pose proof (same_payload_trans _ _ _ Hp2 Hp3) as (Hpp & _ & Hs & Hl & _ & Hc).
  destruct Hp2 as (Hpp2 & _ & Hs2 & _).
  destruct (Hs2 _ _ Hnew) as (r2 & Hr2 & Hv2 & Ht2 & Hf2).
  rewrite <- Hpp2 in Hr2.
  destruct (Hlock r2 Hr2) as (Hlv & Hlt & Hlf).
  destruct (Hs _ _ Hnew) as (r3 & Hr3 & Hv3 & Ht3 & Hf3).
  cbn [sg info set_sg set_info m_transact_stage set_m_transact_stage
       m_read_lock set_m_read_lock].
  change (ring (set_sg _ (set_info _ (set_sg _ w3')))) with (ring w3').
  split_and!.
  - reflexivity.
  - by destruct (info w3').
  - rewrite <- Hlatest, <- Hl. by destruct (info w3').
  - rewrite <- Hflag, <- Hc. by destruct (info w3').
  - congruence.
  - rewrite Hidx. destruct Hp3 as (Hpp3 & _). by rewrite Hpp3.
  - exists r3. rewrite Hpp. split_and!; congruence.
Qed.

End CommitAndContinue.

(** ** Joining a session with other options *)

Section JoinChecks.
Import SharedGroup.

Variable env : Collaborators.

(** An iteration of the open loop that reaches [join_session]. *)
Lemma do_open_attempt_joins fuel no_create options hist w :
  other_lockers w <> 0 ->
  0 < sizeof_SharedInfo env ->
  compatible_lockfile env w ->
  do_open_attempt env fuel no_create options hist w =
    guarded (join_session env fuel no_create options hist)
      (set_sg (set_m_file_map_attached true (set_m_file_locked true (sg w))) w).
Proof.
  intros Hothers Hsize (Hfile & Hinit & Hver & Hmutex & Hcond & Hvalid).
  unfold do_open_attempt, bind at 1, get_state at 1.
  destruct (Z.eqb_spec (other_lockers w) 0); [done|].
  unfold bind at 1, ret at 1, bind at 1. rewrite on_sg_run.
  unfold guarded, bind at 1, get_state at 1. rewrite !lockfile_size_set_sg.
  destruct (Z.ltb_spec (lockfile_size w) (sizeof_SharedInfo env)); [lia|].
  rewrite andb_false_l. cbv zeta. unfold bind at 1. rewrite on_sg_run.
  rewrite !info_set_sg, Hinit. change (1 =? 0) with false. cbv iota.
  unfold bind at 1. change (1 =? 1) with true. rewrite REALM_ASSERT_holds.
  rewrite Z.ltb_irrefl, Hver, Hmutex, Hcond, Hvalid, !Z.eqb_refl.
  cbn [negb]. reflexivity.
Qed.

Lemma with_controlmutex_throws {A} (m : M World A) w e w1 :
  SharedInfo.shared_controlmutex (info w) = false ->
  m (set_info (SharedInfo.set_shared_controlmutex true (info w)) w) = Throw e w1 ->
  with_controlmutex m w =
    Throw e (set_info (SharedInfo.set_shared_controlmutex false (info w1)) w1).
Proof.
  intros Hfree Hm.
  unfold with_controlmutex, bind at 1, lock, bind at 1, get_state at 1.
  rewrite Hfree, on_info_modify_run. unfold finally. by rewrite Hm.
Qed.

(** X15.  A participant that joins a running session with other options
    is refused, and nothing of the attempt is left.  The requested
    durability is one the build supports (a request for Async on a build
    without the commit daemon is refused earlier, with another error).
    For a participant that is not attached yet, with a lock file that
    others hold and that passes the layout checks, the control mutex
    available, at least one registered participant and a database file
    that can be attached, [do_open] throws
    [LogicError::mixed_durability] when its durability is not the
    session's, and otherwise [LogicError::mixed_history_type] when its
    history type is not the session's.  At the throw the session header is
    the one found ([num_participants] included, control mutex free), the
    participant is not attached and holds no file lock. *)
Theorem do_open_refuses_mixed_options (fuel : nat) (path : string)
    (no_create : bool) (options : SharedGroupOptions) (w : World) (top_ref : Z) :
  let hist := match replication env with
              | Some repl => get_history_type repl
              | None => hist_None
              end in
  (1 <= fuel)%nat ->
  is_attached w = false ->
  negb (async_daemon env) && (opt_durability options =? durability_code Async) = false ->
  other_lockers w <> 0 ->
  0 < sizeof_SharedInfo env ->
  compatible_lockfile env w ->
  SharedInfo.shared_controlmutex (info w) = false ->
  SharedInfo.num_participants (info w) <> 0 ->
  attach_file env false = attached top_ref ->
  (SharedInfo.durability (info w) <> opt_durability options ->
   exists w',
     do_open env fuel path no_create options w = Throw LogicError_mixed_durability w' /\
     join_refused path (encryption_key options) w w') /\
  (SharedInfo.durability (info w) = opt_durability options ->
   SharedInfo.history_type (info w) <> hist ->
   exists w',
     do_open env fuel path no_create options w = Throw LogicError_mixed_history_type w' /\
     join_refused path (encryption_key options) w w').
Proof.
  intros hist Hfuel Hatt Hasync Hothers Hsize Hfile Hctl Hjoin Hattach.
  destruct fuel as [|n]; [lia|].
  set (w0 := set_sg (set_m_key (encryption_key options)
                       (set_m_db_path path (sg w))) w).
  assert (Hfile0 : compatible_lockfile env w0) by exact Hfile.
  assert (Hopen : forall e w1,
    join_session env (S n) no_create options hist
      (set_sg (set_m_file_map_attached true (set_m_file_locked true (sg w0))) w0) =
      Throw e w1 ->
    do_open env (S n) path no_create options w =
      Throw e (set_sg (set_m_file_locked false
                 (set_m_file_map_attached false
                    (set_m_alloc_attached false (sg w1)))) w1)).
  { intros e w1 Hj.
    unfold do_open, bind at 1, get_state at 1. rewrite Hatt.
    unfold bind at 1. rewrite REALM_ASSERT_holds.
    unfold bind at 1. rewrite Hasync. unfold ret at 1.
    unfold bind at 1. rewrite on_sg_run. unfold bind at 1. rewrite on_sg_run.
    cbv zeta. fold hist.
    change (set_sg (set_m_key _ _) _) with w0. cbn [do_open_loop].
    unfold bind at 1, bind at 1.
    rewrite (do_open_attempt_joins (S n) no_create options hist w0 Hothers Hsize Hfile0).
    unfold guarded. rewrite Hj. reflexivity. }
  set (wj := set_sg (set_m_file_map_attached true (set_m_file_locked true (sg w0))) w0)
    in Hopen.
  assert (Hne : (SharedInfo.num_participants (info w) =? 0) = false)
    by (by apply Z.eqb_neq).
  split.
  - intros Hd.
    assert (Hdb : (SharedInfo.durability (info w) =? opt_durability options) = false)
      by (by apply Z.eqb_neq).
    eexists. split.
    { apply Hopen. unfold join_session. apply with_controlmutex_throws; [done|].
      unfold wj, w0.
      unfold bind at 1. rewrite on_readers_num_entries.
      unfold bind at 1. rewrite on_sg_run.
      unfold bind at 1, get_state at 1.
      cbn [info set_sg set_info sg SharedInfo.num_participants
           SharedInfo.set_shared_controlmutex].
      rewrite Hne, Hattach.
      unfold bind at 1. rewrite on_sg_run. unfold bind at 1. rewrite on_sg_run.
      cbv zeta. unfold bind at 1.
      cbn [info set_sg set_info sg SharedInfo.durability
           SharedInfo.set_shared_controlmutex].
      rewrite Hdb. reflexivity. }
    unfold join_refused. cbn. rewrite controlmutex_lock_unlock by done.
    by split_and!.
  - intros Hd Hh.
    assert (Hdb : (SharedInfo.durability (info w) =? opt_durability options) = true)
      by (by apply Z.eqb_eq).
    assert (Hhb : (SharedInfo.history_type (info w) =? hist) = false)
      by (by apply Z.eqb_neq).
    eexists. split.
    { apply Hopen. unfold join_session. apply with_controlmutex_throws; [done|].
      unfold wj, w0.
      unfold bind at 1. rewrite on_readers_num_entries.
      unfold bind at 1. rewrite on_sg_run.
      unfold bind at 1, get_state at 1.
      cbn [info set_sg set_info sg SharedInfo.num_participants
           SharedInfo.set_shared_controlmutex].
      rewrite Hne, Hattach.
      unfold bind at 1. rewrite on_sg_run. unfold bind at 1. rewrite on_sg_run.
      cbv zeta. unfold bind at 1.
      cbn [info set_sg set_info sg SharedInfo.durability SharedInfo.history_type
           SharedInfo.set_shared_controlmutex].
      rewrite Hdb, Hhb. reflexivity. }
    unfold join_refused. cbn. rewrite controlmutex_lock_unlock by done.
    by split_and!.
Qed.

End JoinChecks.

(** ** Opening a session as its first participant *)

Section FirstParticipant.
Import SharedGroup.

Variable env : Collaborators.

Lemma fresh_ring_shape :
  Ringbuffer.entries SharedInfo.fresh_ring = 32 /\
  Ringbuffer.put_pos SharedInfo.fresh_ring = 0 /\
  Ringbuffer.old_pos SharedInfo.fresh_ring = 0 /\
  Ringbuffer.slot (Ringbuffer.data SharedInfo.fresh_ring) 0 =
    Some (ReadCount.mk 1 0 0 0 1).
Proof. by vm_compute. Qed.

Lemma fresh_ring_inv : Ringbuffer.ring_at SharedInfo.fresh_ring [] (seqZ 1 31).
Proof.
  assert (H : exists rb, rb = SharedInfo.fresh_ring /\
                         Ringbuffer.ring_at rb [] (seqZ 1 31)).
  { eexists. split; [vm_compute; reflexivity|]. concrete_ring. }
  destruct H as (rb & -> & H). exact H.
Qed.

Lemma initial_info_fields options hist :
  0 <= sizeof_mutex env < 2 ^ 8 ->
  0 <= sizeof_condvar env < 2 ^ 8 ->
  SharedInfo.shared_info_version (initial_info env options hist) = g_shared_info_version /\
  SharedInfo.size_of_mutex (initial_info env options hist) = sizeof_mutex env /\
  SharedInfo.size_of_condvar (initial_info env options hist) = sizeof_condvar env /\
  SharedInfo.init_complete (initial_info env options hist) = 1 /\
  SharedInfo.num_participants (initial_info env options hist) = 0 /\
  SharedInfo.shared_controlmutex (initial_info env options hist) = false /\
  SharedInfo.durability (initial_info env options hist) = opt_durability options /\
  SharedInfo.history_type (initial_info env options hist) = hist /\
  SharedInfo.commit_in_critical_phase (initial_info env options hist) = 0 /\
  SharedInfo.readers (initial_info env options hist) = SharedInfo.fresh_ring.
Proof.
  intros Hm Hc. split_and!; try reflexivity.
  - change (sizeof_mutex env mod 2 ^ 8 = sizeof_mutex env). by apply Z.mod_small.
  - change (sizeof_condvar env mod 2 ^ 8 = sizeof_condvar env). by apply Z.mod_small.
Qed.

Lemma do_open_attempt_initiates fuel no_create options hist w :
  other_lockers w = 0 ->
  0 < sizeof_SharedInfo env ->
  0 <= sizeof_mutex env < 2 ^ 8 ->
  0 <= sizeof_condvar env < 2 ^ 8 ->
  controlmutex_valid env = true ->
  do_open_attempt env fuel no_create options hist w =
    guarded (join_session env fuel no_create options hist)
      (set_sg (set_m_file_map_attached true (set_m_file_locked true (sg w)))
         (set_info (initial_info env options hist)
            (set_lockfile_size (sizeof_SharedInfo env) w))).
Proof.
  intros Hothers Hsize Hmutex Hcond Hvalid.
  unfold do_open_attempt, bind at 1, get_state at 1. rewrite Hothers.
  change (0 =? 0) with true. cbv iota.
  unfold bind at 1, bind at 1, modify at 1.
  unfold bind at 1, modify at 1. unfold bind at 1, modify at 1.
  rewrite on_info_modify_run.
  unfold bind at 1. rewrite on_sg_run.
  unfold guarded, bind at 1, get_state at 1.
  cbn [lockfile_size set_sg set_info set_lockfile_size info sg].
  rewrite Z.ltb_irrefl, andb_false_l. cbv zeta.
  unfold bind at 1. rewrite on_sg_run.
  cbn [lockfile_size set_sg set_info set_lockfile_size info sg].
  fold (initial_info env options hist).
  destruct (initial_info_fields options hist Hmutex Hcond)
    as (Hv & Hm & Hc & Hi & _).
  rewrite Hi. change (1 =? 0) with false. cbv iota.
  unfold bind at 1. change (1 =? 1) with true. rewrite REALM_ASSERT_holds.
  rewrite Z.ltb_irrefl, Hv, Hm, Hc.
  rewrite !Z.eqb_refl, Hvalid.
  cbn [negb]. reflexivity.
Qed.

Lemma init_versioning_run top fs v w r :
  Ringbuffer.slot (Ringbuffer.data (ring w)) (Ringbuffer.put_pos (ring w)) = Some r ->
  on_info (SharedInfo.init_versioning top fs v) w =
    Ret tt (set_slot (Ringbuffer.put_pos (ring w)) (first_entry top fs v r) w).
Proof.
  intros Hr. unfold set_slot, set_ring, ring in *.
  destruct w as [g sz i o l]. cbn [info] in *.
  destruct i. cbn [SharedInfo.readers] in *.
  destruct readers as [e pp op d]. cbn [Ringbuffer.data Ringbuffer.put_pos] in *.
  pose proof slot_insert_eq as Hins.
  unfold on_info, zoom, SharedInfo.init_versioning, SharedInfo.on_readers, zoom,
    Ringbuffer.reinit_last, Ringbuffer.last, Ringbuffer.update, bind, get_state, ret.
  cbn. rewrite Hr. cbn.
  rewrite (Hins _ _ _ _ Hr). cbn.
  rewrite (Hins _ _ _ (ReadCount.set_filesize fs (ReadCount.set_count 0 r))
             (Hins _ _ _ (ReadCount.set_count 0 r) Hr)). cbn.
  rewrite (Hins _ _ _ (ReadCount.set_version v
                         (ReadCount.set_filesize fs (ReadCount.set_count 0 r)))
             (Hins _ _ _ (ReadCount.set_filesize fs (ReadCount.set_count 0 r))
                (Hins _ _ _ (ReadCount.set_count 0 r) Hr))).
  cbn. rewrite !list_insert_insert_eq. reflexivity.
Qed.

Lemma latest_snapshot_mapped n w r :
  Ringbuffer.slot (Ringbuffer.data (ring w)) (Ringbuffer.put_pos (ring w)) = Some r ->
  Z.even (ReadCount.count r) = true ->
  is_u32 (ReadCount.count r) ->
  Ringbuffer.put_pos (ring w) < m_local_max_entry (sg w) ->
  get_version_of_latest_snapshot (S n) w = Ret (ReadCount.version r) w.
Proof.
  intros Hr Heven Hu32 Hpp.
  unfold get_version_of_latest_snapshot. cbn [latest_snapshot_loop last_mapped].
  unfold bind at 1, bind at 1. rewrite on_readers_last.
  unfold bind at 1. rewrite grow_reader_mapping_no by done.
  unfold ret at 1. unfold bind at 1. rewrite (on_readers_get _ _ _ Hr).
  rewrite (double_inc_even _ Heven).
  unfold bind at 1. rewrite (on_readers_update _ _ _ _ Hr).
  change (negb true) with false. cbv iota.
  pose proof (slot_set_slot_eq w _ r (pinned r) Hr) as Hp.
  unfold bind at 1. fold (pinned r). rewrite (on_readers_get _ _ _ Hp).
  unfold bind at 1. rewrite (on_readers_update _ _ _ _ Hp).
  rewrite unpin_pinned by done.
  by rewrite set_slot_twice, (set_slot_same _ _ _ Hr).
Qed.

Lemma set_initiator_if (b : bool) p w :
  (if b then on_info (modify (SharedInfo.set_session_initiator_pid p)) else ret tt) w =
    Ret tt (set_info (SharedInfo.set_session_initiator_pid
                        (if b then p else SharedInfo.session_initiator_pid (info w))
                        (info w)) w).
Proof.
  destruct b; [done|]. unfold ret. f_equal.
  destruct w as [g sz i o l]. cbn. by destruct i.
Qed.

Lemma join_session_initiates n no_create options hist w r top_ref :
  SharedInfo.shared_controlmutex (info w) = false ->
  SharedInfo.num_participants (info w) = 0 ->
  Ringbuffer.slot (Ringbuffer.data (ring w)) (Ringbuffer.put_pos (ring w)) = Some r ->
  Ringbuffer.put_pos (ring w) < Ringbuffer.entries (ring w) ->
  attach_file env true = attached top_ref ->
  good_history_type hist (stored_history_type env) top_ref = true ->
  replication env = None ->
  async_daemon env && (opt_durability options =? durability_code Async) = false ->
  let target :=
    target_file_format_version env (stored_file_format_version env) hist in
  exists w',
    join_session env (S n) no_create options hist w = Ret (attempt_opened target) w' /\
    sg w' =
      set_m_wait_for_change_enabled true
        (set_m_read_lock (set_m_version (stored_version env) (m_read_lock (sg w)))
           (set_m_file_format_version (stored_file_format_version env)
              (set_m_alloc_attached true
                 (set_m_local_max_entry (Ringbuffer.entries (ring w)) (sg w))))) /\
    ring w' =
      Ringbuffer.set_data
        (<[Z.to_nat (Ringbuffer.put_pos (ring w)) :=
             first_entry top_ref (get_baseline env) (stored_version env) r]>
           (Ringbuffer.data (ring w))) (ring w) /\
    SharedInfo.num_participants (info w') = 1 /\
    SharedInfo.number_of_versions (info w') = 1 /\
    SharedInfo.latest_version_number (info w') = stored_version env /\
    SharedInfo.file_format_version (info w') = target mod 2 ^ 8 /\
    SharedInfo.session_initiator_pid (info w') =
      (if encryption_key options then getpid env
       else SharedInfo.session_initiator_pid (info w)) /\
    SharedInfo.shared_controlmutex (info w') = false /\
    SharedInfo.init_complete (info w') = SharedInfo.init_complete (info w) /\
    SharedInfo.commit_in_critical_phase (info w') =
      SharedInfo.commit_in_critical_phase (info w) /\
    SharedInfo.durability (info w') = SharedInfo.durability (info w) /\
    SharedInfo.history_type (info w') = SharedInfo.history_type (info w) /\
    lockfile_size w' = lockfile_size w /\
    other_lockers w' = other_lockers w /\
    fs_log w' = fs_log w.
Proof.
  intros Hfree Hnone Hr Hpp Hattach Hgood Hrepl Hasync target.
  eexists. split.
  - unfold join_session. apply with_controlmutex_returns; [done|].
    unfold bind at 1. rewrite on_readers_num_entries.
    unfold bind at 1. rewrite on_sg_run.
    unfold bind at 1, get_state at 1.
    cbn [info set_sg set_info sg SharedInfo.num_participants
         SharedInfo.set_shared_controlmutex].
    rewrite Hnone. change (0 =? 0) with true. rewrite Hattach.
    unfold bind at 1. rewrite on_sg_run. unfold bind at 1. rewrite on_sg_run.
    cbv zeta. cbv iota. rewrite Hgood, Hrepl. cbn [negb].
    unfold bind at 1, bind at 1, bind at 1, ret at 1.
    unfold bind at 1, ret at 1.
    unfold bind at 1. rewrite set_initiator_if.
    unfold bind at 1. rewrite on_info_modify_run.
    unfold bind at 1. rewrite on_info_modify_run.
    unfold bind at 1. rewrite on_info_modify_run.
    cbn [info set_sg set_info sg].
    unfold bind at 1. rewrite (init_versioning_run _ _ _ _ r) by exact Hr.
    unfold ret at 1.
    unfold bind at 1. rewrite Hasync, andb_false_l. unfold ret at 1.
    unfold bind at 1.
    rewrite (latest_snapshot_mapped n _
               (first_entry top_ref (get_baseline env) (stored_version env) r));
      [| eapply slot_set_slot_eq; exact Hr | reflexivity
       | unfold is_u32; cbn; lia | exact Hpp ].
    unfold bind at 1, get_state at 1.
    unfold bind at 1. rewrite on_sg_run.
    unfold bind at 1. rewrite on_info_modify_run.
    unfold bind at 1. rewrite on_sg_run.
    unfold ret.
    reflexivity.
  - split_and!; try reflexivity.
    cbn [info set_sg set_info sg set_slot set_ring SharedInfo.num_participants
         SharedInfo.set_num_participants SharedInfo.set_shared_controlmutex
         SharedInfo.set_readers SharedInfo.set_latest_version_number
         SharedInfo.set_number_of_versions SharedInfo.set_file_format_version
         SharedInfo.set_session_initiator_pid].
    by rewrite Hnone.
Qed.

Lemma set_m_file_format_version_same g v :
  m_file_format_version g = v -> set_m_file_format_version v g = g.
Proof. intros <-. by destruct g. Qed.

(** X16.  Opening as the first participant starts a new session, whatever
    the lock file held.  When nobody else holds the lock file, the
    database can be attached, its history type is None, no replication is
    installed, the durability is not Async and the file needs no format
    upgrade, [do_open] returns: the participant is attached, in Ready and
    bound to the version stored in the database; the header is rebuilt
    from zero ([init_complete] is 1, one participant, one version, no
    commit in a critical phase, both mutexes free), and the ring is the
    constructor's ring with slot 0 holding the stored version, the
    baseline and the top ref, unpinned. *)
Theorem do_open_initiates_session (fuel : nat) (path : string) (no_create : bool)
    (options : SharedGroupOptions) (w : World) (top_ref : Z) :
  let target :=
    target_file_format_version env (stored_file_format_version env) hist_None in
  (1 <= fuel)%nat ->
  is_attached w = false ->
  other_lockers w = 0 ->
  opt_durability options <> durability_code Async ->
  0 < sizeof_SharedInfo env ->
  0 <= sizeof_mutex env < 2 ^ 8 ->
  0 <= sizeof_condvar env < 2 ^ 8 ->
  controlmutex_valid env = true ->
  replication env = None ->
  attach_file env true = attached top_ref ->
  stored_history_type env = hist_None ->
  stored_file_format_version env = 0 \/ stored_file_format_version env = target ->
  exists w',
    do_open env fuel path no_create options w = Ret tt w' /\
    (is_attached w' = true /\
     m_alloc_attached (sg w') = true /\
     m_file_locked (sg w') = true /\
     m_transact_stage (sg w') = transact_Ready /\
     m_file_format_version (sg w') = target /\
     m_version (m_read_lock (sg w')) = stored_version env /\
     m_db_path (sg w') = path) /\
    (lockfile_size w' = sizeof_SharedInfo env /\
     SharedInfo.init_complete (info w') = 1 /\
     SharedInfo.num_participants (info w') = 1 /\
     SharedInfo.number_of_versions (info w') = 1 /\
     SharedInfo.latest_version_number (info w') = stored_version env /\
     SharedInfo.commit_in_critical_phase (info w') = 0 /\
     SharedInfo.durability (info w') = opt_durability options /\
     SharedInfo.history_type (info w') = hist_None /\
     SharedInfo.shared_controlmutex (info w') = false) /\
    (Ringbuffer.ring_at (ring w') [] (seqZ 1 31) /\
     Ringbuffer.put_pos (ring w') = 0 /\
     Ringbuffer.slot (Ringbuffer.data (ring w')) 0 =
       Some (ReadCount.mk (stored_version env) (get_baseline env) top_ref 0 1)) /\
    fs_log w' = fs_log w.
Proof.
  intros target Hfuel Hatt Halone Hdura Hsize Hmutex Hcond Hvalid Hrepl Hattach
    Hhist Hformat.
  destruct fuel as [|n]; [lia|].
  set (w0 := set_sg (set_m_key (encryption_key options)
                       (set_m_db_path path (sg w))) w).
  set (wj := set_sg (set_m_file_map_attached true (set_m_file_locked true (sg w0)))
               (set_info (initial_info env options hist_None)
                  (set_lockfile_size (sizeof_SharedInfo env) w0))).
  destruct (initial_info_fields options hist_None Hmutex Hcond)
    as (_ & _ & _ & Hinit & Hnone & Hctl & Hd & Hh & Hflag & Hring).
  destruct fresh_ring_shape as (Hentries & Hput & Hold & Hslot0).
  assert (Hasync : async_daemon env &&
                   (opt_durability options =? durability_code Async) = false).
  { rewrite andb_false_iff. right. by apply Z.eqb_neq. }
  assert (Hgood : good_history_type hist_None (stored_history_type env) top_ref = true)
    by (by rewrite Hhist).
  destruct (join_session_initiates n no_create options hist_None wj
              (ReadCount.mk 1 0 0 0 1) top_ref)
    as (w1 & Hjoin & Hsg & Hring1 & Hnum & Hnov & Hlatest & _ & _ & Hctl1 & Hinit1
        & Hflag1 & Hd1 & Hh1 & Hsize1 & _ & Hlog1);
    [ exact Hctl | exact Hnone
    | change (ring wj) with SharedInfo.fresh_ring; rewrite Hput; exact Hslot0
    | change (ring wj) with SharedInfo.fresh_ring; rewrite Hput, Hentries; lia
    | exact Hattach | exact Hgood | exact Hrepl | exact Hasync | ].
  assert (Hasync2 : negb (async_daemon env) &&
                    (opt_durability options =? durability_code Async) = false).
  { rewrite andb_false_iff. right. by apply Z.eqb_neq. }
  assert (Hopen : do_open env (S n) path no_create options w =
    catch_rethrow
      (w' <- get_state ;;
       if m_file_format_version (sg w') =? 0 then
         on_sg (set_m_file_format_version target)
       else upgrade_file_format env (S n) (allow_file_format_upgrade options) target)
      (close env) (set_sg (set_m_transact_stage transact_Ready (sg w1)) w1)).
  { unfold do_open, bind at 1, get_state at 1. rewrite Hatt.
    unfold bind at 1. rewrite REALM_ASSERT_holds.
    unfold bind at 1. rewrite Hasync2. unfold ret at 1.
    unfold bind at 1. rewrite on_sg_run. unfold bind at 1. rewrite on_sg_run.
    cbv zeta. rewrite Hrepl.
    change (set_sg (set_m_key _ _) _) with w0. cbn [do_open_loop].
    unfold bind at 1, bind at 1.
    rewrite (do_open_attempt_initiates (S n) no_create options hist_None w0
               Halone Hsize Hmutex Hcond Hvalid).
    fold wj. unfold guarded. rewrite Hjoin.
    unfold ret at 1. unfold bind at 1. rewrite on_sg_run. reflexivity. }
  set (w2 := set_sg (set_m_transact_stage transact_Ready (sg w1)) w1) in Hopen.
  assert (Hprops : forall w',
    sg w' = set_m_file_format_version target (sg w2) ->
    info w' = info w1 -> lockfile_size w' = lockfile_size w1 ->
    fs_log w' = fs_log w1 ->
    (is_attached w' = true /\
     m_alloc_attached (sg w') = true /\
     m_file_locked (sg w') = true /\
     m_transact_stage (sg w') = transact_Ready /\
     m_file_format_version (sg w') = target /\
     m_version (m_read_lock (sg w')) = stored_version env /\
     m_db_path (sg w') = path) /\
    (lockfile_size w' = sizeof_SharedInfo env /\
     SharedInfo.init_complete (info w') = 1 /\
     SharedInfo.num_participants (info w') = 1 /\
     SharedInfo.number_of_versions (info w') = 1 /\
     SharedInfo.latest_version_number (info w') = stored_version env /\
     SharedInfo.commit_in_critical_phase (info w') = 0 /\
     SharedInfo.durability (info w') = opt_durability options /\
     SharedInfo.history_type (info w') = hist_None /\
     SharedInfo.shared_controlmutex (info w') = false) /\
    (Ringbuffer.ring_at (ring w') [] (seqZ 1 31) /\
     Ringbuffer.put_pos (ring w') = 0 /\
     Ringbuffer.slot (Ringbuffer.data (ring w')) 0 =
       Some (ReadCount.mk (stored_version env) (get_baseline env) top_ref 0 1)) /\
    fs_log w' = fs_log w).
  { intros w' Hs Hi Hl Hf. split; [|split; [|split]].
    - unfold is_attached. rewrite Hs. unfold w2.
      cbn [sg set_sg]. rewrite Hsg. by split_and!.
    - rewrite Hl, Hi, Hsize1, Hnum, Hnov, Hlatest, Hflag1, Hd1, Hh1, Hctl1, Hinit1.
      change (info wj) with (initial_info env options hist_None).
      rewrite Hinit, Hflag, Hd, Hh. by split_and!.
    - unfold ring at 1 2 3. rewrite Hi. fold (ring w1). rewrite Hring1.
      change (ring wj) with SharedInfo.fresh_ring. rewrite Hput.
      split; [|split].
      + rewrite <- Hput.
        apply (ring_at_payload _ _ _ _ (ReadCount.mk 1 0 0 0 1));
          [ exact fresh_ring_inv | rewrite Hput; exact Hslot0
          | reflexivity | reflexivity ].
      + exact Hput.
      + change (Some (ReadCount.mk (stored_version env) (get_baseline env) top_ref 0 1))
          with (Some (first_entry top_ref (get_baseline env) (stored_version env)
                        (ReadCount.mk 1 0 0 0 1))).
        cbn [Ringbuffer.data Ringbuffer.set_data].
        exact (slot_insert_eq _ _ _ _ Hslot0).
    - by rewrite Hf, Hlog1. }
  assert (Hstored : m_file_format_version (sg w2) = stored_file_format_version env).
  { unfold w2. cbn [sg set_sg]. by rewrite Hsg. }
  rewrite Hopen. unfold catch_rethrow, bind at 1, get_state at 1.
  destruct (Z.eqb_spec (m_file_format_version (sg w2)) 0) as [Hzero|Hnonzero].
  - rewrite on_sg_run. eexists. split; [reflexivity|]. by apply Hprops.
  - assert (Htarget : m_file_format_version (sg w2) = target)
      by (destruct Hformat; congruence).
    unfold upgrade_file_format, bind at 1, get_state at 1. cbv zeta.
    rewrite Htarget, Z.leb_refl, Z.ltb_irrefl.
    unfold bind at 1. rewrite REALM_ASSERT_holds.
    exists w2. split; [reflexivity|]. apply Hprops; try reflexivity.
    symmetry. by apply set_m_file_format_version_same.
Qed.

End FirstParticipant.
(** ** The commit daemon *)

Section Daemon.
Import SharedGroup.

Variable env : Collaborators.

Lemma even_wrap32 z : Z.even (wrap32 z) = Z.even z.
Proof.
  unfold wrap32. rewrite Z.mod_eq by lia.
  rewrite Z.even_sub, Z.even_mul. reflexivity || (simpl; by destruct (Z.even z)).
Qed.

Lemma pinned_live r : Ringbuffer.is_live r = true -> Ringbuffer.is_live (pinned r) = true.
Proof.
  unfold Ringbuffer.is_live, pinned. cbn [ReadCount.count ReadCount.set_count].
  rewrite !land_1_even, even_wrap32, Z.even_add. intros ->. reflexivity.
Qed.

Lemma release_read_lock_mapped l w r :
  m_reader_idx l < m_local_max_entry (sg w) ->
  Ringbuffer.slot (Ringbuffer.data (ring w)) (m_reader_idx l) = Some r ->
  release_read_lock l w =
    Ret tt (set_slot (m_reader_idx l)
              (ReadCount.set_count (atomic_double_dec (ReadCount.count r)) r) w).
Proof.
  intros Hmapped Hr.
  unfold release_read_lock, noexcept, bind at 1.
  rewrite grow_reader_mapping_no by done.
  unfold bind at 1. rewrite (on_readers_get w _ r) by done.
  by rewrite (on_readers_update w _ _ r) by done.
Qed.

Lemma grab_local_latest n l w r :
  Ringbuffer.put_pos (ring w) < m_local_max_entry (sg w) ->
  Ringbuffer.slot (Ringbuffer.data (ring w)) (Ringbuffer.put_pos (ring w)) = Some r ->
  Ringbuffer.is_live r = true ->
  grab_local_read_lock (S n) l VersionID_latest w =
    Ret (lock_on (Ringbuffer.put_pos (ring w)) r)
        (set_slot (Ringbuffer.put_pos (ring w)) (pinned r) w).
Proof.
  intros Hmapped Hr Hlive. unfold grab_local_read_lock, grab_read_lock.
  change (version VersionID_latest =? max_version) with true. cbv iota.
  by rewrite (grab_latest_pins n l w r Hmapped Hr Hlive).
Qed.

Lemma with_writemutex_returns {A} (m : M World A) w a w1 :
  SharedInfo.shared_writemutex (info w) = false ->
  m (set_info (SharedInfo.set_shared_writemutex true (info w)) w) = Ret a w1 ->
  with_writemutex m w =
    Ret a (set_info (SharedInfo.set_shared_writemutex false (info w1)) w1).
Proof.
  intros Hfree Hm.
  unfold with_writemutex, bind at 1, lock, bind at 1, get_state at 1.
  rewrite Hfree, on_info_modify_run. unfold finally. by rewrite Hm.
Qed.

(** A round of the daemon that finds nothing new and nobody else. *)
Lemma daemon_round_exits n m k is_removed shutdown w q :
  Ringbuffer.slot (Ringbuffer.data (ring w)) (Ringbuffer.put_pos (ring w)) = Some q ->
  Ringbuffer.is_live q = true ->
  is_u32 (ReadCount.count q) ->
  Ringbuffer.put_pos (ring w) < m_local_max_entry (sg w) ->
  SharedInfo.shared_writemutex (info w) = false ->
  SharedInfo.shared_controlmutex (info w) = false ->
  m_reader_idx (m_read_lock (sg w)) = Ringbuffer.put_pos (ring w) ->
  m_version (m_read_lock (sg w)) = ReadCount.version q ->
  is_removed k = true \/ shutdown = true \/ SharedInfo.num_participants (info w) = 1 ->
  exists w',
    async_commit_loop env (S n) is_removed (S m) k shutdown w = Ret tt w' /\
    ring w' =
      Ringbuffer.set_data
        (<[Z.to_nat (Ringbuffer.put_pos (ring w)) :=
             ReadCount.set_count (atomic_double_dec (ReadCount.count q)) q]>
           (Ringbuffer.data (ring w))) (ring w) /\
    SharedInfo.daemon_started (info w') = 0 /\
    SharedInfo.daemon_ready (info w') = 0 /\
    SharedInfo.free_write_slots (info w') = SharedInfo.free_write_slots (info w) /\
    SharedInfo.num_participants (info w') = SharedInfo.num_participants (info w) /\
    SharedInfo.latest_version_number (info w') =
      SharedInfo.latest_version_number (info w) /\
    SharedInfo.shared_writemutex (info w') = false /\
    SharedInfo.shared_controlmutex (info w') = false /\
    sg w' = sg w /\
    fs_log w' = fs_log w.
Proof.
  intros Hq Hlive Hu32 Hmapped Hwm Hcm Hidx Hver Halone.
  set (pp := Ringbuffer.put_pos (ring w)) in *.
  set (w1 := set_info (SharedInfo.set_shared_controlmutex true
                         (SharedInfo.set_shared_writemutex true (info w))) w).
  assert (Hexit : (if is_removed k then true else shutdown)
                  || (SharedInfo.num_participants (info w) =? 1) = true).
  { destruct Halone as [->| [->| ->]]; [done| |].
    - by destruct (is_removed k).
    - by rewrite orb_true_r. }
  eexists. split.
  - cbn [async_commit_loop]. unfold bind at 1, get_state at 1.
    unfold bind at 1.
    erewrite with_writemutex_returns; [| exact Hwm | ]; cycle 1.
    { erewrite with_controlmutex_returns; [| exact Hcm | ]; cycle 1.
      { fold w1. unfold bind at 1.
        rewrite (grab_local_latest n _ w1 q Hmapped Hq Hlive).
        change (Ringbuffer.put_pos (ring w1)) with pp.
        unfold bind at 1, get_state at 1.
        change (m_version (lock_on pp q)) with (ReadCount.version q).
        rewrite Hver, Z.eqb_refl.
        change (SharedInfo.num_participants (info (set_slot pp (pinned q) w1)))
          with (SharedInfo.num_participants (info w)).
        rewrite Hexit. cbn [andb].
        unfold bind at 1.
        rewrite (release_read_lock_mapped _ _ (pinned q));
          [| exact Hmapped | by apply (slot_set_slot_eq w1 pp q) ].
        rewrite unpin_pinned by done.
        change (m_reader_idx (lock_on pp q)) with pp.
        rewrite set_slot_twice, (set_slot_same w1 pp q) by exact Hq.
        unfold bind at 1, get_state at 1. unfold bind at 1.
        rewrite (release_read_lock_mapped _ _ q);
          [| change (sg w1) with (sg w); rewrite Hidx; exact Hmapped
           | change (sg w1) with (sg w); rewrite Hidx; exact Hq ].
        unfold bind at 1. rewrite on_info_modify_run.
        unfold bind at 1. rewrite on_info_modify_run.
        reflexivity. }
      reflexivity. }
    reflexivity.
  - change (sg w1) with (sg w). rewrite Hidx. fold pp.
    split_and!; reflexivity.
Qed.

(** X17.  The commit daemon leaves when it is alone.  A daemon whose
    mapping covers the latest slot and that finds the two mutexes
    available ends [do_async_commits] in its first round when it is the
    only participant left, or when the lock file was removed, provided no
    commit arrived: nothing is written, both pins it took are given back
    (the ring is the one it found), [daemon_started] and [daemon_ready] are
    cleared, the write slots are refilled and both mutexes are free again.
    It does not lower [num_participants]. *)
Theorem daemon_exits_when_alone (fuel : nat) (is_removed : nat -> bool)
    (w : World) (r : ReadCount.t) :
  (1 <= fuel)%nat ->
  Ringbuffer.slot (Ringbuffer.data (ring w)) (Ringbuffer.put_pos (ring w)) = Some r ->
  Ringbuffer.is_live r = true ->
  is_u32 (ReadCount.count r) ->
  Ringbuffer.put_pos (ring w) < m_local_max_entry (sg w) ->
  SharedInfo.shared_writemutex (info w) = false ->
  SharedInfo.shared_controlmutex (info w) = false ->
  is_removed 0%nat = true \/ SharedInfo.num_participants (info w) = 1 ->
  exists w',
    do_async_commits env fuel is_removed w = Ret tt w' /\
    ring w' = ring w /\
    SharedInfo.daemon_started (info w') = 0 /\
    SharedInfo.daemon_ready (info w') = 0 /\
    SharedInfo.free_write_slots (info w') = max_write_slots /\
    SharedInfo.num_participants (info w') = SharedInfo.num_participants (info w) /\
    SharedInfo.latest_version_number (info w') =
      SharedInfo.latest_version_number (info w) /\
    SharedInfo.shared_writemutex (info w') = false /\
    SharedInfo.shared_controlmutex (info w') = false /\
    m_read_lock (sg w') = lock_on (Ringbuffer.put_pos (ring w)) r /\
    m_group_attached (sg w') = false /\
    fs_log w' = fs_log w.
Proof.
  intros Hfuel Hr Hlive Hu32 Hmapped Hwm Hcm Halone.
  destruct fuel as [|n]; [lia|].
  set (pp := Ringbuffer.put_pos (ring w)) in *.
  assert (Hgrab : grab_own_read_lock (S n) VersionID_latest w =
            Ret tt (set_sg (set_m_read_lock (lock_on pp r) (sg w))
                      (set_slot pp (pinned r) w))).
  { unfold grab_own_read_lock, zoom, grab_read_lock.
    change (version VersionID_latest =? max_version) with true. cbv iota.
    by rewrite (grab_latest_pins n _ w r Hmapped Hr Hlive). }
  set (wa := set_sg (set_m_group_attached false
                       (set_m_read_lock (lock_on pp r) (sg w)))
               (set_info (SharedInfo.set_daemon_ready 1
                            (SharedInfo.set_free_write_slots max_write_slots
                               (info (set_slot pp (pinned r) w)))) w)).
  assert (Hstart : do_async_commits env (S n) is_removed w =
                   async_commit_loop env (S n) is_removed (S n) 0 false wa).
  { unfold do_async_commits. unfold bind at 1. rewrite Hgrab.
    unfold bind at 1.
    erewrite with_controlmutex_returns; [| exact Hcm | ]; cycle 1.
    { unfold bind at 1. rewrite on_info_modify_run. rewrite on_info_modify_run.
      reflexivity. }
    unfold bind at 1. rewrite on_sg_run. f_equal.
    unfold wa. destruct w as [g sz i o l]. cbn in Hcm |- *.
    destruct i. cbn in Hcm |- *. by subst. }
  assert (Hsa : Ringbuffer.slot (Ringbuffer.data (ring wa))
                  (Ringbuffer.put_pos (ring wa)) = Some (pinned r))
    by (by apply (slot_set_slot_eq w pp r)).
  assert (Hu32' : is_u32 (ReadCount.count (pinned r))) by apply wrap32_range.
  assert (Halone' : is_removed 0%nat = true \/ false = true \/
                    SharedInfo.num_participants (info wa) = 1)
    by (destruct Halone; auto).
  destruct (daemon_round_exits n n 0%nat is_removed false wa (pinned r)
              Hsa (pinned_live r Hlive) Hu32' Hmapped Hwm Hcm eq_refl eq_refl Halone')
    as (w' & Hrun & Hring & Hstarted & Hready & Hslots & Hnum & Hlatest & Hwm'
        & Hcm' & Hsg & Hlog).
  exists w'. rewrite Hstart.
  split; [exact Hrun|]. split.
  - rewrite Hring, unpin_pinned by done.
    change (Ringbuffer.put_pos (ring wa)) with pp.
    change (Ringbuffer.data (ring wa))
      with (<[Z.to_nat pp := pinned r]> (Ringbuffer.data (ring w))).
    rewrite list_insert_insert_eq.
    apply slot_Some in Hr as [_ Hr]. rewrite list_insert_id by exact Hr.
    change (ring wa)
      with (Ringbuffer.set_data (<[Z.to_nat pp := pinned r]> (Ringbuffer.data (ring w)))
              (ring w)).
    by destruct (ring w).
  - rewrite Hsg, Hlog. by split_and!.
Qed.

End Daemon.
(** ** Joining a running session *)

Section JoinSession.
Import SharedGroup.

Variable env : Collaborators.

(** [do_open] once an iteration of its loop has ended in [break]. *)
Lemma do_open_after_break n path no_create options w w1 target :
  let hist := match replication env with
              | Some repl => get_history_type repl
              | None => hist_None
              end in
  is_attached w = false ->
  negb (async_daemon env) && (opt_durability options =? durability_code Async) = false ->
  do_open_attempt env (S n) no_create options hist
    (set_sg (set_m_key (encryption_key options) (set_m_db_path path (sg w))) w) =
    Ret (attempt_opened target) w1 ->
  m_file_format_version (sg w1) = 0 \/ m_file_format_version (sg w1) = target ->
  exists w',
    do_open env (S n) path no_create options w = Ret tt w' /\
    sg w' = set_m_file_format_version target
              (set_m_transact_stage transact_Ready (sg w1)) /\
    info w' = info w1 /\ lockfile_size w' = lockfile_size w1 /\
    other_lockers w' = other_lockers w1 /\ fs_log w' = fs_log w1.
Proof.
  intros hist Hatt Hasync Hloop Hformat.
  set (w2 := set_sg (set_m_transact_stage transact_Ready (sg w1)) w1).
  assert (Hopen : do_open env (S n) path no_create options w =
    catch_rethrow
      (w' <- get_state ;;
       if m_file_format_version (sg w') =? 0 then
         on_sg (set_m_file_format_version target)
       else upgrade_file_format env (S n) (allow_file_format_upgrade options) target)
      (close env) w2).
  { unfold do_open, bind at 1, get_state at 1. rewrite Hatt.
    unfold bind at 1. rewrite REALM_ASSERT_holds.
    unfold bind at 1. rewrite Hasync. unfold ret at 1.
    unfold bind at 1. rewrite on_sg_run. unfold bind at 1. rewrite on_sg_run.
    cbv zeta. fold hist. cbn [do_open_loop].
    unfold bind at 1, bind at 1.
    change (sg (set_sg (set_m_db_path path (sg w)) w)) with (set_m_db_path path (sg w)).
    change (set_sg (set_m_key (encryption_key options) (set_m_db_path path (sg w)))
              (set_sg (set_m_db_path path (sg w)) w))
      with (set_sg (set_m_key (encryption_key options) (set_m_db_path path (sg w))) w).
    rewrite Hloop. unfold ret at 1.
    unfold bind at 1. rewrite on_sg_run. reflexivity. }
  rewrite Hopen. unfold catch_rethrow, bind at 1, get_state at 1.
  change (m_file_format_version (sg w2)) with (m_file_format_version (sg w1)).
  destruct (Z.eqb_spec (m_file_format_version (sg w1)) 0) as [Hzero|Hnonzero].
  - rewrite on_sg_run. eexists. split; [reflexivity|]. by split_and!.
  - assert (Htarget : m_file_format_version (sg w1) = target)
      by (destruct Hformat; congruence).
    unfold upgrade_file_format, bind at 1, get_state at 1. cbv zeta.
    change (m_file_format_version (sg w2)) with (m_file_format_version (sg w1)).
    rewrite Htarget, Z.leb_refl, Z.ltb_irrefl.
    unfold bind at 1. rewrite REALM_ASSERT_holds.
    exists w2. split; [reflexivity|]. split_and!; try reflexivity.
    symmetry. by apply set_m_file_format_version_same.
Qed.

Lemma join_session_joins n no_create options hist w r top_ref :
  SharedInfo.shared_controlmutex (info w) = false ->
  SharedInfo.num_participants (info w) <> 0 ->
  Ringbuffer.slot (Ringbuffer.data (ring w)) (Ringbuffer.put_pos (ring w)) = Some r ->
  Ringbuffer.is_live r = true ->
  is_u32 (ReadCount.count r) ->
  Ringbuffer.put_pos (ring w) < Ringbuffer.entries (ring w) ->
  attach_file env false = attached top_ref ->
  SharedInfo.durability (info w) = opt_durability options ->
  SharedInfo.history_type (info w) = hist ->
  encryption_key options
    && negb (SharedInfo.session_initiator_pid (info w) =? getpid env) = false ->
  SharedInfo.file_format_version (info w) =
    target_file_format_version env (stored_file_format_version env) hist ->
  async_daemon env && (opt_durability options =? durability_code Async)
    && (SharedInfo.daemon_ready (info w) =? 0) = false ->
  join_session env (S n) no_create options hist w =
    Ret (attempt_opened
           (target_file_format_version env (stored_file_format_version env) hist))
      (set_sg
         (set_m_wait_for_change_enabled true
            (set_m_read_lock (set_m_version (ReadCount.version r) (m_read_lock (sg w)))
               (set_m_file_format_version (stored_file_format_version env)
                  (set_m_alloc_attached true
                     (set_m_local_max_entry (Ringbuffer.entries (ring w)) (sg w))))))
         (set_info
            (SharedInfo.set_num_participants
               (wrap32 (SharedInfo.num_participants (info w) + 1)) (info w)) w)).
Proof.
  intros Hfree Hsome Hr Hlive Hu32 Hpp Hattach Hd Hh Hkey Hformat Hasync.
  assert (Hne : (SharedInfo.num_participants (info w) =? 0) = false)
    by (by apply Z.eqb_neq).
  assert (Heven : Z.even (ReadCount.count r) = true).
  { unfold Ringbuffer.is_live in Hlive. by rewrite land_1_even in Hlive. }
  unfold join_session.
  erewrite with_controlmutex_returns; [| exact Hfree | ]; cycle 1.
  { unfold bind at 1. rewrite on_readers_num_entries.
    unfold bind at 1. rewrite on_sg_run.
    unfold bind at 1, get_state at 1.
    cbn [info set_sg set_info sg SharedInfo.num_participants
         SharedInfo.set_shared_controlmutex].
    rewrite Hne, Hattach.
    unfold bind at 1. rewrite on_sg_run. unfold bind at 1. rewrite on_sg_run.
    cbv zeta. unfold bind at 1.
    cbn [info set_sg set_info sg SharedInfo.durability SharedInfo.history_type
         SharedInfo.session_initiator_pid SharedInfo.file_format_version
         SharedInfo.set_shared_controlmutex].
    rewrite Hd, Hh, Hkey, Hformat, !Z.eqb_refl. cbn [negb]. unfold ret at 1.
    unfold bind at 1.
    cbn [SharedInfo.daemon_ready SharedInfo.set_shared_controlmutex].
    rewrite Hasync. unfold ret at 1.
    unfold bind at 1.
    rewrite (latest_snapshot_mapped n _ r); [| exact Hr | exact Heven | exact Hu32
                                             | exact Hpp ].
    unfold bind at 1, get_state at 1.
    unfold bind at 1. rewrite on_sg_run.
    unfold bind at 1. rewrite on_info_modify_run.
    unfold bind at 1. rewrite on_sg_run.
    unfold ret.
    cbn [info set_sg set_info sg SharedInfo.num_participants
         SharedInfo.set_shared_controlmutex].
    reflexivity. }
  f_equal.
  destruct w as [g sz i o l]. cbn in Hfree |- *. destruct i. cbn in Hfree |- *.
  by subst.
Qed.

(** X18.  Joining a running session registers the participant and changes
    nothing else.  The requested durability is one the build supports (not
    Async on a build without the commit daemon) and, where it is Async on
    a build with the daemon, the daemon is ready.  For a participant that
    is not attached yet, with a lock file that others hold and that passes
    the layout checks, the control mutex available, at least one
    registered participant, a live slot at [put_pos] (an index below the
    ring's number of entries), a database file that can be attached, no
    encryption key and
    options that agree with the session (durability, history type, file
    format), a [do_open] that needs no format upgrade returns: the
    participant is attached, in Ready and bound to the version of the slot
    at [put_pos]; [num_participants] is one higher (in 32-bit arithmetic)
    and the rest of the session header, ring included, is as it was
    found. *)
Theorem do_open_joins_session (fuel : nat) (path : string) (no_create : bool)
    (options : SharedGroupOptions) (w : World) (r : ReadCount.t) (top_ref : Z) :
  let hist := match replication env with
              | Some repl => get_history_type repl
              | None => hist_None
              end in
  let target :=
    target_file_format_version env (stored_file_format_version env) hist in
  (1 <= fuel)%nat ->
  is_attached w = false ->
  negb (async_daemon env) && (opt_durability options =? durability_code Async) = false ->
  async_daemon env && (opt_durability options =? durability_code Async)
    && (SharedInfo.daemon_ready (info w) =? 0) = false ->
  other_lockers w <> 0 ->
  0 < sizeof_SharedInfo env ->
  compatible_lockfile env w ->
  SharedInfo.shared_controlmutex (info w) = false ->
  SharedInfo.num_participants (info w) <> 0 ->
  Ringbuffer.slot (Ringbuffer.data (ring w)) (Ringbuffer.put_pos (ring w)) = Some r ->
  Ringbuffer.is_live r = true ->
  is_u32 (ReadCount.count r) ->
  Ringbuffer.put_pos (ring w) < Ringbuffer.entries (ring w) ->
  attach_file env false = attached top_ref ->
  SharedInfo.durability (info w) = opt_durability options ->
  SharedInfo.history_type (info w) = hist ->
  encryption_key options = false ->
  SharedInfo.file_format_version (info w) = target ->
  stored_file_format_version env = 0 \/ stored_file_format_version env = target ->
  exists w',
    do_open env fuel path no_create options w = Ret tt w' /\
    info w' =
      SharedInfo.set_num_participants
        (wrap32 (SharedInfo.num_participants (info w) + 1)) (info w) /\
    lockfile_size w' = lockfile_size w /\
    fs_log w' = fs_log w /\
    is_attached w' = true /\
    m_alloc_attached (sg w') = true /\
    m_file_locked (sg w') = true /\
    m_transact_stage (sg w') = transact_Ready /\
    m_file_format_version (sg w') = target /\
    m_version (m_read_lock (sg w')) = ReadCount.version r /\
    m_local_max_entry (sg w') = Ringbuffer.entries (ring w) /\
    m_db_path (sg w') = path.
Proof.
  intros hist target Hfuel Hatt Hasync2 Hasync Hothers Hsize Hfile Hctl Hsome Hr Hlive
    Hu32 Hpp Hattach Hd Hh Hkey Hformat Hstored.
  destruct fuel as [|n]; [lia|].
  set (w0 := set_sg (set_m_key (encryption_key options)
                       (set_m_db_path path (sg w))) w).
  set (wj := set_sg (set_m_file_map_attached true (set_m_file_locked true (sg w0))) w0).
  assert (Hkey' : encryption_key options
                  && negb (SharedInfo.session_initiator_pid (info wj) =? getpid env)
                  = false) by (by rewrite Hkey).
  pose proof (join_session_joins n no_create options hist wj r top_ref
                Hctl Hsome Hr Hlive Hu32 Hpp Hattach Hd Hh Hkey' Hformat Hasync)
    as Hjoin.
  fold target in Hjoin.
  match type of Hjoin with _ = Ret _ ?x => set (w1 := x) in Hjoin end.
  destruct (do_open_after_break n path no_create options w w1 target Hatt Hasync2)
    as (w' & Hrun & Hsg & Hinfo & Hlf & _ & Hlog).
  - fold hist. fold w0.
    rewrite (do_open_attempt_joins env (S n) no_create options hist w0
               Hothers Hsize Hfile).
    fold wj. unfold guarded. rewrite Hjoin. reflexivity.
  - cbn [sg set_sg m_file_format_version set_m_wait_for_change_enabled
         set_m_read_lock set_m_file_format_version]. exact Hstored.
  - exists w'. split; [exact Hrun|].
    unfold is_attached. rewrite Hsg, Hinfo, Hlf, Hlog. unfold w1.
    split_and!; reflexivity.
Qed.

End JoinSession.
(** ** Upgrading the file format *)

Section Upgrade.
Import SharedGroup.

Variable env : Collaborators.

(** Another even count on a live slot keeps the ring invariant. *)
Lemma ring_at_live_count rb older free i r c :
  Ringbuffer.ring_at rb older free ->
  i ∈ older ++ [Ringbuffer.put_pos rb] ->
  Ringbuffer.slot (Ringbuffer.data rb) i = Some r ->
  Z.even c = true -> is_u32 c ->
  Ringbuffer.ring_at
    (Ringbuffer.set_data (<[Z.to_nat i := ReadCount.set_count c r]> (Ringbuffer.data rb)) rb)
    older free.
Proof.
  intros H Hi Hr Heven Hu32.
  pose proof (slot_Some _ _ _ Hr) as [Hi0 _].
  pose proof (ring_NoDup _ _ _ H) as Hnd.
  split; cbn [Ringbuffer.entries Ringbuffer.put_pos Ringbuffer.old_pos
              Ringbuffer.data Ringbuffer.set_data].
  - eapply path_ext; [|apply (Ringbuffer.ring_cycle _ _ _ H)].
    intros j rj _ Hrj. destruct (decide (j = i)) as [->|Hne].
    + assert (rj = r) as -> by congruence.
      eexists. split; [by eapply slot_insert_eq|done].
    + exists rj. split; [|done]. by rewrite slot_insert_ne.
  - apply (Ringbuffer.ring_slots _ _ _ H).
  - intros j rj Hj Hrj. destruct (decide (j = i)) as [->|Hne].
    + rewrite (slot_insert_eq _ _ _ _ Hr) in Hrj. inversion Hrj; subst rj.
      split; [|exact Hu32].
      unfold Ringbuffer.is_live. cbn [ReadCount.count ReadCount.set_count].
      by rewrite land_1_even.
    + rewrite slot_insert_ne in Hrj by done.
      exact (Ringbuffer.ring_live _ _ _ H j rj Hj Hrj).
  - intros j rj Hj Hrj.
    assert (Hne : j <> i).
    { intros ->. apply NoDup_app in Hnd as (_ & Hdisj & Hnd2).
      apply elem_of_app in Hi as [Hi|Hi].
      - apply (Hdisj i Hi). by right.
      - apply list_elem_of_singleton in Hi. subst i.
        apply NoDup_cons in Hnd2 as [Hnot _]. done. }
    rewrite slot_insert_ne in Hrj by done.
    exact (Ringbuffer.ring_free _ _ _ H j rj Hj Hrj).
  - apply (Ringbuffer.ring_entries _ _ _ H).
Qed.

(** [commit] run forward, with what it leaves of the participant. *)
Lemma commit_run (w : World) (older free : list Z) (prev : ReadCount.t) :
  (forall f v, history env = Some f -> f v = true) ->
  (forall nv ov, is_Some (write_group env nv ov)) ->
  (forall top, writer_commit env top = true) ->
  m_transact_stage (sg w) = transact_Writing ->
  m_group_attached (sg w) = true ->
  ring_at_world w older free ->
  Ringbuffer.entries (ring w) + 32 < 2 ^ 32 ->
  SharedInfo.shared_controlmutex (info w) = false ->
  replication env = None ->
  Ringbuffer.slot (Ringbuffer.data (ring w)) (Ringbuffer.put_pos (ring w)) = Some prev ->
  0 <= ReadCount.version prev + 1 < 2 ^ 64 ->
  (forall i r, i ∈ older ++ [Ringbuffer.put_pos (ring w)] ->
     Ringbuffer.slot (Ringbuffer.data (ring w)) i = Some r ->
     ReadCount.version r <= ReadCount.version prev) ->
  m_reader_idx (m_read_lock (sg w)) ∈ older ++ [Ringbuffer.put_pos (ring w)] ->
  m_version (m_read_lock (sg w)) <> max_version ->
  exists w',
    commit env w = Ret (ReadCount.version prev + 1) w' /\
    m_transact_stage (sg w') = transact_Ready /\
    SharedInfo.shared_writemutex (info w') = false /\
    m_file_format_version (sg w') = m_file_format_version (sg w) /\
    SharedInfo.latest_version_number (info w') = ReadCount.version prev + 1 /\
    SharedInfo.commit_in_critical_phase (info w') = 0.
Proof.
  intros Hhist Hwg Hwc Hstage Hatt H Hbound Hctl Hplain Hprev Hfit Hver Hlock Hmv.
  assert (Hnv : wrap64 (ReadCount.version prev + 1) = ReadCount.version prev + 1)
    by (unfold wrap64; apply Z.mod_small; lia).
  destruct (low_level_commit_returns env Hhist Hwg Hwc w (ReadCount.version prev + 1)
              older free H Hbound Hatt Hctl) as (w1 & Hllc & Hpart & He & Hwm).
  { intros _ i r Hi Hr. specialize (Hver i r Hi Hr). lia. }
  destruct (low_level_commit_Ret env w w1 _ older free H Hbound Hllc) as
    (k & top & r_new & r_old & free' & _ & _ & _ & _ & _ & _ & _ & Hinv1 & Hlatest
       & _ & Hflag & _).
  set (w2 := set_info (SharedInfo.set_shared_writemutex false (info w1)) w1).
  assert (Hlock1 : m_read_lock (sg w2) = m_read_lock (sg w)).
  { simpl. rewrite <- Hpart. by destruct (sg w). }
  destruct (ring_slot_range _ _ _ (m_reader_idx (m_read_lock (sg w))) Hinv1)
    as [rl Hrl].
  { pose proof (ring_range _ _ _ _ H (in_live_ring _ _ _ free Hlock)). lia. }
  destruct (release_read_lock_spec (m_read_lock (sg w2)) w2 rl) as (wg & Hsame & Hrel).
  { rewrite Hlock1. exact Hrl. }
  destruct Hsame as (Hi & _ & _ & _ & Hs).
  eexists. split; [|split; [|split; [|split; [|split]]]].
  - unfold commit, bind at 1, get_state at 1. rewrite Hstage.
    change (negb (stage_eqb transact_Writing transact_Writing)) with false.
    cbv iota. unfold bind at 1. rewrite Hatt, REALM_ASSERT_holds.
    unfold bind at 1, do_commit, bind at 1, get_state at 1. rewrite Hstage.
    unfold bind at 1. change (stage_eqb transact_Writing transact_Writing) with true.
    rewrite REALM_ASSERT_holds.
    unfold bind at 1. rewrite (get_current_version_run _ _ Hprev), Hplain.
    cbv zeta. rewrite Hnv. unfold bind at 1. rewrite Hllc. unfold ret at 1.
    unfold bind at 1, do_end_write, noexcept, unlock. rewrite on_info_modify_run.
    fold w2.
    unfold bind at 1, do_end_read, noexcept, bind at 1, get_state at 1.
    unfold bind at 1.
    destruct (Z.eqb_spec (m_version (m_read_lock (sg w2))) max_version) as [Heq|_].
    { rewrite Hlock1 in Heq. done. }
    change (negb false) with true. rewrite REALM_ASSERT_holds.
    unfold bind at 1. rewrite Hrel. rewrite on_sg_run.
    unfold bind at 1. rewrite on_sg_run. reflexivity.
  - reflexivity.
  - simpl. rewrite Hi. simpl. by destruct (info w1).
  - cbn [sg set_sg set_slot set_ring set_info m_file_format_version
         set_m_transact_stage set_m_group_attached].
    rewrite <- Hs. change (sg w2) with (sg w1). unfold same_participant in Hpart.
    rewrite <- Hpart. reflexivity.
  - cbn [info set_sg set_slot set_ring set_info
         SharedInfo.latest_version_number SharedInfo.set_readers].
    rewrite Hi. exact Hlatest.
  - cbn [info set_sg set_slot set_ring set_info
         SharedInfo.commit_in_critical_phase SharedInfo.set_readers].
    rewrite Hi. exact Hflag.
Qed.

(** X12.  [upgrade_file_format] on a participant whose file format is below
    the target looks at the committed format inside a write transaction
    and, in each of the three cases below, does not leave that transaction
    open.  The session does not go through the commit daemon, the
    participant is in Ready, the write mutex is available, no commit is in
    its critical phase, the ring satisfies the ring invariant, the version
    at [put_pos] is not the LATEST marker and the collaborators of
    [begin_write] do not fail.  (1) If the committed
    format is still the participant's and upgrading is not allowed, it
    throws [FileFormatUpgradeRequired]; (2) if the committed format is the
    target already, it returns with the participant's format set to the
    target; in both cases the transaction is rolled back: the stage is
    Ready and the session header is the one before the call (write mutex
    free, pin given back).  (3) If the committed format is still the
    participant's, upgrading is allowed, there is no replication plugin,
    the upgrade, the callback and the collaborators of [commit] do not
    fail, the control mutex is available and the version at [put_pos] is
    the largest and can be incremented, it upgrades and commits: it returns
    in Ready with the write mutex free, the participant's format set to
    the target, [latest_version_number] one above the version at [put_pos]
    and no commit in a critical phase. *)
Theorem upgrade_file_format_closes_transaction (fuel : nat) (w : World)
    (older free : list Z) (allow : bool) (target : Z) :
  m_transact_stage (sg w) = transact_Ready ->
  SharedInfo.shared_writemutex (info w) = false ->
  SharedInfo.commit_in_critical_phase (info w) = 0 ->
  async_daemon env && (SharedInfo.durability (info w) =? durability_code Async) = false ->
  ring_at_world w older free ->
  (forall top size, attach_shared env top size true = true) ->
  (forall repl v, replication env = Some repl -> initiate_transact repl v = true) ->
  (forall r,
     Ringbuffer.slot (Ringbuffer.data (ring w)) (Ringbuffer.put_pos (ring w)) = Some r ->
     ReadCount.version r <> max_version) ->
  (2 <= fuel)%nat ->
  m_file_format_version (sg w) < target ->
  (committed_file_format_version env = m_file_format_version (sg w) ->
   allow = false ->
   exists w2,
     upgrade_file_format env fuel allow target w = Throw FileFormatUpgradeRequired w2 /\
     m_transact_stage (sg w2) = transact_Ready /\
     info w2 = info w /\
     m_file_format_version (sg w2) = m_file_format_version (sg w)) /\
  (committed_file_format_version env = target ->
   exists w2,
     upgrade_file_format env fuel allow target w = Ret tt w2 /\
     m_transact_stage (sg w2) = transact_Ready /\
     info w2 = info w /\
     m_file_format_version (sg w2) = target) /\
  (committed_file_format_version env = m_file_format_version (sg w) ->
   allow = true ->
   upgrade_file_format_ok env = true ->
   upgrade_callback env <> Some false ->
   replication env = None ->
   (forall f v, history env = Some f -> f v = true) ->
   (forall nv ov, is_Some (write_group env nv ov)) ->
   (forall top, writer_commit env top = true) ->
   Ringbuffer.entries (ring w) + 32 < 2 ^ 32 ->
   SharedInfo.shared_controlmutex (info w) = false ->
   forall prev,
     Ringbuffer.slot (Ringbuffer.data (ring w)) (Ringbuffer.put_pos (ring w)) =
       Some prev ->
     0 <= ReadCount.version prev + 1 < 2 ^ 64 ->
     (forall i r, i ∈ older ++ [Ringbuffer.put_pos (ring w)] ->
        Ringbuffer.slot (Ringbuffer.data (ring w)) i = Some r ->
        ReadCount.version r <= ReadCount.version prev) ->
     exists w2,
       upgrade_file_format env fuel allow target w = Ret tt w2 /\
       m_transact_stage (sg w2) = transact_Ready /\
       SharedInfo.shared_writemutex (info w2) = false /\
       m_file_format_version (sg w2) = target /\
       SharedInfo.latest_version_number (info w2) = ReadCount.version prev + 1 /\
       SharedInfo.commit_in_critical_phase (info w2) = 0).
Proof.
  intros Hstage Hfree Hflag Hasync H Hattach Hrepl Hver Hfuel Hold.
  destruct fuel as [|[|n]]; [lia|lia|].
  destruct (begin_write_run env n w older free Hstage Hfree Hflag Hasync H Hattach Hrepl)
    as (wg & r & Hr & Hu32 & Hi & Hl & Hf & Hs & Hbegin).
  set (idx := Ringbuffer.put_pos (ring w)) in *.
  set (w1 := set_sg _ (set_slot idx (pinned r) wg)) in *.
  assert (Hrg : Ringbuffer.slot (Ringbuffer.data (ring wg)) idx = Some r).
  { unfold ring. rewrite Hi. exact Hr. }
  assert (Hinfo1 : info w1 =
            info (set_slot idx (pinned r)
                    (set_info (SharedInfo.set_shared_writemutex true (info w)) w))).
  { unfold w1, set_slot, set_ring, ring. cbn. by rewrite Hi. }
  assert (Hffv1 : m_file_format_version (sg w1) = m_file_format_version (sg w)).
  { cbn. rewrite <- Hs. reflexivity. }
  assert (Hopen : upgrade_file_format env (S (S n)) allow target w =
    finally
      (let current_file_format_version_2 := committed_file_format_version env in
       REALM_ASSERT (assertions env)
         ((current_file_format_version_2 =? m_file_format_version (sg w))
          || (current_file_format_version_2 =? target)) ;;;
       if current_file_format_version_2 <? target then
         if negb allow then throw FileFormatUpgradeRequired
         else
           must (upgrade_file_format_ok env) "upgrade_file_format" ;;;
           on_sg (set_m_file_format_version target) ;;;
           match upgrade_callback env with
           | Some false => rollback env ;;; throw (external_failure "upgrade_callback")
           | _ => ret tt
           end ;;;
           commit env ;;;
           ret tt
       else on_sg (set_m_file_format_version target))
      (rollback env) w1).
  { unfold upgrade_file_format, bind at 1, get_state at 1.
    cbv zeta. unfold bind at 1.
    destruct (Z.leb_spec (m_file_format_version (sg w)) target); [|lia].
    rewrite REALM_ASSERT_holds.
    destruct (Z.ltb_spec (m_file_format_version (sg w)) target); [|lia].
    unfold bind at 1. by rewrite Hbegin. }
  rewrite Hopen. cbv zeta. unfold finally. split; [|split].
  - intros Hsame Hallow. subst allow.
    unfold bind at 1. rewrite Hsame, Z.eqb_refl, orb_true_l, REALM_ASSERT_holds.
    destruct (Z.ltb_spec (m_file_format_version (sg w)) target); [|lia].
    change (negb false) with true. cbv iota. unfold throw at 1.
    destruct (rollback_releases env w1 (pinned r)) as
      (w2 & Hrb & Hstage2 & _ & Hinfo2 & _ & _ & Hffv2); [done| | |].
    { cbn. exact (slot_insert_eq _ _ r _ Hrg). }
    { cbn. by apply Hver. }
    exists w2. rewrite Hrb. split_and!; try done.
    + rewrite Hinfo2. change (m_reader_idx (m_read_lock (sg w1))) with idx.
      by apply header_restored.
    + by rewrite Hffv2.
  - intros Hdone.
    unfold bind at 1. rewrite Hdone, Z.eqb_refl, orb_true_r, REALM_ASSERT_holds.
    rewrite Z.ltb_irrefl, on_sg_run.
    set (w1' := set_sg (set_m_file_format_version target (sg w1)) w1).
    destruct (rollback_releases env w1' (pinned r)) as
      (w2 & Hrb & Hstage2 & _ & Hinfo2 & _ & _ & Hffv2); [done| | |].
    { cbn. exact (slot_insert_eq _ _ r _ Hrg). }
    { cbn. by apply Hver. }
    exists w2. rewrite Hrb. split_and!; try done.
    rewrite Hinfo2. change (m_reader_idx (m_read_lock (sg w1'))) with idx.
    apply header_restored; try done.
  - intros Hsame Hallow Hupgrade Hcallback Hplain Hhist Hwg Hwc Hbound Hctl prev
      Hprev Hfit Hlargest.
    subst allow. assert (prev = r) as -> by congruence.
    unfold bind at 1. rewrite Hsame, Z.eqb_refl, orb_true_l, REALM_ASSERT_holds.
    destruct (Z.ltb_spec (m_file_format_version (sg w)) target); [|lia].
    change (negb true) with false. cbv iota.
    unfold bind at 1. rewrite Hupgrade. unfold must, ret at 1.
    unfold bind at 1. rewrite on_sg_run.
    set (w1' := set_sg (set_m_file_format_version target (sg w1)) w1).
    assert (Hcb : match upgrade_callback env with
                  | Some false =>
                      rollback env ;;; throw (external_failure "upgrade_callback")
                  | _ => ret tt
                  end w1' = Ret tt w1').
    { destruct (upgrade_callback env) as [[|]|]; [reflexivity|done|reflexivity]. }
    unfold bind at 1. rewrite Hcb.
    assert (Hlive : Ringbuffer.is_live r = true /\ is_u32 (ReadCount.count r)).
    { apply (Ringbuffer.ring_live _ _ _ H idx r); [|exact Hr].
      apply elem_of_app. right. by left. }
    destruct Hlive as [Hlive _].
    assert (Hring1 : ring w1' =
              Ringbuffer.set_data
                (<[Z.to_nat idx := pinned r]> (Ringbuffer.data (ring w))) (ring w)).
    { unfold w1', w1, set_slot, set_ring, ring.
      cbn [info set_sg set_info SharedInfo.readers SharedInfo.set_readers].
      by rewrite Hi. }
    assert (Hpin : Ringbuffer.slot (Ringbuffer.data (ring w1')) idx = Some (pinned r)).
    { rewrite Hring1. exact (slot_insert_eq _ _ r _ Hr). }
    destruct (commit_run w1' older free (pinned r) Hhist Hwg Hwc)
      as (w3 & Hcommit & Hstage3 & Hwm3 & Hffv3 & Hlatest3 & Hflag3).
    + reflexivity.
    + reflexivity.
    + unfold ring_at_world. rewrite Hring1.
      apply ring_at_live_count; try done.
      * apply elem_of_app. right. by left.
      * unfold Ringbuffer.is_live in Hlive. rewrite land_1_even in Hlive.
        by rewrite even_wrap32, Z.even_add, Hlive.
      * apply wrap32_range.
    + by rewrite Hring1.
    + unfold w1', w1, set_slot, set_ring.
      cbn [info set_sg set_info SharedInfo.shared_controlmutex SharedInfo.set_readers].
      rewrite Hi. exact Hctl.
    + exact Hplain.
    + rewrite Hring1. exact (slot_insert_eq _ _ r _ Hr).
    + exact Hfit.
    + rewrite Hring1. cbn [Ringbuffer.put_pos Ringbuffer.data Ringbuffer.set_data].
      intros i ri Hin Hri. destruct (decide (i = idx)) as [->|Hne].
      * rewrite (slot_insert_eq _ _ r _ Hr) in Hri. inversion Hri; subst ri.
        reflexivity.
      * rewrite slot_insert_ne in Hri; [|by apply slot_Some in Hr as [? _]|done].
        exact (Hlargest i ri Hin Hri).
    + rewrite Hring1. cbn [Ringbuffer.put_pos Ringbuffer.set_data].
      apply elem_of_app. right. by left.
    + cbn. by apply Hver.
    + unfold bind at 1. rewrite Hcommit. unfold ret at 1.
      rewrite (rollback_ready env w3 Hstage3).
      exists w3. split_and!; try done.
Qed.


End Upgrade.
(** ** Snapshots held by readers across a commit *)

Section PinnedSnapshots.
Import SharedGroup.

Variable env : Collaborators.

Lemma same_snapshot_refl r : same_snapshot r r.
Proof. by unfold same_snapshot. Qed.

Lemma same_snapshot_trans r1 r2 r3 :
  same_snapshot r1 r2 -> same_snapshot r2 r3 -> same_snapshot r1 r3.
Proof. unfold same_snapshot. intros (?&?&?&?) (?&?&?&?). split_and!; congruence. Qed.

(** [cleanup] touches no slot whose count is not 0. *)
Lemma cleanup_frame rb rb' older free :
  Ringbuffer.ring_at rb older free ->
  Ringbuffer.cleanup rb = Ret tt rb' ->
  forall i r, Ringbuffer.slot (Ringbuffer.data rb) i = Some r ->
    ReadCount.count r <> 0 ->
    Ringbuffer.slot (Ringbuffer.data rb') i = Some r.
Proof.
  intros H Hrun i r Hr Hcount.
  pose proof (ring_backed _ _ _ H) as Hb.
  pose proof (ring_length _ _ _ H) as Hl.
  destruct (cleanup_loop_spec older (S (length (Ringbuffer.data rb))) rb free H) as
    (rb1 & k & Hrun1 & _ & _ & _ & _ & _ & Hfreed & Hkept & _); [lia|].
  unfold Ringbuffer.cleanup, bind, get_state in Hrun. rewrite Hrun1 in Hrun.
  inversion Hrun; subst rb1.
  destruct (decide (i ∈ take k older)) as [Hin|Hout].
  - destruct (Hfreed i Hin) as (r0 & Hr0 & Hzero & _). congruence.
  - by rewrite Hkept.
Qed.

(** The expansion of a full ring keeps what every slot of the ring holds;
    only the [next] of the slot at [put_pos] changes. *)
Lemma expansion_frame w w' older :
  Ringbuffer.ring_at (ring w) older [] ->
  Ringbuffer.entries (ring w) + 32 < 2 ^ 32 ->
  let e := Ringbuffer.entries (ring w) in
  (prealloc_and_remap
     (sizeof_SharedInfo env + Ringbuffer.compute_required_space (e + 32)) (e + 32) ;;;
   on_sg (set_m_local_max_entry (e + 32)) ;;;
   on_readers (Ringbuffer.expand_to (e + 32))) w = Ret tt w' ->
  m_read_lock (sg w') = m_read_lock (sg w) /\
  forall i r, 0 <= i < e ->
    Ringbuffer.slot (Ringbuffer.data (ring w)) i = Some r ->
    exists r', Ringbuffer.slot (Ringbuffer.data (ring w')) i = Some r' /\
               same_snapshot r r'.
Proof.
  intros H Hbound e Hblock.
  pose proof (Ringbuffer.ring_entries _ _ _ H) as [He0 _]. fold e in He0.
  set (ext := replicate (Z.to_nat (e + 32) - length (Ringbuffer.data (ring w)))
                ReadCount.zero).
  set (rbx := Ringbuffer.set_data (Ringbuffer.data (ring w) ++ ext) (ring w)).
  assert (Hx : Ringbuffer.ring_at rbx older []) by (by apply ring_at_extend).
  destruct (expand_to_spec rbx older (e + 32) Hx) as
    (rb' & rp & Hrun & He & Hpp & Hop & _ & Hrp & _ & Hput & Hnew & Hold & Hinv).
  { simpl. fold e. lia. }
  { simpl. rewrite length_app. unfold ext. rewrite length_replicate. lia. }
  unfold bind at 1, prealloc_and_remap, bind at 1, modify at 1 in Hblock.
  rewrite on_readers_run in Hblock. unfold modify at 1 in Hblock.
  unfold bind at 1 in Hblock. rewrite on_sg_run in Hblock.
  rewrite on_readers_run in Hblock.
  change (Ringbuffer.expand_to (e + 32) (ring _))
    with (Ringbuffer.expand_to (e + 32) rbx) in Hblock.
  rewrite Hrun in Hblock. inversion Hblock; subst w'. clear Hblock.
  split; [reflexivity|].
  intros i r Hi Hr. simpl ring in *.
  destruct (decide (i = Ringbuffer.put_pos (ring w))) as [->|Hne].
  - simpl in Hput, Hrp. rewrite (slot_app_l _ ext _ r Hr) in Hrp.
    inversion Hrp; subst rp. eexists. split; [exact Hput|].
    by unfold same_snapshot.
  - exists r. split; [|apply same_snapshot_refl].
    rewrite Hold; [|simpl; fold e; lia|done].
    simpl. by apply slot_app_l.
Qed.

(** [release_read_lock] touches no slot but the one the lock names. *)
Lemma release_read_lock_frame l w w' :
  release_read_lock l w = Ret tt w' ->
  forall i, i <> m_reader_idx l ->
    Ringbuffer.slot (Ringbuffer.data (ring w')) i =
    Ringbuffer.slot (Ringbuffer.data (ring w)) i.
Proof.
  unfold release_read_lock. intros Hrun%noexcept_Ret i Hne.
  apply bind_Ret in Hrun as (b & wg & Hstep & Hrun).
  destruct (grow_reader_mapping_spec w (m_reader_idx l))
    as (b' & wg' & Hg & Hsame & _).
  rewrite Hg in Hstep. inversion Hstep; subst b' wg'. clear Hstep Hg.
  pose proof (same_but_mapping_ring _ _ Hsame) as Hring.
  apply bind_Ret in Hrun as (r & s & Hstep & Hrun).
  apply on_readers_Ret in Hstep as (rb & Hstep & ->).
  unfold Ringbuffer.get in Hstep.
  destruct (Ringbuffer.slot (Ringbuffer.data (ring wg)) (m_reader_idx l))
    as [r0|] eqn:Hr0; [|done].
  inversion Hstep; subst r0 rb. clear Hstep. rewrite set_ring_same in Hrun.
  rewrite (on_readers_update _ _ _ _ Hr0) in Hrun. inversion Hrun; subst w'.
  pose proof (slot_Some _ _ _ Hr0) as [Hidx _].
  simpl. rewrite Hring. by rewrite slot_insert_ne.
Qed.

(** [low_level_commit] leaves alone every live slot that a reader holds:
    the new snapshot goes to another slot. *)
Lemma low_level_commit_frame w w' nv older free :
  Ringbuffer.ring_at (ring w) older free ->
  Ringbuffer.entries (ring w) + 32 < 2 ^ 32 ->
  low_level_commit env nv w = Ret tt w' ->
  m_read_lock (sg w') = m_read_lock (sg w) /\
  forall i r, i ∈ older ++ [Ringbuffer.put_pos (ring w)] ->
    Ringbuffer.slot (Ringbuffer.data (ring w)) i = Some r ->
    ReadCount.count r <> 0 ->
    i <> Ringbuffer.put_pos (ring w') /\
    exists r', Ringbuffer.slot (Ringbuffer.data (ring w')) i = Some r' /\
               same_snapshot r r'.
Proof.
  intros H Hbound Hrun. unfold low_level_commit in Hrun.
  (* the mapping is grown to cover the ring *)
  apply bind_Ret in Hrun as (n & s & Hstep & Hrun).
  rewrite on_readers_num_entries in Hstep. inversion Hstep; subst n s.
  clear Hstep.
  apply bind_Ret in Hrun as (b & wg & Hstep & Hrun).
  destruct (grow_reader_mapping_spec w (Ringbuffer.entries (ring w)))
    as (b' & wg' & Hg & Hsame & _).
  rewrite Hg in Hstep. inversion Hstep; subst b' wg'. clear Hstep Hg.
  pose proof (same_but_mapping_ring _ _ Hsame) as Hring.
  assert (Hlockg : m_read_lock (sg wg) = m_read_lock (sg w)).
  { destruct Hsame as (_ & _ & _ & _ & <-). reflexivity. }
  (* trim *)
  apply bind_Ret in Hrun as (u & w1 & Hstep & Hrun).
  apply on_readers_Ret in Hstep as (rb1 & Hc & ->).
  rewrite Hring in Hc. destruct u.
  pose proof (cleanup_frame _ _ _ _ H Hc) as Hframe1.
  destruct (cleanup_spec _ _ _ H) as
    (rb1' & k & rc & Hc' & Hk & Hinv1 & He1 & Hpp1 & Hrc & Hold1).
  rewrite Hc' in Hc. inversion Hc; subst rb1'. clear Hc Hc'.
  apply bind_Ret in Hrun as (rc' & s & Hstep & Hrun).
  apply on_readers_Ret in Hstep as (rb & Hstep & ->).
  rewrite ring_set_ring in Hstep.
  unfold Ringbuffer.get_oldest, bind, get_state in Hstep.
  rewrite (get_ok _ _ _ Hrc) in Hstep. inversion Hstep; subst rc' rb.
  clear Hstep. rewrite set_ring_twice in Hrun.
  set (w1 := set_ring rb1 wg) in *.
  apply bind_Ret in Hrun as (u' & s & Hstep & Hrun).
  assert (s = w1) as ->.
  { destruct (history env) as [f|].
    - by apply must_Ret in Hstep as [-> _].
    - by inversion Hstep. }
  clear Hstep.
  (* the serializer *)
  apply bind_Ret in Hrun as (wc & s & Hstep & Hrun).
  inversion Hstep; subst wc s. clear Hstep.
  apply bind_Ret in Hrun as (u1 & s & Hstep & Hrun).
  apply REALM_ASSERT_Ret in Hstep as [-> _].
  apply bind_Ret in Hrun as (u2 & s & Hstep & Hrun).
  apply REALM_ASSERT_Ret in Hstep as [-> Hle].
  apply bind_Ret in Hrun as (top & s & Hstep & Hrun).
  destruct (write_group env nv (ReadCount.version rc)) as [top'|] eqn:Hwg;
    [|done].
  inversion Hstep; subst top' s. clear Hstep.
  apply bind_Ret in Hrun as (u3 & s & Hstep & Hrun).
  assert (s = w1) as ->.
  { destruct (SharedInfo.durability (info w1) =? durability_code Full).
    - by apply must_Ret in Hstep as [-> _].
    - by inversion Hstep. }
  clear Hstep.
  (* the critical phase *)
  apply bind_Ret in Hrun as (u4 & w2 & Hstep & Hrun).
  rewrite on_info_modify_run in Hstep. inversion Hstep; subst w2. clear Hstep.
  set (w2 := set_info _ w1) in *.
  assert (Hring2 : ring w2 = rb1) by done.
  assert (Hlock2 : m_read_lock (sg w2) = m_read_lock (sg w)) by exact Hlockg.
  apply bind_Ret in Hrun as (full & s & Hstep & Hrun).
  apply on_readers_Ret in Hstep as (rb & Hstep & ->).
  rewrite Hring2, (is_full_spec _ _ _ Hinv1) in Hstep.
  inversion Hstep; subst full rb. clear Hstep.
  rewrite <- Hring2, set_ring_same in Hrun.
  apply bind_Ret in Hrun as (u5 & w4 & Hblock & Hrun).
  assert (Hgrown : exists f free2,
    Ringbuffer.ring_at (ring w4) (drop k older) (f :: free2) /\
    m_read_lock (sg w4) = m_read_lock (sg w) /\
    forall i r, 0 <= i < Ringbuffer.entries rb1 ->
      Ringbuffer.slot (Ringbuffer.data rb1) i = Some r ->
      exists r', Ringbuffer.slot (Ringbuffer.data (ring w4)) i = Some r' /\
                 same_snapshot r r').
  { destruct (free ++ take k older) as [|f free2] eqn:Hfree.
    - apply bind_Ret in Hblock as (e & s & Hstep & Hblock).
      rewrite on_readers_num_entries in Hstep. inversion Hstep; subst e s.
      clear Hstep. cbv zeta in Hblock.
      assert (Hinv2 : Ringbuffer.ring_at (ring w2) (drop k older) [])
        by (by rewrite Hring2).
      assert (Hbound2 : Ringbuffer.entries (ring w2) + 32 < 2 ^ 32)
        by (by rewrite Hring2, He1).
      destruct (expansion_spec env w2 (drop k older) Hinv2 Hbound2) as
        (w4' & Hx & Hinv4 & _).
      destruct u5. cbv zeta in Hx. pose proof Hblock as Hblock'.
      rewrite Hx in Hblock'. inversion Hblock'; subst w4'.
      destruct (expansion_frame w2 w4 (drop k older) Hinv2 Hbound2 Hblock)
        as [Hlock4 Hframe].
      exists (Ringbuffer.entries (ring w2)), (seqZ (Ringbuffer.entries (ring w2) + 1) 31).
      split; [exact Hinv4|]. split; [congruence|].
      intros i r Hi Hr. apply Hframe; [by rewrite Hring2|by rewrite Hring2].
    - inversion Hblock; subst w4. rewrite Hring2.
      exists f, free2. split; [done|]. split; [done|].
      intros i r _ Hr. exists r. split; [done|apply same_snapshot_refl]. }
  destruct Hgrown as (f & free2 & Hinv4 & Hlock4 & Hframe4).
  clear Hblock.
  (* publish *)
  destruct (ring_first_free _ _ _ _ Hinv4) as
    (rp & rf & Hrp & Hf & Hrf & Hcf & Hfp & Hfo & Hfolder).
  pose proof (slot_Some _ _ _ Hrf) as [Hf0 _].
  apply bind_Ret in Hrun as (f' & s & Hstep & Hrun).
  apply on_readers_Ret in Hstep as (rb & Hstep & ->).
  rewrite (get_next_spec _ _ _ _ _ Hinv4) in Hstep.
  inversion Hstep; subst f' rb. clear Hstep. rewrite set_ring_same in Hrun.
  apply bind_Ret in Hrun as (u6 & w5 & Hstep & Hrun).
  rewrite (on_readers_update _ _ _ _ Hrf) in Hstep.
  inversion Hstep; subst w5. clear Hstep.
  pose proof (ring_at_payload _ _ _ f rf (ReadCount.set_current_top top rf)
                Hinv4 Hrf eq_refl eq_refl) as Hinv5.
  pose proof (slot_set_slot_eq w4 f rf (ReadCount.set_current_top top rf) Hrf)
    as Hrf5.
  set (w5 := set_slot f _ w4) in *.
  apply bind_Ret in Hrun as (u7 & w6 & Hstep & Hrun).
  rewrite (on_readers_update _ _ _ _ Hrf5) in Hstep.
  inversion Hstep; subst w6. clear Hstep.
  pose proof (ring_at_payload _ _ _ f _
                (ReadCount.set_filesize (writer_file_size env top)
                   (ReadCount.set_current_top top rf))
                Hinv5 Hrf5 eq_refl eq_refl) as Hinv6.
  pose proof (slot_set_slot_eq w5 f _
                (ReadCount.set_filesize (writer_file_size env top)
                   (ReadCount.set_current_top top rf)) Hrf5) as Hrf6.
  set (w6 := set_slot f _ w5) in *.
  apply bind_Ret in Hrun as (u8 & w7 & Hstep & Hrun).
  rewrite (on_readers_update _ _ _ _ Hrf6) in Hstep.
  inversion Hstep; subst w7. clear Hstep.
  set (rf7 := ReadCount.set_version nv
                (ReadCount.set_filesize (writer_file_size env top)
                   (ReadCount.set_current_top top rf))) in *.
  pose proof (ring_at_payload _ _ _ f _ rf7 Hinv6 Hrf6 eq_refl eq_refl) as Hinv7.
  pose proof (slot_set_slot_eq w6 f _ rf7 Hrf6) as Hrf7.
  set (w7 := set_slot f rf7 w6) in *.
  apply bind_Ret in Hrun as (u9 & w8 & Hstep & Hrun).
  apply on_readers_Ret in Hstep as (rb8 & Hstep & ->).
  assert (Hinv7' : Ringbuffer.ring_at (ring w7) (drop k older) (f :: free2))
    by exact Hinv7.
  destruct (use_next_spec (assertions env) (ring w7) _ _ _ Hinv7') as
    (rf' & Hrf' & Huse & Hinv8).
  rewrite Huse in Hstep. inversion Hstep; subst rb8. clear Hstep Huse.
  assert (rf' = rf7) as -> by congruence.
  (* leave the critical phase and update the counters *)
  apply bind_Ret in Hrun as (u10 & w9 & Hstep & Hrun).
  rewrite on_info_modify_run in Hstep. inversion Hstep; subst w9. clear Hstep.
  apply with_controlmutex_Ret in Hrun as (_ & w10 & Hrun & ->).
  apply bind_Ret in Hrun as (u11 & w11 & Hstep & Hrun).
  rewrite on_info_modify_run in Hstep. inversion Hstep; subst w11. clear Hstep.
  rewrite on_info_modify_run in Hrun. inversion Hrun; subst w10. clear Hrun.
  split; [exact Hlock4|].
  intros i r Hi Hr Hcount.
  pose proof (Hframe1 i r Hr Hcount) as Hr1.
  assert (Hrange : 0 <= i < Ringbuffer.entries rb1).
  { rewrite He1. apply (ring_range _ _ _ _ H). by apply in_live_ring. }
  destruct (Hframe4 i r Hrange Hr1) as (r' & Hr' & Hsnap).
  destruct (Ringbuffer.ring_live _ _ _ H i r Hi Hr) as [Hlive _].
  assert (Hif : i <> f).
  { intros ->. assert (r' = rf) as -> by congruence.
    destruct Hsnap as (_ & _ & _ & Hcr).
    unfold Ringbuffer.is_live in Hlive. rewrite <- Hcr, Hcf in Hlive. done. }
  split; [exact Hif|].
  exists r'. split; [|exact Hsnap].
  simpl. pose proof (slot_Some _ _ _ Hr') as [Hi0 _].
  rewrite !slot_insert_ne by done. exact Hr'.
Qed.

Lemma release_read_lock_ring l w w' :
  release_read_lock l w = Ret tt w' ->
  exists r0,
    Ringbuffer.slot (Ringbuffer.data (ring w)) (m_reader_idx l) = Some r0 /\
    ring w' =
      Ringbuffer.set_data
        (<[Z.to_nat (m_reader_idx l) :=
             ReadCount.set_count (atomic_double_dec (ReadCount.count r0)) r0]>
           (Ringbuffer.data (ring w))) (ring w).
Proof.
  unfold release_read_lock. intros Hrun%noexcept_Ret.
  apply bind_Ret in Hrun as (b & wg & Hstep & Hrun).
  destruct (grow_reader_mapping_spec w (m_reader_idx l))
    as (b' & wg' & Hg & Hsame & _).
  rewrite Hg in Hstep. inversion Hstep; subst b' wg'. clear Hstep Hg.
  pose proof (same_but_mapping_ring _ _ Hsame) as Hring.
  apply bind_Ret in Hrun as (r & s & Hstep & Hrun).
  apply on_readers_Ret in Hstep as (rb & Hstep & ->).
  unfold Ringbuffer.get in Hstep.
  destruct (Ringbuffer.slot (Ringbuffer.data (ring wg)) (m_reader_idx l))
    as [r0|] eqn:Hr0; [|done].
  inversion Hstep; subst r0 rb. clear Hstep. rewrite set_ring_same in Hrun.
  rewrite (on_readers_update _ _ _ _ Hr0) in Hrun. inversion Hrun; subst w'.
  exists r. rewrite <- Hring. split; [exact Hr0|reflexivity].
Qed.

(** X19.  A commit does not take a snapshot away from a reader.  On a
    session whose ring satisfies the ring invariant and has room to grow by
    32 slots within 32 bits, let slot [i] be live and held by a reader (its
    count is not 0) when [commit] is called.  Whenever [commit] returns,
    slot [i] still holds the same version, top ref and file size, and the
    new snapshot was written to another slot.  Its count is unchanged too,
    unless it is the slot the committing transaction was bound to: that
    slot's count went down by 2 (in 32-bit arithmetic), the writer's own
    pin. *)
Theorem commit_keeps_pinned_snapshots (w w' : World) (new_version : Z)
    (older free : list Z) (i : Z) (r : ReadCount.t) :
  ring_at_world w older free ->
  Ringbuffer.entries (ring w) + 32 < 2 ^ 32 ->
  commit env w = Ret new_version w' ->
  i ∈ older ++ [Ringbuffer.put_pos (ring w)] ->
  Ringbuffer.slot (Ringbuffer.data (ring w)) i = Some r ->
  ReadCount.count r <> 0 ->
  i <> Ringbuffer.put_pos (ring w') /\
  exists r',
    Ringbuffer.slot (Ringbuffer.data (ring w')) i = Some r' /\
    ReadCount.version r' = ReadCount.version r /\
    ReadCount.current_top r' = ReadCount.current_top r /\
    ReadCount.filesize r' = ReadCount.filesize r /\
    (i <> m_reader_idx (m_read_lock (sg w)) ->
       ReadCount.count r' = ReadCount.count r) /\
    (i = m_reader_idx (m_read_lock (sg w)) ->
       ReadCount.count r' = atomic_double_dec (ReadCount.count r)).
Proof.
  intros H Hbound Hrun Hi Hr Hcount. unfold commit in Hrun.
  apply bind_Ret in Hrun as (wc & s & Hstep & Hrun).
  inversion Hstep; subst wc s. clear Hstep.
  destruct (negb (stage_eqb (m_transact_stage (sg w)) transact_Writing));
    [done|].
  apply bind_Ret in Hrun as (u & s & Hstep & Hrun).
  apply REALM_ASSERT_Ret in Hstep as [-> _].
  apply bind_Ret in Hrun as (nv & w1 & Hstep & Hrun).
  apply do_commit_Ret in Hstep as (_ & _ & _ & _ & Hllc).
  destruct (low_level_commit_frame w w1 nv older free H Hbound Hllc)
    as [Hlock Hframe].
  destruct (Hframe i r Hi Hr Hcount) as (Hnew & r1 & Hr1 & Hv & Ht & Hf & Hc).
  apply bind_Ret in Hrun as (u1 & w2 & Hstep & Hrun).
  apply noexcept_Ret in Hstep. unfold unlock in Hstep.
  rewrite on_info_modify_run in Hstep. inversion Hstep; subst w2. clear Hstep.
  apply bind_Ret in Hrun as ([] & w3 & Hstep & Hrun).
  unfold do_end_read in Hstep. apply noexcept_Ret in Hstep.
  apply bind_Ret in Hstep as (wc & s & Hget & Hstep).
  inversion Hget; subst wc s. clear Hget.
  apply bind_Ret in Hstep as (u2 & s & Hassert & Hstep).
  apply REALM_ASSERT_Ret in Hassert as [-> _].
  apply bind_Ret in Hstep as ([] & w2 & Hrel & Hstep).
  rewrite on_sg_run in Hstep. inversion Hstep; subst w3. clear Hstep.
  apply release_read_lock_ring in Hrel as (r0 & Hr0 & Hring2).
  apply bind_Ret in Hrun as (u3 & w4 & Hstep & Hrun).
  rewrite on_sg_run in Hstep. inversion Hstep; subst w4. clear Hstep.
  injection Hrun as _ Hw'. subst w'.
  change (ring (set_sg _ (set_sg _ w2))) with (ring w2). rewrite Hring2.
  change (sg (set_info _ w1)) with (sg w1) in *.
  change (ring (set_info _ w1)) with (ring w1) in *.
  rewrite Hlock in *.
  split; [exact Hnew|].
  cbn [Ringbuffer.data Ringbuffer.set_data].
  pose proof (slot_Some _ _ _ Hr0) as [Hidx _].
  destruct (decide (i = m_reader_idx (m_read_lock (sg w)))) as [->|Hne].
  - assert (r0 = r1) as -> by congruence.
    eexists. split; [by eapply slot_insert_eq|].
    cbn [ReadCount.version ReadCount.current_top ReadCount.filesize ReadCount.count
         ReadCount.set_count].
    split_and!; try done. intros _. by rewrite Hc.
  - exists r1. split; [by rewrite slot_insert_ne|].
    split_and!; try done.
Qed.

End PinnedSnapshots.
(** ** Leaving a session inside a transaction *)

Section CloseInTransaction.
Import SharedGroup.

Variable env : Collaborators.

(** [close] once the open transaction, if any, has been ended. *)
Lemma close_after w w1 :
  is_attached w = true ->
  match m_transact_stage (sg w) with
  | transact_Ready => ret tt
  | transact_Reading => end_read env
  | transact_Writing => rollback env
  end w = Ret tt w1 ->
  SharedInfo.shared_controlmutex (info w1) = false ->
  exists w',
    close env w = Ret tt w' /\
    sg w' =
      set_m_file_locked false
        (set_m_file_map_attached false
           (set_m_alloc_attached false
              (set_m_transact_stage transact_Ready
                 (set_m_group_attached false (sg w1))))) /\
    info w' =
      SharedInfo.set_num_participants
        (wrap32 (SharedInfo.num_participants (info w1) - 1)) (info w1) /\
    lockfile_size w' = lockfile_size w1 /\
    fs_log w' =
      (if (wrap32 (SharedInfo.num_participants (info w1) - 1) =? 0)
          && (SharedInfo.durability (info w1) =? durability_code MemOnly)
       then fs_log w1 ++ [fs_remove (m_db_path (sg w1))]
       else fs_log w1) /\
    other_lockers w' = other_lockers w1.
Proof.
  intros Hatt Hend Hctl.
  unfold close, noexcept, bind at 1, get_state at 1. rewrite Hatt.
  change (negb true) with false. cbv iota.
  unfold bind at 1. rewrite Hend.
  unfold bind at 1. rewrite on_sg_run.
  unfold bind at 1. rewrite on_sg_run.
  unfold bind at 1, with_controlmutex, bind at 1, lock, bind at 1, get_state at 1.
  change (SharedInfo.shared_controlmutex (info (set_sg _ (set_sg _ w1))))
    with (SharedInfo.shared_controlmutex (info w1)).
  rewrite Hctl, on_info_modify_run.
  unfold finally, bind at 1. rewrite on_sg_run.
  unfold bind at 1, get_state at 1. unfold bind at 1.
  rewrite on_info_modify_run.
  cbn [info set_info set_sg SharedInfo.num_participants SharedInfo.durability
       SharedInfo.set_shared_controlmutex SharedInfo.set_num_participants].
  assert (Hinfo : forall n,
    SharedInfo.set_shared_controlmutex false
      (SharedInfo.set_num_participants n
         (SharedInfo.set_shared_controlmutex true (info w1))) =
    SharedInfo.set_num_participants n (info w1)).
  { intros n. destruct (info w1). cbn in *. by subst. }
  destruct (wrap32 (SharedInfo.num_participants (info w1) - 1) =? 0);
    [destruct (SharedInfo.durability (info w1) =? durability_code MemOnly)|];
    simpl; (eexists; split; [reflexivity|]; split_and!; try done; apply Hinfo).
Qed.

Lemma do_end_read_mapped w r :
  Ringbuffer.slot (Ringbuffer.data (ring w)) (m_reader_idx (m_read_lock (sg w))) =
    Some r ->
  m_reader_idx (m_read_lock (sg w)) < m_local_max_entry (sg w) ->
  m_version (m_read_lock (sg w)) <> max_version ->
  do_end_read env w =
    Ret tt (set_sg (set_m_group_attached false (sg w))
              (set_slot (m_reader_idx (m_read_lock (sg w)))
                 (ReadCount.set_count (atomic_double_dec (ReadCount.count r)) r) w)).
Proof.
  intros Hr Hmapped Hmv.
  unfold do_end_read, noexcept, bind at 1, get_state at 1.
  unfold bind at 1.
  destruct (Z.eqb_spec (m_version (m_read_lock (sg w))) max_version) as [Heq|_];
    [done|].
  change (negb false) with true. rewrite REALM_ASSERT_holds.
  unfold bind at 1.
  rewrite (release_read_lock_mapped _ _ r Hmapped Hr).
  by rewrite on_sg_run.
Qed.

(** X20.  [close] inside a transaction ends it first.  Let an attached
    participant be in Reading or Writing, with a lock that names a slot of
    the ring within its mapping and a version other than the LATEST marker,
    and let the control mutex be available.  Then [close] returns: the pin
    on its slot is given back (the count is [atomic_double_dec] of what it
    was and no other slot changes), a writer's write mutex is released, the
    participant is detached and in Ready, and [num_participants] is one
    lower (in 32-bit arithmetic).  The database file is removed exactly
    when this was the last participant of a MemOnly session. *)
Theorem close_ends_transaction (w : World) (r : ReadCount.t) :
  let idx := m_reader_idx (m_read_lock (sg w)) in
  is_attached w = true ->
  m_transact_stage (sg w) <> transact_Ready ->
  SharedInfo.shared_controlmutex (info w) = false ->
  Ringbuffer.slot (Ringbuffer.data (ring w)) idx = Some r ->
  idx < m_local_max_entry (sg w) ->
  m_version (m_read_lock (sg w)) <> max_version ->
  exists w',
    close env w = Ret tt w' /\
    is_attached w' = false /\
    m_transact_stage (sg w') = transact_Ready /\
    m_group_attached (sg w') = false /\
    ring w' =
      Ringbuffer.set_data
        (<[Z.to_nat idx :=
             ReadCount.set_count (atomic_double_dec (ReadCount.count r)) r]>
           (Ringbuffer.data (ring w))) (ring w) /\
    SharedInfo.shared_writemutex (info w') =
      (if stage_eqb (m_transact_stage (sg w)) transact_Writing then false
       else SharedInfo.shared_writemutex (info w)) /\
    SharedInfo.num_participants (info w') =
      wrap32 (SharedInfo.num_participants (info w) - 1) /\
    SharedInfo.shared_controlmutex (info w') = false /\
    fs_log w' =
      (if (wrap32 (SharedInfo.num_participants (info w) - 1) =? 0)
          && (SharedInfo.durability (info w) =? durability_code MemOnly)
       then fs_log w ++ [fs_remove (m_db_path (sg w))]
       else fs_log w).
Proof.
  intros idx Hatt Hstage Hctl Hr Hmapped Hmv.
  destruct (m_transact_stage (sg w)) eqn:Hs; [done| |].
  - (* Reading *)
    destruct (close_after w
                (set_sg (set_m_transact_stage transact_Ready
                           (set_m_group_attached false (sg w)))
                   (set_slot idx
                      (ReadCount.set_count (atomic_double_dec (ReadCount.count r)) r)
                      w)))
      as (w' & Hrun & Hsg & Hinfo & _ & Hlog & _).
    + exact Hatt.
    + rewrite Hs. unfold end_read, noexcept, bind at 1, get_state at 1.
      rewrite Hs.
      change (stage_eqb transact_Reading transact_Ready) with false.
      change (negb (stage_eqb transact_Reading transact_Reading)) with false.
      cbv iota. unfold bind at 1.
      rewrite (do_end_read_mapped w r Hr Hmapped Hmv).
      by rewrite on_sg_run.
    + exact Hctl.
    + exists w'. split; [exact Hrun|].
      unfold is_attached, ring. rewrite Hsg, Hinfo, Hlog.
      split_and!; reflexivity || exact Hctl.
  - (* Writing *)
    set (wu := set_info (SharedInfo.set_shared_writemutex false (info w)) w).
    destruct (close_after w
                (set_sg (set_m_transact_stage transact_Ready
                           (set_m_group_attached false (sg wu)))
                   (set_slot idx
                      (ReadCount.set_count (atomic_double_dec (ReadCount.count r)) r)
                      wu)))
      as (w' & Hrun & Hsg & Hinfo & _ & Hlog & _).
    + exact Hatt.
    + rewrite Hs. unfold rollback, noexcept, bind at 1, get_state at 1.
      rewrite Hs.
      change (stage_eqb transact_Writing transact_Ready) with false.
      change (negb (stage_eqb transact_Writing transact_Writing)) with false.
      cbv iota. unfold bind at 1, do_end_write, noexcept, unlock.
      rewrite on_info_modify_run. fold wu.
      unfold bind at 1.
      rewrite (do_end_read_mapped wu r Hr Hmapped Hmv).
      by rewrite on_sg_run.
    + exact Hctl.
    + exists w'. split; [exact Hrun|].
      unfold is_attached, ring. rewrite Hsg, Hinfo, Hlog.
      split_and!; reflexivity || exact Hctl.
Qed.

End CloseInTransaction.
(** ** Compacting as the only participant *)

Section CompactAlone.
Import SharedGroup.

Variable env : Collaborators.

Lemma begin_read_mapped n w r :
  m_transact_stage (sg w) = transact_Ready ->
  Ringbuffer.put_pos (ring w) < m_local_max_entry (sg w) ->
  Ringbuffer.slot (Ringbuffer.data (ring w)) (Ringbuffer.put_pos (ring w)) = Some r ->
  Ringbuffer.is_live r = true ->
  attach_shared env (ReadCount.current_top r) (ReadCount.filesize r) false = true ->
  begin_read env (S n) VersionID_latest w =
    Ret tt (set_sg (set_m_transact_stage transact_Reading
                      (set_m_group_attached true
                         (set_m_read_lock (lock_on (Ringbuffer.put_pos (ring w)) r)
                            (sg w))))
              (set_slot (Ringbuffer.put_pos (ring w)) (pinned r) w)).
Proof.
  intros Hstage Hmapped Hr Hlive Hattach.
  unfold begin_read, bind at 1, get_state at 1. rewrite Hstage.
  change (negb (stage_eqb transact_Ready transact_Ready)) with false. cbv iota.
  unfold bind at 1, do_begin_read, bind at 1.
  unfold grab_own_read_lock, zoom, grab_read_lock.
  change (version VersionID_latest =? max_version) with true. cbv iota.
  rewrite (grab_latest_pins n _ w r Hmapped Hr Hlive).
  unfold bind at 1, get_state at 1.
  cbn [fst snd sg set_sg m_read_lock set_m_read_lock lock_on m_top_ref m_file_size].
  rewrite Hattach, on_sg_run, on_sg_run. reflexivity.
Qed.

Lemma log_run e w : log e w = Ret tt (set_fs_log (fs_log w ++ [e]) w).
Proof. reflexivity. Qed.

(** X21.  [compact] by the only participant (on a platform other than
    Windows).  Let the participant be attached and in Ready, the control
    mutex available and [num_participants] be 1; let the slot at [put_pos]
    be live, within the participant's mapping, and hold
    [latest_version_number] (which is not the LATEST marker); let the group
    attach and [Group::write] succeed.  Then [compact] writes the group to
    the temporary file, renames it over the database file, leaves the
    session and calls [do_open] again (with [no_create_file], the session's
    durability, the participant's key and no format upgrade) in the state
    described here: the participant is detached and in Ready, the pin taken
    to read the latest snapshot is given back, the header is the one found
    with [num_participants] at 0, and the file log grew by the removal of a
    stale temporary file, its creation, the write of the latest version, a
    sync unless disabled, and the rename.  On a MemOnly session the [close]
    inside [compact] then removes the database file, the one just written,
    before [do_open] runs. *)
Theorem compact_alone_rewrites_and_reopens (fuel : nat) (w : World)
    (r : ReadCount.t) :
  let path := m_db_path (sg w) in
  let tmp := (path ++ ".tmp_compaction_space")%string in
  let options :=
    {| opt_durability := SharedInfo.durability (info w);
       encryption_key := m_key (sg w);
       allow_file_format_upgrade := false |} in
  (1 <= fuel)%nat ->
  is_attached w = true ->
  m_transact_stage (sg w) = transact_Ready ->
  SharedInfo.shared_controlmutex (info w) = false ->
  SharedInfo.num_participants (info w) = 1 ->
  Ringbuffer.slot (Ringbuffer.data (ring w)) (Ringbuffer.put_pos (ring w)) = Some r ->
  Ringbuffer.is_live r = true ->
  is_u32 (ReadCount.count r) ->
  Ringbuffer.put_pos (ring w) < m_local_max_entry (sg w) ->
  ReadCount.version r = SharedInfo.latest_version_number (info w) ->
  ReadCount.version r <> max_version ->
  attach_shared env (ReadCount.current_top r) (ReadCount.filesize r) false = true ->
  group_write_ok env = true ->
  exists wc,
    compact env fuel w = (do_open env fuel path true options ;;; ret true) wc /\
    is_attached wc = false /\
    m_transact_stage (sg wc) = transact_Ready /\
    m_db_path (sg wc) = path /\
    info wc = SharedInfo.set_num_participants 0 (info w) /\
    lockfile_size wc = lockfile_size w /\
    other_lockers wc = other_lockers w /\
    fs_log wc =
      fs_log w
      ++ [fs_try_remove tmp; fs_create tmp;
          fs_write_group tmp (SharedInfo.latest_version_number (info w))]
      ++ (if disable_sync_to_disk env then [] else [fs_sync tmp])
      ++ [fs_move tmp path]
      ++ (if SharedInfo.durability (info w) =? durability_code MemOnly
          then [fs_remove path] else []).
Proof.
  intros path tmp options Hfuel Hatt Hstage Hctl Hone Hr Hlive Hu32 Hmapped Hver
    Hmax Hattach Hwrite.
  destruct fuel as [|n]; [lia|].
  set (pp := Ringbuffer.put_pos (ring w)) in *.
  set (wl := set_info (SharedInfo.set_shared_controlmutex true (info w)) w).
  set (log1 := fs_log w ++ [fs_try_remove tmp]).
  set (w1 := set_fs_log log1 wl).
  assert (Hbegin := begin_read_mapped n w1 r Hstage Hmapped Hr Hlive Hattach).
  change (Ringbuffer.put_pos (ring w1)) with pp in Hbegin.
  match type of Hbegin with _ = Ret _ ?x => set (w2 := x) in Hbegin end.
  set (log2 := (log1 ++ [fs_create tmp])
                ++ [fs_write_group tmp (SharedInfo.latest_version_number (info w))]).
  set (log3 := if disable_sync_to_disk env then log2 else log2 ++ [fs_sync tmp]).
  set (w3 := set_fs_log (log3 ++ [fs_move tmp path]) w2).
  assert (Hr3 : Ringbuffer.slot (Ringbuffer.data (ring w3))
                  (m_reader_idx (m_read_lock (sg w3))) = Some (pinned r))
    by (by apply (slot_set_slot_eq w pp r)).
  assert (Hend : end_read env w3 =
            Ret tt (set_sg (set_m_transact_stage transact_Ready
                              (set_m_group_attached false (sg w3)))
                      (set_slot pp r w3))).
  { unfold end_read, noexcept, bind at 1, get_state at 1.
    change (m_transact_stage (sg w3)) with transact_Reading.
    change (stage_eqb transact_Reading transact_Ready) with false.
    change (negb (stage_eqb transact_Reading transact_Reading)) with false.
    cbv iota. unfold bind at 1.
    rewrite (do_end_read_mapped env w3 (pinned r) Hr3 Hmapped Hmax).
    rewrite unpin_pinned by done. by rewrite on_sg_run. }
  assert (Hblock :
    (w1 <- get_state ;;
      if SharedInfo.num_participants (info w1) >? 1 then ret None
      else
        log (fs_try_remove tmp) ;;;
        begin_read env (S n) VersionID_latest ;;;
        log (fs_create tmp) ;;;
        must (group_write_ok env) "Group::write" ;;;
        log (fs_write_group tmp (SharedInfo.latest_version_number (info w1))) ;;;
        (if negb (disable_sync_to_disk env) then log (fs_sync tmp) else ret tt) ;;;
        log (fs_move tmp (m_db_path (sg w))) ;;;
        rc <- on_readers Ringbuffer.get_last ;;
        REALM_ASSERT (assertions env)
          (ReadCount.version rc =? SharedInfo.latest_version_number (info w1)) ;;;
        end_read env ;;;
        on_sg (set_m_alloc_attached false) ;;;
        ret (Some (SharedInfo.durability (info w1)))) wl =
    Ret (Some (SharedInfo.durability (info w)))
      (set_sg (set_m_alloc_attached false
                 (set_m_transact_stage transact_Ready
                    (set_m_group_attached false (sg w3))))
         (set_slot pp r w3))).
  { unfold bind at 1, get_state at 1.
    change (SharedInfo.num_participants (info wl))
      with (SharedInfo.num_participants (info w)).
    rewrite Hone. change (1 >? 1) with false. cbv iota.
    unfold bind at 1. rewrite log_run. change (set_fs_log _ wl) with w1.
    unfold bind at 1. rewrite Hbegin.
    unfold bind at 1. rewrite log_run.
    unfold bind at 1. rewrite Hwrite. unfold must, ret at 1.
    unfold bind at 1. rewrite log_run.
    change (set_fs_log _ (set_fs_log _ w2)) with (set_fs_log log2 w2).
    unfold bind at 1.
    assert (Hsync : (if negb (disable_sync_to_disk env) then log (fs_sync tmp)
                     else ret tt) (set_fs_log log2 w2) =
                    Ret tt (set_fs_log log3 w2)).
    { unfold log3. destruct (disable_sync_to_disk env); reflexivity. }
    rewrite Hsync.
    unfold bind at 1. rewrite log_run.
    change (set_fs_log _ (set_fs_log log3 w2)) with w3.
    unfold bind at 1.
    rewrite on_readers_run.
    unfold Ringbuffer.get_last, bind at 1, Ringbuffer.last, bind at 1, get_state at 1.
    unfold ret at 1.
    change (Ringbuffer.put_pos (ring w3)) with pp.
    rewrite (get_ok (ring w3) pp (pinned r) Hr3). rewrite set_ring_same.
    unfold bind at 1.
    change (ReadCount.version (pinned r)) with (ReadCount.version r).
    change (SharedInfo.latest_version_number (info wl))
      with (SharedInfo.latest_version_number (info w)).
    rewrite Hver, Z.eqb_refl, REALM_ASSERT_holds.
    unfold bind at 1. rewrite Hend.
    unfold bind at 1. rewrite on_sg_run. reflexivity. }
  match type of Hblock with _ = Ret _ ?x => set (wb := x) in Hblock end.
  set (w4 := set_info (SharedInfo.set_shared_controlmutex false (info wb)) wb).
  assert (Hinfo4 : info w4 = info w).
  { unfold w4, wb, w3, w2, w1, wl, set_slot, set_ring, ring.
    cbn [info set_info set_sg set_fs_log SharedInfo.readers SharedInfo.set_readers
         SharedInfo.set_shared_controlmutex Ringbuffer.data Ringbuffer.set_data].
    pose proof Hr as Hr'. apply slot_Some in Hr' as [_ Hr'].
    unfold ring in Hr'.
    rewrite list_insert_insert_eq, list_insert_id by exact Hr'.
    destruct (info w) as [? ? ? ? ? ? ? ? ? ? ? ? ? ? ? ? ? cm rb].
    cbn in Hctl |- *. subst cm. by destruct rb. }
  destruct (close_after env w4 w4) as (wc & Hclose & Hsg & Hinfo & Hlf & Hlog & Hol).
  { exact Hatt. }
  { change (m_transact_stage (sg w4)) with transact_Ready. reflexivity. }
  { reflexivity. }
  exists wc. split.
  { unfold compact, bind at 1, get_state at 1. rewrite Hatt, Hstage.
    change (negb true) with false.
    change (negb (stage_eqb transact_Ready transact_Ready)) with false.
    cbv iota. cbv zeta. unfold bind at 1.
    erewrite with_controlmutex_returns; [| exact Hctl | exact Hblock].
    fold w4. unfold bind at 1. rewrite Hclose. reflexivity. }
  rewrite Hinfo4 in Hinfo, Hlog. rewrite Hone in Hinfo, Hlog.
  change (wrap32 (1 - 1)) with 0 in Hinfo, Hlog.
  change (0 =? 0) with true in Hlog. rewrite andb_true_l in Hlog.
  unfold is_attached. rewrite Hsg, Hinfo, Hlf, Hlog, Hol.
  split_and!; try reflexivity.
  change (fs_log w4) with (log3 ++ [fs_move tmp path]).
  change (m_db_path (sg w4)) with path.
  unfold log3, log2, log1.
  destruct (disable_sync_to_disk env),
    (SharedInfo.durability (info w) =? durability_code MemOnly);
    rewrite <- ?app_assoc; reflexivity.
Qed.

End CompactAlone.
(** ** The history type of a new session *)

Section HistoryType.
Import SharedGroup.

Variable env : Collaborators.

(** What [good_history_type] accepts: a database without history, or with
    the history type asked for; a Sync history is only started on an empty
    database, and an OutOfRealm history is never found inside one. *)
Lemma good_history_type_accepts history_type stored top_ref :
  good_history_type history_type stored top_ref = true ->
  (stored = hist_None \/ stored = history_type) /\
  stored <> hist_OutOfRealm /\
  (history_type = hist_Sync -> stored = hist_None -> top_ref = 0).
Proof.
  unfold good_history_type, hist_None, hist_OutOfRealm, hist_InRealm, hist_Sync.
  intros Hgood.
  repeat match type of Hgood with
         | context [?a =? ?b] => destruct (Z.eqb_spec a b); subst
         end; simpl in Hgood; try discriminate; split_and!; auto; lia.
Qed.

(** [join_session] by the first participant on a database whose history
    cannot be continued. *)
Lemma join_session_bad_history n no_create options hist w top_ref :
  SharedInfo.shared_controlmutex (info w) = false ->
  SharedInfo.num_participants (info w) = 0 ->
  attach_file env true = attached top_ref ->
  good_history_type hist (stored_history_type env) top_ref = false ->
  join_session env (S n) no_create options hist w =
    Throw (InvalidDatabase "Bad or incompatible history type")
      (set_sg (set_m_file_format_version (stored_file_format_version env)
                 (set_m_alloc_attached true
                    (set_m_local_max_entry (Ringbuffer.entries (ring w)) (sg w))))
         w).
Proof.
  intros Hctl Hnone Hattach Hgood.
  unfold join_session.
  erewrite with_controlmutex_throws; [| exact Hctl | ]; cycle 1.
  { unfold bind at 1. rewrite on_readers_num_entries.
    unfold bind at 1. rewrite on_sg_run.
    unfold bind at 1, get_state at 1.
    cbn [info set_sg set_info sg SharedInfo.num_participants
         SharedInfo.set_shared_controlmutex].
    rewrite Hnone. change (0 =? 0) with true. rewrite Hattach.
    unfold bind at 1. rewrite on_sg_run. unfold bind at 1. rewrite on_sg_run.
    cbv zeta. cbv iota. rewrite Hgood. cbn [negb].
    reflexivity. }
  f_equal.
  destruct w as [g sz i o l]. cbn in Hctl |- *. destruct i. cbn in Hctl |- *.
  by subst.
Qed.

(** X22.  A new session is refused on a database with another history.
    Let the participant be not attached yet, nobody else hold the lock
    file, the requested durability be one the
    build supports, the sizes of the mutex and of the condition variable
    fit in a byte, the control mutex be valid and the database file be
    attachable.  When the stored history type is neither None nor the one
    asked for, or is OutOfRealm, or when a Sync history is asked for on a
    database without history that is not empty (its top ref is not 0),
    [do_open] throws [InvalidDatabase].  The participant is left detached
    and without file lock; the lock file stays initialised
    ([init_complete] is 1) with no participant registered and the control
    mutex free, and nothing is logged. *)
Theorem do_open_rejects_history_mismatch (fuel : nat) (path : string)
    (no_create : bool) (options : SharedGroupOptions) (w : World) (top_ref : Z) :
  let hist := match replication env with
              | Some repl => get_history_type repl
              | None => hist_None
              end in
  (1 <= fuel)%nat ->
  is_attached w = false ->
  negb (async_daemon env) && (opt_durability options =? durability_code Async) = false ->
  other_lockers w = 0 ->
  0 < sizeof_SharedInfo env ->
  0 <= sizeof_mutex env < 2 ^ 8 ->
  0 <= sizeof_condvar env < 2 ^ 8 ->
  controlmutex_valid env = true ->
  attach_file env true = attached top_ref ->
  (stored_history_type env <> hist_None /\ stored_history_type env <> hist) \/
  stored_history_type env = hist_OutOfRealm \/
  (hist = hist_Sync /\ stored_history_type env = hist_None /\ top_ref <> 0) ->
  exists w',
    do_open env fuel path no_create options w =
      Throw (InvalidDatabase "Bad or incompatible history type") w' /\
    is_attached w' = false /\
    m_file_locked (sg w') = false /\
    m_alloc_attached (sg w') = false /\
    SharedInfo.init_complete (info w') = 1 /\
    SharedInfo.num_participants (info w') = 0 /\
    SharedInfo.shared_controlmutex (info w') = false /\
    lockfile_size w' = sizeof_SharedInfo env /\
    fs_log w' = fs_log w.
Proof.
  intros hist Hfuel Hatt Hasync Halone Hsize Hmutex Hcond Hvalid Hattach Hbad.
  destruct fuel as [|n]; [lia|].
  assert (Hgood : good_history_type hist (stored_history_type env) top_ref = false).
  { destruct (good_history_type hist (stored_history_type env) top_ref) eqn:Hg;
      [|done].
    apply good_history_type_accepts in Hg as (Hcase & Hout & Hsync).
    destruct Hbad as [[Hn Hh] | [Ho | (Hs & Hn & Ht)]]; [|done|].
    - destruct Hcase; done.
    - destruct (Ht (Hsync Hs Hn)). }
  set (w0 := set_sg (set_m_key (encryption_key options)
                       (set_m_db_path path (sg w))) w).
  set (wj := set_sg (set_m_file_map_attached true (set_m_file_locked true (sg w0)))
               (set_info (initial_info env options hist)
                  (set_lockfile_size (sizeof_SharedInfo env) w0))).
  destruct (initial_info_fields env options hist Hmutex Hcond)
    as (_ & _ & _ & Hinit & Hnone & Hctl & _).
  pose proof (join_session_bad_history n no_create options hist wj top_ref
                Hctl Hnone Hattach Hgood) as Hjoin.
  eexists. split.
  - unfold do_open, bind at 1, get_state at 1. rewrite Hatt.
    unfold bind at 1. rewrite REALM_ASSERT_holds.
    unfold bind at 1. rewrite Hasync. unfold ret at 1.
    unfold bind at 1. rewrite on_sg_run. unfold bind at 1. rewrite on_sg_run.
    cbv zeta. fold hist.
    change (set_sg (set_m_key _ _) _) with w0. cbn [do_open_loop].
    unfold bind at 1, bind at 1.
    rewrite (do_open_attempt_initiates env (S n) no_create options hist w0
               Halone Hsize Hmutex Hcond Hvalid).
    fold wj. unfold guarded. rewrite Hjoin.
    unfold leave_lockfile, bind at 1, bind at 1, bind at 1.
    rewrite on_sg_run. unfold bind at 1. rewrite on_sg_run. rewrite on_sg_run.
    reflexivity.
  - unfold is_attached.
    cbn [sg set_sg info lockfile_size fs_log m_file_map_attached m_file_locked
         m_alloc_attached set_m_file_locked set_m_file_map_attached
         set_m_alloc_attached].
    change (info wj) with (initial_info env options hist).
    rewrite Hinit, Hnone, Hctl.
    split_and!; reflexivity.
Qed.

End HistoryType.
(** ** A read transaction on an earlier snapshot *)

Section ReadEarlier.
Import SharedGroup.

Variable env : Collaborators.

(** X23.  [begin_read] on a version other than the latest.  Let the
    participant be in Ready and the token (not the LATEST marker) name a
    slot of the ring, by an index below the ring's number of entries, that
    is live and holds the token's version.  Then [begin_read] pins that
    slot (its count goes up by 2 in 32-bit arithmetic and nothing else in
    the header changes) and, when the group can be attached, returns in
    Reading with the participant's lock naming the slot, its version, top
    ref and file size.  When the group cannot be attached the pin is given
    back before the failure is thrown: the stage is still Ready and the
    session header is the one before the call. *)
Theorem begin_read_specific_version (fuel : nat) (w : World) (v : VersionID)
    (r : ReadCount.t) :
  m_transact_stage (sg w) = transact_Ready ->
  version v <> max_version ->
  (2 <= fuel)%nat ->
  index v < Ringbuffer.entries (ring w) ->
  Ringbuffer.slot (Ringbuffer.data (ring w)) (index v) = Some r ->
  Ringbuffer.is_live r = true ->
  is_u32 (ReadCount.count r) ->
  ReadCount.version r = version v ->
  (attach_shared env (ReadCount.current_top r) (ReadCount.filesize r) false = true ->
   exists w',
     begin_read env fuel v w = Ret tt w' /\
     m_transact_stage (sg w') = transact_Reading /\
     m_group_attached (sg w') = true /\
     m_read_lock (sg w') = lock_on (index v) r /\
     info w' = info (set_slot (index v) (pinned r) w) /\
     fs_log w' = fs_log w) /\
  (attach_shared env (ReadCount.current_top r) (ReadCount.filesize r) false = false ->
   exists w',
     begin_read env fuel v w = Throw (external_failure "attach_shared") w' /\
     m_transact_stage (sg w') = transact_Ready /\
     info w' = info w /\
     fs_log w' = fs_log w).
Proof.
  intros Hstage Hv Hfuel Hidx Hr Hlive Hu32 Hver.
  destruct fuel as [|[|n]]; [lia|lia|].
  destruct (grab_specific_spec (S n) n (m_read_lock (sg w)) w v r Hidx Hr Hlive Hver)
    as (wg & Hsame & Hgrab).
  pose proof (same_but_mapping_ring _ _ Hsame) as Hring.
  set (w1 := set_sg (set_m_read_lock (lock_on (index v) r) (sg wg))
               (set_slot (index v) (pinned r) wg)).
  assert (Hown : grab_own_read_lock (S (S n)) v w = Ret tt w1).
  { unfold grab_own_read_lock, zoom, grab_read_lock.
    destruct (Z.eqb_spec (version v) max_version) as [Heq|_]; [done|].
    by rewrite Hgrab. }
  assert (Hrun : begin_read env (S (S n)) v w =
    ((if attach_shared env (ReadCount.current_top r) (ReadCount.filesize r) false
      then on_sg (set_m_group_attached true)
      else release_read_lock (lock_on (index v) r) ;;;
           throw (external_failure "attach_shared")) ;;;
     on_sg (set_m_transact_stage transact_Reading)) w1).
  { unfold begin_read, bind at 1, get_state at 1. rewrite Hstage.
    change (negb (stage_eqb transact_Ready transact_Ready)) with false. cbv iota.
    unfold bind at 1, do_begin_read, bind at 1. rewrite Hown.
    unfold bind at 1, get_state at 1. reflexivity. }
  destruct Hsame as (Hi & Hl & Ho & Hf & Hs).
  split.
  - intros Hattach. rewrite Hrun, Hattach. eexists. split.
    + unfold bind at 1. rewrite on_sg_run, on_sg_run. reflexivity.
    + split_and!; try reflexivity; [|exact Hf].
      unfold w1, set_slot, set_ring, ring. cbn [info set_info set_sg]. by rewrite Hi.
  - intros Hattach. rewrite Hrun, Hattach.
    assert (Hr1 : Ringbuffer.slot (Ringbuffer.data (ring w1))
                    (m_reader_idx (lock_on (index v) r)) = Some (pinned r)).
    { apply (slot_set_slot_eq wg (index v) r). by rewrite Hring. }
    destruct (release_read_lock_spec (lock_on (index v) r) w1 (pinned r) Hr1)
      as (wg1 & Hsame1 & Hrel).
    destruct Hsame1 as (Hi1 & Hl1 & Ho1 & Hf1 & Hs1).
    eexists. split.
    + unfold bind at 1, bind at 1. rewrite Hrel. reflexivity.
    + rewrite unpin_pinned by done.
      change (m_reader_idx (lock_on (index v) r)) with (index v).
      split; [|split].
      * change (sg (set_slot (index v) r wg1)) with (sg wg1).
        rewrite <- Hs1. cbn. by rewrite <- Hs.
      * apply (info_restored w wg1 (index v) r (pinned r) Hr).
        rewrite Hi1. unfold w1, set_slot, set_ring, ring.
        cbn [info set_info set_sg]. by rewrite Hi.
      * cbn [fs_log set_slot set_ring set_info]. rewrite Hf1. exact Hf.
Qed.

End ReadEarlier.
(** ** The properties above on the concrete sessions *)

Section SessionWitnesses.
Import SharedGroup.

Lemma wait_for_change_release_unblocks_witness :
  wait_for_change world_ready = Ret true world_ready /\
  wait_for_change (set_sg (set_m_wait_for_change_enabled false sg_ready) world_ready) =
    Ret true (set_sg (set_m_wait_for_change_enabled false sg_ready) world_ready).
Proof.
  destruct (wait_for_change_release_unblocks world_ready) as (Hnow & _ & Hreleased & _).
  - reflexivity.
  - split; [apply Hnow; reflexivity | exact Hreleased].
Defined.

Lemma cleanup_idempotent_witness :
  exists rb',
    Ringbuffer.cleanup ring4 = Ret tt rb' /\
    Ringbuffer.cleanup rb' = Ret tt rb'.
Proof.
  destruct (cleanup_idempotent ring4 [0; 1] [3] ring4_inv) as (rb' & H1 & H2 & _).
  exists rb'. split; [exact H1 | exact H2].
Defined.

Lemma grab_read_lock_index_beyond_ring_witness :
  grab_read_lock 2 (mkVersionID 7 9) (m_read_lock sg_ready, world_ready) = Spin /\
  unpin_version (mkVersionID 7 9) world_ready = Undefined.
Proof.
  destruct (grab_read_lock_index_beyond_ring 2 (m_read_lock sg_ready) world_ready
              (mkVersionID 7 9)) as [Hgrab Hunpin].
  - vm_compute. discriminate.
  - vm_compute. discriminate.
  - vm_compute. discriminate.
  - split; [exact Hgrab|]. apply Hunpin. vm_compute. discriminate.
Defined.

Lemma latest_snapshot_version_witness :
  exists w',
    get_version_of_latest_snapshot 2 world_ready = Ret 7 w' /\
    has_changed 2 world_ready = Ret true w' /\
    info w' = info4.
Proof.
  destruct (latest_snapshot_version 2 world_ready (ReadCount.mk 7 700 70 0 3))
    as (w' & Hv & Hc & Hi & _).
  - lia.
  - reflexivity.
  - reflexivity.
  - unfold is_u32. simpl. lia.
  - reflexivity.
  - exists w'. split_and!; [exact Hv | exact Hc | exact Hi].
Defined.

Lemma begin_write_rollback_round_trip_witness :
  exists w1 w2,
    begin_write env0 2 world_ready = Ret tt w1 /\
    m_transact_stage (sg w1) = transact_Writing /\
    rollback env0 w1 = Ret tt w2 /\
    m_transact_stage (sg w2) = transact_Ready /\
    info w2 = info4.
Proof.
  destruct (begin_write_rollback_round_trip env0 2 world_ready [0; 1] [3])
    as (w1 & w2 & Hbegin & Hstage & _ & Hback & Hready & _ & Hinfo & _).
  - reflexivity.
  - reflexivity.
  - reflexivity.
  - reflexivity.
  - exact ring4_inv.
  - reflexivity.
  - intros repl v Hrepl. discriminate Hrepl.
  - intros r Hr. vm_compute in Hr. inversion Hr; subst r. vm_compute. discriminate.
  - lia.
  - exists w1, w2. split_and!; [exact Hbegin | exact Hstage | exact Hback
                               | exact Hready | exact Hinfo].
Defined.

Lemma upgrade_file_format_closes_transaction_witness :
  (exists w2,
     upgrade_file_format env0 2 false 6 world_ready =
       Throw FileFormatUpgradeRequired w2 /\
     m_transact_stage (sg w2) = transact_Ready /\
     info w2 = info4) /\
  (exists w2,
     upgrade_file_format env0 2 true 6 world_ready = Ret tt w2 /\
     m_transact_stage (sg w2) = transact_Ready /\
     SharedInfo.shared_writemutex (info w2) = false /\
     m_file_format_version (sg w2) = 6 /\
     SharedInfo.latest_version_number (info w2) = 8).
Proof.
  split.
  - destruct (upgrade_file_format_closes_transaction env0 2 world_ready [0; 1] [3]
                false 6) as [Hrefused _].
    + reflexivity.
    + reflexivity.
    + reflexivity.
    + reflexivity.
    + exact ring4_inv.
    + reflexivity.
    + intros repl v Hrepl. discriminate Hrepl.
    + intros r Hr. vm_compute in Hr. inversion Hr; subst r. vm_compute. discriminate.
    + lia.
    + simpl. lia.
    + destruct (Hrefused eq_refl eq_refl) as (w2 & Hrun & Hstage & Hinfo & _).
      exists w2. split_and!; [exact Hrun | exact Hstage | exact Hinfo].
  - destruct (upgrade_file_format_closes_transaction env0 2 world_ready [0; 1] [3]
                true 6) as (_ & _ & Hupgraded).
    + reflexivity.
    + reflexivity.
    + reflexivity.
    + reflexivity.
    + exact ring4_inv.
    + reflexivity.
    + intros repl v Hrepl. discriminate Hrepl.
    + intros r Hr. vm_compute in Hr. inversion Hr; subst r. vm_compute. discriminate.
    + lia.
    + simpl. lia.
    + destruct (Hupgraded eq_refl eq_refl eq_refl) with (prev := ReadCount.mk 7 700 70 0 3)
        as (w2 & Hrun & Hstage & Hwm & Hffv & Hlatest & _).
      * discriminate.
      * reflexivity.
      * intros f v Hf. discriminate Hf.
      * intros nv ov. by eexists.
      * reflexivity.
      * simpl. lia.
      * reflexivity.
      * reflexivity.
      * simpl. lia.
      * intros i r Hi Hr. simpl in Hi. elem_cases Hi; subst i;
          vm_compute in Hr; inversion Hr; subst r; simpl; lia.
      * exists w2.
        split_and!; [exact Hrun | exact Hstage | exact Hwm | exact Hffv | exact Hlatest].
Defined.

Lemma pin_version_unpin_round_trip_witness :
  exists w1 w2,
    pin_version env0 2 world_writing = Ret (mkVersionID 7 2) w1 /\
    Ringbuffer.slot (Ringbuffer.data (ring w1)) 2 = Some (ReadCount.mk 7 700 70 4 3) /\
    unpin_version (mkVersionID 7 2) w1 = Ret tt w2 /\
    info w2 = info world_writing.
Proof.
  destruct (pin_version_unpin_round_trip env0 2 world_writing
              (ReadCount.mk 7 700 70 2 3))
    as (w1 & w2 & _ & Hpin & Hslot & _ & Hunpin & Hinfo & _).
  - discriminate.
  - vm_compute. discriminate.
  - reflexivity.
  - reflexivity.
  - unfold is_u32. simpl. lia.
  - reflexivity.
  - reflexivity.
  - lia.
  - exists w1, w2. split_and!; [exact Hpin | exact Hslot | exact Hunpin | exact Hinfo].
Defined.

Lemma commit_and_continue_reads_own_commit_witness :
  commit_and_continue_as_read env0 2 world_writing = Ret 8 world_continued /\
  m_transact_stage (sg world_continued) = transact_Reading /\
  SharedInfo.latest_version_number (info world_continued) = 8 /\
  m_version (m_read_lock (sg world_continued)) = 8.
Proof.
  assert (Hrun : commit_and_continue_as_read env0 2 world_writing =
                 Ret 8 world_continued) by (vm_compute; reflexivity).
  destruct (commit_and_continue_reads_own_commit env0 2 world_writing world_continued
              8 [0; 1] [3] ring4_writing_inv) as (Hstage & _ & Hlatest & _ & Hv & _).
  - vm_compute. reflexivity.
  - exact Hrun.
  - split_and!; [exact Hrun | exact Hstage | exact Hlatest | exact Hv].
Defined.

Lemma do_open_refuses_mixed_options_witness :
  exists w',
    do_open env0 1 "db.realm" false options_memonly world_joinable =
      Throw LogicError_mixed_durability w' /\
    info w' = info4 /\
    is_attached w' = false.
Proof.
  destruct (do_open_refuses_mixed_options env0 1 "db.realm" false options_memonly
              world_joinable 0) as [Hdura _].
  - lia.
  - reflexivity.
  - reflexivity.
  - vm_compute. discriminate.
  - reflexivity.
  - unfold compatible_lockfile. simpl. split_and!; reflexivity || lia.
  - reflexivity.
  - vm_compute. discriminate.
  - reflexivity.
  - destruct Hdura as (w' & Hrun & Hinfo & _ & _ & Hatt & _).
    + vm_compute. discriminate.
    + exists w'. split_and!; [exact Hrun | exact Hinfo | exact Hatt].
Defined.

Lemma do_open_initiates_session_witness :
  exists w',
    do_open env0 1 "db.realm" false options0 world_unlocked = Ret tt w' /\
    SharedInfo.num_participants (info w') = 1 /\
    SharedInfo.commit_in_critical_phase (info w') = 0 /\
    Ringbuffer.slot (Ringbuffer.data (ring w')) 0 = Some (ReadCount.mk 1 0 0 0 1).
Proof.
  destruct (do_open_initiates_session env0 1 "db.realm" false options0
              world_unlocked 0)
    as (w' & Hrun & _ & (_ & _ & Hnum & _ & _ & Hflag & _) & (_ & _ & Hslot) & _).
  - lia.
  - reflexivity.
  - reflexivity.
  - vm_compute. discriminate.
  - reflexivity.
  - simpl. lia.
  - simpl. lia.
  - reflexivity.
  - reflexivity.
  - reflexivity.
  - reflexivity.
  - left. reflexivity.
  - exists w'. split_and!; [exact Hrun | exact Hnum | exact Hflag | exact Hslot].
Defined.

Lemma daemon_exits_when_alone_witness :
  exists w',
    do_async_commits env0 1 lockfile_removed world_ready = Ret tt w' /\
    ring w' = ring4 /\
    SharedInfo.daemon_ready (info w') = 0 /\
    SharedInfo.num_participants (info w') = 2.
Proof.
  destruct (daemon_exits_when_alone env0 1 lockfile_removed world_ready
              (ReadCount.mk 7 700 70 0 3))
    as (w' & Hrun & Hring & _ & Hready & _ & Hnum & _).
  - lia.
  - reflexivity.
  - reflexivity.
  - unfold is_u32. simpl. lia.
  - reflexivity.
  - reflexivity.
  - reflexivity.
  - left. reflexivity.
  - exists w'. split_and!; [exact Hrun | exact Hring | exact Hready | exact Hnum].
Defined.

Lemma do_open_joins_session_witness :
  exists w',
    do_open env0 1 "db.realm" false options0 world_joinable = Ret tt w' /\
    info w' = SharedInfo.set_num_participants 3 info4 /\
    m_version (m_read_lock (sg w')) = 7.
Proof.
  destruct (do_open_joins_session env0 1 "db.realm" false options0 world_joinable
              (ReadCount.mk 7 700 70 0 3) 0)
    as (w' & Hrun & Hinfo & _ & _ & _ & _ & _ & _ & _ & Hv & _).
  - lia.
  - reflexivity.
  - reflexivity.
  - reflexivity.
  - vm_compute. discriminate.
  - reflexivity.
  - unfold compatible_lockfile. simpl. split_and!; reflexivity || lia.
  - reflexivity.
  - vm_compute. discriminate.
  - reflexivity.
  - reflexivity.
  - unfold is_u32. simpl. lia.
  - reflexivity.
  - reflexivity.
  - reflexivity.
  - reflexivity.
  - reflexivity.
  - reflexivity.
  - left. reflexivity.
  - exists w'. split_and!; [exact Hrun | exact Hinfo | exact Hv].
Defined.

Lemma commit_keeps_pinned_snapshots_witness :
  commit env0 world_writing = Ret 8 world_committed /\
  1 <> Ringbuffer.put_pos (ring world_committed) /\
  exists r',
    Ringbuffer.slot (Ringbuffer.data (ring world_committed)) 1 = Some r' /\
    ReadCount.version r' = 6 /\
    ReadCount.count r' = 2.
Proof.
  assert (Hrun : commit env0 world_writing = Ret 8 world_committed)
    by (vm_compute; reflexivity).
  destruct (commit_keeps_pinned_snapshots env0 world_writing world_committed 8
              [0; 1] [3] 1 (ReadCount.mk 6 600 60 2 2))
    as (Hnew & r' & Hr' & Hv & _ & _ & Hc & _).
  - exact ring4_writing_inv.
  - vm_compute. reflexivity.
  - exact Hrun.
  - simpl. right. left.
  - reflexivity.
  - simpl. lia.
  - split; [exact Hrun|]. split; [exact Hnew|].
    exists r'. split_and!; [exact Hr' | exact Hv | ].
    apply Hc. vm_compute. discriminate.
Defined.

Lemma close_ends_transaction_witness :
  exists w',
    close env0 world_writing = Ret tt w' /\
    m_transact_stage (sg w') = transact_Ready /\
    Ringbuffer.slot (Ringbuffer.data (ring w')) 2 = Some (ReadCount.mk 7 700 70 0 3) /\
    SharedInfo.shared_writemutex (info w') = false /\
    SharedInfo.num_participants (info w') = 1.
Proof.
  destruct (close_ends_transaction env0 world_writing (ReadCount.mk 7 700 70 2 3))
    as (w' & Hrun & _ & Hstage & _ & Hring & Hwm & Hnum & _).
  - reflexivity.
  - discriminate.
  - reflexivity.
  - reflexivity.
  - reflexivity.
  - vm_compute. discriminate.
  - exists w'. rewrite Hring.
    split_and!; [exact Hrun | exact Hstage | reflexivity | exact Hwm | exact Hnum].
Defined.

Lemma compact_alone_rewrites_and_reopens_witness :
  exists wc,
    compact env0 1 world_alone =
      (do_open env0 1 "db.realm" true
         {| opt_durability := 0; encryption_key := false;
            allow_file_format_upgrade := false |} ;;; ret true) wc /\
    SharedInfo.num_participants (info wc) = 0 /\
    fs_log wc =
      [fs_try_remove "db.realm.tmp_compaction_space";
       fs_create "db.realm.tmp_compaction_space";
       fs_write_group "db.realm.tmp_compaction_space" 7;
       fs_sync "db.realm.tmp_compaction_space";
       fs_move "db.realm.tmp_compaction_space" "db.realm"].
Proof.
  destruct (compact_alone_rewrites_and_reopens env0 1 world_alone
              (ReadCount.mk 7 700 70 0 3))
    as (wc & Hrun & _ & _ & _ & Hinfo & _ & _ & Hlog).
  - lia.
  - reflexivity.
  - reflexivity.
  - reflexivity.
  - reflexivity.
  - reflexivity.
  - reflexivity.
  - unfold is_u32. simpl. lia.
  - reflexivity.
  - reflexivity.
  - vm_compute. discriminate.
  - reflexivity.
  - reflexivity.
  - exists wc. rewrite Hinfo, Hlog.
    split_and!; [exact Hrun | reflexivity | reflexivity].
Defined.

Lemma do_open_rejects_history_mismatch_witness :
  exists w',
    do_open env_inrealm 1 "db.realm" false options0 world_unlocked =
      Throw (InvalidDatabase "Bad or incompatible history type") w' /\
    is_attached w' = false /\
    SharedInfo.num_participants (info w') = 0.
Proof.
  destruct (do_open_rejects_history_mismatch env_inrealm 1 "db.realm" false options0
              world_unlocked 8192)
    as (w' & Hrun & Hatt & _ & _ & _ & Hnum & _).
  - lia.
  - reflexivity.
  - reflexivity.
  - reflexivity.
  - reflexivity.
  - simpl. lia.
  - simpl. lia.
  - reflexivity.
  - reflexivity.
  - left. split; vm_compute; discriminate.
  - exists w'. split_and!; [exact Hrun | exact Hatt | exact Hnum].
Defined.

Lemma begin_read_specific_version_witness :
  exists w',
    begin_read env0 2 (mkVersionID 6 1) world_ready = Ret tt w' /\
    m_transact_stage (sg w') = transact_Reading /\
    m_read_lock (sg w') = mkReadLockInfo 6 1 60 600.
Proof.
  destruct (begin_read_specific_version env0 2 world_ready (mkVersionID 6 1)
              (ReadCount.mk 6 600 60 2 2)) as [Hbound _].
  - reflexivity.
  - vm_compute. discriminate.
  - lia.
  - reflexivity.
  - reflexivity.
  - reflexivity.
  - unfold is_u32. simpl. lia.
  - reflexivity.
  - destruct (Hbound eq_refl) as (w' & Hrun & Hstage & _ & Hlock & _).
    exists w'. split_and!; [exact Hrun | exact Hstage | exact Hlock].
Defined.

End SessionWitnesses.
